(* ===== verification/_CoqProject ===== *)
-Q . S2P
Prelude.v
Entry.v
Integrity.v
Key.v
Tier.v
Capability.v
Continuity.v
Policy.v
Probe.v
Pool.v
TierTrait.v
FixedTier.v
ShardedTier.v
Stubs.v
Stored.v
Codec.v
Utf8.v
Sled.v
Remote.v
Oxigraph.v
Bootstrap.v
Fault.v
Harness.v
ControlEntry.v
Shard.v
Cachelito.v
Plane.v
Protocol.v
Commit.v
Sweeps.v
Races.v
Telemetry.v
Prog.v
Threads.v
Manager.v
Steps.v
Guarantee.v
Claims.v
ReadYourWrite.v
Reads.v
Moves.v
Populate.v
Stampede.v
Bounded.v
Recovery.v
Refresh.v
Governor.v
Autonomy.v
System.v
Progress.v
Walk.v
Genuine.v
Routing.v
Text.v
Display.v
Testkit.v
Fuzz.v
Contract.v
Gates.v
Printing.v
Registries.v
Citations.v
