(* ===== verification/Prelude.v ===== *)
(** * theSix: a verification library for the cache-orchestration crate

    theSix is a Rust crate that puts one cache in front of an authority. A
    request goes through a _policy_ (where may this operation start and end),
    the _control plane_ (who owns this key, in which generation, on which rung
    does it live) and the _data plane_ (a ladder of cache rungs L0 ... L5
    over the authority, L6). A _governor_ moves entries between rungs and
    re-binds rungs whose backing store came back; _telemetry_ records every
    access. This library models that code definition by definition and proves
    what each part promises to the next one.

    ** The parts, and the files that model them

    Shared vocabulary.
    - [Prelude]: results, [let?], fixed-width integers with their wrap-around
      written out, lists as arrays, the development's tactics and hints.
    - [Entry]: [src/error.rs], [src/entry.rs]. [CacheError], [EntryState],
      [Generation], [CommitToken], [CommitIntent].
    - [Integrity]: [src/integrity.rs]. FNV-1a, digests, key fingerprints.
    - [Key]: [src/key.rs], [src/identity.rs]. Encoding into a caller's buffer,
      tenant framing, principals.
    - [Capability], [Continuity]: [src/capability.rs], [src/continuity.rs].
    - [Tier]: [src/tier/mod.rs] (the registry and its circuit breaker) and the
      data types of [src/tier/trait.rs].
    - [Policy]: [src/policy.rs]. The interface [CachePolicy] is a class; the
      crate's two policies are its instances.
    - [Telemetry]: [src/telemetry.rs].

    The data plane.
    - [Probe]: the open-addressing loop that two components share, once.
    - [Pool]: [src/pool.rs].
    - [TierTrait]: the trait [CacheTier] as a class of operations over a state,
      and [TierLaws], what its clients rely on. [CacheTier_sum] is dynamic
      dispatch between two kinds of tier.
    - [FixedTier]: [src/tier/fixed_tier_stub.rs]; [ShardedTier]:
      [src/tier/sharded_stub.rs]; [Stubs]: [src/tier/l0.rs] ... [l5.rs],
      [hot_rung.rs] and [test.rs], with the instances of the laws. [Stored]:
      which values a tier stores under which fingerprint, an interface they all
      discharge.
    - [Codec], [Sled], [Remote], [Oxigraph]: [src/tier/backends/*]. The store
      behind each (a sled tree, a Redis connection, the application's fetcher,
      a quad store) is third-party code: a parameter, with its documented
      behaviour as a record of laws, and a concrete store in the witnesses.
    - [Fault]: [src/fault.rs]; [Harness]: the wrapping tiers of
      [testkit/src/lib.rs].
    - [Bootstrap]: [src/governor/bootstrap.rs], which rungs are bound and what
      the assembly reports.

    The control plane, bottom up, all of [src/control/cachelito.rs].
    - [ControlEntry]: one entry, its atomics, its snapshot.
    - [Shard]: the table of entries, found by probing.
    - [Cachelito]: every public operation. An operation is written as the
      transition of the entry it addresses, run by one of two combinators for
      the prefix the code repeats (address, shard, lock, find or create).
    - [Plane]: the invariant and the abstraction: a plane is a map from
      addresses to entries.
    - [Protocol]: every operation, the direct stores of a state, a rung or a
      generation among them, as a transition of that map; reachability, runs of
      operations and sweeps, the refinement and the single-flight property.
    - [Commit], [Sweeps], [Races]: two-phase commit, aborts and eviction; the
      aggregate operations; the interleavings the protocol does not exclude.

    The manager and the governor.
    - [Prog]: async programs. A program is a tree of synchronous steps and
      awaits over a shared world; [run] executes it in an environment [Env].
    - [Threads]: any number of programs over one world, scheduled step by step;
      what every program respects, the pool respects.
    - [Manager]: every operation of [src/manager.rs] as such a program.
    - [Steps]: the guarantee, a step relation over the world that every
      operation is proved to respect; [Guarantee]: what follows however the
      callers interleave.
    - [Claims]: no claim is stranded; [ReadYourWrite]: [set] then [get];
      [Reads]: [get] alone, against a straight-line reference definition;
      [Recovery]: what a recovery pass does to every entry,
      and what it leaves; [Refresh]: where the code departs from its
      comments.
    - [Governor]: [src/governor/mod.rs], [src/governor/census.rs], and the loop
      of [src/governor/task.rs]. A handle the governor holds is [Seated] in the
      manager's slot of its rung or, as [Bootstrap] shows, [Unseated].
    - [Moves]: [promote] and [demote] end to end, each move under its own
      context; [Populate]: [get_or_fetch] then [get], and what the fallback
      serves; [Bounded]: how often a request
      may wait; [Autonomy]: what a governor's ticks and the background task of
      [src/governor/task.rs] may do to the shared world.
    - [Stampede]: many callers of one key, which of them populates it, and the
      two entries for which single flight fails; [System]: requests and
      governors running at the same time, with nothing assumed of them;
      [Progress]: in such a system, with the governors' tasks looping for ever,
      a request that keeps getting turns ends and a governor gets through one
      round after the other, both waiting boundedly.
    - [Walk]: one walk through every operation of the manager and the governor
      against an interface, [Keeps], that says what a set of good worlds must
      survive at the leaves. Its instances: [Genuine], a value is served only
      under a fingerprint somebody put it under, and [Routing], every entry
      names a cache rung and the authority rung is never touched.

    The developer tooling, [xtask/src/*.rs].
    - [Text]: the methods of [str] and [char] it and the harness use;
      [Display]: what the crate's [Display] implementations print.
    - [Contract]: the contract file, its validation, a validated contract.
    - [Gates]: gate commands and environments, the two gates the runner decides
      itself, exit codes; a panic of the runner is the result [None].
    - [Printing]: the search path, the line kept of a gate's output, listings.

    The test harness, [testkit/src/*.rs].
    - [Testkit]: contexts, framed keys, ladders and test managers of [lib.rs]
      (its tiers are in [Harness]); [Utf8]: the lossy decoder of the standard
      library and the corruption of texts built on it.
    - [Fuzz]: every target of [fuzz/fuzz_targets/*.rs], as the function or the
      program it runs.
    - [Registries]: the tables of [coverage.rs], which test proves which clause,
      and their comparison with the lists of [theSix.toml]; [Citations]: the
      check that a cited test declares the clause it is cited for.

    ** How the state corresponds

    A record of the model has the fields of its struct under their names with
    a prefix ([ce_state] is [ControlEntry::state]); an enum is an inductive with
    the source's constructors. A [Vec] indexed by slots is a list; an index out
    of range, which Rust would panic on, is excluded by the well-formedness
    invariants ([plane_ok], [ft_wf], [registry_wf], ...), proved to be kept
    by every operation. Integers are [Z] at their width: generations and
    counters wrap or saturate as the code says ([wrap64],
    [sat_sub64], ...). [Instant] and [Duration] are numbers of
    nanoseconds; [SystemTime] is read from the same clock, except in [Sled],
    where the anchor between the two clocks is explicit.

    A critical section of the code (a shard's lock held from one line to
    another) is one step. The fields of an entry that the code keeps in atomics
    are therefore plain fields: every access happens under the shard's lock.

    ** Interference, delays and cancellation

    [Env] fixes what the manager does not control: the clock before each step,
    what other callers do to the world before each step, whether an awaited
    operation finishes before its timeout, how long it takes, and at which
    await, if any, the caller drops the future. Backoff sleeps and [yield_now]
    are pauses. A dropped future runs the armed [Drop] guards, innermost
    first; they are part of each program. Theorems are stated for every
    environment unless they say otherwise: "run alone" means the environment
    changes nothing between two steps, at any pace. In [Threads] the others are
    not an environment but programs themselves: a scheduler picks the next
    one to step, when, and what becomes of what it awaits.

    ** What the theorems show

    - The table is a map (refinement): [control_plane_refines_map]. All
      protocol theorems are stated on what public operations return.
    - The protocol: single flight, two-phase commit, aborts, generations,
      eviction, publishing, releasing, sweeping, recovery. What a theorem allows
      in between is in its statement: [prepared_write_is_invisible_until_commit]
      excludes other writers of the same key, [dead_tokens_stay_dead] a direct
      store of a generation.
    - The manager end to end: a committed write is read back
      ([committed_write_is_read_back]), and so is a populated value
      ([populated_value_is_read_back]); under any interference the authority is
      only read, the invariants hold, other keys are left alone, a caller
      without a principal changes nothing; alone, at any pace and dropped at
      any await, a request strands no claim.
    - Together: a system of requests and governors is safe in every schedule
      ([concurrent_system_is_safe]) and its requests end while its governors go
      on ([concurrent_system_makes_progress]); callers of a key under which
      nothing is committed populate it one at a time
      ([cold_stampede_is_single_flight]);
      what is served somebody put there ([nothing_is_served_out_of_thin_air])
      and nobody is ever sent outside the cache ladder
      ([nothing_leaves_the_ladder]).
    - The tiers: read your write, no cross-key corruption, no leak, detection
      of damage, eviction that makes room, for the fixed table; the same
      contract, with what the code actually guarantees, for the real backends.
    - A read answers on every path what its reference definition answers
      ([get_equals_its_reference]): a rung's answer is never misreported.
    - Moves keep the value; every request ends after boundedly many awaits.
    - The governor: what a plan asks for exactly, that a tick ends within its
      budget (a plan need not keep to it), and that no autonomous action breaks
      an invariant or touches the authority.
    - A log line determines the record it prints, up to the microsecond.
    - The tooling: the validator accepts exactly the well-formed contracts, the
      runner's exit code says what was verified unless it is a dry run, the
      authorship gate is exact up to separators in messages; a citation is checked against precisely the
      clauses a test declares, and the shipped registries agree; no input makes
      a fuzz target fail ([no_input_fails_a_fuzz_target]), and a damaged text is
      another text ([corrupt_string_changes_the_text]).
    - Arithmetic facts that carry the above: tenant framing is injective, a
      key has an address exactly within the 256 bytes of the manager's frame
      ([addresses_are_bounded]), the statistics of a plane add up and stay within
      its capacity, and any single damaged byte changes a digest.
    - The limits: [Races], [Refresh], [degraded_ladder_is_never_rebound],
      [oxigraph_overwrite_keeps_the_old_value],
      [fixed_tier_overwrite_then_remove_resurrects],
      [emptied_entry_is_fetched_by_every_caller], [expiry_mark_is_not_atomic],
      [nested_clean_aborts_wedge_the_key], [stored_generation_revives_a_token],
      [planned_moves_exceed_the_budget], [non_unicode_variable_panics], the last
      part of [no_input_fails_a_fuzz_target],
      [citation_of_a_missing_function_passes],
      [moves_replace_the_time_to_live], [fallback_serves_an_invalidated_value]
      and the last part of [authorship_gate_is_exact] prove behaviours the
      comments of the code do not announce.

    ** Fuel and bounds

    Recursion that is not structural in the code is bounded by what bounds it
    there, and enough is proved, not assumed.
    - A probe makes at most as many steps as the table has slots: [Probe] takes
      the length, and its lemmas say that the loop of the code stops by then.
    - The write walk of [set] makes at most [S MAX_EVICTION_PASSES] = 17
      passes, each of which visits at most 7 rungs; a rung is
      tried at most 64 times, and making room looks at 8 candidates: the
      constants of the code.
    - [get_or_fetch] and [refresh] have the attempt budgets of the code (8 and
      3). [run_finishes] and [run_ends] show that a program comes to its end in
      every environment that does not drop it: programs are finite trees.
    - [requests_wait_boundedly] adds the budgets up: the number of awaits of any
      request has an explicit bound, 15232 for a [set], 30 for [get_or_fetch].
    - The task of a governor never ends. [task_loop] is its first so many
      rounds; [Progress] restarts the round whenever it is over, and
      [looping_governors_are_prefixes] shows that any finite part of the
      endless system is one of a system with enough rounds, so that the theorems
      about those hold of it.
    - Everything else is structural.

    ** What is not modelled, and why

    - Real parallelism inside a critical section and memory orderings: each
      access is under a lock, so an interleaving of critical sections is what
      other threads can observe. [tests/loom] of the crate checks the rest.
    - Timers and executors: only that a timeout may or may not fire.
    - Code outside the repository: the sled, Redis, RDF and TOML crates, [git] and
      the processes a gate runs, the application's closures. They are parameters.
    - In the test harness, [ThiefTier], which calls back into the manager that
      owns it from inside an operation (the interleaving it provokes is one of
      those [Threads] ranges over), and the macro that generates test cases.
    - In the tooling, the parser of the command line, printed durations and the
      wording of error messages: an error is the data it reports. Nothing is
      printed, so [println!] panicking on a closed standard output is left out.
    - Loading a [.env] file; [Debug] text outside of log lines.
    - Tests, benchmarks and examples, and modules that only re-export. *)

From Stdlib Require Export ZArith Lia.
From stdpp Require Export base tactics numbers option list.

(** ** Results, as Rust has them *)

Inductive result (A E : Type) : Type :=
| Ok (a : A)
| Err (e : E).
Arguments Ok {A E} a.
Arguments Err {A E} e.

Declare Scope thesix_scope.
Delimit Scope thesix_scope with thesix.
Open Scope thesix_scope.

(** [let? x := m in k] is Rust's [let x = m?; k]. *)
Notation "'let?' x ':=' m 'in' k" :=
  (match m with Ok x => k | Err e => Err e end)
  (at level 10, x name, m at level 100, k at level 200) : thesix_scope.

Definition is_ok {A E} (r : result A E) : bool :=
  match r with Ok _ => true | Err _ => false end.

Definition map_err {A E F} (f : E -> F) (r : result A E) : result A F :=
  match r with Ok a => Ok a | Err e => Err (f e) end.

Definition map_ok {A B E} (f : A -> B) (r : result A E) : result B E :=
  match r with Ok a => Ok (f a) | Err e => Err e end.

Definition unwrap_or {A E} (d : A) (r : result A E) : A :=
  match r with Ok a => a | Err _ => d end.

(** ** Fixed-width integers

    Machine integers are [Z] with their wrap-around written out. *)

Definition W64 : Z := (2 ^ 64)%Z.
Definition W128 : Z := (2 ^ 128)%Z.
Definition U64_MAX : Z := (W64 - 1)%Z.
Definition U16_MAX : Z := (2 ^ 16 - 1)%Z.
Definition U32_MAX : Z := (2 ^ 32 - 1)%Z.

Definition wrap64 (z : Z) : Z := (z mod W64)%Z.
Definition wrap128 (z : Z) : Z := (z mod W128)%Z.
Definition add64 (a b : Z) : Z := wrap64 (a + b).
Definition mul64 (a b : Z) : Z := wrap64 (a * b).
Definition mul128 (a b : Z) : Z := wrap128 (a * b).

(** [u64::saturating_sub], [saturating_add]. *)
Definition sat_sub64 (a b : Z) : Z := Z.max 0 (a - b).
Definition sat_add64 (a b : Z) : Z := Z.min U64_MAX (a + b).

(** [usize::checked_add] on a 64-bit target. *)
Definition checked_add (a b : Z) : option Z :=
  if (a + b <? W64)%Z then Some (a + b)%Z else None.

(** [{:x}] of one digit. *)
Definition hex_digit (d : Z) : Z := if (d <? 10)%Z then (48 + d)%Z else (87 + d)%Z.

Definition u64 (z : Z) : Prop := (0 <= z < W64)%Z.
Definition u128 (z : Z) : Prop := (0 <= z < W128)%Z.
Definition byte (z : Z) : Prop := (0 <= z < 256)%Z.

#[export] Instance u64_dec z : Decision (u64 z).
Proof. unfold u64. apply _. Defined.

#[export] Instance byte_dec z : Decision (byte z).
Proof. unfold byte. apply _. Defined.

(** Byte strings: [&[u8]], [Vec<u8>], the UTF-8 bytes of a [String]. *)
Abbreviation bytes := (list Z) (only parsing).

(** Time. An [Instant] is its signed distance in nanoseconds from the process
    clock anchor ([ControlEntry::boot_anchor]); a [Duration] is a nanosecond
    count. *)
Abbreviation Instant := Z (only parsing).
Abbreviation Duration := Z (only parsing).

(** [Instant::elapsed] saturates at zero. *)
Definition elapsed (now since : Instant) : Duration := Z.max 0 (now - since).

(** ** Locks

    A [std::sync::Mutex] (or [RwLock]) is its content plus the poison flag a
    panicking holder sets. *)
Record Mutex (A : Type) : Type := mkMutex {
  mx_data : A;
  mx_poisoned : bool
}.
Arguments mkMutex {A} _ _.
Arguments mx_data {A} _.
Arguments mx_poisoned {A} _.

Definition new_mutex {A} (a : A) : Mutex A := mkMutex a false.

(** [lock()]: the content, or nothing when the lock is poisoned. *)
Definition lock {A} (m : Mutex A) : option A :=
  if mx_poisoned m then None else Some (mx_data m).

Definition store {A} (m : Mutex A) (a : A) : Mutex A := mkMutex a (mx_poisoned m).

(** ** Tactics *)

(** Case analysis on the scrutinee of a [match] or an [if] of the goal. *)
Ltac destruct_scrutinee :=
  match goal with
  | |- context [match ?x with _ => _ end] =>
      lazymatch x with context [match _ with _ => _ end] => fail | _ => destruct x eqn:? end
  end.

(** The same in a hypothesis. *)
Ltac destruct_scrutinee_in H :=
  match type of H with
  | context [match ?x with _ => _ end] =>
      lazymatch x with context [match _ with _ => _ end] => fail | _ => destruct x eqn:? end
  end.

Ltac branches := repeat (destruct_scrutinee; simplify_eq/=).
Ltac branches_in H := repeat (destruct_scrutinee_in H; simplify_eq/=).

(** Close a decidable closed proposition by evaluating it. *)
Ltac by_decision := apply (bool_decide_unpack _); vm_compute; exact I.

(** Turn boolean comparisons of hypotheses into propositions. *)
Ltac bool_to_prop :=
  repeat match goal with
  | H : (_ =? _)%Z = true |- _ => apply Z.eqb_eq in H
  | H : (_ =? _)%Z = false |- _ => apply Z.eqb_neq in H
  | H : (_ <? _)%Z = true |- _ => apply Z.ltb_lt in H
  | H : (_ <? _)%Z = false |- _ => apply Z.ltb_ge in H
  | H : (_ <=? _)%Z = true |- _ => apply Z.leb_le in H
  | H : (_ <=? _)%Z = false |- _ => apply Z.leb_gt in H
  | H : (_ =? _)%nat = true |- _ => apply Nat.eqb_eq in H
  | H : (_ =? _)%nat = false |- _ => apply Nat.eqb_neq in H
  | H : (_ <? _)%nat = true |- _ => apply Nat.ltb_lt in H
  | H : (_ <? _)%nat = false |- _ => apply Nat.ltb_ge in H
  | H : (_ <=? _)%nat = true |- _ => apply Nat.leb_le in H
  | H : (_ <=? _)%nat = false |- _ => apply Nat.leb_gt in H
  | H : _ && _ = true |- _ => apply andb_prop in H as [? ?]
  | H : _ || _ = false |- _ => apply orb_false_elim in H as [? ?]
  | H : negb _ = true |- _ => apply negb_true_iff in H
  | H : negb _ = false |- _ => apply negb_false_iff in H
  | H : bool_decide _ = true |- _ => apply bool_decide_eq_true_1 in H
  | H : bool_decide _ = false |- _ => apply bool_decide_eq_false_1 in H
  end.

(** ** Hint databases *)

Create HintDb thesix.
Create HintDb u64.
Create Rewrite HintDb thesix.

(** ** Lemmas on the fixed-width integers *)

Lemma wrap64_u64 z : u64 (wrap64 z).
Proof. unfold u64, wrap64, W64. apply Z.mod_pos_bound. lia. Qed.

Lemma wrap64_id z : u64 z -> wrap64 z = z.
Proof. unfold u64, wrap64. intros. by apply Z.mod_small. Qed.

Lemma add64_u64 a b : u64 (add64 a b).
Proof. apply wrap64_u64. Qed.

Lemma mul64_u64 a b : u64 (mul64 a b).
Proof. apply wrap64_u64. Qed.

(** Incrementing a [u64] always changes it, wrap-around included. *)
Lemma add64_1_ne a : u64 a -> add64 a 1 <> a.
Proof.
  unfold u64, add64, wrap64, W64. intros Ha.
  destruct (decide (a = 2 ^ 64 - 1)%Z) as [->|Hne]; [by vm_compute|].
  rewrite Z.mod_small; lia.
Qed.

Lemma u64_0 : u64 0.
Proof. unfold u64, W64. lia. Qed.

#[export] Hint Resolve wrap64_u64 add64_u64 mul64_u64 u64_0 : u64.

(** A number below [2^n] has no bit at or above [n]. *)
Lemma testbit_high z n i :
  (0 <= z < 2 ^ n)%Z -> (0 <= n <= i)%Z -> Z.testbit z i = false.
Proof.
  intros Hz Hn. rewrite <- (Z.mod_small z (2 ^ n)) by lia.
  apply Z.mod_pow2_bits_high. lia.
Qed.

(** A nonnegative number whose bits from [n] up vanish is below [2^n]. *)
Lemma lt_pow2_testbit z n :
  (0 <= z)%Z -> (0 <= n)%Z ->
  (forall i, (n <= i)%Z -> Z.testbit z i = false) -> (z < 2 ^ n)%Z.
Proof.
  intros Hz Hn Hbits.
  assert (z = z mod 2 ^ n)%Z as ->.
  { apply Z.bits_inj'. intros i Hi. destruct (decide (i < n)%Z).
    - by rewrite Z.mod_pow2_bits_low.
    - rewrite Z.mod_pow2_bits_high by lia. apply Hbits. lia. }
  apply Z.mod_pos_bound. lia.
Qed.

Lemma lxor_lt_pow2 a b n :
  (0 <= n)%Z -> (0 <= a < 2 ^ n)%Z -> (0 <= b < 2 ^ n)%Z -> (0 <= Z.lxor a b < 2 ^ n)%Z.
Proof.
  intros Hn Ha Hb. split; [apply Z.lxor_nonneg; lia|].
  apply lt_pow2_testbit; [apply Z.lxor_nonneg; lia|lia|].
  intros i Hi. rewrite Z.lxor_spec, !(testbit_high _ n) by lia. done.
Qed.

Lemma lxor_inj_r a b c : Z.lxor a c = Z.lxor b c -> a = b.
Proof.
  intros H. apply (f_equal (fun x => Z.lxor x c)) in H.
  by rewrite !Z.lxor_assoc, Z.lxor_nilpotent, !Z.lxor_0_r in H.
Qed.

Lemma lxor_inj_l a b c : Z.lxor c a = Z.lxor c b -> a = b.
Proof. rewrite (Z.lxor_comm c a), (Z.lxor_comm c b). apply lxor_inj_r. Qed.

(** ** Lemmas on lists *)

Lemma lookup_lt_is_Some_list {A} (l : list A) i : i < length l -> is_Some (l !! i).
Proof. apply lookup_lt_is_Some_2. Qed.

Lemma mod_lt_length {A} (l : list A) (n : nat) : l <> [] -> n mod length l < length l.
Proof. destruct l; [done|]. intros _. apply Nat.mod_upper_bound. simpl. lia. Qed.

(** What is picked out of distinct places is distinct, if its place can be read
    off it. *)
Lemma NoDup_omap_lookup {A B} (f : A -> option B) (l : list A) :
  (forall i j x y b, l !! i = Some x -> l !! j = Some y -> f x = Some b -> f y = Some b -> i = j) ->
  NoDup (omap f l).
Proof.
  induction l as [|x l IH]; intros Hinj; [constructor|].
  assert (Htail : NoDup (omap f l)).
  { apply IH. intros i j y z b Hi Hj Hy Hz. by injection (Hinj (S i) (S j) y z b Hi Hj Hy Hz). }
  cbn. destruct (f x) as [b|] eqn:Hx; [|done]. constructor; [|done].
  intros (y & Hy & Hb)%list_elem_of_omap. apply list_elem_of_lookup in Hy as [j Hj].
  discriminate (Hinj 0 (S j) x y b eq_refl Hj Hx Hb).
Qed.

(** ** Lemmas on locks *)

Lemma lock_store {A} (m : Mutex A) a b : lock m = Some a -> lock (store m b) = Some b.
Proof. unfold lock, store. by destruct m as [? []]. Qed.

Lemma lock_new {A} (a : A) : lock (new_mutex a) = Some a.
Proof. done. Qed.

#[export] Hint Resolve lock_store lock_new : thesix.
