(* ===== verification/Entry.v ===== *)
(** * Errors, entry states, generations and commit intents

    Models [src/error.rs] and [src/entry.rs]: the single error type, the
    state an entry of the control plane is in, the generation discipline, and
    the payload-free record of a two-phase commit. *)

From S2P Require Import Prelude.

(** ** [CacheError] *)

Inductive CacheError : Type :=
| Unauthenticated
| Unauthorized
| TierUnavailable
| WriteIndeterminate
| PolicyDenied
| Miss
| PopulationFailed
| Timeout
| Cancelled
| StaleGeneration
| WriteContended
| SerializationFailed
| ConfigurationError
| CapacityExhausted
| Corrupted
| UncommittedIntent.

#[export] Instance CacheError_eq_dec : EqDecision CacheError.
Proof. solve_decision. Defined.

(** A fallible operation of the crate. *)
Abbreviation res A := (result A CacheError).

(** ** [Generation] *)

(** A generation is a [u64]. *)
Abbreviation Generation := Z (only parsing).

Definition is_stale (self current : Generation) : bool := (self <? current)%Z.

(** ** [EntryState] *)

Inductive EntryState : Type :=
| Absent
| Ready
| Stale
| InFlight
| Prepared
| Failed.

#[export] Instance EntryState_eq_dec : EqDecision EntryState.
Proof. solve_decision. Defined.

Definition is_readable (s : EntryState) : bool :=
  match s with Ready | Stale => true | _ => false end.

Definition is_claimable (s : EntryState) : bool :=
  match s with Absent | Failed | Stale => true | _ => false end.

(** ** [IntentKind] *)

Inductive IntentKind : Type := Write | Move.

#[export] Instance IntentKind_eq_dec : EqDecision IntentKind.
Proof. solve_decision. Defined.

Definition IntentKind_as_u8 (k : IntentKind) : Z :=
  match k with Write => 1 | Move => 2 end.

Definition IntentKind_from_u8 (v : Z) : option IntentKind :=
  if (v =? 1)%Z then Some Write
  else if (v =? 2)%Z then Some Move
  else None.

(** ** [CommitIntent] *)

(** [TierIdLite] is the index byte of a rung. *)
Record CommitIntent : Type := mkIntent {
  ci_kind : IntentKind;
  ci_target_tier : Z;
  ci_generation : Generation;
  ci_started_nanos : Z
}.

(** ** [CacheEntry] *)

Record CacheEntry (V : Type) : Type := mkCacheEntry {
  ent_value : V;
  ent_generation : Generation;
  ent_expiration : option Duration
}.

(** ** Lemmas *)

Lemma intent_kind_roundtrip k : IntentKind_from_u8 (IntentKind_as_u8 k) = Some k.
Proof. by destruct k. Qed.

(** The two predicates on states split the readable from the claimable ones,
    with [Stale] in both and the two in-progress states in neither. *)
Lemma readable_claimable_split s :
  (is_readable s = false /\ is_claimable s = false) <-> s = InFlight \/ s = Prepared.
Proof. destruct s; cbn; intuition congruence. Qed.

Lemma is_stale_spec g c : is_stale g c = true <-> (g < c)%Z.
Proof. apply Z.ltb_lt. Qed.

#[export] Hint Rewrite intent_kind_roundtrip : thesix.
