(* ===== verification/Integrity.v ===== *)
(** * Digests, key fingerprints and placement

    Models [src/integrity.rs]: FNV-1a in two seeded lanes, the content digest
    stored beside a value, the fingerprint that identifies a key and the
    placement that only picks a start slot. *)

From S2P Require Import Prelude Entry.
Local Open Scope Z_scope.

Definition FNV_OFFSET_A : Z := 0xcbf29ce484222325.
Definition FNV_OFFSET_B : Z := 0x9ae16a3b2f90404f.
Definition FNV_PRIME : Z := 0x00000100000001b3.

(** One round of FNV-1a: xor the byte in, multiply. *)
Definition fnv_round (hash b : Z) : Z := mul64 (Z.lxor hash b) FNV_PRIME.

Definition fnv1a (bs : bytes) (offset : Z) : Z := fold_left fnv_round bs offset.

(** ** [ContentDigest], a [u128] *)

Definition ContentDigest_of_bytes (bs : bytes) : Z :=
  Z.lor (Z.shiftl (fnv1a bs FNV_OFFSET_A) 64) (fnv1a bs FNV_OFFSET_B).

Definition ContentDigest_is_zero (d : Z) : bool := d =? 0.

Definition ContentDigest_from_hashes (a b : Z) : Z := Z.lor (Z.shiftl a 64) b.

(** ** [SeededFnv], the seeded [Hasher] *)

Definition SeededFnv_new (seed : Z) : Z := seed.

Definition SeededFnv_write (state : Z) (bs : bytes) : Z := fold_left fnv_round bs state.

Definition SeededFnv_finish (state : Z) : Z := state.

(** A value that implements [Hash] feeds a sequence of byte strings to the
    [Hasher] it is given. *)
Class RustHash (V : Type) := hash_writes : V -> list bytes.

Definition hash_into {V} `{RustHash V} (v : V) (state : Z) : Z :=
  fold_left SeededFnv_write (hash_writes v) state.

(** [IntegrityCheck], implemented for every [Hash]. *)
Definition content_digest {V} `{RustHash V} (v : V) : Z :=
  let a := hash_into v (SeededFnv_new FNV_OFFSET_A) in
  let b := hash_into v (SeededFnv_new FNV_OFFSET_B) in
  ContentDigest_from_hashes (SeededFnv_finish a) (SeededFnv_finish b).

(** Little-endian bytes of an integer ([to_ne_bytes] on the supported targets). *)
Fixpoint le_bytes (n : nat) (z : Z) : bytes :=
  match n with
  | O => []
  | S n' => (z mod 256) :: le_bytes n' (z / 256)
  end.

(** [Hash for Vec<u8>]: the length as a [usize], then the bytes. *)
#[export] Instance RustHash_bytes : RustHash bytes :=
  fun v => [le_bytes 8 (Z.of_nat (length v)); v].

(** ** [KeyFingerprint], a [u128] *)

Definition KeyFingerprint_of (bs : bytes) : Z :=
  Z.lxor
    (Z.lor (Z.shiftl (fnv1a bs FNV_OFFSET_A) 64) (fnv1a bs FNV_OFFSET_B))
    (mul128 (wrap64 (Z.of_nat (length bs))) FNV_PRIME).

(** ** [Placement] *)

Inductive Placement : Type :=
| PlaceDefault
| AllToZero
| CollidingPair (prefix : bytes).

#[export] Instance Placement_eq_dec : EqDecision Placement.
Proof. solve_decision. Defined.

(** [bytes.starts_with(prefix)] *)
Fixpoint starts_with (bs prefix : bytes) : bool :=
  match prefix, bs with
  | [], _ => true
  | p :: ps, b :: bs' => (p =? b) && starts_with bs' ps
  | _ :: _, [] => false
  end.

Definition Placement_hash (self : Placement) (bs : bytes) : Z :=
  match self with
  | PlaceDefault => fnv1a bs FNV_OFFSET_A
  | AllToZero => 0
  | CollidingPair prefix =>
      if starts_with bs prefix then 42
      else Z.lxor (wrap64 (Z.of_nat (length bs))) 0xdeadbeefcafef00d
  end.

(** ** [KeyAddress]: identity and placement together *)

Record KeyAddress : Type := mkAddress {
  fingerprint : Z;
  placement : Z
}.

#[export] Instance KeyAddress_eq_dec : EqDecision KeyAddress.
Proof. solve_decision. Defined.

Definition KeyAddress_of (key : bytes) (strategy : Placement) : KeyAddress :=
  mkAddress (KeyFingerprint_of key) (Placement_hash strategy key).

(** ** [CommitToken] of [src/entry.rs], which carries an address *)

Record CommitToken : Type := mkToken {
  tok_address : KeyAddress;
  tok_generation : Generation;
  tok_kind : IntentKind;
  tok_target_tier : Z
}.

Definition expired_by (self : CommitToken) (current : Generation) : bool :=
  negb (current =? tok_generation self).

(** ** FNV-1a as a permutation of the state

    The prime is odd, so a round is invertible modulo [2^64]. *)

Definition FNV_PRIME_INV : Z := 0xce965057aff6957b.

Lemma fnv_prime_inv : (FNV_PRIME * FNV_PRIME_INV) mod W64 = 1.
Proof. by vm_compute. Qed.

Lemma mul_prime_inj x y :
  u64 x -> u64 y -> mul64 x FNV_PRIME = mul64 y FNV_PRIME -> x = y.
Proof.
  unfold mul64, wrap64. intros Hx Hy H.
  apply (f_equal (fun z => (z * FNV_PRIME_INV) mod W64)) in H.
  rewrite !Zmult_mod_idemp_l, <- !Z.mul_assoc in H.
  rewrite <- (Zmult_mod_idemp_r (FNV_PRIME * FNV_PRIME_INV) x),
    <- (Zmult_mod_idemp_r (FNV_PRIME * FNV_PRIME_INV) y), fnv_prime_inv, !Z.mul_1_r in H.
  by rewrite !Z.mod_small in H by assumption.
Qed.

Lemma byte_u64 b : byte b -> u64 b.
Proof. unfold byte, u64, W64. lia. Qed.

Lemma lxor_u64 a b : u64 a -> u64 b -> u64 (Z.lxor a b).
Proof. unfold u64, W64. intros. apply lxor_lt_pow2; lia. Qed.

#[export] Hint Resolve byte_u64 lxor_u64 : u64.

Lemma fnv_round_u64 h b : u64 (fnv_round h b).
Proof. apply mul64_u64. Qed.

#[export] Hint Resolve fnv_round_u64 : u64.

Lemma fnv_fold_u64 bs h : u64 h -> u64 (fold_left fnv_round bs h).
Proof. revert h. induction bs; intros h Hh; cbn; eauto with u64. Qed.

Lemma fnv1a_u64 bs o : u64 o -> u64 (fnv1a bs o).
Proof. apply fnv_fold_u64. Qed.

Lemma offset_a_u64 : u64 FNV_OFFSET_A.
Proof. by vm_compute. Qed.

Lemma offset_b_u64 : u64 FNV_OFFSET_B.
Proof. by vm_compute. Qed.

#[export] Hint Resolve fnv1a_u64 fnv_fold_u64 offset_a_u64 offset_b_u64 : u64.

(** Distinct states stay distinct through the same bytes. *)
Lemma fnv_fold_inj bs h1 h2 :
  Forall byte bs -> u64 h1 -> u64 h2 ->
  fold_left fnv_round bs h1 = fold_left fnv_round bs h2 -> h1 = h2.
Proof.
  revert h1 h2. induction bs as [|b bs IH]; intros h1 h2 Hbs H1 H2 Heq; [done|].
  inversion_clear Hbs. cbn in Heq. apply IH in Heq; eauto with u64.
  apply mul_prime_inj in Heq; eauto with u64.
  by apply lxor_inj_r in Heq.
Qed.

(** A single changed byte changes the lane, whatever surrounds it. *)
Lemma fnv1a_one_byte pre suf a b o :
  Forall byte suf -> byte a -> byte b -> u64 o -> a <> b ->
  fnv1a (pre ++ a :: suf) o <> fnv1a (pre ++ b :: suf) o.
Proof.
  unfold fnv1a. intros Hsuf Ha Hb Ho Hne Heq. rewrite !fold_left_app in Heq. cbn in Heq.
  apply fnv_fold_inj in Heq; eauto with u64.
  apply mul_prime_inj in Heq; eauto with u64.
  by apply lxor_inj_l in Heq.
Qed.

(** ** The two lanes of a digest can be read back *)

Lemma lanes_spec a b : u64 a -> u64 b -> ContentDigest_from_hashes a b = a * W64 + b.
Proof.
  unfold ContentDigest_from_hashes. intros Ha Hb.
  rewrite Z.shiftl_mul_pow2 by lia. fold W64.
  rewrite Z.add_nocarry_lxor, Z.lxor_lor; [done| |].
  all: apply Z.bits_inj'; intros i Hi; rewrite Z.land_spec, Z.bits_0.
  all: destruct (decide (i < 64)).
  all: try (unfold W64; rewrite Z.mul_pow2_bits_low by lia; done).
  all: rewrite (testbit_high b 64) by (unfold u64, W64 in *; lia); apply andb_false_r.
Qed.

Lemma lanes_inj a b a' b' :
  u64 a -> u64 b -> u64 a' -> u64 b' ->
  ContentDigest_from_hashes a b = ContentDigest_from_hashes a' b' -> a = a' /\ b = b'.
Proof.
  intros ???? H. rewrite !lanes_spec in H by assumption. unfold u64, W64 in *. nia.
Qed.

Lemma lanes_u128 a b : u64 a -> u64 b -> u128 (ContentDigest_from_hashes a b).
Proof. intros. rewrite lanes_spec by done. unfold u64, u128, W64, W128 in *. lia. Qed.

#[export] Hint Resolve lanes_u128 : u64.

(** ** The blanket digest *)

Lemma hash_into_concat {V} `{RustHash V} (v : V) o :
  hash_into v o = fnv1a (concat (hash_writes v)) o.
Proof.
  unfold hash_into, fnv1a. generalize (hash_writes v) as ws. intros ws. revert o.
  induction ws as [|w ws IH]; intros o; [done|]. cbn.
  by rewrite IH, fold_left_app.
Qed.

Lemma content_digest_lanes {V} `{RustHash V} (v : V) :
  content_digest v =
  ContentDigest_from_hashes (fnv1a (concat (hash_writes v)) FNV_OFFSET_A)
    (fnv1a (concat (hash_writes v)) FNV_OFFSET_B).
Proof. unfold content_digest. by rewrite !hash_into_concat. Qed.

Lemma content_digest_u128 {V} `{RustHash V} (v : V) : u128 (content_digest v).
Proof. rewrite content_digest_lanes. eauto with u64. Qed.

Lemma fingerprint_eq_lanes bs :
  KeyFingerprint_of bs =
  Z.lxor (ContentDigest_from_hashes (fnv1a bs FNV_OFFSET_A) (fnv1a bs FNV_OFFSET_B))
    (mul128 (wrap64 (Z.of_nat (length bs))) FNV_PRIME).
Proof. done. Qed.

Lemma of_bytes_lanes bs :
  ContentDigest_of_bytes bs =
  ContentDigest_from_hashes (fnv1a bs FNV_OFFSET_A) (fnv1a bs FNV_OFFSET_B).
Proof. reflexivity. Qed.

(** One changed byte changes the first lane, hence the digest. *)
Lemma of_bytes_one_byte (pre suf : bytes) (a b : Z) :
  Forall byte suf -> byte a -> byte b -> a <> b ->
  ContentDigest_of_bytes (pre ++ a :: suf) <> ContentDigest_of_bytes (pre ++ b :: suf).
Proof.
  intros Hsuf Ha Hb Hne Heq. rewrite !of_bytes_lanes in Heq.
  apply lanes_inj in Heq as [Heq _]; [|auto with u64..].
  revert Heq. apply fnv1a_one_byte; auto with u64.
Qed.

Lemma of_bytes_u128 bs : u128 (ContentDigest_of_bytes bs).
Proof. rewrite of_bytes_lanes. auto with u64. Qed.

(** C32. The content digest notices any single damaged byte: two records that
    differ in exactly one byte never have the same digest, wherever the byte
    sits and whatever surrounds it. *)
Theorem single_byte_damage_changes_digest (pre suf : bytes) (a b : Z)
    (Hsuf : Forall byte suf) (Ha : byte a) (Hb : byte b) (Hne : a <> b) :
  ContentDigest_of_bytes (pre ++ a :: suf) <> ContentDigest_of_bytes (pre ++ b :: suf).
Proof. by apply of_bytes_one_byte. Qed.

Lemma single_byte_damage_changes_digest_witness :
  ContentDigest_of_bytes [111; 49; 50] <> ContentDigest_of_bytes [111; 48; 50].
Proof.
  refine (single_byte_damage_changes_digest [111] [50] 49 48 _ _ _ _); by_decision.
Defined.

(** Mixing the length into the fingerprint separates keys of different
    lengths even when both FNV lanes of their bytes collide. *)
Lemma fingerprint_separates_lengths (k1 k2 : bytes)
    (Hl1 : Z.of_nat (length k1) < W64) (Hl2 : Z.of_nat (length k2) < W64)
    (Hlen : length k1 <> length k2)
    (Hcollide : ContentDigest_of_bytes k1 = ContentDigest_of_bytes k2) :
  KeyFingerprint_of k1 <> KeyFingerprint_of k2.
Proof.
  rewrite !fingerprint_eq_lanes. intros Heq.
  rewrite !of_bytes_lanes in Hcollide. rewrite Hcollide in Heq. apply lxor_inj_l in Heq.
  unfold mul128, wrap128, wrap64 in Heq.
  rewrite !(Z.mod_small _ W64), !(Z.mod_small _ W128) in Heq
    by (unfold W64, W128, FNV_PRIME in *; lia).
  unfold FNV_PRIME in Heq. lia.
Qed.
