(* ===== verification/Key.v ===== *)
(** * Keys, tenant framing and identities

    Models [src/key.rs] and [src/identity.rs]. A buffer argument [&mut [u8]]
    is passed in and returned; [Ok n] says the first [n] bytes are the
    encoding. *)

From S2P Require Import Prelude Entry.

(** ** [src/identity.rs] *)

Record IdentityContext : Type := mkIdentity {
  principal : bytes;
  roles : list bytes;
  tenant : bytes
}.

Definition IdentityContext_anonymous : IdentityContext := mkIdentity [] [] [].

Definition identity_is_authenticated (self : IdentityContext) : bool :=
  match principal self with [] => false | _ => true end.

Record CacheContext : Type := mkContext {
  identity : IdentityContext;
  ctx_ttl : option Duration
}.

Definition CacheContext_new (i : IdentityContext) : CacheContext := mkContext i None.

Definition CacheContext_anonymous : CacheContext :=
  mkContext IdentityContext_anonymous None.

Definition with_ttl (self : CacheContext) (ttl : Duration) : CacheContext :=
  mkContext (identity self) (Some ttl).

Definition is_authenticated (self : CacheContext) : bool :=
  identity_is_authenticated (identity self).

(** ** [src/key.rs] *)

(** The public budget of the module; the manager has its own (see Manager). *)
Definition MAX_KEY_SIZE : nat := 512.

Definition TENANT_SEPARATOR : Z := 0.

(** [copy_from_slice] of [src] into [buf] starting at [off], the bytes around
    it kept. *)
Definition copy_at (buf : bytes) (off : nat) (src : bytes) : bytes :=
  take off buf ++ src ++ drop (off + length src) buf.

Definition contains_byte (b : Z) (bs : bytes) : bool := existsb (Z.eqb b) bs.

Definition frame_tenant_key (tenant key buf : bytes) : res Z * bytes :=
  if contains_byte TENANT_SEPARATOR tenant then (Err ConfigurationError, buf)
  else
    match checked_add (Z.of_nat (length tenant)) 1 with
    | None => (Err ConfigurationError, buf)
    | Some n =>
        match checked_add n (Z.of_nat (length key)) with
        | None => (Err ConfigurationError, buf)
        | Some needed =>
            if (needed >? Z.of_nat (length buf))%Z then (Err ConfigurationError, buf)
            else
              let buf := copy_at buf 0 tenant in
              let buf := copy_at buf (length tenant) [TENANT_SEPARATOR] in
              let buf := copy_at buf (length tenant + 1) key in
              (Ok needed, buf)
        end
    end.

(** The [Key] trait: [encode] writes into a buffer. *)
Class Key (K : Type) := {
  encode : K -> bytes -> res Z * bytes;
  encoded_len : K -> Z
}.

(** [impl Key for String], [&str] and [Vec<u8>]: the bytes themselves. *)
Definition encode_bytes_key (self buf : bytes) : res Z * bytes :=
  if length buf <? length self then (Err ConfigurationError, buf)
  else (Ok (Z.of_nat (length self)), copy_at buf 0 self).

#[export] Instance Key_bytes : Key bytes := {|
  encode := encode_bytes_key;
  encoded_len self := Z.of_nat (length self)
|}.

(** ** Lemmas on framing *)

Lemma copy_at_0 buf src : copy_at buf 0 src = src ++ drop (length src) buf.
Proof. done. Qed.

Lemma contains_byte_spec b bs : contains_byte b bs = true <-> b ∈ bs.
Proof.
  unfold contains_byte. rewrite existsb_exists. split.
  - intros (x & Hx & ->%Z.eqb_eq). by apply list_elem_of_In.
  - intros H. exists b. split; [by apply list_elem_of_In|apply Z.eqb_refl].
Qed.

Lemma contains_byte_false b bs : contains_byte b bs = false <-> b ∉ bs.
Proof. rewrite <- contains_byte_spec. by destruct (contains_byte b bs). Qed.

Lemma copy_at_end pre rest src :
  length src <= length rest ->
  copy_at (pre ++ rest) (length pre) src = (pre ++ src) ++ drop (length src) rest.
Proof.
  intros _. unfold copy_at. by rewrite take_app_length, drop_app_add, <- app_assoc.
Qed.

(** What a successful framing writes. *)
Lemma frame_tenant_key_inv t k buf n buf' :
  frame_tenant_key t k buf = (Ok n, buf') ->
  (TENANT_SEPARATOR ∉ t) /\ n = Z.of_nat (length t + 1 + length k) /\
  length t + 1 + length k <= length buf /\
  take (Z.to_nat n) buf' = t ++ TENANT_SEPARATOR :: k.
Proof.
  unfold frame_tenant_key, checked_add. intros H.
  destruct (contains_byte _ t) eqn:Hsep; [done|]. apply contains_byte_false in Hsep.
  branches_in H. bool_to_prop.
  assert (length t + 1 + length k <= length buf) as Hfit by lia.
  split; [done|]. split; [lia|]. split; [done|].
  rewrite copy_at_0, copy_at_end by (rewrite length_drop; cbn; lia).
  replace (length t + 1) with (length (t ++ [TENANT_SEPARATOR])) by (rewrite length_app; done).
  rewrite copy_at_end by (rewrite !length_drop; cbn; lia).
  rewrite take_app_le by (rewrite !length_app; cbn; lia).
  rewrite take_ge by (rewrite !length_app; cbn; lia).
  by rewrite <- app_assoc.
Qed.

(** A tenant without the separator is recovered from its frame. *)
Lemma frame_split_inj t1 t2 (k1 k2 : bytes) :
  TENANT_SEPARATOR ∉ t1 -> TENANT_SEPARATOR ∉ t2 ->
  t1 ++ TENANT_SEPARATOR :: k1 = t2 ++ TENANT_SEPARATOR :: k2 -> t1 = t2 /\ k1 = k2.
Proof.
  revert t2. induction t1 as [|a t1 IH]; intros [|b t2] H1 H2 Heq; cbn in Heq.
  - by injection Heq.
  - injection Heq as <- _. by destruct H2; left.
  - injection Heq as -> _. by destruct H1; left.
  - injection Heq as -> Heq. apply not_elem_of_cons in H1 as [_ H1]. apply not_elem_of_cons in H2 as [_ H2].
    by destruct (IH t2 H1 H2 Heq) as [-> ->].
Qed.

(** C33. Tenant isolation: two tenants (or two application keys) never frame
    to the same bytes, so distinct tenants never share an entry. *)
Theorem frame_tenant_key_injective (t1 k1 t2 k2 buf1 buf2 b1 b2 : bytes) (n1 n2 : Z)
    (H1 : frame_tenant_key t1 k1 buf1 = (Ok n1, b1))
    (H2 : frame_tenant_key t2 k2 buf2 = (Ok n2, b2))
    (Heq : take (Z.to_nat n1) b1 = take (Z.to_nat n2) b2) :
  t1 = t2 /\ k1 = k2.
Proof.
  apply frame_tenant_key_inv in H1 as (Ht1 & _ & _ & Hb1).
  apply frame_tenant_key_inv in H2 as (Ht2 & _ & _ & Hb2).
  rewrite Hb1, Hb2 in Heq. by apply frame_split_inj.
Qed.

Lemma frame_tenant_key_injective_witness :
  [97%Z] = [97%Z] /\ [98%Z; 99%Z] = [98%Z; 99%Z].
Proof.
  apply (frame_tenant_key_injective [97%Z] [98%Z; 99%Z] [97%Z] [98%Z; 99%Z]
           (replicate 8 0%Z) (replicate 6 7%Z)
           [97%Z; 0%Z; 98%Z; 99%Z; 0%Z; 0%Z; 0%Z; 0%Z] [97%Z; 0%Z; 98%Z; 99%Z; 7%Z; 7%Z] 4 4);
    by vm_compute.
Defined.
