(* ===== verification/Tier.v ===== *)
(** * Rungs, backends, health and the circuit breaker

    Models [src/tier/mod.rs] ([TierId], [TierRegistry]) and the data types of
    [src/tier/trait.rs] ([BackendKind], [TierHealth]). Rust's [f64] is the
    binary64 format of [SpecFloat], with the same rounding. *)

From Stdlib Require Import Ascii Floats.SpecFloat.
From stdpp Require Import strings.
From S2P Require Import Prelude Entry.

(** ** [f64] *)

Abbreviation f64 := spec_float.

Definition f64_zero : f64 := S754_zero false.
Definition f64_one : f64 := S754_finite false 4503599627370496 (-52).
(** The double nearest to 0.1. *)
Definition f64_tenth : f64 := S754_finite false 7205759403792794 (-56).

Definition f64_add (a b : f64) : f64 := SFadd 53 1024 a b.
Definition f64_sub (a b : f64) : f64 := SFsub 53 1024 a b.
Definition f64_mul (a b : f64) : f64 := SFmul 53 1024 a b.
Definition f64_div (a b : f64) : f64 := SFdiv 53 1024 a b.
Definition f64_ltb (a b : f64) : bool := SFltb a b.
Definition f64_leb (a b : f64) : bool := SFleb a b.

Definition f64_is_nan (a : f64) : bool := match a with S754_nan => true | _ => false end.

(** [f64::max] ignores a NaN operand. *)
Definition f64_max (a b : f64) : f64 :=
  if f64_is_nan a then b else if f64_ltb a b then b else a.

(** [f64::from(u32)] is exact. *)
Definition f64_from_u32 (z : Z) : f64 := binary_normalize 53 1024 z 0 false.

(** ** [TierId] *)

Inductive TierId : Type := L0 | L1 | L2 | L3 | L4 | L5 | L6.

#[export] Instance TierId_eq_dec : EqDecision TierId.
Proof. solve_decision. Defined.

Definition TierId_ALL : list TierId := [L0; L1; L2; L3; L4; L5; L6].

Definition LAST_CACHE_RUNG_INDEX : nat := 5.
Definition AUTHORITY_RUNG_INDEX : nat := 6.

Definition as_usize (t : TierId) : nat :=
  match t with L0 => 0 | L1 => 1 | L2 => 2 | L3 => 3 | L4 => 4 | L5 => 5 | L6 => 6 end.

Definition from_usize (idx : nat) : option TierId :=
  match idx with
  | 0 => Some L0 | 1 => Some L1 | 2 => Some L2 | 3 => Some L3
  | 4 => Some L4 | 5 => Some L5 | 6 => Some L6 | _ => None
  end.

Definition is_cache_rung (t : TierId) : bool := as_usize t <=? LAST_CACHE_RUNG_INDEX.

Definition is_authority_rung (t : TierId) : bool := as_usize t =? AUTHORITY_RUNG_INDEX.

Definition as_u8 (t : TierId) : Z := Z.of_nat (as_usize t).

Definition from_index (index : Z) : option TierId :=
  if (index <? 7)%Z then from_usize (Z.to_nat index) else None.

(** [str::parse::<usize>]: an optional [+], then decimal digits, refused on
    overflow. *)
Definition digit_of (c : Ascii.ascii) : option Z :=
  let n := Z.of_nat (Ascii.nat_of_ascii c) in
  if (48 <=? n)%Z && (n <=? 57)%Z then Some (n - 48)%Z else None.

Fixpoint parse_digits (acc : Z) (s : string) : option Z :=
  match s with
  | EmptyString => Some acc
  | String c s' =>
      match digit_of c with
      | None => None
      | Some d =>
          let acc' := (acc * 10 + d)%Z in
          if (acc' <? W64)%Z then parse_digits acc' s' else None
      end
  end.

Definition parse_usize (s : string) : option Z :=
  match s with
  | EmptyString => None
  | String c s' =>
      if Ascii.eqb c "+"%char then
        match s' with EmptyString => None | _ => parse_digits 0 s' end
      else parse_digits 0 s
  end.

Definition TierId_parse (s : string) : option TierId :=
  match s with
  | String c rest =>
      if Ascii.eqb c "L"%char then
        match parse_usize rest with
        | Some idx => if (idx <? 7)%Z then from_usize (Z.to_nat idx) else None
        | None => None
        end
      else None
  | EmptyString => None
  end.

Definition TierId_display (t : TierId) : string :=
  match t with
  | L0 => "L0" | L1 => "L1" | L2 => "L2" | L3 => "L3" | L4 => "L4" | L5 => "L5" | L6 => "L6"
  end%string.

(** ** [BackendKind] *)

Inductive BackendKind : Type :=
| InMemory | InMemoryFallback | Moka | Redis | Sled | RocksDb | Postgres
| Neo4j | Helix | Oxigraph | Origin | TestBackend | BackendUnavailable.

#[export] Instance BackendKind_eq_dec : EqDecision BackendKind.
Proof. solve_decision. Defined.

Definition is_implemented (b : BackendKind) : bool :=
  match b with
  | InMemory | InMemoryFallback | Redis | Sled | Oxigraph | Origin | TestBackend => true
  | _ => false
  end.

Definition is_persistent_by_design (b : BackendKind) : bool :=
  match b with Sled | RocksDb | Postgres => true | _ => false end.

Definition is_shared_by_design (b : BackendKind) : bool :=
  match b with Redis | Postgres | Neo4j | Helix | Origin => true | _ => false end.

(** ** [TierHealth] *)

Record TierHealth : Type := mkHealth {
  consecutive_failures : Z;
  last_failure_timestamp : option Z;
  health_score : f64;
  availability : f64
}.

Definition TierHealth_default : TierHealth := mkHealth 0 None f64_one f64_one.

Definition healthy (h : TierHealth) : bool := (consecutive_failures h =? 0)%Z.

Definition health_circuit_open (h : TierHealth) : bool := (5 <=? consecutive_failures h)%Z.

(** ** [TierRegistry] *)

Record TierRegistry : Type := mkRegistry {
  reg_tiers : list TierId;
  reg_health : list (Mutex TierHealth)
}.

Definition TierRegistry_new : TierRegistry :=
  let tiers := [L0; L1; L2; L3; L4; L5; L6] in
  mkRegistry tiers (map (fun _ => new_mutex TierHealth_default) tiers).

(** [self.health[tier.as_usize()]]: the registry holds one slot per rung. *)
Definition health_slot (r : TierRegistry) (t : TierId) : Mutex TierHealth :=
  default (new_mutex TierHealth_default) (reg_health r !! as_usize t).

Definition put_health (r : TierRegistry) (t : TierId) (m : Mutex TierHealth) : TierRegistry :=
  mkRegistry (reg_tiers r) (<[as_usize t := m]> (reg_health r)).

Definition tier_health (r : TierRegistry) (t : TierId) : TierHealth :=
  match lock (health_slot r t) with
  | Some h => h
  | None => TierHealth_default
  end.

(** [fail] at wall-clock time [wall]. *)
Definition registry_fail (wall : Z) (r : TierRegistry) (t : TierId) : TierRegistry :=
  match lock (health_slot r t) with
  | Some h =>
      put_health r t (store (health_slot r t)
        (mkHealth (add64 (consecutive_failures h) 1) (Some wall)
           (f64_max (f64_sub (health_score h) f64_tenth) f64_zero) (availability h)))
  | None => r
  end.

Definition registry_recover (r : TierRegistry) (t : TierId) : TierRegistry :=
  match lock (health_slot r t) with
  | Some h => put_health r t (store (health_slot r t) (mkHealth 0 None f64_one (availability h)))
  | None => r
  end.

Definition is_circuit_open (r : TierRegistry) (t : TierId) : bool :=
  match lock (health_slot r t) with
  | Some h => health_circuit_open h
  | None => true
  end.

Fixpoint first_closed (r : TierRegistry) (exclude : TierId) (ts : list TierId) : option TierId :=
  match ts with
  | [] => None
  | t :: ts' =>
      if decide (t = exclude) then first_closed r exclude ts'
      else if negb (is_circuit_open r t) then Some t
      else first_closed r exclude ts'
  end.

Definition registry_fallback (r : TierRegistry) (exclude : TierId) : option TierId :=
  first_closed r exclude (reg_tiers r).

(** ** Lemmas on rungs *)

Lemma from_as_usize t : from_usize (as_usize t) = Some t.
Proof. by destruct t. Qed.

Lemma from_usize_Some n t : from_usize n = Some t <-> n = as_usize t.
Proof.
  split; [|intros ->; apply from_as_usize].
  do 7 (destruct n as [|n]; [by intros [= <-]|]). done.
Qed.

Lemma as_usize_lt t : as_usize t < 7.
Proof. destruct t; cbn; lia. Qed.

Lemma as_usize_inj t u : as_usize t = as_usize u -> t = u.
Proof. by destruct t, u. Qed.

Lemma from_index_as_u8 t : from_index (as_u8 t) = Some t.
Proof. by destruct t. Qed.

Lemma is_cache_rung_spec t : is_cache_rung t = true <-> t <> L6.
Proof. by destruct t. Qed.

Lemma cache_rung_not_authority t : is_cache_rung t = negb (is_authority_rung t).
Proof. by destruct t. Qed.

Lemma display_parse t : TierId_parse (TierId_display t) = Some t.
Proof. by destruct t; vm_compute. Qed.

#[export] Hint Rewrite from_as_usize from_index_as_u8 display_parse : thesix.
#[export] Hint Resolve as_usize_lt : thesix.

(** ** Lemmas on the registry *)

(** The registry's shape: the seven rungs, a health slot for each, none
    poisoned. *)
Record registry_wf (r : TierRegistry) : Prop := {
  rwf_tiers : reg_tiers r = TierId_ALL;
  rwf_len : length (reg_health r) = 7;
  rwf_lock : Forall (fun m => mx_poisoned m = false) (reg_health r)
}.

Lemma registry_new_wf : registry_wf TierRegistry_new.
Proof. constructor; [done|done|by repeat constructor]. Qed.

Lemma registry_wf_slot r t :
  registry_wf r -> exists h, reg_health r !! as_usize t = Some (mkMutex h false).
Proof.
  intros [_ Hlen Hlock].
  destruct (lookup_lt_is_Some_2 (reg_health r) (as_usize t)) as [[h p] Hm];
    [rewrite Hlen; apply as_usize_lt|].
  exists h. by pose proof (Forall_lookup_1 _ _ _ _ Hlock Hm) as Hp; cbn in Hp; subst.
Qed.

Lemma put_health_wf r t h : registry_wf r -> registry_wf (put_health r t (mkMutex h false)).
Proof.
  intros [Ht Hlen Hlock]. constructor; cbn; [done|by rewrite length_insert|].
  by apply Forall_insert.
Qed.

Lemma tier_health_put r t h :
  registry_wf r -> tier_health (put_health r t (mkMutex h false)) t = h.
Proof.
  intros [_ Hlen _]. unfold tier_health, health_slot, put_health; cbn.
  by rewrite list_lookup_insert_eq by (rewrite Hlen; apply as_usize_lt).
Qed.

Lemma tier_health_put_ne r t u h :
  t <> u -> tier_health (put_health r t (mkMutex h false)) u = tier_health r u.
Proof.
  intros Hne. unfold tier_health, health_slot, put_health; cbn.
  rewrite list_lookup_insert_ne; [done|]. intros H. by apply as_usize_inj in H.
Qed.

Lemma circuit_open_health r t :
  registry_wf r -> is_circuit_open r t = health_circuit_open (tier_health r t).
Proof.
  intros Hwf. destruct (registry_wf_slot r t Hwf) as [h Hh].
  unfold is_circuit_open, tier_health, health_slot. by rewrite Hh.
Qed.

Lemma registry_fail_eq wall r t :
  registry_wf r ->
  registry_fail wall r t =
  put_health r t (mkMutex
    (mkHealth (add64 (consecutive_failures (tier_health r t)) 1) (Some wall)
       (f64_max (f64_sub (health_score (tier_health r t)) f64_tenth) f64_zero)
       (availability (tier_health r t))) false).
Proof.
  intros Hwf. destruct (registry_wf_slot r t Hwf) as [h Hh].
  unfold registry_fail, tier_health, health_slot. by rewrite Hh.
Qed.

Lemma registry_recover_eq r t :
  registry_wf r ->
  registry_recover r t =
  put_health r t (mkMutex (mkHealth 0 None f64_one (availability (tier_health r t))) false).
Proof.
  intros Hwf. destruct (registry_wf_slot r t Hwf) as [h Hh].
  unfold registry_recover, tier_health, health_slot. by rewrite Hh.
Qed.

Lemma registry_fail_wf wall r t : registry_wf r -> registry_wf (registry_fail wall r t).
Proof. intros Hwf. rewrite registry_fail_eq by done. by apply put_health_wf. Qed.

Lemma registry_recover_wf r t : registry_wf r -> registry_wf (registry_recover r t).
Proof. intros Hwf. rewrite registry_recover_eq by done. by apply put_health_wf. Qed.

#[export] Hint Resolve registry_fail_wf registry_recover_wf registry_new_wf : thesix.

(** [n] failures in a row at the given wall-clock times. *)
Definition fail_times (walls : list Z) (r : TierRegistry) (t : TierId) : TierRegistry :=
  fold_left (fun r wall => registry_fail wall r t) walls r.

Lemma fail_times_wf walls r t : registry_wf r -> registry_wf (fail_times walls r t).
Proof. revert r. induction walls; intros r Hwf; cbn; eauto with thesix. Qed.

Lemma fail_times_count walls r t :
  registry_wf r ->
  (0 <= consecutive_failures (tier_health r t))%Z ->
  (consecutive_failures (tier_health r t) + Z.of_nat (length walls) < W64)%Z ->
  consecutive_failures (tier_health (fail_times walls r t) t) =
  (consecutive_failures (tier_health r t) + Z.of_nat (length walls))%Z.
Proof.
  revert r. induction walls as [|w walls IH]; intros r Hwf H0 Hlt; cbn -[Z.of_nat] in *; [lia|].
  unfold fail_times in IH.
  assert (consecutive_failures (tier_health (registry_fail w r t) t) =
          consecutive_failures (tier_health r t) + 1)%Z as Hstep.
  { rewrite registry_fail_eq, tier_health_put by done. cbn. unfold add64.
    apply wrap64_id. unfold u64. lia. }
  rewrite IH; rewrite ?Hstep; [lia|eauto with thesix|lia|lia].
Qed.

Lemma fail_times_other walls r t u :
  registry_wf r -> t <> u -> tier_health (fail_times walls r t) u = tier_health r u.
Proof.
  intros Hwf Hne. revert r Hwf. induction walls as [|w walls IH]; intros r Hwf; [done|].
  cbn. unfold fail_times in IH. rewrite IH by eauto with thesix.
  by rewrite registry_fail_eq, tier_health_put_ne.
Qed.

(** The circuit breaker: after a recovery, the circuit of a rung is open
    exactly when five or more failures followed, one recovery closes it, and
    the other rungs' circuits are untouched. *)
Theorem circuit_breaker_trips_at_five (r : TierRegistry) (t u : TierId) (walls : list Z)
    (Hwf : registry_wf r) (Hlen : (Z.of_nat (length walls) < W64)%Z) (Hne : t <> u) :
  let tripped := fail_times walls (registry_recover r t) t in
  is_circuit_open tripped t = (5 <=? length walls) /\
  is_circuit_open (registry_recover tripped t) t = false /\
  is_circuit_open tripped u = is_circuit_open r u.
Proof.
  pose proof (registry_recover_wf r t Hwf) as Hwf1.
  pose proof (fail_times_wf walls _ t Hwf1) as Hwf2.
  assert (consecutive_failures (tier_health (registry_recover r t) t) = 0)%Z as H0.
  { by rewrite registry_recover_eq, tier_health_put. }
  intros tripped. subst tripped. rewrite !circuit_open_health by eauto with thesix.
  unfold health_circuit_open. repeat split.
  - rewrite fail_times_count by (rewrite ?H0; done || lia). rewrite H0.
    destruct (Nat.leb_spec 5 (length walls)); apply Z.leb_le || apply Z.leb_gt; lia.
  - by rewrite registry_recover_eq, tier_health_put.
  - rewrite fail_times_other, registry_recover_eq, tier_health_put_ne by done. done.
Qed.

Lemma circuit_breaker_trips_at_five_witness :
  let tripped := fail_times [1; 2; 3; 4; 5]%Z (registry_recover TierRegistry_new L2) L2 in
  is_circuit_open tripped L2 = (5 <=? 5) /\
  is_circuit_open (registry_recover tripped L2) L2 = false /\
  is_circuit_open tripped L1 = is_circuit_open TierRegistry_new L1.
Proof.
  exact (circuit_breaker_trips_at_five TierRegistry_new L2 L1 [1; 2; 3; 4; 5]%Z
    registry_new_wf eq_refl ltac:(discriminate)).
Defined.
