(* ===== verification/Capability.v ===== *)
(** * Capabilities of a rung

    Models [src/capability.rs]: orthogonal flags in a [u16], the operational
    state, the durability class and their combination. *)

From stdpp Require Import strings.
From S2P Require Import Prelude Entry Tier.
Local Open Scope Z_scope.

(** ** [CapabilityFlags], a [u16] *)

Definition EMPTY : Z := 0.
Definition IN_MEMORY : Z := Z.shiftl 1 0.
Definition VOLATILE : Z := Z.shiftl 1 1.
Definition PERSISTENT : Z := Z.shiftl 1 2.
Definition SHARED : Z := Z.shiftl 1 3.
Definition AUTHORITATIVE : Z := Z.shiftl 1 4.
Definition BLOCKING_IO : Z := Z.shiftl 1 5.
Definition ATOMIC_WRITE_OR_ERROR : Z := Z.shiftl 1 6.

Definition CapabilityFlags_ALL : list Z :=
  [IN_MEMORY; VOLATILE; PERSISTENT; SHARED; AUTHORITATIVE; BLOCKING_IO; ATOMIC_WRITE_OR_ERROR].

Definition flags_contains (self other : Z) : bool := Z.land self other =? other.
Definition flags_intersects (self other : Z) : bool := negb (Z.land self other =? 0).
Definition flags_is_empty (self : Z) : bool := self =? 0.
Definition flags_union (self other : Z) : Z := Z.lor self other.
(** [!other] on a [u16] flips its sixteen bits. *)
Definition flags_without (self other : Z) : Z := Z.land self (Z.lxor other U16_MAX).

Definition flags_iter (self : Z) : list Z :=
  List.filter (flags_contains self) CapabilityFlags_ALL.

Definition flag_name (self : Z) : string :=
  (if Z.eqb self IN_MEMORY then "in_memory"
   else if Z.eqb self VOLATILE then "volatile"
   else if Z.eqb self PERSISTENT then "persistent"
   else if Z.eqb self SHARED then "shared"
   else if Z.eqb self AUTHORITATIVE then "authoritative"
   else if Z.eqb self BLOCKING_IO then "blocking_io"
   else if Z.eqb self ATOMIC_WRITE_OR_ERROR then "atomic_write_or_error"
   else "unknown")%string.

Definition flag_names (self : Z) : list string := map flag_name (flags_iter self).

(** ** [OperationalState] *)

Inductive OperationalState : Type :=
| OsUnbound | OsUnavailable | OsHealthy | OsDegraded | OsRecovering | OsReconciling.

#[export] Instance OperationalState_eq_dec : EqDecision OperationalState.
Proof. solve_decision. Defined.

Definition OperationalState_ALL : list OperationalState :=
  [OsUnbound; OsUnavailable; OsHealthy; OsDegraded; OsRecovering; OsReconciling].

Definition os_name (s : OperationalState) : string :=
  match s with
  | OsUnbound => "unbound"
  | OsUnavailable => "unavailable"
  | OsHealthy => "healthy"
  | OsDegraded => "degraded"
  | OsRecovering => "recovering"
  | OsReconciling => "reconciling"
  end%string.

Definition os_is_serving (s : OperationalState) : bool :=
  match s with OsHealthy | OsDegraded => true | _ => false end.

(** ** [DurabilityClass] *)

Inductive DurabilityClass : Type := DcVolatile | DcDelegated | DcVerified.

#[export] Instance DurabilityClass_eq_dec : EqDecision DurabilityClass.
Proof. solve_decision. Defined.

Definition DurabilityClass_ALL : list DurabilityClass := [DcVolatile; DcDelegated; DcVerified].

Definition dc_name (d : DurabilityClass) : string :=
  match d with
  | DcVolatile => "volatile"
  | DcDelegated => "delegated"
  | DcVerified => "verified"
  end%string.

Definition dc_survives_restart (d : DurabilityClass) : bool :=
  match d with DcDelegated | DcVerified => true | DcVolatile => false end.

(** ** [TierCapability] *)

Record TierCapability : Type := mkCapability {
  cap_backend : BackendKind;
  cap_flags : Z;
  cap_state : OperationalState;
  cap_durability : DurabilityClass
}.

Definition capability_unbound : TierCapability :=
  mkCapability BackendUnavailable EMPTY OsUnbound DcVolatile.

Definition is_bound (c : TierCapability) : bool :=
  match cap_state c with OsUnbound => false | _ => true end.

Definition is_authoritative (c : TierCapability) : bool :=
  flags_contains (cap_flags c) AUTHORITATIVE.

Definition is_blocking_io (c : TierCapability) : bool :=
  flags_contains (cap_flags c) BLOCKING_IO.

Definition cap_survives_restart (c : TierCapability) : bool :=
  match cap_durability c with DcDelegated | DcVerified => true | _ => false end.

(** [cap.flags |= flag] *)
Definition add_flag (c : TierCapability) (flag : Z) : TierCapability :=
  mkCapability (cap_backend c) (flags_union (cap_flags c) flag) (cap_state c) (cap_durability c).

(** ** [all_state_names]: sorted, without repetitions *)

Fixpoint insert_name (s : string) (l : list string) : list string :=
  match l with
  | [] => [s]
  | x :: xs => if String.leb s x then s :: x :: xs else x :: insert_name s xs
  end.

Definition sort_names (l : list string) : list string := foldr insert_name [] l.

(** [Vec::dedup]: drop an element equal to its predecessor. *)
Fixpoint dedup (l : list string) : list string :=
  match l with
  | [] => []
  | x :: xs =>
      match dedup xs with
      | y :: ys => if String.eqb x y then y :: ys else x :: y :: ys
      | [] => [x]
      end
  end.

Definition all_state_names : list string :=
  dedup (sort_names (map flag_name CapabilityFlags_ALL ++ map os_name OperationalState_ALL
                     ++ map dc_name DurabilityClass_ALL)).

(** ** Lemmas on flags *)

Lemma flags_contains_spec a b :
  flags_contains a b = true <-> (forall i, Z.testbit b i = true -> Z.testbit a i = true).
Proof.
  unfold flags_contains. rewrite Z.eqb_eq. split.
  - intros H i Hi. rewrite <- H, Z.land_spec in Hi. by apply andb_prop in Hi as [? _].
  - intros H. apply Z.bits_inj. intros i. rewrite Z.land_spec.
    specialize (H i). destruct (Z.testbit b i); [by rewrite H|apply andb_false_r].
Qed.

Lemma flags_union_contains a b : flags_contains (flags_union a b) b = true.
Proof. apply flags_contains_spec. intros i Hi. unfold flags_union. by rewrite Z.lor_spec, Hi, orb_true_r. Qed.

Lemma flags_union_keeps a b c :
  flags_contains a c = true -> flags_contains (flags_union a b) c = true.
Proof.
  rewrite !flags_contains_spec. intros H i Hi. unfold flags_union. rewrite Z.lor_spec, H by done. done.
Qed.

(** A number of [2^n] values is found in the range that lists them. *)
Lemma small_in_seqZ z n : 0 <= z < n -> z ∈ seqZ 0 n.
Proof. intros. apply elem_of_seqZ. lia. Qed.

(** Reporting loses no capability: the flags listed by [iter] recombine to
    the value they came from, for every value built from the named flags; and
    [without] removes the named flags and only those. *)
Theorem capability_flags_decompose (a b : Z) (Ha : 0 <= a < 128) (Hb : 0 <= b < 128) :
  foldr flags_union EMPTY (flags_iter a) = a /\
  (forall f, f ∈ CapabilityFlags_ALL ->
     flags_contains (flags_without a b) f = flags_contains a f && negb (flags_contains b f)).
Proof.
  assert (Forall (fun a => foldr flags_union EMPTY (flags_iter a) = a) (seqZ 0 128)) as H1
    by by_decision.
  assert (Forall (fun a => Forall (fun b => Forall (fun f =>
    flags_contains (flags_without a b) f = flags_contains a f && negb (flags_contains b f))
    CapabilityFlags_ALL) (seqZ 0 128)) (seqZ 0 128)) as H2 by by_decision.
  rewrite list.Forall_forall in H1, H2. split; [by apply H1, small_in_seqZ|].
  specialize (H2 a (small_in_seqZ _ _ Ha)). rewrite list.Forall_forall in H2.
  specialize (H2 b (small_in_seqZ _ _ Hb)). by rewrite list.Forall_forall in H2.
Qed.

Lemma capability_flags_decompose_witness :
  foldr flags_union EMPTY (flags_iter 67) = 67 /\
  (forall f, f ∈ CapabilityFlags_ALL ->
     flags_contains (flags_without 67 2) f = flags_contains 67 f && negb (flags_contains 2 f)).
Proof. refine (capability_flags_decompose 67 2 _ _); by_decision. Defined.
