(* ===== verification/Continuity.v ===== *)
(** * Continuity states and recovery outcomes

    Models [src/continuity.rs]. *)

From stdpp Require Import strings.
From S2P Require Import Prelude Entry Tier.

(** ** [ContinuityState] *)

Inductive ContinuityState : Type :=
| CsHealthy | CsDegraded | CsUnavailable | CsRecovering | CsReconciling.

#[export] Instance ContinuityState_eq_dec : EqDecision ContinuityState.
Proof. solve_decision. Defined.

Definition ContinuityState_ALL : list ContinuityState :=
  [CsHealthy; CsDegraded; CsUnavailable; CsRecovering; CsReconciling].

Definition cs_name (s : ContinuityState) : string :=
  match s with
  | CsHealthy => "healthy"
  | CsDegraded => "degraded"
  | CsUnavailable => "unavailable"
  | CsRecovering => "recovering"
  | CsReconciling => "reconciling"
  end%string.

Definition cs_is_serving (s : ContinuityState) : bool :=
  match s with CsHealthy | CsDegraded => true | _ => false end.

Definition cs_accepts_writes (s : ContinuityState) : bool :=
  match s with CsHealthy | CsReconciling => true | _ => false end.

Definition cs_parse (s : string) : option ContinuityState :=
  List.find (fun st => String.eqb (cs_name st) s) ContinuityState_ALL.

(** ** [RecoveryDirection] *)

Inductive RecoveryDirection : Type := DirAbort | CompleteForward | ExternalReconciliation.

#[export] Instance RecoveryDirection_eq_dec : EqDecision RecoveryDirection.
Proof. solve_decision. Defined.

Definition for_kind (k : IntentKind) : RecoveryDirection :=
  match k with Write => DirAbort | Move => ExternalReconciliation end.

Definition is_executable_here (d : RecoveryDirection) : bool :=
  match d with DirAbort => true | _ => false end.

Definition is_success_without_the_key (d : RecoveryDirection) : bool :=
  match d with CompleteForward => true | _ => false end.

(** ** [RecoveryReport], [RecoveryOutcome] *)

Record RecoveryReport : Type := mkRecoveryReport {
  rr_recovered : nat;
  rr_failed : nat;
  rr_needs_reconciliation : nat;
  rr_released_for_reconciliation : nat
}.

Definition RecoveryReport_default : RecoveryReport := mkRecoveryReport 0 0 0 0.

Inductive RecoveryOutcome : Type :=
| RoAborted (kind : IntentKind)
| RoCompleted (kind : IntentKind)
| RoFailed (kind : IntentKind).

Definition ro_kind (o : RecoveryOutcome) : IntentKind :=
  match o with RoAborted k | RoCompleted k | RoFailed k => k end.

Definition ro_is_success (o : RecoveryOutcome) : bool :=
  match o with RoFailed _ => false | _ => true end.

Definition ro_is_committed (o : RecoveryOutcome) : bool :=
  match o with RoCompleted _ => true | _ => false end.

(** ** [ContinuityReport]: a [BTreeMap], here its entries in key order *)

Abbreviation ContinuityReport := (list (TierId * ContinuityState)).

Definition report_get (r : ContinuityReport) (t : TierId) : option ContinuityState :=
  snd <$> List.find (fun p => bool_decide (fst p = t)) r.

Definition report_state (r : ContinuityReport) (t : TierId) : ContinuityState :=
  default CsUnavailable (report_get r t).

Definition report_serving (r : ContinuityReport) : list TierId :=
  map fst (List.filter (fun p => cs_is_serving (snd p)) r).

Definition report_all_healthy (r : ContinuityReport) : bool :=
  match r with
  | [] => false
  | _ => forallb (fun p => bool_decide (snd p = CsHealthy)) r
  end.

Definition FAILURE_THRESHOLD : Z := 5.

(** Five seconds, in nanoseconds. *)
Definition INTENT_RECOVERY_AGE : Duration := 5000000000%Z.

(** ** Lemmas *)

Lemma cs_parse_name s : cs_parse (cs_name s) = Some s.
Proof. by destruct s. Qed.

Lemma for_kind_executable k : is_executable_here (for_kind k) = true <-> k = Write.
Proof. by destruct k. Qed.

#[export] Hint Rewrite cs_parse_name : thesix.
