(* ===== verification/Policy.v ===== *)
(** * Policy selection

    Models [src/policy.rs]: operations, requests, decisions, the ladder bound
    and the two policies of the crate. A policy is an implementation of the
    [CachePolicy] interface. *)

From S2P Require Import Prelude Entry Key Tier.

Inductive CacheOperation : Type :=
| OpGet | OpSet | OpRemove | OpInvalidate | OpRefresh | OpExists | OpPromote | OpDemote.

#[export] Instance CacheOperation_eq_dec : EqDecision CacheOperation.
Proof. solve_decision. Defined.

Inductive PopulationStrategy : Type := SingleFlight | AllowDuplicate.

Inductive FailMode : Type := FailOpen | FailClosed.

#[export] Instance FailMode_eq_dec : EqDecision FailMode.
Proof. solve_decision. Defined.

Record CacheRequest (K V : Type) : Type := mkRequest {
  rq_operation : CacheOperation;
  rq_key : K;
  rq_value : option V;
  rq_ttl : option Duration;
  rq_entry_size : Z;
  rq_cost : Z;
  rq_latency_budget : option Duration
}.
Arguments mkRequest {K V}.
Arguments rq_operation {K V} _.
Arguments rq_key {K V} _.

Definition CacheRequest_new {K V} (op : CacheOperation) (key : K) : CacheRequest K V :=
  mkRequest op key None None 0 0 None.

Definition request_with_ttl {K V} (r : CacheRequest K V) (ttl : Duration) : CacheRequest K V :=
  mkRequest (rq_operation r) (rq_key r) (rq_value _ _ r) (Some ttl) (rq_entry_size _ _ r)
    (rq_cost _ _ r) (rq_latency_budget _ _ r).

Record CacheState : Type := mkCacheState {
  cst_entry_state : EntryState;
  cst_generation : Generation;
  cst_tier : TierId;
  cst_tier_health : TierHealth;
  cst_expiration : option Instant
}.

Definition CacheState_new : CacheState := mkCacheState Absent 0 L0 TierHealth_default None.

Record PolicyDecision : Type := mkDecision {
  pd_authorized : bool;
  pd_tier : TierId;
  pd_operation : CacheOperation;
  pd_population : PopulationStrategy;
  pd_fail_mode : FailMode
}.

Definition decision_allow (t : TierId) : PolicyDecision :=
  mkDecision true t OpGet SingleFlight FailOpen.

Definition decision_deny : PolicyDecision :=
  mkDecision false L0 OpGet SingleFlight FailClosed.

Definition decision_set_tier (d : PolicyDecision) (t : TierId) : PolicyDecision :=
  mkDecision (pd_authorized d) t (pd_operation d) (pd_population d) (pd_fail_mode d).

Definition decision_set_fail_mode (d : PolicyDecision) (m : FailMode) : PolicyDecision :=
  mkDecision (pd_authorized d) (pd_tier d) (pd_operation d) (pd_population d) m.

Definition LAST_CACHE_TIER : TierId := L5.

Definition cache_ladder : list TierId := [L0; L1; L2; L3; L4; L5].

Definition AUTHORITY_TIER : TierId := L6.

(** ** The [CachePolicy] interface *)

Class CachePolicy (P K V : Type) :=
  select : P -> CacheRequest K V -> CacheState -> IdentityContext -> PolicyDecision.

(** ** [DefaultPolicy] *)

Inductive DefaultPolicy : Type := mkDefaultPolicy.

Definition base_tier (op : CacheOperation) (current : TierId) : TierId :=
  match op with
  | OpGet => current
  | OpSet => L1
  | OpRemove | OpInvalidate | OpRefresh | OpExists | OpPromote | OpDemote => L0
  end.

(** The body of the [for] loop, run at most [n] more times. *)
Fixpoint fallback_index (n idx : nat) : nat :=
  match n with
  | O => idx
  | S n' => if as_usize LAST_CACHE_TIER <=? idx then idx else fallback_index n' (idx + 1)
  end.

Definition healthy_fallback (start : TierId) (st : CacheState) : TierId :=
  if negb (health_circuit_open (cst_tier_health st)) || negb (bool_decide (cst_tier st = start))
  then start
  else default LAST_CACHE_TIER
         (from_usize (fallback_index (as_usize LAST_CACHE_TIER) (as_usize start))).

Definition capacity_fallback (start : TierId) (st : CacheState) : TierId :=
  if negb (bool_decide (cst_tier st = start))
     || f64_ltb f64_zero (availability (cst_tier_health st))
  then start
  else default LAST_CACHE_TIER
         (from_usize (Nat.min (as_usize start + 1) (as_usize LAST_CACHE_TIER))).

Definition default_select {K V} (rq : CacheRequest K V) (st : CacheState) : PolicyDecision :=
  let d := decision_allow (base_tier (rq_operation rq) (cst_tier st)) in
  let d := mkDecision (pd_authorized d) (pd_tier d) (rq_operation rq)
             (pd_population d) (pd_fail_mode d) in
  let d := decision_set_tier d (healthy_fallback (pd_tier d) st) in
  match rq_operation rq with
  | OpSet | OpRefresh => decision_set_tier d (capacity_fallback (pd_tier d) st)
  | _ => d
  end.

#[export] Instance CachePolicy_default K V : CachePolicy DefaultPolicy K V :=
  fun _ rq st _ => default_select rq st.

(** ** [StrictPolicy] *)

Inductive StrictPolicy : Type := mkStrictPolicy.

Definition mutating (op : CacheOperation) : bool :=
  match op with
  | OpSet | OpRemove | OpInvalidate | OpRefresh | OpPromote | OpDemote => true
  | OpGet | OpExists => false
  end.

#[export] Instance CachePolicy_strict K V : CachePolicy StrictPolicy K V :=
  fun _ rq st who =>
    if mutating (rq_operation rq) && negb (identity_is_authenticated who)
    then decision_deny
    else default_select rq st.

(** ** Lemmas *)

Lemma healthy_fallback_cases start st :
  healthy_fallback start st = start \/ healthy_fallback start st = L5.
Proof. unfold healthy_fallback. destruct (_ || _); [by left|]. destruct start; cbn; auto. Qed.

Lemma capacity_fallback_cache start st :
  is_cache_rung start = true -> is_cache_rung (capacity_fallback start st) = true.
Proof. unfold capacity_fallback. intros H. destruct (_ || _); [done|]. by destruct start. Qed.

Lemma default_select_tier {K V} (rq : CacheRequest K V) st :
  pd_tier (default_select rq st) =
  let t := healthy_fallback (base_tier (rq_operation rq) (cst_tier st)) st in
  match rq_operation rq with OpSet | OpRefresh => capacity_fallback t st | _ => t end.
Proof. unfold default_select. by destruct (rq_operation rq). Qed.

(** The default policy never routes a request onto the authority rung: it
    allows every request and, whatever health and capacity say, picks a cache
    rung unless it is asked to read an entry that already sits on the authority. *)
Theorem default_policy_stays_in_ladder {K V} (rq : CacheRequest K V) (st : CacheState)
    (who : IdentityContext)
    (Hget : rq_operation rq = OpGet -> is_cache_rung (cst_tier st) = true) :
  let d := select (P := DefaultPolicy) mkDefaultPolicy rq st who in
  pd_authorized d = true /\ pd_operation d = rq_operation rq /\
  is_cache_rung (pd_tier d) = true.
Proof.
  intros d. subst d. unfold select, CachePolicy_default.
  repeat split; [unfold default_select; by destruct (rq_operation rq)..|].
  rewrite default_select_tier. cbn zeta.
  assert (is_cache_rung (base_tier (rq_operation rq) (cst_tier st)) = true) as Hb.
  { destruct (rq_operation rq); cbn in *; auto. }
  assert (is_cache_rung (healthy_fallback (base_tier (rq_operation rq) (cst_tier st)) st) = true).
  { by destruct (healthy_fallback_cases (base_tier (rq_operation rq) (cst_tier st)) st) as [-> | ->]. }
  destruct (rq_operation rq); auto using capacity_fallback_cache.
Qed.

Lemma default_policy_stays_in_ladder_witness :
  let d := select (P := DefaultPolicy) mkDefaultPolicy
             (CacheRequest_new (V := nat) OpGet 7) CacheState_new IdentityContext_anonymous in
  pd_authorized d = true /\ pd_operation d = OpGet /\ is_cache_rung (pd_tier d) = true.
Proof.
  exact (default_policy_stays_in_ladder (CacheRequest_new (V := nat) OpGet 7) CacheState_new
           IdentityContext_anonymous (fun _ => eq_refl)).
Defined.

(** The strict policy denies exactly the mutating requests of anonymous
    callers and otherwise decides as the default policy does. *)
Theorem strict_policy_denies_anonymous_mutations {K V} (rq : CacheRequest K V)
    (st : CacheState) (who : IdentityContext) :
  let d := select (P := StrictPolicy) mkStrictPolicy rq st who in
  (pd_authorized d = false <-> mutating (rq_operation rq) = true /\ principal who = []) /\
  (pd_authorized d = true -> d = select (P := DefaultPolicy) mkDefaultPolicy rq st who).
Proof.
  unfold select, CachePolicy_strict, CachePolicy_default, identity_is_authenticated.
  assert (pd_authorized (default_select rq st) = true) as Hok
    by (unfold default_select; by destruct (rq_operation rq)).
  destruct (mutating (rq_operation rq)); cbn; destruct (principal who); cbn;
    rewrite ?Hok; intuition congruence.
Qed.
