(* ===== verification/Probe.v ===== *)
(** * Open addressing

    The probe loop shared by the control plane's [Shard] and the data plane's
    [FixedTierStub]: start at a slot, look at it, stop or step to the next
    one, at most [len] times. What a slot means to the search is a parameter. *)

From S2P Require Import Prelude.

Inductive verdict : Type := Found | NotFound | Next.

(** The loop [while attempts < entries.len()] with [fuel] attempts left. *)
Fixpoint probe {S : Type} (visit : option S -> verdict) (slots : list (option S))
    (fuel idx : nat) : option nat :=
  match fuel with
  | O => None
  | Datatypes.S fuel' =>
      match slots !! idx with
      | None => None
      | Some s =>
          match visit s with
          | Found => Some idx
          | NotFound => None
          | Next => probe visit slots fuel' ((idx + 1) mod length slots)
          end
      end
  end.

(** The whole search: an empty table holds nothing; otherwise start at the
    placement modulo the table size. *)
Definition search {S : Type} (visit : option S -> verdict) (slots : list (option S))
    (placement : Z) : option nat :=
  match slots with
  | [] => None
  | _ => probe visit slots (length slots)
           (Z.to_nat (placement mod Z.of_nat (length slots)))
  end.

(** How many slots are occupied. *)
Fixpoint occupied {S : Type} (slots : list (option S)) : nat :=
  match slots with
  | [] => 0
  | Some _ :: l => Datatypes.S (occupied l)
  | None :: l => occupied l
  end.

(** ** The searches, described by displacement from the start *)

Section probe_spec.
Context {S : Type} (visit : option S -> verdict) (slots : list (option S)).

(** The slot [n] steps after [i] is [s] with verdict [v]. *)
Definition sees (i n : nat) (v : verdict) : Prop :=
  exists s, slots !! ((i + n) mod length slots) = Some s /\ visit s = v.

Lemma sees_fun i n v1 v2 : sees i n v1 -> sees i n v2 -> v1 = v2.
Proof. intros (s & Hs & <-) (s' & Hs' & <-). congruence. Qed.

Lemma sees_shift i n v :
  slots <> [] -> sees ((i + 1) mod length slots) n v <-> sees i (Datatypes.S n) v.
Proof.
  intros Hne. unfold sees. rewrite Nat.Div0.add_mod_idemp_l.
  by replace (i + 1 + n) with (i + Datatypes.S n) by lia.
Qed.

Lemma sees_0 i s v :
  i < length slots -> slots !! i = Some s -> visit s = v -> sees i 0 v.
Proof. intros Hi Hs Hv. exists s. by rewrite Nat.add_0_r, Nat.mod_small. Qed.

Lemma probe_Some f i j :
  i < length slots ->
  probe visit slots f i = Some j <->
  exists n, n < f /\ j = (i + n) mod length slots /\ sees i n Found /\
            (forall m, m < n -> sees i m Next).
Proof.
  revert i. induction f as [|f IH]; intros i Hi; cbn.
  { split; [done|]. intros (n & Hn & _). lia. }
  assert (slots <> []) as Hne by (intros ->; cbn in Hi; lia).
  destruct (lookup_lt_is_Some_2 _ _ Hi) as [s Hs]. rewrite Hs.
  assert ((i + 1) mod length slots < length slots) as Hi' by (by apply mod_lt_length).
  pose proof (sees_0 i s (visit s) Hi Hs eq_refl) as Hsee0.
  destruct (visit s) eqn:Hv.
  - split.
    + intros [= <-]. exists 0. rewrite Nat.add_0_r, Nat.mod_small by done.
      repeat split; [lia|done|]. intros m Hm. lia.
    + intros ([|n] & Hn & -> & _ & Hpre); [by rewrite Nat.add_0_r, Nat.mod_small|].
      by pose proof (sees_fun _ _ _ _ Hsee0 (Hpre 0 ltac:(lia))).
  - split; [done|]. intros ([|n] & Hn & _ & Hf & Hpre).
    + by pose proof (sees_fun _ _ _ _ Hsee0 Hf).
    + by pose proof (sees_fun _ _ _ _ Hsee0 (Hpre 0 ltac:(lia))).
  - rewrite (IH _ Hi'). split.
    + intros (n & Hn & Hj & Hf & Hpre). exists (Datatypes.S n). repeat split; [lia| | |].
      * rewrite Hj, Nat.Div0.add_mod_idemp_l. f_equal. lia.
      * by apply sees_shift.
      * intros [|m] Hm; [done|]. apply sees_shift; [done|]. apply Hpre. lia.
    + intros ([|n] & Hn & Hj & Hf & Hpre).
      { by pose proof (sees_fun _ _ _ _ Hsee0 Hf). }
      exists n. repeat split; [lia| | |].
      * rewrite Hj, Nat.Div0.add_mod_idemp_l. f_equal. lia.
      * by apply sees_shift.
      * intros m Hm. apply sees_shift; [done|]. apply Hpre. lia.
Qed.

Lemma probe_None f i :
  i < length slots -> probe visit slots f i = None ->
  (exists n, n < f /\ sees i n NotFound /\ (forall m, m < n -> sees i m Next)) \/
  (forall m, m < f -> sees i m Next).
Proof.
  revert i. induction f as [|f IH]; intros i Hi; cbn.
  { intros _. right. intros m Hm. lia. }
  assert (slots <> []) as Hne by (intros ->; cbn in Hi; lia).
  destruct (lookup_lt_is_Some_2 _ _ Hi) as [s Hs]. rewrite Hs.
  assert ((i + 1) mod length slots < length slots) as Hi' by (by apply mod_lt_length).
  pose proof (sees_0 i s (visit s) Hi Hs eq_refl) as Hsee0.
  destruct (visit s) eqn:Hv; [done| |].
  - intros _. left. exists 0. repeat split; [lia|done|]. intros m Hm. lia.
  - intros H. destruct (IH _ Hi' H) as [(n & Hn & Hf & Hpre)|Hall].
    + left. exists (Datatypes.S n). repeat split; [lia|by apply sees_shift|].
      intros [|m] Hm; [done|]. apply sees_shift; [done|]. apply Hpre. lia.
    + right. intros [|m] Hm; [done|]. apply sees_shift; [done|]. apply Hall. lia.
Qed.
End probe_spec.

(** The start slot of a search. *)
Definition home {S} (slots : list (option S)) (placement : Z) : nat :=
  Z.to_nat (placement mod Z.of_nat (length slots)).

Lemma home_lt {S} (slots : list (option S)) p : slots <> [] -> home slots p < length slots.
Proof.
  intros Hne. unfold home. destruct slots as [|s l]; [done|].
  assert (0 < Z.of_nat (length (s :: l)))%Z by (cbn; lia).
  pose proof (Z.mod_pos_bound p (Z.of_nat (length (s :: l))) ltac:(lia)). lia.
Qed.

Lemma search_probe {S} (visit : option S -> verdict) slots p :
  slots <> [] -> search visit slots p = probe visit slots (length slots) (home slots p).
Proof. by destruct slots. Qed.

Lemma search_Some {S} (visit : option S -> verdict) slots p j :
  search visit slots p = Some j <->
  slots <> [] /\ exists n, n < length slots /\ j = (home slots p + n) mod length slots /\
    sees visit slots (home slots p) n Found /\
    (forall m, m < n -> sees visit slots (home slots p) m Next).
Proof.
  destruct (decide (slots = [])) as [->|Hne].
  { cbn. split; [done|by intros [? _]]. }
  rewrite search_probe by done. rewrite probe_Some by (by apply home_lt).
  split; [by intros ?|by intros [_ ?]].
Qed.

Lemma search_Some_lookup {S} (visit : option S -> verdict) slots p j :
  search visit slots p = Some j -> exists s, slots !! j = Some s /\ visit s = Found.
Proof. intros (_ & n & _ & -> & (s & Hs & Hv) & _)%search_Some. eauto. Qed.

Lemma search_Some_lt {S} (visit : option S -> verdict) slots p j :
  search visit slots p = Some j -> j < length slots.
Proof.
  intros (s & Hs & _)%search_Some_lookup. by apply lookup_lt_Some in Hs.
Qed.

Lemma search_None {S} (visit : option S -> verdict) slots p :
  search visit slots p = None ->
  slots = [] \/
  (exists n, n < length slots /\ sees visit slots (home slots p) n NotFound /\
     (forall m, m < n -> sees visit slots (home slots p) m Next)) \/
  (forall m, m < length slots -> sees visit slots (home slots p) m Next).
Proof.
  intros H. destruct (decide (slots = [])) as [->|Hne]; [by left|]. right.
  rewrite search_probe in H by done. apply probe_None; [by apply home_lt|done].
Qed.

(** Every slot is some displacement away from the start. *)
Lemma displacement len i j : i < len -> j < len -> exists n, n < len /\ (i + n) mod len = j.
Proof.
  intros Hi Hj. destruct (decide (i <= j)).
  - exists (j - i). split; [lia|]. rewrite Nat.mod_small by lia. lia.
  - exists (j + len - i). split; [lia|].
    replace (i + (j + len - i)) with (j + 1 * len) by lia.
    by rewrite Nat.Div0.mod_add, Nat.mod_small.
Qed.

Lemma displacement_inj len i m n :
  m < len -> n < len -> (i + m) mod len = (i + n) mod len -> m = n.
Proof.
  intros Hm Hn H.
  pose proof (Nat.div_mod_eq (i + m) len) as E1. pose proof (Nat.div_mod_eq (i + n) len) as E2.
  rewrite H in E1.
  assert ((i + m) / len = (i + n) / len \/ (i + m) / len + 1 <= (i + n) / len \/
          (i + n) / len + 1 <= (i + m) / len) as [Hq|[Hq|Hq]] by lia; nia.
Qed.

(** A search that exhausts the table saw [Next] everywhere. *)
Lemma search_exhausted {S} (visit : option S -> verdict) slots p :
  (forall s, s ∈ slots -> visit s <> NotFound) -> search visit slots p = None ->
  forall j s, slots !! j = Some s -> visit s = Next.
Proof.
  intros Hno Hnone j s Hj.
  assert (slots <> []) as Hne by (by intros ->).
  assert (j < length slots) as Hlt by (by apply lookup_lt_Some in Hj).
  destruct (displacement (length slots) (home slots p) j (home_lt slots p Hne) Hlt)
    as (n & Hn & Hdisp).
  destruct (search_None _ _ _ Hnone) as [?|[(k & Hk & (s' & Hs' & Hv) & _)|Hall]]; [done| |].
  - destruct (Hno s'); [|done]. by apply list_elem_of_lookup_2 in Hs'.
  - destruct (Hall n Hn) as (s' & Hs' & Hv). rewrite Hdisp in Hs'. congruence.
Qed.

(** ** Searches after a write *)

Lemma home_insert {S} (slots : list (option S)) p i o : home (<[i := o]> slots) p = home slots p.
Proof. unfold home. by rewrite length_insert. Qed.

Lemma insert_nonempty {S} (slots : list (option S)) i o : slots <> [] -> <[i := o]> slots <> [].
Proof. by destruct slots, i. Qed.

(** Writing a slot the search passes over does not move what it finds. *)
Lemma search_insert_other {S} (visit : option S -> verdict) slots p j i o :
  search visit slots p = Some j -> i <> j -> visit o = Next ->
  search visit (<[i := o]> slots) p = Some j.
Proof.
  rewrite !search_Some. intros (Hne & n & Hn & -> & Hf & Hpre) Hij Ho.
  split; [by apply insert_nonempty|]. rewrite home_insert. unfold sees in *.
  rewrite !length_insert. exists n. split_and!; [done|done| |].
  - destruct Hf as (s & Hs & Hv). exists s. by rewrite list_lookup_insert_ne.
  - intros m Hm. destruct (Hpre m Hm) as (s & Hs & Hv).
    destruct (decide (i = (home slots p + m) mod length slots)) as [->|Hi].
    + exists o. rewrite list_lookup_insert_eq; [done|]. by apply lookup_lt_Some in Hs.
    + exists s. by rewrite list_lookup_insert_ne.
Qed.

(** A second search that passes over what the first one passed over, run after
    the slot the first one found was rewritten, decides at that slot. *)
Lemma search_insert_self {S} (visit visit' : option S -> verdict) slots p i o :
  search visit slots p = Some i -> (forall x, visit x = Next -> visit' x = Next) ->
  visit' o <> Next ->
  search visit' (<[i := o]> slots) p = match visit' o with Found => Some i | _ => None end.
Proof.
  intros (Hne & n & Hn & Hi & Hf & Hpre)%search_Some Himp Ho.
  assert (Hlt : i < length slots) by (rewrite Hi; by apply mod_lt_length).
  assert (Hpre' : forall m, m < n -> sees visit' (<[i := o]> slots) (home slots p) m Next).
  { intros m Hm. destruct (Hpre m Hm) as (s & Hs & Hv). exists s. rewrite length_insert.
    rewrite list_lookup_insert_ne; [auto|]. rewrite Hi. intros Heq.
    apply displacement_inj in Heq; lia. }
  assert (Hsee : sees visit' (<[i := o]> slots) (home slots p) n (visit' o)).
  { exists o. by rewrite length_insert, <- Hi, list_lookup_insert_eq. }
  destruct (visit' o) eqn:Hv; [| |done].
  - apply search_Some. split; [by apply insert_nonempty|].
    rewrite home_insert, length_insert. by exists n.
  - destruct (search visit' _ p) as [j|] eqn:Hs; [|done]. exfalso.
    apply search_Some in Hs as (_ & k & _ & _ & Hk & Hkpre). rewrite home_insert in *.
    destruct (lt_eq_lt_dec k n) as [[Hlt'| ->]|Hgt].
    + by pose proof (sees_fun _ _ _ _ _ _ Hk (Hpre' k Hlt')).
    + by pose proof (sees_fun _ _ _ _ _ _ Hk Hsee).
    + by pose proof (sees_fun _ _ _ _ _ _ (Hkpre n Hgt) Hsee).
Qed.

(** A write that keeps a slot's verdict keeps the whole search. *)
Lemma search_insert_same {S} (visit : option S -> verdict) slots p i old o :
  slots !! i = Some old -> visit o = visit old ->
  search visit (<[i := o]> slots) p = search visit slots p.
Proof.
  intros Hi Hv. assert (Hne : slots <> []) by (by intros ->).
  rewrite !search_probe, home_insert, length_insert by (try apply insert_nonempty; done).
  generalize (home slots p). induction (length slots) as [|f IH] in |- *; intros k; cbn; [done|].
  rewrite length_insert. destruct (decide (i = k)) as [->|Hk].
  - rewrite list_lookup_insert_eq by (by apply lookup_lt_Some in Hi). rewrite Hi, Hv.
    destruct (visit old); [done..|]. apply IH.
  - rewrite list_lookup_insert_ne by done.
    destruct (slots !! k) as [x|]; [|done]. destruct (visit x); [done..|]. apply IH.
Qed.

(** ** Occupancy *)

Lemma occupied_le {S} (slots : list (option S)) : occupied slots <= length slots.
Proof. induction slots as [|[s|] l IH]; cbn; lia. Qed.

Definition used {A} (o : option A) : nat := match o with Some _ => 1 | None => 0 end.

Lemma occupied_insert {S} (slots : list (option S)) j (old new : option S) :
  slots !! j = Some old ->
  occupied (<[j := new]> slots) + used old = occupied slots + used new.
Proof.
  revert j. induction slots as [|s l IH]; intros [|j] Hj; [done|done| |].
  - cbn in Hj. injection Hj as ->. destruct old, new; cbn; lia.
  - specialize (IH j Hj). change (<[Datatypes.S j:=new]> (s :: l)) with (s :: <[j:=new]> l).
    destruct s; cbn [occupied]; lia.
Qed.

Lemma occupied_lt {S} (slots : list (option S)) j :
  slots !! j = Some None -> occupied slots < length slots.
Proof.
  revert j. induction slots as [|s l IH]; intros [|j] Hj; [done|done| |].
  - cbn in Hj. injection Hj as ->. cbn. pose proof (occupied_le l). lia.
  - specialize (IH j Hj). destruct s; cbn; lia.
Qed.

Lemma occupied_replicate {S} n : occupied (replicate n (@None S)) = 0.
Proof. induction n; cbn; lia. Qed.
