(* ===== verification/Pool.v ===== *)
(** * The fixed-capacity value pool

    Models [src/pool.rs]. A [Vec] used as a stack keeps its order; [push] and
    [pop] work at its end. *)

From S2P Require Import Prelude Entry.

Record MemoryPool (V : Type) : Type := mkPool {
  pool_slots : list (option V);
  free_indices : list nat;
  pool_capacity : nat
}.
Arguments mkPool {V}.
Arguments pool_slots {V} _.
Arguments free_indices {V} _.
Arguments pool_capacity {V} _.

(** [Vec::pop] *)
Definition vec_pop {A} (l : list A) : option (A * list A) :=
  match list.last l with
  | Some x => Some (x, removelast l)
  | None => None
  end.

Definition MemoryPool_new {V} (capacity : nat) : res (MemoryPool V) :=
  if capacity =? 0 then Err ConfigurationError
  else Ok (mkPool (replicate capacity None) (seq 0 capacity) capacity).

Definition allocate {V} (self : MemoryPool V) (value : V) : res nat * MemoryPool V :=
  match vec_pop (free_indices self) with
  | Some (idx, rest) =>
      (Ok idx, mkPool (<[idx := Some value]> (pool_slots self)) rest (pool_capacity self))
  | None => (Err ConfigurationError, self)
  end.

Definition deallocate {V} (self : MemoryPool V) (idx : nat) : res unit * MemoryPool V :=
  if pool_capacity self <=? idx then (Err ConfigurationError, self)
  else
    (Ok tt, mkPool (<[idx := None]> (pool_slots self)) (free_indices self ++ [idx])
              (pool_capacity self)).

Definition pool_get {V} (self : MemoryPool V) (idx : nat) : option V :=
  if pool_capacity self <=? idx then None else mjoin (pool_slots self !! idx).

(** [if let Some(v) = pool.get_mut(idx) { *v = value }]: the pool with the value
    written through the reference, or nothing when there is no reference. *)
Definition pool_write {V} (self : MemoryPool V) (idx : nat) (value : V) : option (MemoryPool V) :=
  match pool_get self idx with
  | Some _ =>
      Some (mkPool (<[idx := Some value]> (pool_slots self)) (free_indices self)
              (pool_capacity self))
  | None => None
  end.

(** ** The invariant: the free list is the set of empty cells *)

Record pool_wf {V} (p : MemoryPool V) : Prop := {
  pwf_len : length (pool_slots p) = pool_capacity p;
  pwf_nodup : NoDup (free_indices p);
  pwf_free : forall i, i ∈ free_indices p <-> pool_slots p !! i = Some None
}.

Lemma vec_pop_spec {A} (l : list A) :
  match vec_pop l with Some (x, r) => l = r ++ [x] | None => l = [] end.
Proof.
  unfold vec_pop. destruct (list.last l) as [x|] eqn:Hl.
  - apply last_Some in Hl as [r ->]. by rewrite removelast_last.
  - by apply last_None.
Qed.

Lemma pool_new_wf {V} n (p : MemoryPool V) :
  MemoryPool_new n = Ok p -> pool_wf p /\ pool_capacity p = n /\ n <> 0 /\
  pool_slots p = replicate n None /\ length (free_indices p) = n.
Proof.
  unfold MemoryPool_new. destruct (Nat.eqb_spec n 0); [done|]. intros [= <-].
  repeat split; cbn; [by rewrite length_replicate|apply NoDup_seq| | |done|by rewrite length_seq].
  - intros H. apply lookup_replicate_2. apply elem_of_seq in H. lia.
  - intros [_ H]%lookup_replicate. apply elem_of_seq. lia.
Qed.

Lemma pool_get_lookup {V} (p : MemoryPool V) i v :
  pool_wf p -> pool_get p i = Some v <-> pool_slots p !! i = Some (Some v).
Proof.
  intros Hwf. unfold pool_get. destruct (Nat.leb_spec (pool_capacity p) i).
  - split; [done|]. intros Hi. apply lookup_lt_Some in Hi. rewrite pwf_len in Hi by done. lia.
  - destruct (pool_slots p !! i) as [[w|]|]; cbn; naive_solver.
Qed.

Lemma allocate_spec {V} (p : MemoryPool V) v :
  pool_wf p ->
  match allocate p v with
  | (Ok i, p') =>
      pool_slots p !! i = Some None /\ pool_slots p' = <[i := Some v]> (pool_slots p) /\
      pool_capacity p' = pool_capacity p /\ pool_wf p' /\
      S (length (free_indices p')) = length (free_indices p)
  | (Err e, p') => e = ConfigurationError /\ p' = p /\ free_indices p = []
  end.
Proof.
  intros [Hlen Hnd Hfree]. unfold allocate.
  pose proof (vec_pop_spec (free_indices p)) as Hpop.
  destruct (vec_pop (free_indices p)) as [[i r]|]; [|done].
  rewrite Hpop in *. apply NoDup_app in Hnd as (Hr & Hdisj & _).
  assert (pool_slots p !! i = Some None) as Hi
    by (apply Hfree, elem_of_app; right; by apply list_elem_of_singleton).
  repeat split; cbn; [done|by rewrite length_insert|done| | |rewrite length_app; cbn; lia].
  - intros Hj. rewrite list_lookup_insert_ne.
    + apply Hfree, elem_of_app. by left.
    + intros ->. apply (Hdisj _ Hj). by apply list_elem_of_singleton.
  - intros Hj. destruct (decide (i = i0)) as [->|Hne].
    { by rewrite list_lookup_insert_eq in Hj by (by apply lookup_lt_Some in Hi). }
    rewrite list_lookup_insert_ne in Hj by done.
    apply Hfree, elem_of_app in Hj as [?|Hj]; [done|].
    by apply list_elem_of_singleton in Hj.
Qed.

Lemma deallocate_spec {V} (p : MemoryPool V) i v :
  pool_wf p -> pool_slots p !! i = Some (Some v) ->
  exists p', deallocate p i = (Ok tt, p') /\ pool_slots p' = <[i := None]> (pool_slots p) /\
    pool_capacity p' = pool_capacity p /\ pool_wf p' /\
    length (free_indices p') = S (length (free_indices p)).
Proof.
  intros [Hlen Hnd Hfree] Hi.
  assert (i < length (pool_slots p)) as Hlt by (by apply lookup_lt_Some in Hi).
  unfold deallocate. destruct (Nat.leb_spec (pool_capacity p) i); [lia|].
  assert (i ∉ free_indices p) as Hni by (intros Hin%Hfree; congruence).
  eexists. split; [done|]. cbn.
  repeat split; cbn; [by rewrite length_insert| | | |rewrite length_app; cbn; lia].
  - apply NoDup_app. repeat split; [done| |apply NoDup_singleton].
    intros x Hx ->%list_elem_of_singleton. done.
  - intros [Hj|Hj]%elem_of_app.
    + rewrite list_lookup_insert_ne; [by apply Hfree|]. by intros ->.
    + apply list_elem_of_singleton in Hj as ->. by apply list_lookup_insert_eq.
  - intros Hj. apply elem_of_app. destruct (decide (i = i0)) as [->|Hne].
    + right. by apply list_elem_of_singleton.
    + left. rewrite list_lookup_insert_ne in Hj by done. by apply Hfree.
Qed.

Lemma pool_write_spec {V} (p : MemoryPool V) i v w :
  pool_wf p -> pool_slots p !! i = Some (Some w) ->
  exists p', pool_write p i v = Some p' /\ pool_slots p' = <[i := Some v]> (pool_slots p) /\
    pool_capacity p' = pool_capacity p /\ pool_wf p' /\
    free_indices p' = free_indices p.
Proof.
  intros Hwf Hi. unfold pool_write.
  rewrite (proj2 (pool_get_lookup p i w Hwf) Hi). destruct Hwf as [Hlen Hnd Hfree].
  eexists. split; [done|]. cbn. repeat split; cbn; [by rewrite length_insert|done| | ].
  - intros Hj%Hfree. rewrite list_lookup_insert_ne; [done|]. intros ->. congruence.
  - intros Hj. destruct (decide (i = i0)) as [->|Hne].
    + by rewrite list_lookup_insert_eq in Hj by (by apply lookup_lt_Some in Hi).
    + rewrite list_lookup_insert_ne in Hj by done. by apply Hfree.
Qed.
