(* ===== verification/TierTrait.v ===== *)
(** * The data-plane interface

    Models the trait [CacheTier] of [src/tier/trait.rs] and the laws its
    clients rely on. A tier is a state [T]; an operation takes the current
    instant where the code reads the clock and returns the new state. The
    shard cursor is the [static CURSOR] every sharded tier of the process
    shares, so the operation that advances it threads it. *)

From S2P Require Import Prelude Entry Integrity Tier Capability.
From Stdlib Require Import String.

(** [IntegrityCheck]: how a value is digested. *)
Class IntegrityCheck (V : Type) := digest_of : V -> Z.

(** The blanket implementation for every [Hash] type. *)
#[export] Instance IntegrityCheck_hash V `{RustHash V} : IntegrityCheck V := content_digest.

(** The standard library's [DefaultHasher], applied to a key's bytes. Its
    algorithm is unspecified, so it is a parameter. *)
Class DefaultHasher := default_hasher : bytes -> Z.

Class CacheTier (V T : Type) := {
  tier_name : T -> string;
  backend : T -> BackendKind;
  capability : T -> TierCapability;
  eviction_candidate : Instant -> Z -> T -> option KeyAddress * Z * T;
  capacity : T -> option nat;
  remove_if_address : KeyAddress -> T -> res bool * T;
  tier_get : Instant -> bytes -> T -> res (option V) * T;
  tier_set : Instant -> bytes -> V -> option Duration -> T -> res unit * T;
  tier_remove : Instant -> bytes -> T -> res unit * T;
  tier_contains : Instant -> bytes -> T -> res bool * T;
  health : Z -> T -> TierHealth;
  tier_id : T -> TierId
}.

(** The trait's provided methods, as a tier that does not override them has
    them. *)
Definition default_capability (b : BackendKind) : TierCapability :=
  mkCapability b EMPTY OsUnavailable DcVolatile.

Definition default_eviction_candidate {T} (cursor : Z) (self : T) : option KeyAddress * Z * T :=
  (None, cursor, self).

Definition default_capacity {T} (self : T) : option nat := None.

Definition default_remove_if_address {T} (address : KeyAddress) (self : T) : res bool * T :=
  (Ok false, self).

(** A write with this TTL is still alive at [now'] if made at [now]. *)
Definition ttl_live (ttl : option Duration) (now now' : Instant) : Prop :=
  match ttl with None => True | Some t => (elapsed now' now < t)%Z end.

#[export] Instance ttl_live_dec ttl now now' : Decision (ttl_live ttl now now').
Proof. destruct ttl; cbn; apply _. Defined.

(** ** What a storing tier promises to the manager

    [tier_ok] is the tier's own invariant. [holds t now k v] says a read of
    [k] at [now] is served [v]. *)
Definition holds {V T} `{CacheTier V T} (t : T) (now : Instant) (k : bytes) (v : V) : Prop :=
  fst (tier_get now k t) = Ok (Some v).

Class TierLaws (V T : Type) `{CacheTier V T} := {
  tier_ok : T -> Prop;
  (** the keys this tier tells apart *)
  tier_separates : T -> bytes -> bytes -> Prop;
  law_set_ok : forall now k v ttl t, tier_ok t -> tier_ok (snd (tier_set now k v ttl t));
  law_get_ok : forall now k t, tier_ok t -> tier_ok (snd (tier_get now k t));
  law_remove_ok : forall now k t, tier_ok t -> tier_ok (snd (tier_remove now k t));
  law_contains_ok : forall now k t, tier_ok t -> tier_ok (snd (tier_contains now k t));
  law_evict_ok : forall now c t, tier_ok t -> tier_ok (snd (eviction_candidate now c t));
  law_reclaim_ok : forall a t, tier_ok t -> tier_ok (snd (remove_if_address a t));
  (** read your write *)
  law_set_get : forall now now' k v ttl t t',
    tier_ok t -> tier_set now k v ttl t = (Ok tt, t') -> (now <= now')%Z ->
    ttl_live ttl now now' -> holds t' now' k v;
  (** a write disturbs no other key *)
  law_set_frame : forall now k1 k2 v w ttl t,
    tier_ok t -> tier_separates t k1 k2 -> holds t now k2 w ->
    holds (snd (tier_set now k1 v ttl t)) now k2 w;
  (** a rung keeps its identity *)
  law_id_set : forall now k v ttl t, tier_id (snd (tier_set now k v ttl t)) = tier_id t;
  law_id_get : forall now k t, tier_id (snd (tier_get now k t)) = tier_id t;
  law_id_remove : forall now k t, tier_id (snd (tier_remove now k t)) = tier_id t;
  law_id_evict : forall now c t, tier_id (snd (eviction_candidate now c t)) = tier_id t;
  law_id_reclaim : forall a t, tier_id (snd (remove_if_address a t)) = tier_id t
}.

(** ** [dyn CacheTier]

    A slot that holds one of two kinds of tier dispatches to the one it
    holds. *)
Definition on_left {A T1 T2} (r : A * T1) : A * (T1 + T2) := (fst r, inl (snd r)).
Definition on_right {A T1 T2} (r : A * T2) : A * (T1 + T2) := (fst r, inr (snd r)).

#[export] Instance CacheTier_sum {V T1 T2} `{CacheTier V T1} `{CacheTier V T2} :
    CacheTier V (T1 + T2) := {|
  tier_name := fun self => match self with inl t => tier_name t | inr t => tier_name t end;
  backend := fun self => match self with inl t => backend t | inr t => backend t end;
  capability := fun self => match self with inl t => capability t | inr t => capability t end;
  eviction_candidate := fun now cursor self =>
    match self with
    | inl t => on_left (eviction_candidate now cursor t)
    | inr t => on_right (eviction_candidate now cursor t)
    end;
  capacity := fun self => match self with inl t => capacity t | inr t => capacity t end;
  remove_if_address := fun a self =>
    match self with
    | inl t => on_left (remove_if_address a t)
    | inr t => on_right (remove_if_address a t)
    end;
  tier_get := fun now key self =>
    match self with inl t => on_left (tier_get now key t) | inr t => on_right (tier_get now key t) end;
  tier_set := fun now key value ttl self =>
    match self with
    | inl t => on_left (tier_set now key value ttl t)
    | inr t => on_right (tier_set now key value ttl t)
    end;
  tier_remove := fun now key self =>
    match self with
    | inl t => on_left (tier_remove now key t)
    | inr t => on_right (tier_remove now key t)
    end;
  tier_contains := fun now key self =>
    match self with
    | inl t => on_left (tier_contains now key t)
    | inr t => on_right (tier_contains now key t)
    end;
  health := fun wall self => match self with inl t => health wall t | inr t => health wall t end;
  tier_id := fun self => match self with inl t => tier_id t | inr t => tier_id t end
|}.
