(* ===== verification/FixedTier.v ===== *)
(** * The fixed-capacity tier table

    Models [src/tier/fixed_tier_stub.rs]: a pre-allocated value pool and an
    open-addressed index over it, with a fingerprint, a digest, a TTL and the
    control-plane address in every slot. *)

From S2P Require Import Prelude Entry Integrity Probe Pool TierTrait.

Record Slot : Type := mkSlot {
  sl_placement : Z;
  sl_fingerprint : Z;
  sl_digest : Z;
  sl_pool_idx : nat;
  sl_expiry : option (Instant * Duration);
  sl_address : KeyAddress
}.

Definition slot_is_expired (now : Instant) (s : Slot) : bool :=
  match sl_expiry s with
  | Some (armed, ttl) => (ttl <=? elapsed now armed)%Z
  | None => false
  end.

Record FixedTierStub (V : Type) : Type := mkFixed {
  ft_pool : MemoryPool V;
  ft_slots : list (option Slot);
  ft_placement : Placement;
  ft_corruptions : Z;
  ft_cursor : Z
}.
Arguments mkFixed {V}.
Arguments ft_pool {V} _.
Arguments ft_slots {V} _.
Arguments ft_placement {V} _.
Arguments ft_corruptions {V} _.
Arguments ft_cursor {V} _.

Definition ft_with_capacity {V} (cap : nat) : res (FixedTierStub V) :=
  if cap =? 0 then Err ConfigurationError
  else
    let? pool := MemoryPool_new cap in
    Ok (mkFixed pool (replicate cap None) PlaceDefault 0 0).

Definition ft_with_placement {V} (self : FixedTierStub V) (p : Placement) : FixedTierStub V :=
  mkFixed (ft_pool self) (ft_slots self) p (ft_corruptions self) (ft_cursor self).

Definition ft_capacity {V} (self : FixedTierStub V) : nat := length (ft_slots self).

Definition placement_of {V} (self : FixedTierStub V) (key : bytes) : Z :=
  Placement_hash (ft_placement self) key.

(** [s.placement == placement && s.fingerprint == fingerprint] *)
Definition slot_matches (p f : Z) (s : Slot) : bool :=
  (sl_placement s =? p)%Z && (sl_fingerprint s =? f)%Z.

(** One step of [find_slot]: an empty slot is not proof of absence. *)
Definition lookup_visit (now : Instant) (p f : Z) (o : option Slot) : verdict :=
  match o with
  | Some s => if slot_matches p f s then (if slot_is_expired now s then NotFound else Found)
              else Next
  | None => Next
  end.

Definition ft_find_slot {V} (now : Instant) (self : FixedTierStub V) (p f : Z) : option nat :=
  search (lookup_visit now p f) (ft_slots self) p.

(** One step of [find_empty]. *)
Definition empty_visit (now : Instant) (p f : Z) (o : option Slot) : verdict :=
  match o with
  | None => Found
  | Some s => if slot_matches p f s then Found
              else if slot_is_expired now s then Found else Next
  end.

Definition ft_find_empty {V} (now : Instant) (self : FixedTierStub V) (p f : Z) : option nat :=
  search (empty_visit now p f) (ft_slots self) p.

Definition ft_get {V} `{IntegrityCheck V} (now : Instant) (key : bytes) (self : FixedTierStub V) :
    res (option V) * FixedTierStub V :=
  let p := placement_of self key in
  let f := KeyFingerprint_of key in
  match ft_find_slot now self p f with
  | None => (Ok None, self)
  | Some idx =>
      match mjoin (ft_slots self !! idx) with
      | None => (Ok None, self)
      | Some slot =>
          match pool_get (ft_pool self) (sl_pool_idx slot) with
          | None => (Ok None, self)
          | Some value =>
              if (digest_of value =? sl_digest slot)%Z then (Ok (Some value), self)
              else (Err Corrupted,
                    mkFixed (ft_pool self) (ft_slots self) (ft_placement self)
                      (add64 (ft_corruptions self) 1) (ft_cursor self))
          end
      end
  end.

(** Where the value of a (re)written slot goes: the slot's own pool cell when
    it has one, a fresh cell otherwise. *)
Definition ft_place_value {V} (pool : MemoryPool V) (old : option Slot) (value : V) :
    res nat * MemoryPool V :=
  match old with
  | Some s =>
      match pool_write pool (sl_pool_idx s) value with
      | Some pool' => (Ok (sl_pool_idx s), pool')
      | None => allocate pool value
      end
  | None => allocate pool value
  end.

Definition ft_set {V} `{IntegrityCheck V} (now : Instant) (key : bytes) (value : V)
    (ttl : option Duration) (self : FixedTierStub V) : res unit * FixedTierStub V :=
  let p := placement_of self key in
  let f := KeyFingerprint_of key in
  let digest := digest_of value in
  match ft_find_empty now self p f with
  | Some idx =>
      match ft_place_value (ft_pool self) (mjoin (ft_slots self !! idx)) value with
      | (Ok pool_idx, pool') =>
          let slot := mkSlot p f digest pool_idx (option_map (fun t => (now, t)) ttl)
                        (KeyAddress_of key (ft_placement self)) in
          (Ok tt, mkFixed pool' (<[idx := Some slot]> (ft_slots self)) (ft_placement self)
                    (ft_corruptions self) (ft_cursor self))
      | (Err e, pool') =>
          (Err e, mkFixed pool' (ft_slots self) (ft_placement self)
                    (ft_corruptions self) (ft_cursor self))
      end
  | None => (Err CapacityExhausted, self)
  end.

(** [self.slots[idx].take()] followed by [let _ = self.pool.deallocate(..)]. *)
Definition ft_take {V} (self : FixedTierStub V) (idx : nat) : FixedTierStub V :=
  match mjoin (ft_slots self !! idx) with
  | Some slot =>
      mkFixed (snd (deallocate (ft_pool self) (sl_pool_idx slot)))
        (<[idx := None]> (ft_slots self)) (ft_placement self) (ft_corruptions self)
        (ft_cursor self)
  | None => self
  end.

Definition ft_remove {V} (now : Instant) (key : bytes) (self : FixedTierStub V) :
    res unit * FixedTierStub V :=
  match ft_find_slot now self (placement_of self key) (KeyFingerprint_of key) with
  | Some idx => (Ok tt, ft_take self idx)
  | None => (Ok tt, self)
  end.

Definition ft_contains {V} (now : Instant) (key : bytes) (self : FixedTierStub V) :
    res bool * FixedTierStub V :=
  (Ok (bool_decide (is_Some
         (ft_find_slot now self (placement_of self key) (KeyFingerprint_of key)))), self).

(** [corrupt_stored_value_for_test] *)
Definition ft_corrupt {V} (now : Instant) (key : bytes) (replacement : V)
    (self : FixedTierStub V) : res bool * FixedTierStub V :=
  match ft_find_slot now self (placement_of self key) (KeyFingerprint_of key) with
  | None => (Ok false, self)
  | Some idx =>
      match mjoin (ft_slots self !! idx) with
      | None => (Ok false, self)
      | Some slot =>
          (Ok true,
           mkFixed (default (ft_pool self)
                      (pool_write (ft_pool self) (sl_pool_idx slot) replacement))
             (ft_slots self) (ft_placement self) (ft_corruptions self) (ft_cursor self))
      end
  end.

(** The scan [for offset in 0..n] of [eviction_candidate], from [offset] on. *)
Fixpoint scan_live (now : Instant) (slots : list (option Slot)) (start fuel offset : nat) :
    option (nat * Slot) :=
  match fuel with
  | O => None
  | S fuel' =>
      let idx := (start + offset) mod length slots in
      match mjoin (slots !! idx) with
      | Some s => if negb (slot_is_expired now s) then Some (idx, s)
                  else scan_live now slots start fuel' (S offset)
      | None => scan_live now slots start fuel' (S offset)
      end
  end.

(** [self.slots.iter().flatten().next()] *)
Fixpoint first_slot (slots : list (option Slot)) : option Slot :=
  match slots with
  | [] => None
  | Some s :: _ => Some s
  | None :: l => first_slot l
  end.

Definition ft_set_cursor {V} (self : FixedTierStub V) (c : Z) : FixedTierStub V :=
  mkFixed (ft_pool self) (ft_slots self) (ft_placement self) (ft_corruptions self) c.

Definition ft_eviction_candidate {V} (now : Instant) (self : FixedTierStub V) :
    option KeyAddress * FixedTierStub V :=
  let n := length (ft_slots self) in
  if n =? 0 then (None, self)
  else
    let start := Z.to_nat (ft_cursor self mod Z.of_nat n)%Z in
    let self := ft_set_cursor self (add64 (ft_cursor self) 1) in
    match scan_live now (ft_slots self) start n 0 with
    | Some (idx, s) => (Some (sl_address s), ft_set_cursor self (Z.of_nat idx + 1)%Z)
    | None => (option_map sl_address (first_slot (ft_slots self)), self)
    end.

(** The scan [for idx in 0..n] of [remove_if_address], from [idx] on. *)
Fixpoint find_address (address : KeyAddress) (slots : list (option Slot)) (idx : nat) :
    option nat :=
  match slots with
  | [] => None
  | Some s :: l => if decide (sl_address s = address) then Some idx
                   else find_address address l (S idx)
  | None :: l => find_address address l (S idx)
  end.

Definition ft_remove_if_address {V} (address : KeyAddress) (self : FixedTierStub V) :
    res bool * FixedTierStub V :=
  match find_address address (ft_slots self) 0 with
  | Some idx => (Ok true, ft_take self idx)
  | None => (Ok false, self)
  end.

(** ** The invariant

    The occupied slots own distinct occupied pool cells, and together with the
    free list they account for every cell. *)

Record ft_wf {V} (t : FixedTierStub V) : Prop := {
  fwf_pool : pool_wf (ft_pool t);
  fwf_len : pool_capacity (ft_pool t) = length (ft_slots t);
  fwf_cell : forall i s, ft_slots t !! i = Some (Some s) ->
    exists v, pool_slots (ft_pool t) !! sl_pool_idx s = Some (Some v);
  fwf_inj : forall i j s s', ft_slots t !! i = Some (Some s) -> ft_slots t !! j = Some (Some s') ->
    sl_pool_idx s = sl_pool_idx s' -> i = j;
  fwf_count : length (free_indices (ft_pool t)) + occupied (ft_slots t) = length (ft_slots t);
  fwf_addr : forall i s, ft_slots t !! i = Some (Some s) ->
    sl_address s = mkAddress (sl_fingerprint s) (sl_placement s)
}.

(** The value a slot's pool cell holds. *)
Definition cell {V} (t : FixedTierStub V) (s : Slot) : option V :=
  mjoin (pool_slots (ft_pool t) !! sl_pool_idx s).

(** The pool cells the occupied slots own, slot by slot. *)
Definition owned_cells (slots : list (option Slot)) : list nat :=
  omap (fun o => sl_pool_idx <$> o) slots.

Lemma elem_of_owned_cells slots c :
  c ∈ owned_cells slots <-> exists i s, slots !! i = Some (Some s) /\ sl_pool_idx s = c.
Proof.
  unfold owned_cells. rewrite list_elem_of_omap. split.
  - intros ([s|] & Hin & Hs); [|done]. apply list_elem_of_lookup in Hin as [i Hi].
    exists i, s. cbn in Hs. split; [done|congruence].
  - intros (i & s & Hi & <-). exists (Some s). split; [by eapply list_elem_of_lookup_2|done].
Qed.

Lemma length_owned_cells slots : length (owned_cells slots) = occupied slots.
Proof.
  induction slots as [|[s|] slots IH]; [done| |exact IH]. exact (f_equal S IH).
Qed.

(** Distinct slots own distinct cells. *)
Lemma NoDup_owned_cells slots :
  (forall i j s s', slots !! i = Some (Some s) -> slots !! j = Some (Some s') ->
     sl_pool_idx s = sl_pool_idx s' -> i = j) ->
  NoDup (owned_cells slots).
Proof.
  intros Hinj. apply NoDup_omap_lookup. intros i j [s|] [s'|] c Hi Hj Hs Hs'; try done.
  apply (Hinj i j s s' Hi Hj). cbn in *. congruence.
Qed.

(** Every cell is on the free list or owned by one slot, and never both. *)
Lemma cells_partition {V} (t : FixedTierStub V) :
  ft_wf t -> free_indices (ft_pool t) ++ owned_cells (ft_slots t) ≡ₚ seq 0 (length (ft_slots t)).
Proof.
  intros Hwf. destruct (fwf_pool t Hwf) as [Hlen Hnd Hfree]. pose proof (fwf_len t Hwf) as Hcap.
  assert (Hlt : forall c (o : option V),
            pool_slots (ft_pool t) !! c = Some o -> c ∈ seq 0 (length (ft_slots t))).
  { intros c o Hc%lookup_lt_Some. rewrite elem_of_seq. lia. }
  apply submseteq_length_Permutation.
  - apply NoDup_submseteq.
    + apply NoDup_app. split_and!; [done| |apply NoDup_owned_cells, (fwf_inj t Hwf)].
      intros c Hc%Hfree (i & s & Hi & <-)%elem_of_owned_cells.
      destruct (fwf_cell t Hwf _ _ Hi). congruence.
    + intros c [Hc%Hfree|(i & s & Hi & <-)%elem_of_owned_cells]%elem_of_app; [eauto|].
      destruct (fwf_cell t Hwf _ _ Hi). eauto.
  - rewrite length_app, length_seq, length_owned_cells, (fwf_count t Hwf). lia.
Qed.

Section fixed_tier.
Context {V : Type} `{IntegrityCheck V}.
Implicit Types (t : FixedTierStub V) (s : Slot).

Lemma ft_new_wf n t : ft_with_capacity n = Ok t -> ft_wf t /\ length (ft_slots t) = n.
Proof.
  unfold ft_with_capacity. destruct (n =? 0); [done|].
  destruct (MemoryPool_new n) as [p|] eqn:Hp; cbn; [|done]. intros [= <-].
  apply pool_new_wf in Hp as (Hwf & Hcap & _ & Hsl & Hfree).
  split; cbn; [|by rewrite length_replicate].
  constructor; cbn; [done|by rewrite length_replicate| | | |].
  - by intros i s [? _]%lookup_replicate.
  - by intros i j s s' [? _]%lookup_replicate.
  - rewrite Hfree, occupied_replicate, length_replicate. lia.
  - by intros i s [? _]%lookup_replicate.
Qed.

Lemma slot_matches_spec p f s :
  slot_matches p f s = true <-> sl_placement s = p /\ sl_fingerprint s = f.
Proof. unfold slot_matches. rewrite andb_true_iff, !Z.eqb_eq. done. Qed.

(** Placing a value in slot [idx] yields a cell no other slot uses. *)
Lemma place_value_spec t idx old v :
  ft_wf t -> ft_slots t !! idx = Some old ->
  exists c pool', ft_place_value (ft_pool t) old v = (Ok c, pool') /\
    pool_slots pool' = <[c := Some v]> (pool_slots (ft_pool t)) /\
    c < length (pool_slots (ft_pool t)) /\
    pool_capacity pool' = pool_capacity (ft_pool t) /\ pool_wf pool' /\
    (forall j s, j <> idx -> ft_slots t !! j = Some (Some s) -> sl_pool_idx s <> c) /\
    length (free_indices pool') + 1 = length (free_indices (ft_pool t)) + used old.
Proof.
  intros Hwf Hidx. destruct old as [s|]; cbn [ft_place_value].
  - destruct (fwf_cell t Hwf _ _ Hidx) as [w Hw].
    destruct (pool_write_spec (ft_pool t) _ v w (fwf_pool t Hwf) Hw)
      as (pool' & -> & Hsl & Hcap & Hpwf & Hfree).
    exists (sl_pool_idx s), pool'. split_and!; try done; [by apply lookup_lt_Some in Hw| |].
    + intros j s' Hne Hj Heq. apply Hne. by eapply fwf_inj.
    + rewrite Hfree. cbn. lia.
  - pose proof (allocate_spec (ft_pool t) v (fwf_pool t Hwf)) as Halloc.
    destruct (allocate (ft_pool t) v) as [[c|e] pool'].
    + destruct Halloc as (Hc & Hsl & Hcap & Hpwf & Hfree).
      exists c, pool'. split_and!; try done; [by apply lookup_lt_Some in Hc| |cbn; lia].
      intros j s _ Hj Heq. destruct (fwf_cell t Hwf _ _ Hj). congruence.
    + destruct Halloc as (_ & _ & Hnil). pose proof (fwf_count t Hwf) as Hcount.
      apply occupied_lt in Hidx. rewrite Hnil in Hcount. cbn in Hcount. lia.
Qed.

(** [set] writes the slot [find_empty] chose, or reports a full table and
    changes nothing. *)
Lemma ft_set_eq now k v ttl t :
  ft_wf t ->
  match ft_find_empty now t (placement_of t k) (KeyFingerprint_of k) with
  | None => ft_set now k v ttl t = (Err CapacityExhausted, t)
  | Some idx => exists slot t',
      ft_set now k v ttl t = (Ok tt, t') /\ ft_wf t' /\
      idx < length (ft_slots t) /\ ft_slots t' = <[idx := Some slot]> (ft_slots t) /\
      ft_placement t' = ft_placement t /\ cell t' slot = Some v /\
      sl_digest slot = digest_of v /\ sl_expiry slot = option_map (fun d => (now, d)) ttl /\
      sl_placement slot = placement_of t k /\ sl_fingerprint slot = KeyFingerprint_of k /\
      (forall j s, j <> idx -> ft_slots t !! j = Some (Some s) -> cell t' s = cell t s)
  end.
Proof.
  intros Hwf. unfold ft_set.
  destruct (ft_find_empty now t _ _) as [idx|] eqn:Hfind; [|done].
  assert (Hlt : idx < length (ft_slots t)) by (by eapply search_Some_lt).
  destruct (lookup_lt_is_Some_2 _ _ Hlt) as [old Hold]. rewrite Hold. cbn [mjoin option_join].
  destruct (place_value_spec t idx old v Hwf Hold)
    as (c & pool' & -> & Hsl & Hclt & Hcap & Hpwf & Hother & Hfree).
  eexists _, _. split; [done|]. unfold cell; cbn.
  split; [|split_and!; try done].
  - constructor; cbn; [done|by rewrite Hcap, length_insert, (fwf_len t Hwf)| | | |].
    + intros j s [(-> & [= <-] & _)|[Hne Hj]]%list_lookup_insert_Some.
      * cbn. rewrite Hsl, list_lookup_insert_eq by done. eauto.
      * rewrite Hsl, list_lookup_insert_ne by (intros Hc; by eapply Hother).
        by eapply fwf_cell.
    + intros i j s s' Hi Hj Heq.
      apply list_lookup_insert_Some in Hi as [(<- & [= <-] & _)|[Hni Hi]];
      apply list_lookup_insert_Some in Hj as [(<- & [= <-] & _)|[Hnj Hj]]; cbn in *.
      * done.
      * by destruct (Hother j s').
      * by destruct (Hother i s).
      * by eapply fwf_inj.
    + rewrite length_insert. pose proof (occupied_insert (ft_slots t) idx old (Some
        (mkSlot (placement_of t k) (KeyFingerprint_of k) (digest_of v) c
           (option_map (λ t0 : Z, (now, t0)) ttl) (KeyAddress_of k (ft_placement t)))) Hold) as Hocc.
      pose proof (fwf_count t Hwf). cbn [used] in Hocc. lia.
    + intros j s [(-> & [= <-] & _)|[Hne Hj]]%list_lookup_insert_Some; [done|].
      by eapply fwf_addr.
  - by rewrite Hsl, list_lookup_insert_eq.
  - intros j s Hne Hj. rewrite Hsl, list_lookup_insert_ne; [done|]. intros Hc.
    by eapply Hother.
Qed.

(** Taking a slot frees its cell and touches no other slot's. *)
Lemma ft_take_spec t idx s :
  ft_wf t -> ft_slots t !! idx = Some (Some s) ->
  ft_wf (ft_take t idx) /\ ft_slots (ft_take t idx) = <[idx := None]> (ft_slots t) /\
  ft_placement (ft_take t idx) = ft_placement t /\
  (forall j s', j <> idx -> ft_slots t !! j = Some (Some s') ->
     cell (ft_take t idx) s' = cell t s').
Proof.
  intros Hwf Hidx. destruct (fwf_cell t Hwf _ _ Hidx) as [w Hw].
  destruct (deallocate_spec (ft_pool t) _ w (fwf_pool t Hwf) Hw)
    as (pool' & Hd & Hsl & Hcap & Hpwf & Hfree).
  unfold ft_take. rewrite Hidx. cbn [mjoin option_join]. rewrite Hd. cbn [snd].
  assert (Hother : forall j s', j <> idx -> ft_slots t !! j = Some (Some s') ->
            sl_pool_idx s' <> sl_pool_idx s).
  { intros j s' Hne Hj Heq. apply Hne. by eapply fwf_inj. }
  split_and!; cbn; try done.
  - constructor; cbn; [done|by rewrite Hcap, length_insert, (fwf_len t Hwf)| | | |].
    + intros j s' [(_ & [=] & _)|[Hne Hj]]%list_lookup_insert_Some.
      rewrite Hsl, list_lookup_insert_ne by (intros Hc; by eapply Hother).
      by eapply fwf_cell.
    + intros i j s1 s2 [(_ & [=] & _)|[_ Hi]]%list_lookup_insert_Some
        [(_ & [=] & _)|[_ Hj]]%list_lookup_insert_Some. by eapply fwf_inj.
    + rewrite length_insert. pose proof (occupied_insert (ft_slots t) idx _ None Hidx) as Hocc.
      pose proof (fwf_count t Hwf). cbn [used] in Hocc. lia.
    + intros j s' [(_ & [=] & _)|[_ Hj]]%list_lookup_insert_Some. by eapply fwf_addr.
  - intros j s' Hne Hj. unfold cell; cbn. rewrite Hsl, list_lookup_insert_ne; [done|].
    intros Hc. by eapply Hother.
Qed.

Lemma ft_find_slot_Some now t p f idx :
  ft_find_slot now t p f = Some idx ->
  exists s, ft_slots t !! idx = Some (Some s) /\ slot_matches p f s = true /\
            slot_is_expired now s = false.
Proof.
  intros (o & Ho & Hv)%search_Some_lookup. destruct o as [s|]; cbn in Hv; [|done].
  exists s. by branches_in Hv.
Qed.

(** What a read returns, given where the search stops. *)
Lemma ft_get_eq now k t :
  ft_wf t ->
  match ft_find_slot now t (placement_of t k) (KeyFingerprint_of k) with
  | None => ft_get now k t = (Ok None, t)
  | Some idx => exists s v, ft_slots t !! idx = Some (Some s) /\ cell t s = Some v /\
      ft_get now k t =
        if (digest_of v =? sl_digest s)%Z then (Ok (Some v), t)
        else (Err Corrupted, mkFixed (ft_pool t) (ft_slots t) (ft_placement t)
                               (add64 (ft_corruptions t) 1) (ft_cursor t))
  end.
Proof.
  intros Hwf. unfold ft_get.
  destruct (ft_find_slot now t _ _) as [idx|] eqn:Hf; [|done].
  apply ft_find_slot_Some in Hf as (s & Hs & _ & _). rewrite Hs. cbn [mjoin option_join].
  destruct (fwf_cell t Hwf _ _ Hs) as [v Hv]. exists s, v.
  split_and!; [done|unfold cell; by rewrite Hv|].
  by rewrite (proj2 (pool_get_lookup _ _ _ (fwf_pool t Hwf)) Hv).
Qed.

(** The invariant mentions neither the counters nor the placement strategy. *)
Lemma ft_wf_ext t t' :
  ft_wf t -> ft_pool t' = ft_pool t -> ft_slots t' = ft_slots t -> ft_wf t'.
Proof. intros [] Hp Hs. constructor; rewrite ?Hp, ?Hs; done. Qed.

Lemma ft_get_wf now k t : ft_wf t -> ft_wf (snd (ft_get now k t)).
Proof.
  intros Hwf. unfold ft_get. branches; by eapply ft_wf_ext.
Qed.

Lemma ft_set_wf now k v ttl t : ft_wf t -> ft_wf (snd (ft_set now k v ttl t)).
Proof.
  intros Hwf. pose proof (ft_set_eq now k v ttl t Hwf) as Hset.
  destruct (ft_find_empty _ _ _ _); [|by rewrite Hset].
  by destruct Hset as (slot & t' & -> & Hwf' & _).
Qed.

Lemma ft_remove_wf now k t : ft_wf t -> ft_wf (snd (ft_remove now k t)).
Proof.
  intros Hwf. unfold ft_remove. destruct (ft_find_slot _ _ _ _) as [idx|] eqn:Hf; [|done].
  apply ft_find_slot_Some in Hf as (s & Hs & _). by eapply ft_take_spec.
Qed.

Lemma ft_corrupt_wf now k v t : ft_wf t -> ft_wf (snd (ft_corrupt now k v t)).
Proof.
  intros Hwf. unfold ft_corrupt. destruct (ft_find_slot _ _ _ _) as [idx|] eqn:Hf; [|done].
  apply ft_find_slot_Some in Hf as (s & Hs & _). rewrite Hs. cbn [mjoin option_join snd].
  destruct (fwf_cell t Hwf _ _ Hs) as [w Hw].
  destruct (pool_write_spec (ft_pool t) _ v w (fwf_pool t Hwf) Hw)
    as (pool' & -> & Hsl & Hcap & Hpwf & Hfree). destruct Hwf as [? ? Hcell ? ? ?].
  constructor; cbn; rewrite ?Hcap, ?Hfree; try done.
  intros i s' Hi. rewrite Hsl. destruct (decide (sl_pool_idx s = sl_pool_idx s')) as [<-|Hne].
  - rewrite list_lookup_insert_eq; [eauto|]. by apply lookup_lt_Some in Hw.
  - rewrite list_lookup_insert_ne by done. by eapply Hcell.
Qed.

(** *** Nomination and reclaim *)

Lemma scan_live_Some now slots start fuel off idx s :
  scan_live now slots start fuel off = Some (idx, s) ->
  slots !! idx = Some (Some s) /\ slot_is_expired now s = false.
Proof.
  revert off. induction fuel as [|fuel IH]; intros off; cbn; [done|].
  destruct (slots !! ((start + off) mod length slots)) as [[s'|]|] eqn:Hs; cbn; [|by apply IH..].
  destruct (slot_is_expired now s') eqn:He; cbn; [by apply IH|]. by intros [= <- <-].
Qed.

Lemma scan_live_None now slots start fuel off :
  scan_live now slots start fuel off = None ->
  forall m s, off <= m < off + fuel -> slots !! ((start + m) mod length slots) = Some (Some s) ->
  slot_is_expired now s = true.
Proof.
  revert off. induction fuel as [|fuel IH]; intros off Hscan m s Hm Hs; cbn in Hscan; [lia|].
  destruct (decide (m = off)) as [->|Hne].
  - rewrite Hs in Hscan. cbn in Hscan. by destruct (slot_is_expired now s).
  - apply (IH (S off)) with (m := m); [|lia|done]. by branches_in Hscan.
Qed.

Lemma first_slot_Some slots s :
  first_slot slots = Some s -> exists i, slots !! i = Some (Some s).
Proof.
  induction slots as [|[s'|] l IH]; cbn; [done| |].
  - intros [= ->]. by exists 0.
  - intros [i Hi]%IH. by exists (S i).
Qed.

Lemma first_slot_None slots i s : first_slot slots = None -> slots !! i <> Some (Some s).
Proof.
  revert i. induction slots as [|[s'|] l IH]; intros [|i]; cbn; try done. intros Hn. by apply IH.
Qed.

Lemma find_address_Some a slots k idx :
  find_address a slots k = Some idx ->
  exists s, k <= idx /\ slots !! (idx - k) = Some (Some s) /\ sl_address s = a.
Proof.
  revert k. induction slots as [|[s|] l IH]; intros k; cbn; [done| |].
  - destruct (decide _) as [Ha|_].
    + intros [= <-]. exists s. rewrite Nat.sub_diag. done.
    + intros (s' & Hle & Hs & Ha)%IH. exists s'. split_and!; [lia| |done].
      by replace (idx - k) with (S (idx - S k)) by lia.
  - intros (s' & Hle & Hs & Ha)%IH. exists s'. split_and!; [lia| |done].
    by replace (idx - k) with (S (idx - S k)) by lia.
Qed.

Lemma find_address_None a slots k i s :
  find_address a slots k = None -> slots !! i = Some (Some s) -> sl_address s <> a.
Proof.
  revert k i. induction slots as [|[s'|] l IH]; intros k [|i]; cbn; try done.
  - destruct (decide _) as [|Hne]; [done|]. by intros _ [= <-].
  - destruct (decide _); [done|]. apply IH.
  - intros Hn. by apply (IH (S k)).
Qed.

Lemma ft_reclaim_spec a t :
  ft_wf t ->
  match find_address a (ft_slots t) 0 with
  | Some idx => exists s, ft_slots t !! idx = Some (Some s) /\ sl_address s = a /\
      ft_remove_if_address a t = (Ok true, ft_take t idx) /\ ft_wf (ft_take t idx)
  | None => ft_remove_if_address a t = (Ok false, t)
  end.
Proof.
  intros Hwf. unfold ft_remove_if_address.
  destruct (find_address a (ft_slots t) 0) as [idx|] eqn:Hf; [|done].
  apply find_address_Some in Hf as (s & _ & Hs & Ha). rewrite Nat.sub_0_r in Hs.
  exists s. split_and!; [done..|]. by eapply ft_take_spec.
Qed.

Lemma ft_reclaim_wf a t : ft_wf t -> ft_wf (snd (ft_remove_if_address a t)).
Proof.
  intros Hwf. pose proof (ft_reclaim_spec a t Hwf) as Hr.
  destruct (find_address _ _ _); [|by rewrite Hr]. by destruct Hr as (s & _ & _ & -> & Hwf').
Qed.

Lemma ft_candidate_slots now t :
  ft_slots (snd (ft_eviction_candidate now t)) = ft_slots t /\
  ft_pool (snd (ft_eviction_candidate now t)) = ft_pool t /\
  ft_placement (snd (ft_eviction_candidate now t)) = ft_placement t.
Proof. unfold ft_eviction_candidate. by branches. Qed.

Lemma ft_candidate_wf now t : ft_wf t -> ft_wf (snd (ft_eviction_candidate now t)).
Proof.
  intros Hwf. destruct (ft_candidate_slots now t) as (? & ? & ?). by eapply ft_wf_ext.
Qed.
End fixed_tier.

#[export] Hint Resolve ft_get_wf ft_set_wf ft_remove_wf ft_corrupt_wf ft_reclaim_wf
  ft_candidate_wf : thesix.

(** ** What a read returns *)

Section fixed_tier_reads.
Context {V : Type} `{IntegrityCheck V}.
Implicit Types (t : FixedTierStub V) (s : Slot).

(** [get] at [now] is served [v]. *)
Definition ft_holds t (now : Instant) (k : bytes) (v : V) : Prop :=
  fst (ft_get now k t) = Ok (Some v).

Lemma ft_holds_iff t now k v :
  ft_wf t ->
  ft_holds t now k v <->
  exists idx s, ft_find_slot now t (placement_of t k) (KeyFingerprint_of k) = Some idx /\
    ft_slots t !! idx = Some (Some s) /\ cell t s = Some v /\ digest_of v = sl_digest s.
Proof.
  intros Hwf. unfold ft_holds. pose proof (ft_get_eq now k t Hwf) as Hget.
  destruct (ft_find_slot now t _ _) as [idx|].
  - destruct Hget as (s & w & Hs & Hc & ->). split.
    + destruct (digest_of w =? sl_digest s)%Z eqn:Hd; cbn; [|done]. intros [= <-].
      exists idx, s. bool_to_prop. done.
    + intros (? & s' & [= <-] & Hs' & Hc' & Hd). rewrite Hs in Hs'. injection Hs' as <-.
      rewrite Hc in Hc'. injection Hc' as ->. rewrite Hd, Z.eqb_refl. done.
  - rewrite Hget. split; [done|]. by intros (? & ? & ? & _).
Qed.

(** A slot write keeps every read of a key whose live slot is elsewhere. *)
Lemma ft_holds_frame t t' now k v i o :
  ft_wf t -> ft_wf t' -> ft_placement t' = ft_placement t ->
  ft_slots t' = <[i := o]> (ft_slots t) ->
  (forall j s, j <> i -> ft_slots t !! j = Some (Some s) -> cell t' s = cell t s) ->
  (forall s, ft_slots t !! i = Some (Some s) ->
     slot_matches (placement_of t k) (KeyFingerprint_of k) s = true ->
     slot_is_expired now s = true) ->
  lookup_visit now (placement_of t k) (KeyFingerprint_of k) o = Next ->
  ft_holds t now k v -> ft_holds t' now k v.
Proof.
  intros Hwf Hwf' Hp Hsl Hcells Hi Ho. rewrite !ft_holds_iff by done.
  intros (idx & s & Hf & Hs & Hc & Hd).
  assert (Hne : i <> idx).
  { intros ->. destruct (ft_find_slot_Some _ _ _ _ _ Hf) as (s' & Hs' & Hm & He).
    specialize (Hi _ Hs' Hm). congruence. }
  assert (placement_of t' k = placement_of t k) as -> by (unfold placement_of; by rewrite Hp).
  exists idx, s. split_and!; [|by rewrite Hsl, list_lookup_insert_ne|by erewrite Hcells|done].
  unfold ft_find_slot. rewrite Hsl. by apply search_insert_other.
Qed.

Lemma empty_visit_Next now now' p f o :
  empty_visit now p f o = Next -> lookup_visit now' p f o = Next.
Proof. destruct o as [s|]; cbn; [|done]. by destruct (slot_matches p f s). Qed.

Lemma ttl_expired ttl now now' :
  match option_map (fun d => (now, d)) ttl with
  | Some (armed, d) => (d <=? elapsed now' armed)%Z
  | None => false
  end = negb (bool_decide (ttl_live ttl now now')).
Proof.
  destruct ttl as [d|]; cbn; [|done].
  destruct (Z.leb_spec d (elapsed now' now)); case_bool_decide; try done; lia.
Qed.

(** A read after a write: the value until the TTL runs out, a miss after. *)
Lemma ft_set_get_eq t t' now now' k v ttl :
  ft_wf t -> ft_set now k v ttl t = (Ok tt, t') ->
  ft_get now' k t' = (Ok (if bool_decide (ttl_live ttl now now') then Some v else None), t').
Proof.
  intros Hwf Hset. pose proof (ft_set_eq now k v ttl t Hwf) as Heq.
  destruct (ft_find_empty now t _ _) as [idx|] eqn:Hf; [|congruence].
  destruct Heq as (slot & t1 & Hset' & Hwf' & Hlt & Hsl & Hpl & Hc & Hd & He & Hsp & Hsf & _).
  rewrite Hset in Hset'. injection Hset' as <-.
  assert (Hvis : lookup_visit now' (placement_of t k) (KeyFingerprint_of k) (Some slot) =
                 if bool_decide (ttl_live ttl now now') then Found else NotFound).
  { cbn. rewrite (proj2 (slot_matches_spec _ _ _) (conj Hsp Hsf)).
    unfold slot_is_expired. rewrite He, ttl_expired. by case_bool_decide. }
  pose proof (ft_get_eq now' k t' Hwf') as Hget.
  assert (placement_of t' k = placement_of t k) as Hpk by (unfold placement_of; by rewrite Hpl).
  rewrite Hpk in Hget. unfold ft_find_slot in Hget. rewrite Hsl in Hget.
  rewrite (search_insert_self _ (lookup_visit now' (placement_of t k) (KeyFingerprint_of k))
             _ _ _ _ Hf) in Hget.
  - rewrite Hvis in Hget. case_bool_decide; [|done].
    destruct Hget as (s & w & Hs & Hcw & ->).
    rewrite list_lookup_insert_eq in Hs by done. injection Hs as <-.
    rewrite Hc in Hcw. injection Hcw as <-. by rewrite Hd, Z.eqb_refl.
  - intros x. apply empty_visit_Next.
  - rewrite Hvis. by case_bool_decide.
Qed.

Lemma address_differs_no_match t k1 k2 s :
  KeyAddress_of k1 (ft_placement t) <> KeyAddress_of k2 (ft_placement t) ->
  slot_matches (placement_of t k1) (KeyFingerprint_of k1) s = true ->
  slot_matches (placement_of t k2) (KeyFingerprint_of k2) s = false.
Proof.
  intros Hne [Hp Hf]%slot_matches_spec. apply not_true_is_false. intros [Hp' Hf']%slot_matches_spec.
  apply Hne. unfold KeyAddress_of. f_equal; [congruence|]. unfold placement_of in *. congruence.
Qed.

(** Writing one key leaves another key's readable value alone. *)
Lemma ft_set_frame t now k1 k2 v w ttl :
  ft_wf t -> KeyAddress_of k1 (ft_placement t) <> KeyAddress_of k2 (ft_placement t) ->
  ft_holds t now k2 w -> ft_holds (snd (ft_set now k1 v ttl t)) now k2 w.
Proof.
  intros Hwf Hne Hholds. pose proof (ft_set_eq now k1 v ttl t Hwf) as Heq.
  destruct (ft_find_empty now t _ _) as [idx|] eqn:Hf; [|by rewrite Heq].
  destruct Heq as (slot & t' & -> & Hwf' & Hlt & Hsl & Hpl & _ & _ & _ & Hsp & Hsf & Hcells).
  apply (ft_holds_frame t t' now k2 w idx (Some slot)); try done.
  - intros s Hs Hm. apply search_Some_lookup in Hf as (o & Ho & Hv).
    rewrite Hs in Ho. injection Ho as <-. cbn in Hv.
    destruct (slot_matches (placement_of t k1) _ s) eqn:Hm1.
    + rewrite (address_differs_no_match t k1 k2 s) in Hm by done. done.
    + by destruct (slot_is_expired now s).
  - cbn. rewrite (address_differs_no_match t k1 k2 slot); [done..|]. by apply slot_matches_spec.
Qed.

Lemma ft_take_frame t now k v idx s :
  ft_wf t -> ft_slots t !! idx = Some (Some s) ->
  slot_matches (placement_of t k) (KeyFingerprint_of k) s = false ->
  ft_holds t now k v -> ft_holds (ft_take t idx) now k v.
Proof.
  intros Hwf Hs Hm. destruct (ft_take_spec t idx s Hwf Hs) as (Hwf' & Hsl & Hpl & Hcells).
  apply (ft_holds_frame t _ now k v idx None); try done.
  intros s' Hs'. congruence.
Qed.

Lemma ft_remove_frame t now k1 k2 w :
  ft_wf t -> KeyAddress_of k1 (ft_placement t) <> KeyAddress_of k2 (ft_placement t) ->
  ft_holds t now k2 w -> ft_holds (snd (ft_remove now k1 t)) now k2 w.
Proof.
  intros Hwf Hne Hh. unfold ft_remove. destruct (ft_find_slot now t _ _) as [idx|] eqn:Hf; [|done].
  apply ft_find_slot_Some in Hf as (s & Hs & Hm & _). cbn.
  eapply ft_take_frame; [done|done|by eapply address_differs_no_match|done].
Qed.

Lemma ft_reclaim_frame t now a k w :
  ft_wf t -> KeyAddress_of k (ft_placement t) <> a ->
  ft_holds t now k w -> ft_holds (snd (ft_remove_if_address a t)) now k w.
Proof.
  intros Hwf Hne Hh. pose proof (ft_reclaim_spec a t Hwf) as Hr.
  destruct (find_address _ _ _) as [idx|]; [|by rewrite Hr].
  destruct Hr as (s & Hs & Ha & -> & _). cbn. eapply ft_take_frame; [done..| |done].
  apply not_true_is_false. intros [Hp Hf]%slot_matches_spec. apply Hne.
  rewrite <- Ha, (fwf_addr t Hwf _ _ Hs), Hp, Hf. done.
Qed.
End fixed_tier_reads.

(** ** Sequences of operations *)

Inductive ft_op (V : Type) : Type :=
| FtSet (now : Instant) (key : bytes) (value : V) (ttl : option Duration)
| FtGet (now : Instant) (key : bytes)
| FtRemove (now : Instant) (key : bytes)
| FtCorrupt (now : Instant) (key : bytes) (value : V)
| FtEvict (now : Instant)
| FtReclaim (address : KeyAddress).
Arguments FtSet {V}.
Arguments FtGet {V}.
Arguments FtRemove {V}.
Arguments FtCorrupt {V}.
Arguments FtEvict {V}.
Arguments FtReclaim {V}.

Definition ft_exec {V} `{IntegrityCheck V} (t : FixedTierStub V) (op : ft_op V) :
    FixedTierStub V :=
  match op with
  | FtSet now k v ttl => snd (ft_set now k v ttl t)
  | FtGet now k => snd (ft_get now k t)
  | FtRemove now k => snd (ft_remove now k t)
  | FtCorrupt now k v => snd (ft_corrupt now k v t)
  | FtEvict now => snd (ft_eviction_candidate now t)
  | FtReclaim a => snd (ft_remove_if_address a t)
  end.

(** A table of [n] slots after any sequence of operations, with any clock
    readings. *)
Inductive ft_reachable {V} `{IntegrityCheck V} (n : nat) : FixedTierStub V -> Prop :=
| ft_reach_new t p : ft_with_capacity n = Ok t -> ft_reachable n (ft_with_placement t p)
| ft_reach_step t op : ft_reachable n t -> ft_reachable n (ft_exec t op).

Section fixed_tier_theorems.
Context {V : Type} `{IntegrityCheck V}.
Implicit Types (t : FixedTierStub V) (s : Slot).

Lemma ft_exec_wf t op : ft_wf t -> ft_wf (ft_exec t op).
Proof. intros Hwf. destruct op; cbn; eauto with thesix. Qed.

Lemma ft_take_length t i : length (ft_slots (ft_take t i)) = length (ft_slots t).
Proof. unfold ft_take. destruct (mjoin _); cbn; [by rewrite length_insert|done]. Qed.

Lemma ft_exec_length t op : length (ft_slots (ft_exec t op)) = length (ft_slots t).
Proof.
  destruct op; cbn.
  - unfold ft_set. branches; by rewrite ?length_insert.
  - unfold ft_get. by branches.
  - unfold ft_remove. branches; cbn; [by rewrite ft_take_length|done].
  - unfold ft_corrupt. by branches.
  - by rewrite (proj1 (ft_candidate_slots now t)).
  - unfold ft_remove_if_address. branches; cbn; [by rewrite ft_take_length|done].
Qed.

Lemma ft_reachable_wf n t : ft_reachable n t -> ft_wf t /\ length (ft_slots t) = n /\ 0 < n.
Proof.
  induction 1 as [t p Hnew|t op _ (Hwf & Hlen & Hn)].
  - assert (0 < n).
    { unfold ft_with_capacity in Hnew. destruct (Nat.eqb_spec n 0); [done|lia]. }
    apply ft_new_wf in Hnew as [Hwf Hlen]. split_and!; [by eapply ft_wf_ext|done|done].
  - split_and!; [by apply ft_exec_wf|by rewrite ft_exec_length|done].
Qed.

(** A live slot of another key is what a full table is made of. *)
Definition occupied_by_other (now : Instant) (t : FixedTierStub V) (k : bytes)
    (o : option Slot) : Prop :=
  exists s, o = Some s /\ slot_is_expired now s = false /\
    sl_address s <> KeyAddress_of k (ft_placement t).

Lemma ft_find_empty_None now t k :
  ft_wf t ->
  ft_find_empty now t (placement_of t k) (KeyFingerprint_of k) = None <->
  Forall (occupied_by_other now t k) (ft_slots t).
Proof.
  intros Hwf. rewrite Forall_lookup.
  assert (Hvis : forall i o, ft_slots t !! i = Some o ->
    empty_visit now (placement_of t k) (KeyFingerprint_of k) o = Next <->
    occupied_by_other now t k o).
  { intros i o Hi. unfold occupied_by_other. destruct o as [s|]; cbn; [|by split; [|intros (? & ? & _)]].
    assert (Hm : slot_matches (placement_of t k) (KeyFingerprint_of k) s = true <->
                 sl_address s = KeyAddress_of k (ft_placement t)).
    { rewrite slot_matches_spec, (fwf_addr t Hwf _ _ Hi). unfold KeyAddress_of, placement_of.
      split; [intros [-> ->]; done|by intros [= -> ->]]. }
    destruct (slot_matches _ _ s), (slot_is_expired now s) eqn:Hexp; split; try done;
      try (intros (s' & [= <-] & He & Ha)); try congruence; try (by destruct Ha; apply Hm).
    intros _. exists s. split_and!; [done..|]. by intros Ha%Hm. }
  split.
  - intros Hnone i o Hi. apply (Hvis i o Hi).
    refine (search_exhausted _ _ _ _ Hnone i o Hi). intros [s|] _; cbn; [|done]. by destruct (slot_matches _ _ s), (slot_is_expired now s).
  - intros Hall. destruct (ft_find_empty now t _ _) as [idx|] eqn:Hf; [|done].
    apply search_Some_lookup in Hf as (o & Ho & Hv). exfalso.
    pose proof (proj2 (Hvis _ _ Ho) (Hall _ _ Ho)). congruence.
Qed.

(** C24. Whatever sequence of operations a table went through, it still has the
    capacity it was built with, and its pool cells are exactly shared out: the
    free list and the cells its slots own, put together, are the cells [0 ..
    n-1] each once -- no cell leaks, no cell is both free and owned, no two
    slots own one cell. A write has only two outcomes: it
    succeeds, or it reports [CapacityExhausted] and changes nothing, which
    happens exactly when every slot holds a live entry of another key. The
    allocator's [ConfigurationError] never surfaces. *)
Theorem fixed_tier_never_leaks (n : nat) (t : FixedTierStub V) (Ht : ft_reachable n t)
    (now : Instant) (k : bytes) (v : V) (ttl : option Duration) :
  length (ft_slots t) = n /\
  free_indices (ft_pool t) ++ owned_cells (ft_slots t) ≡ₚ seq 0 n /\
  length (free_indices (ft_pool t)) + occupied (ft_slots t) = n /\
  (fst (ft_set now k v ttl t) = Ok tt \/ ft_set now k v ttl t = (Err CapacityExhausted, t)) /\
  (fst (ft_set now k v ttl t) = Err CapacityExhausted <->
   Forall (occupied_by_other now t k) (ft_slots t)).
Proof.
  apply ft_reachable_wf in Ht as (Hwf & <- & _).
  split_and!; [done|by apply cells_partition|by apply fwf_count| |];
    pose proof (ft_set_eq now k v ttl t Hwf) as Hset;
    pose proof (ft_find_empty_None now t k Hwf) as Hnone;
    destruct (ft_find_empty now t _ _).
  - left. by destruct Hset as (? & ? & -> & _).
  - by right.
  - destruct Hset as (? & ? & -> & _). rewrite <- Hnone. cbn. split; done.
  - rewrite Hset, <- Hnone. done.
Qed.

(** C22. Read your write: after a successful write, a read of the same key
    returns the value for exactly as long as its TTL says, and a miss from
    then on. *)
Theorem fixed_tier_read_your_write (n : nat) (t t' : FixedTierStub V) (Ht : ft_reachable n t)
    (now now' : Instant) (k : bytes) (v : V) (ttl : option Duration)
    (Hset : ft_set now k v ttl t = (Ok tt, t')) :
  ft_get now' k t' = (Ok (if bool_decide (ttl_live ttl now now') then Some v else None), t').
Proof. apply ft_reachable_wf in Ht as (Hwf & _). by eapply ft_set_get_eq. Qed.

(** C23. No cross-key corruption: as long as two keys differ in fingerprint or
    placement, writing, removing or evicting one leaves the readable value of
    the other as it was, placement collisions included. *)
Theorem fixed_tier_no_cross_key_corruption (n : nat) (t : FixedTierStub V)
    (Ht : ft_reachable n t) (now : Instant) (k1 k2 : bytes) (v w : V) (ttl : option Duration)
    (Hne : KeyAddress_of k1 (ft_placement t) <> KeyAddress_of k2 (ft_placement t))
    (Hread : fst (ft_get now k2 t) = Ok (Some w)) :
  fst (ft_get now k2 (snd (ft_set now k1 v ttl t))) = Ok (Some w) /\
  fst (ft_get now k2 (snd (ft_remove now k1 t))) = Ok (Some w) /\
  fst (ft_get now k2 (snd (ft_remove_if_address (KeyAddress_of k1 (ft_placement t)) t)))
    = Ok (Some w).
Proof.
  apply ft_reachable_wf in Ht as (Hwf & _). split_and!.
  - by apply ft_set_frame.
  - by apply ft_remove_frame.
  - by apply ft_reclaim_frame.
Qed.
End fixed_tier_theorems.

(** ** Corruption, eviction and overwriting *)

Section fixed_tier_more.
Context {V : Type} `{IntegrityCheck V}.
Implicit Types (t : FixedTierStub V) (s : Slot).

(** A damaged cell is refused by the next read, and counted. *)
Lemma ft_corrupt_get t now k v w :
  ft_wf t -> ft_holds t now k v -> digest_of w <> digest_of v ->
  fst (ft_corrupt now k w t) = Ok true /\
  fst (ft_get now k (snd (ft_corrupt now k w t))) = Err Corrupted /\
  ft_corruptions (snd (ft_get now k (snd (ft_corrupt now k w t)))) = add64 (ft_corruptions t) 1.
Proof.
  intros Hwf Hholds Hne. pose proof (ft_corrupt_wf now k w t Hwf) as Hwf'. revert Hwf'.
  apply ft_holds_iff in Hholds as (idx & s & Hf & Hs & Hc & Hd); [|done].
  unfold ft_corrupt. rewrite Hf, Hs. cbn [mjoin option_join fst snd].
  destruct (fwf_cell t Hwf _ _ Hs) as [v' Hv'].
  destruct (pool_write_spec (ft_pool t) _ w v' (fwf_pool t Hwf) Hv')
    as (pool' & -> & Hsl & _ & _ & _). cbn [default]. intros Hwf'.
  pose proof (ft_get_eq now k _ Hwf') as Hget.
  unfold ft_find_slot, placement_of in *. cbn [ft_slots ft_placement] in *. rewrite Hf in Hget.
  destruct Hget as (s' & w' & Hs' & Hcw & ->). rewrite Hs in Hs'. injection Hs' as <-.
  unfold cell in Hcw. cbn in Hcw. rewrite Hsl, list_lookup_insert_eq in Hcw
    by (by apply lookup_lt_Some in Hv'). injection Hcw as <-.
  rewrite (proj2 (Z.eqb_neq _ _)) by congruence. done.
Qed.

(** Nominating finds a live slot when there is one, and some slot when the
    table is not empty. *)
Lemma ft_candidate_spec now t :
  match fst (ft_eviction_candidate now t) with
  | Some a => exists i s, ft_slots t !! i = Some (Some s) /\ sl_address s = a /\
      (slot_is_expired now s = false \/
       forall j s', ft_slots t !! j = Some (Some s') -> slot_is_expired now s' = true)
  | None => forall j s', ft_slots t !! j <> Some (Some s')
  end.
Proof.
  unfold ft_eviction_candidate. destruct (Nat.eqb_spec (length (ft_slots t)) 0) as [Hn|Hn].
  { cbn. intros j s' Hj%lookup_lt_Some. lia. }
  set (n := length (ft_slots t)) in *. set (start := Z.to_nat _).
  assert (Hst : start < n).
  { subst start. pose proof (Z.mod_pos_bound (ft_cursor t) (Z.of_nat n) ltac:(lia)). lia. }
  cbn [ft_set_cursor ft_slots].
  destruct (scan_live now (ft_slots t) start n 0) as [[idx s]|] eqn:Hscan; cbn [fst].
  { apply scan_live_Some in Hscan as [Hs He]. exists idx, s. auto. }
  assert (Hexp : forall j s', ft_slots t !! j = Some (Some s') -> slot_is_expired now s' = true).
  { intros j s' Hj. assert (Hlt : j < n) by (by apply lookup_lt_Some in Hj).
    destruct (displacement n start j Hst Hlt) as (m & Hm & Heq).
    apply (scan_live_None _ _ _ _ _ Hscan m); [lia|]. fold n. by rewrite Heq. }
  destruct (first_slot (ft_slots t)) as [s|] eqn:Hfirst; cbn.
  - apply first_slot_Some in Hfirst as [i Hi]. exists i, s. auto.
  - intros j s'. by apply first_slot_None.
Qed.

Lemma occupied_pos (slots : list (option Slot)) i s :
  slots !! i = Some (Some s) -> 0 < occupied slots.
Proof.
  revert i. induction slots as [|[s'|] l IH]; intros [|i]; cbn; try done; try lia. apply IH.
Qed.

Lemma ft_take_occupied t i s :
  ft_slots t !! i = Some (Some s) ->
  S (occupied (ft_slots (ft_take t i))) = occupied (ft_slots t).
Proof.
  intros Hi. unfold ft_take. rewrite Hi. cbn [mjoin option_join ft_slots].
  pose proof (occupied_insert (ft_slots t) i (Some s) None Hi) as Ho. cbn [used] in Ho. lia.
Qed.

(** C25. A stored value whose bytes changed behind the table's back is never
    served: as soon as its digest differs from the one recorded at the write,
    a read is refused as [Corrupted] and counted. *)
Theorem fixed_tier_refuses_corrupted (n : nat) (t : FixedTierStub V) (Ht : ft_reachable n t)
    (now : Instant) (k : bytes) (v w : V)
    (Hread : fst (ft_get now k t) = Ok (Some v)) (Hdamage : digest_of w <> digest_of v) :
  let t' := snd (ft_corrupt now k w t) in
  fst (ft_get now k t') = Err Corrupted /\
  ft_corruptions (snd (ft_get now k t')) = add64 (ft_corruptions t) 1 /\
  (forall k2, KeyAddress_of k2 (ft_placement t) <> KeyAddress_of k (ft_placement t) ->
     forall x, fst (ft_get now k2 t) = Ok (Some x) -> fst (ft_get now k2 t') = Ok (Some x)).
Proof.
  apply ft_reachable_wf in Ht as (Hwf & _). cbn zeta.
  destruct (ft_corrupt_get t now k v w Hwf Hread Hdamage) as (_ & Hget & Hcount).
  split_and!; [done|done|]. intros k2 Hne x Hx. revert Hx. change (ft_holds t now k2 x -> ft_holds
    (snd (ft_corrupt now k w t)) now k2 x).
  pose proof (ft_corrupt_wf now k w t Hwf) as Hwf'. revert Hwf'.
  unfold ft_corrupt. destruct (ft_find_slot now t _ _) as [idx|] eqn:Hf; [|done].
  apply ft_find_slot_Some in Hf as (s & Hs & Hm & He). rewrite Hs. cbn [mjoin option_join snd].
  destruct (fwf_cell t Hwf _ _ Hs) as [v' Hv'].
  destruct (pool_write_spec (ft_pool t) _ w v' (fwf_pool t Hwf) Hv')
    as (pool' & -> & Hsl & _ & _ & _). cbn [default]. intros Hwf'.
  rewrite !ft_holds_iff by done. intros (j & s2 & Hf2 & Hs2 & Hc & Hd).
  exists j, s2. split_and!; [done|done| |done].
  unfold cell in *. cbn. rewrite Hsl, list_lookup_insert_ne; [done|].
  intros Heq. assert (idx = j) as -> by (by eapply fwf_inj).
  apply ft_find_slot_Some in Hf2 as (s3 & Hs3 & Hm2 & _).
  assert (s3 = s) as -> by congruence.
  by rewrite (address_differs_no_match t k2 k s) in Hm.
Qed.

(** C26. Eviction makes room and prefers the living: a non-empty table always
    nominates the address of one of its slots -- a live one unless all are
    expired -- and nominating changes no entry; reclaiming the nominated
    address succeeds and empties exactly one slot, so a write refused for
    capacity then succeeds for every key. *)
Theorem fixed_tier_eviction_makes_room (n : nat) (t : FixedTierStub V) (Ht : ft_reachable n t)
    (now : Instant) (Hused : 0 < occupied (ft_slots t)) :
  exists a t1, ft_eviction_candidate now t = (Some a, t1) /\ ft_slots t1 = ft_slots t /\
    (exists i s, ft_slots t !! i = Some (Some s) /\ sl_address s = a /\
       (slot_is_expired now s = false \/
        forall j s', ft_slots t !! j = Some (Some s') -> slot_is_expired now s' = true)) /\
    exists t2, ft_remove_if_address a t1 = (Ok true, t2) /\
      S (occupied (ft_slots t2)) = occupied (ft_slots t) /\
      forall now' k v ttl, fst (ft_set now' k v ttl t2) = Ok tt.
Proof.
  apply ft_reachable_wf in Ht as (Hwf & Hlen & _).
  pose proof (ft_candidate_spec now t) as Hc. pose proof (ft_candidate_wf now t Hwf) as Hwf1.
  destruct (ft_candidate_slots now t) as (Hsl & _ & _).
  destruct (ft_eviction_candidate now t) as [[a|] t1]; cbn [fst snd] in *.
  2: { exfalso. clear -Hused Hc. induction (ft_slots t) as [|[s|] l IH]; cbn in Hused; [lia| |].
       - by destruct (Hc 0 s).
       - apply IH; [done|]. intros j. apply (Hc (S j)). }
  exists a, t1. split_and!; [done|done|done|].
  destruct Hc as (i & s & Hi & Ha & _).
  pose proof (ft_reclaim_spec a t1 Hwf1) as Hr.
  destruct (find_address a (ft_slots t1) 0) as [idx|] eqn:Hfind.
  2: { rewrite Hsl in Hfind. by destruct (find_address_None _ _ _ _ _ Hfind Hi). }
  destruct Hr as (s1 & Hs1 & _ & -> & Hwf2). exists (ft_take t1 idx).
  pose proof (ft_take_occupied t1 idx s1 Hs1) as Hocc. rewrite Hsl in Hocc.
  split_and!; [done|done|]. intros now' k v ttl.
  pose proof (ft_set_eq now' k v ttl _ Hwf2) as Hset.
  destruct (ft_find_empty now' (ft_take t1 idx) _ _) eqn:Hemp.
  { by destruct Hset as (? & ? & -> & _). }
  apply ft_find_empty_None in Hemp; [|done].
  rewrite Forall_lookup in Hemp. destruct (Hemp idx None) as (? & ? & _); [|done].
  destruct (ft_take_spec t1 idx s1 Hwf1 Hs1) as (_ & -> & _).
  apply list_lookup_insert_eq. by apply lookup_lt_Some in Hs1.
Qed.
End fixed_tier_more.

(** ** Witnesses *)

(** A two-slot table whose keys all collide, holding [key a -> 1 2 3]. *)
Definition wit_new : FixedTierStub bytes :=
  mkFixed (mkPool [None; None] [0; 1] 2) [None; None] PlaceDefault 0 0.

Definition wit_table : FixedTierStub bytes :=
  ft_exec (ft_with_placement wit_new AllToZero) (FtSet 0%Z [97%Z] [1%Z; 2%Z; 3%Z] None).

Lemma wit_table_reachable : ft_reachable 2 wit_table.
Proof. apply ft_reach_step, ft_reach_new. reflexivity. Defined.

Lemma fixed_tier_never_leaks_witness :
  free_indices (ft_pool wit_table) ++ owned_cells (ft_slots wit_table) ≡ₚ [0; 1] /\
  (fst (ft_set 5%Z [98%Z] [9%Z] None wit_table) = Ok tt \/
   ft_set 5%Z [98%Z] [9%Z] None wit_table = (Err CapacityExhausted, wit_table)).
Proof.
  destruct (fixed_tier_never_leaks 2 wit_table wit_table_reachable 5%Z [98%Z] [9%Z] None)
    as (_ & Hcells & _ & Hset & _).
  exact (conj Hcells Hset).
Defined.

Lemma fixed_tier_read_your_write_witness :
  fst (ft_get 90%Z [98%Z] (snd (ft_set 5%Z [98%Z] [9%Z] (Some 100%Z) wit_table))) = Ok (Some [9%Z]).
Proof.
  rewrite (fixed_tier_read_your_write 2 wit_table
    (snd (ft_set 5%Z [98%Z] [9%Z] (Some 100%Z) wit_table)) wit_table_reachable 5%Z 90%Z
    [98%Z] [9%Z] (Some 100%Z)); vm_compute; reflexivity.
Defined.

Lemma fixed_tier_no_cross_key_corruption_witness :
  fst (ft_get 5%Z [97%Z] (snd (ft_set 5%Z [98%Z] [9%Z] None wit_table))) =
  Ok (Some [1%Z; 2%Z; 3%Z]).
Proof.
  apply (fixed_tier_no_cross_key_corruption 2 wit_table wit_table_reachable 5%Z
           [98%Z] [97%Z] [9%Z] [1%Z; 2%Z; 3%Z] None); [by_decision|vm_compute; reflexivity].
Defined.

Lemma fixed_tier_refuses_corrupted_witness :
  fst (ft_get 5%Z [97%Z] (snd (ft_corrupt 5%Z [97%Z] [1%Z; 0%Z; 3%Z] wit_table))) =
  Err Corrupted.
Proof.
  apply (fixed_tier_refuses_corrupted 2 wit_table wit_table_reachable 5%Z
           [97%Z] [1%Z; 2%Z; 3%Z] [1%Z; 0%Z; 3%Z]); [vm_compute; reflexivity|by_decision].
Defined.

Lemma fixed_tier_eviction_makes_room_witness :
  exists a t1, ft_eviction_candidate 5%Z wit_table = (Some a, t1).
Proof.
  destruct (fixed_tier_eviction_makes_room 2 wit_table wit_table_reachable 5%Z)
    as (a & t1 & Heq & _); [vm_compute; lia|]. by exists a, t1.
Defined.

(** Overwriting after a removal can resurrect a stale value. [set] reuses
    the first hole of the probe chain without looking for the key's own slot
    behind it, so the chain then holds the key twice; removing the key deletes
    the new copy only, and the next read serves the value that was
    overwritten. *)
Theorem fixed_tier_overwrite_then_remove_resurrects :
  let t0 := ft_with_placement wit_new AllToZero in
  let t1 := ft_exec t0 (FtSet 0%Z [97%Z] [1%Z] None) in
  let t2 := ft_exec t1 (FtSet 0%Z [98%Z] [10%Z] None) in
  let t3 := ft_exec t2 (FtRemove 0%Z [97%Z]) in
  let t4 := ft_exec t3 (FtSet 0%Z [98%Z] [20%Z] None) in
  let t5 := ft_exec t4 (FtRemove 0%Z [98%Z]) in
  fst (ft_get 0%Z [98%Z] t4) = Ok (Some [20%Z]) /\
  fst (ft_remove 0%Z [98%Z] t4) = Ok tt /\ fst (ft_get 0%Z [98%Z] t5) = Ok (Some [10%Z]).
Proof. by vm_compute. Qed.
