(* ===== verification/ShardedTier.v ===== *)
(** * The sharded in-memory tier

    Models [src/tier/sharded_stub.rs]: a power-of-two number of independently
    locked fixed tables, the shard of a key given by a mask of its hash. *)

From S2P Require Import Prelude Entry Integrity Probe Pool TierTrait FixedTier.

Definition DEFAULT_SHARDS : Z := 4.
Definition DEFAULT_CAPACITY_PER_SHARD : nat := 256.

Record ShardedTierStub (V : Type) : Type := mkSharded {
  sh_shards : list (Mutex (FixedTierStub V));
  sh_mask : Z
}.
Arguments mkSharded {V}.
Arguments sh_shards {V} _.
Arguments sh_mask {V} _.

(** [usize::next_power_of_two], which wraps past [2^63]. *)
Definition next_power_of_two (n : Z) : Z := wrap64 (2 ^ Z.log2_up n).

Fixpoint build_shards {V} (n cap : nat) : res (list (Mutex (FixedTierStub V))) :=
  match n with
  | O => Ok []
  | S n' =>
      let? t := ft_with_capacity cap in
      let? rest := build_shards n' cap in
      Ok (new_mutex t :: rest)
  end.

Definition sh_with_shards {V} (shards : Z) (capacity_per_shard : nat) : res (ShardedTierStub V) :=
  let requested := Z.max shards 1 in
  let n := next_power_of_two requested in
  let? built := build_shards (Z.to_nat n) capacity_per_shard in
  Ok (mkSharded built (n - 1)%Z).

(** Index of the shard of a key. *)
Definition sh_index {V} `{DefaultHasher} (self : ShardedTierStub V) (key : bytes) : nat :=
  Z.to_nat (Z.land (default_hasher key) (sh_mask self)).

(** Run an operation of one table under its lock. Indexing past the end panics
    in the code; [sharded_wf] excludes it. *)
Definition with_shard {V A} (self : ShardedTierStub V) (idx : nat)
    (op : FixedTierStub V -> res A * FixedTierStub V) : res A * ShardedTierStub V :=
  match sh_shards self !! idx with
  | Some m =>
      match lock m with
      | Some t =>
          let '(r, t') := op t in
          (r, mkSharded (<[idx := store m t']> (sh_shards self)) (sh_mask self))
      | None => (Err ConfigurationError, self)
      end
  | None => (Err ConfigurationError, self)
  end.

Definition sh_capacity {V} (self : ShardedTierStub V) : nat :=
  list_sum (map (fun m => match lock m with Some t => ft_capacity t | None => 0 end)
              (sh_shards self)).

Section operations.
Context {V : Type} `{IntegrityCheck V} `{DefaultHasher}.

Definition sh_get (now : Instant) (key : bytes) (self : ShardedTierStub V) :=
  with_shard self (sh_index self key) (ft_get now key).

Definition sh_set (now : Instant) (key : bytes) (value : V) (ttl : option Duration)
    (self : ShardedTierStub V) :=
  with_shard self (sh_index self key) (ft_set now key value ttl).

Definition sh_remove (now : Instant) (key : bytes) (self : ShardedTierStub V) :=
  with_shard self (sh_index self key) (ft_remove now key).

Definition sh_contains (now : Instant) (key : bytes) (self : ShardedTierStub V) :=
  with_shard self (sh_index self key) (ft_contains now key).
End operations.

(** The loop [for offset in 0..n] of [eviction_candidate]. *)
Fixpoint candidate_scan {V} (now : Instant) (self : ShardedTierStub V) (start fuel offset : nat) :
    option KeyAddress * ShardedTierStub V :=
  match fuel with
  | O => (None, self)
  | S fuel' =>
      let idx := (start + offset) mod length (sh_shards self) in
      match sh_shards self !! idx with
      | Some m =>
          match lock m with
          | Some t =>
              let '(c, t') := ft_eviction_candidate now t in
              let self' := mkSharded (<[idx := store m t']> (sh_shards self)) (sh_mask self) in
              match c with
              | Some a => (Some a, self')
              | None => candidate_scan now self' start fuel' (S offset)
              end
          | None => candidate_scan now self start fuel' (S offset)
          end
      | None => candidate_scan now self start fuel' (S offset)
      end
  end.

(** [cursor] is the process-wide [static CURSOR] of [next_shard]. *)
Definition sh_eviction_candidate {V} (now : Instant) (cursor : Z) (self : ShardedTierStub V) :
    option KeyAddress * Z * ShardedTierStub V :=
  let n := length (sh_shards self) in
  if n =? 0 then (None, cursor, self)
  else
    let start := Z.to_nat (cursor mod Z.of_nat n)%Z in
    let '(c, self') := candidate_scan now self start n 0 in
    (c, add64 cursor 1, self').

(** The loop over the shards of [remove_if_address], from shard [idx] on. *)
Fixpoint reclaim_scan {V} (address : KeyAddress) (shards : list (Mutex (FixedTierStub V))) :
    res bool * list (Mutex (FixedTierStub V)) :=
  match shards with
  | [] => (Ok false, [])
  | m :: rest =>
      match lock m with
      | Some t =>
          let '(r, t') := ft_remove_if_address address t in
          match r with
          | Ok true => (Ok true, store m t' :: rest)
          | Ok false =>
              let '(r', rest') := reclaim_scan address rest in (r', store m t' :: rest')
          | Err e => (Err e, store m t' :: rest)
          end
      | None => let '(r', rest') := reclaim_scan address rest in (r', m :: rest')
      end
  end.

Definition sh_remove_if_address {V} (address : KeyAddress) (self : ShardedTierStub V) :
    res bool * ShardedTierStub V :=
  let '(r, shards) := reclaim_scan address (sh_shards self) in
  (r, mkSharded shards (sh_mask self)).

(** ** The invariant *)

Record sharded_wf {V} (t : ShardedTierStub V) : Prop := {
  swf_mask : exists k, (0 <= k < 64)%Z /\ sh_mask t = (2 ^ k - 1)%Z /\
    Z.of_nat (length (sh_shards t)) = (2 ^ k)%Z;
  swf_tables : Forall (fun m => ft_wf (mx_data m)) (sh_shards t)
}.

(** No thread panicked under a shard lock. *)
Definition sharded_unpoisoned {V} (t : ShardedTierStub V) : Prop :=
  Forall (fun m => mx_poisoned m = false) (sh_shards t).

Section lemmas.
Context {V : Type} `{IntegrityCheck V} `{DefaultHasher}.
Implicit Types (t : ShardedTierStub V).

Lemma build_shards_spec n cap (l : list (Mutex (FixedTierStub V))) :
  build_shards n cap = Ok l ->
  length l = n /\
  Forall (fun m => mx_poisoned m = false /\ ft_with_capacity cap = Ok (mx_data m)) l.
Proof.
  revert l. induction n as [|n IH]; intros l; cbn; [intros [= <-]; by split|].
  destruct (ft_with_capacity cap) as [t|] eqn:Ht; [|done].
  destruct (build_shards n cap) as [l'|]; [|done]. intros [= <-].
  destruct (IH l' eq_refl) as [Hlen Hall]. split; [cbn; by rewrite Hlen|by constructor].
Qed.

Lemma next_power_of_two_spec n :
  (1 <= n <= 2 ^ 63)%Z ->
  exists k, (0 <= k < 64)%Z /\ next_power_of_two n = (2 ^ k)%Z /\ (n <= 2 ^ k)%Z.
Proof.
  intros Hn. exists (Z.log2_up n).
  assert (0 <= Z.log2_up n)%Z by apply Z.log2_up_nonneg.
  assert (Z.log2_up n <= 63)%Z by (apply Z.log2_up_le_pow2; lia).
  assert (2 ^ Z.log2_up n < W64)%Z by (unfold W64; apply Z.pow_lt_mono_r; lia).
  assert (n <= 2 ^ Z.log2_up n)%Z by (apply Z.log2_up_le_pow2; lia).
  split_and!; [lia|lia| |done].
  unfold next_power_of_two, wrap64. apply Z.mod_small. lia.
Qed.

Lemma sh_new_wf shards cap t :
  (shards <= 2 ^ 63)%Z -> sh_with_shards shards cap = Ok t -> sharded_wf t /\ sharded_unpoisoned t.
Proof.
  intros Hs. unfold sh_with_shards.
  destruct (next_power_of_two_spec (Z.max shards 1)) as (k & Hk & Heq & _); [lia|].
  destruct (build_shards _ cap) as [l|] eqn:Hb; [|done]. intros [= <-].
  apply build_shards_spec in Hb as [Hlen Hall]. split; cbn.
  - constructor; cbn.
    + exists k. split_and!; [lia|lia|by rewrite Heq|]. rewrite Hlen, Heq. lia.
    + eapply Forall_impl; [done|]. intros m [_ Hm]. by eapply ft_new_wf.
  - eapply Forall_impl; [done|]. by intros m [? _].
Qed.

Lemma sh_index_lt t key : sharded_wf t -> sh_index t key < length (sh_shards t).
Proof.
  intros [(k & Hk & Hm & Hlen) _]. unfold sh_index. rewrite Hm.
  replace (2 ^ k - 1)%Z with (Z.ones k) by (rewrite Z.ones_equiv; lia).
  rewrite Z.land_ones by lia. pose proof (Z.mod_pos_bound (default_hasher key) (2 ^ k)). lia.
Qed.

(** An operation on one shard that preserves the table invariant preserves the
    whole; it acts only on that shard. *)
Lemma with_shard_wf {A} t idx (op : FixedTierStub V -> res A * FixedTierStub V) :
  sharded_wf t -> (forall x, ft_wf x -> ft_wf (snd (op x))) ->
  sharded_wf (snd (with_shard t idx op)).
Proof.
  intros [Hmask Hall] Hop. unfold with_shard.
  destruct (sh_shards t !! idx) as [m|] eqn:Hm; [|done].
  destruct (lock m) as [x|] eqn:Hl; [|done].
  destruct (op x) as [r x'] eqn:Ho. cbn. constructor; cbn; [by rewrite length_insert|].
  apply Forall_insert; [done|]. cbn. replace x' with (snd (op x)) by (by rewrite Ho).
  apply Hop. unfold lock in Hl. destruct (mx_poisoned m); [done|]. injection Hl as <-.
  by eapply Forall_lookup_1 in Hall.
Qed.

Lemma with_shard_unpoisoned {A} t idx (op : FixedTierStub V -> res A * FixedTierStub V) :
  sharded_unpoisoned t -> sharded_unpoisoned (snd (with_shard t idx op)).
Proof.
  intros Hall. unfold with_shard, sharded_unpoisoned in *. branches; try done.
  apply Forall_insert; [done|]. cbn. by eapply Forall_lookup_1 in Hall.
Qed.

Lemma with_shard_eq {A} t idx m (op : FixedTierStub V -> res A * FixedTierStub V) :
  sh_shards t !! idx = Some m -> mx_poisoned m = false ->
  with_shard t idx op =
  (fst (op (mx_data m)),
   mkSharded (<[idx := mkMutex (snd (op (mx_data m))) false]> (sh_shards t)) (sh_mask t)).
Proof.
  intros Hm Hp. unfold with_shard. rewrite Hm. unfold lock, store. rewrite Hp.
  by destruct (op (mx_data m)).
Qed.

Lemma sh_shard t key :
  sharded_wf t -> sharded_unpoisoned t ->
  exists m, sh_shards t !! sh_index t key = Some m /\ mx_poisoned m = false /\ ft_wf (mx_data m).
Proof.
  intros Hwf Hu. destruct (lookup_lt_is_Some_2 _ _ (sh_index_lt t key Hwf)) as [m Hm].
  exists m. split_and!; [done| |].
  - by eapply Forall_lookup_1 in Hu.
  - by eapply (Forall_lookup_1 _ _ _ _ (swf_tables t Hwf)).
Qed.

Lemma candidate_scan_wf now t start fuel off :
  sharded_wf t -> sharded_wf (snd (candidate_scan now t start fuel off)).
Proof.
  revert t off. induction fuel as [|fuel IH]; intros t off Hwf; cbn; [done|].
  destruct (sh_shards t !! _) as [m|] eqn:Hm; [|by apply IH].
  destruct (lock m) as [x|] eqn:Hl; [|by apply IH].
  destruct (ft_eviction_candidate now x) as [c x'] eqn:Hc.
  assert (Hwf' : sharded_wf (mkSharded
    (<[(start + off) mod length (sh_shards t) := store m x']> (sh_shards t)) (sh_mask t))).
  { destruct Hwf as [Hmask Hall]. constructor; cbn; [by rewrite length_insert|].
    apply Forall_insert; [done|]. cbn. unfold lock in Hl. destruct (mx_poisoned m); [done|].
    injection Hl as <-. pose proof (ft_candidate_wf now (mx_data m)) as Hw. rewrite Hc in Hw.
    apply Hw. by eapply Forall_lookup_1 in Hall. }
  destruct c; [done|]. by apply IH.
Qed.

Lemma candidate_scan_unpoisoned now t start fuel off :
  sharded_unpoisoned t -> sharded_unpoisoned (snd (candidate_scan now t start fuel off)).
Proof.
  unfold sharded_unpoisoned. revert t off.
  induction fuel as [|fuel IH]; intros t off Hu; cbn; [done|].
  destruct (sh_shards t !! _) as [m|] eqn:Hm; [|by apply IH].
  destruct (lock m) as [x|] eqn:Hl; [|by apply IH].
  destruct (ft_eviction_candidate now x) as [[a|] x']; cbn; [|apply IH; cbn];
    (apply Forall_insert; [done|]; cbn; by eapply Forall_lookup_1 in Hu).
Qed.

Lemma reclaim_scan_spec a (l : list (Mutex (FixedTierStub V))) :
  Forall (fun m => ft_wf (mx_data m)) l ->
  length (snd (reclaim_scan a l)) = length l /\
  Forall (fun m => ft_wf (mx_data m)) (snd (reclaim_scan a l)) /\
  map mx_poisoned (snd (reclaim_scan a l)) = map mx_poisoned l.
Proof.
  induction 1 as [|m l Hm Hl IH]; cbn; [done|]. destruct IH as (Hlen & Hall & Hp).
  destruct (lock m) as [x|] eqn:Hlk.
  2: { destruct (reclaim_scan a l); cbn in *. split_and!; [by f_equal|by constructor|by f_equal]. }
  assert (Hx : ft_wf x).
  { unfold lock in Hlk. destruct (mx_poisoned m); [done|]. by injection Hlk as <-. }
  pose proof (ft_reclaim_wf a x Hx) as Hx'.
  destruct (ft_remove_if_address a x) as [[[]|e] x']; cbn in *.
  - split_and!; [done|by constructor|done].
  - destruct (reclaim_scan a l); cbn in *. split_and!; [by f_equal|by constructor|by f_equal].
  - split_and!; [done|by constructor|done].
Qed.
End lemmas.

(** ** What the sharded tier promises *)

Definition sh_ok {V} (t : ShardedTierStub V) : Prop := sharded_wf t /\ sharded_unpoisoned t.

(** Keys no shard confuses: they differ in fingerprint or placement. *)
Definition sh_separates {V} (t : ShardedTierStub V) (k1 k2 : bytes) : Prop :=
  Forall (fun m => KeyAddress_of k1 (ft_placement (mx_data m)) <>
                   KeyAddress_of k2 (ft_placement (mx_data m))) (sh_shards t).

#[export] Instance sh_separates_dec {V} (t : ShardedTierStub V) k1 k2 :
  Decision (sh_separates t k1 k2).
Proof. unfold sh_separates. apply _. Defined.

Section promises.
Context {V : Type} `{IntegrityCheck V} `{DefaultHasher}.
Implicit Types (t : ShardedTierStub V).

Lemma with_shard_ok {A} t idx (op : FixedTierStub V -> res A * FixedTierStub V) :
  sh_ok t -> (forall x, ft_wf x -> ft_wf (snd (op x))) -> sh_ok (snd (with_shard t idx op)).
Proof. intros [] Hop. split; [by apply with_shard_wf|by apply with_shard_unpoisoned]. Qed.

Lemma sh_set_ok now k v ttl t : sh_ok t -> sh_ok (snd (sh_set now k v ttl t)).
Proof. intros. apply with_shard_ok; [done|]. intros x. apply ft_set_wf. Qed.

Lemma sh_get_ok now k t : sh_ok t -> sh_ok (snd (sh_get now k t)).
Proof. intros. apply with_shard_ok; [done|]. intros x. apply ft_get_wf. Qed.

Lemma sh_remove_ok now k t : sh_ok t -> sh_ok (snd (sh_remove now k t)).
Proof. intros. apply with_shard_ok; [done|]. intros x. apply ft_remove_wf. Qed.

Lemma sh_contains_ok now k t : sh_ok t -> sh_ok (snd (sh_contains now k t)).
Proof. intros. by apply with_shard_ok. Qed.

Lemma sh_evict_ok now c t : sh_ok t -> sh_ok (snd (sh_eviction_candidate now c t)).
Proof.
  intros [Hwf Hu]. unfold sh_eviction_candidate. destruct (length _ =? 0); [done|].
  pose proof (candidate_scan_wf now t (Z.to_nat (c mod Z.of_nat (length (sh_shards t))))
    (length (sh_shards t)) 0 Hwf) as H1.
  pose proof (candidate_scan_unpoisoned now t (Z.to_nat (c mod Z.of_nat (length (sh_shards t))))
    (length (sh_shards t)) 0 Hu) as H2.
  by destruct (candidate_scan _ _ _ _ _).
Qed.

Lemma sh_reclaim_ok a t : sh_ok t -> sh_ok (snd (sh_remove_if_address a t)).
Proof.
  intros [[Hmask Hall] Hu]. unfold sh_remove_if_address.
  destruct (reclaim_scan_spec a (sh_shards t) Hall) as (Hlen & Hall' & Hp).
  destruct (reclaim_scan a (sh_shards t)) as [r l]; cbn in *. split.
  - constructor; cbn; [by rewrite Hlen|done].
  - unfold sharded_unpoisoned in *. cbn. apply Forall_lookup. intros i m Hm.
    assert (Hi : map mx_poisoned l !! i = Some (mx_poisoned m))
      by (by rewrite list_lookup_fmap, Hm).
    rewrite Hp, list_lookup_fmap in Hi.
    destruct (sh_shards t !! i) as [m'|] eqn:Hm'; [|done]. cbn in Hi. injection Hi as <-.
    by eapply Forall_lookup_1 in Hu.
Qed.

Lemma sh_set_get now now' k v ttl t t' :
  sh_ok t -> sh_set now k v ttl t = (Ok tt, t') ->
  fst (sh_get now' k t') = Ok (if bool_decide (ttl_live ttl now now') then Some v else None).
Proof.
  intros [Hwf Hu]. destruct (sh_shard t k Hwf Hu) as (m & Hm & Hp & Hx).
  unfold sh_set. rewrite (with_shard_eq _ _ _ _ Hm Hp).
  destruct (ft_set now k v ttl (mx_data m)) as [r x'] eqn:Hset. intros [= -> <-].
  unfold sh_get. rewrite (with_shard_eq _ _ (mkMutex x' false)); cbn.
  - by rewrite (ft_set_get_eq _ _ _ now' _ _ _ Hx Hset).
  - apply list_lookup_insert_eq. by apply lookup_lt_Some in Hm.
  - done.
Qed.

Lemma sh_set_frame now k1 k2 v w ttl t :
  sh_ok t -> sh_separates t k1 k2 -> fst (sh_get now k2 t) = Ok (Some w) ->
  fst (sh_get now k2 (snd (sh_set now k1 v ttl t))) = Ok (Some w).
Proof.
  intros [Hwf Hu] Hsep. destruct (sh_shard t k1 Hwf Hu) as (m1 & Hm1 & Hp1 & Hx1).
  destruct (sh_shard t k2 Hwf Hu) as (m2 & Hm2 & Hp2 & Hx2).
  unfold sh_get at 1, sh_set. rewrite (with_shard_eq t _ m1 _ Hm1 Hp1).
  rewrite (with_shard_eq t _ m2 _ Hm2 Hp2). cbn [fst snd]. intros Hget.
  unfold sh_get, sh_index in *. cbn [sh_mask sh_shards] in *.
  set (i1 := Z.to_nat (Z.land (default_hasher k1) (sh_mask t))) in *.
  set (i2 := Z.to_nat (Z.land (default_hasher k2) (sh_mask t))) in *.
  destruct (decide (i1 = i2)) as [Heq|Hne].
  - rewrite <- Heq in *. assert (m2 = m1) as -> by congruence.
    rewrite (with_shard_eq _ _ (mkMutex (snd (ft_set now k1 v ttl (mx_data m1))) false)); cbn.
    + apply ft_set_frame; [done| |done]. by apply (Forall_lookup_1 _ _ _ _ Hsep Hm1).
    + apply list_lookup_insert_eq. by apply lookup_lt_Some in Hm1.
    + done.
  - rewrite (with_shard_eq _ _ m2); cbn; [exact Hget| |done]. by rewrite list_lookup_insert_ne.
Qed.
End promises.

(** ** The constructor *)

Lemma sh_capacity_eq {V} `{IntegrityCheck V} (l : list (Mutex (FixedTierStub V))) cap mask :
  Forall (fun m => mx_poisoned m = false /\ ft_with_capacity cap = Ok (mx_data m)) l ->
  sh_capacity (mkSharded l mask) = length l * cap.
Proof.
  unfold sh_capacity. cbn [sh_shards].
  induction 1 as [|m l [Hp Ht] Hl IH]; [done|]. change (list_sum (?x :: ?y)) with (x + list_sum y).
  cbn [map length]. change (list_sum (?x :: ?y)) with (x + list_sum y). rewrite IH.
  unfold lock. rewrite Hp. apply ft_new_wf in Ht as [_ Ht]. unfold ft_capacity. lia.
Qed.

(** Construction never strands a shard: asking for any number of shards
    (zero included) builds the next power of two of them, every key's index is
    in range -- the indexing cannot panic -- every built shard is the home of
    some hash, and the reported capacity is shards times slots. Construction
    fails only on a zero per-shard capacity. *)
Theorem sharding_strands_no_shard {V} `{IntegrityCheck V} (shards : Z) (cap : nat)
    (Hs : (shards <= 2 ^ 63)%Z) :
  (cap = 0 -> @sh_with_shards V shards cap = Err ConfigurationError) /\
  (cap <> 0 -> exists t, @sh_with_shards V shards cap = Ok t /\ sh_ok t /\
     (exists k, (0 <= k)%Z /\ Z.of_nat (length (sh_shards t)) = (2 ^ k)%Z) /\
     (shards <= Z.of_nat (length (sh_shards t)))%Z /\
     sh_capacity t = length (sh_shards t) * cap /\
     (forall (hash : DefaultHasher) key, sh_index t key < length (sh_shards t)) /\
     (forall i, i < length (sh_shards t) ->
        @sh_index V (fun _ => Z.of_nat i) t [] = i)).
Proof.
  destruct (next_power_of_two_spec (Z.max shards 1)) as (k & Hk & Heq & Hle); [lia|].
  assert (Hpos : (0 < 2 ^ k)%Z) by (apply Z.pow_pos_nonneg; lia).
  split.
  { intros ->. unfold sh_with_shards. rewrite Heq.
    destruct (Z.to_nat (2 ^ k)) eqn:Hn; [lia|done]. }
  intros Hcap.
  destruct (sh_with_shards shards cap) as [t|e] eqn:Ht.
  2: { exfalso. unfold sh_with_shards in Ht.
       assert (exists l, @build_shards V (Z.to_nat (next_power_of_two (Z.max shards 1))) cap = Ok l)
         as [l Hl]; [|by rewrite Hl in Ht].
       generalize (Z.to_nat (next_power_of_two (Z.max shards 1))) as n.
       induction n as [|n [l IH]]; cbn; [eauto|]. rewrite IH.
       unfold ft_with_capacity, MemoryPool_new. destruct (Nat.eqb_spec cap 0); [done|]. eauto. }
  destruct (sh_new_wf _ _ _ Hs Ht) as [Hwf Hu]. exists t.
  unfold sh_with_shards in Ht. destruct (build_shards _ cap) as [l|] eqn:Hb; [|done].
  injection Ht as <-. apply build_shards_spec in Hb as [Hlen Hall]. cbn [sh_shards sh_mask] in *.
  rewrite Heq in Hlen. split_and!; [done|done| | | |intros; by apply sh_index_lt|].
  - exists k. lia.
  - lia.
  - by apply sh_capacity_eq.
  - intros i Hi. unfold sh_index, default_hasher; cbn [sh_mask]. rewrite Heq.
    replace (2 ^ k - 1)%Z with (Z.ones k) by (rewrite Z.ones_equiv; lia).
    rewrite Z.land_ones, Z.mod_small by lia. lia.
Qed.

Lemma sharding_strands_no_shard_witness :
  exists t : ShardedTierStub bytes, sh_with_shards 3 2 = Ok t /\ sh_capacity t = 8.
Proof.
  destruct (proj2 (sharding_strands_no_shard (V := bytes) 3 2 ltac:(lia)) ltac:(lia))
    as (t & Ht & _ & _ & _ & Hcap & _).
  exists t. split; [done|]. rewrite Hcap. vm_compute in Ht. injection Ht as <-. reflexivity.
Defined.
