(* ===== verification/Stubs.v ===== *)
(** * The ladder's own tiers

    Models [src/tier/l0.rs] ... [src/tier/l5.rs] (six rungs over the sharded
    table that differ in what they report), [src/tier/hot_rung.rs] (a rung
    whose backing tier can be replaced) and [src/tier/test.rs], each as an
    instance of the data-plane interface; and proves the interface's laws for
    them. *)

From S2P Require Import Prelude Entry Integrity Probe Pool Tier Capability TierTrait.
From S2P Require Import FixedTier ShardedTier.
From Stdlib Require Import String.

(** The methods every stub forwards to its [inner] sharded table. *)
Definition forward {V T R} (inner : T -> ShardedTierStub V) (wrap : ShardedTierStub V -> T)
    (op : ShardedTierStub V -> R * ShardedTierStub V) (self : T) : R * T :=
  let '(r, inner') := op (inner self) in (r, wrap inner').

Definition stub_tier {V T} `{IntegrityCheck V} `{DefaultHasher}
    (inner : T -> ShardedTierStub V) (wrap : ShardedTierStub V -> T)
    (name : string) (kind : BackendKind) (flags : Z) (rung : TierId) : CacheTier V T := {|
  tier_name := fun _ => name;
  backend := fun _ => kind;
  capability := fun _ => mkCapability kind flags OsHealthy DcVolatile;
  eviction_candidate := fun now cursor => forward inner wrap (sh_eviction_candidate now cursor);
  capacity := fun self => Some (sh_capacity (inner self));
  remove_if_address := fun address => forward inner wrap (sh_remove_if_address address);
  tier_get := fun now key => forward inner wrap (sh_get now key);
  tier_set := fun now key value ttl => forward inner wrap (sh_set now key value ttl);
  tier_remove := fun now key => forward inner wrap (sh_remove now key);
  tier_contains := fun now key => forward inner wrap (sh_contains now key);
  health := fun _ _ => TierHealth_default;
  tier_id := fun _ => rung
|}.

Definition FALLBACK_FLAGS : Z :=
  flags_union (flags_union IN_MEMORY VOLATILE) ATOMIC_WRITE_OR_ERROR.

(** ** The six rungs *)

Record L0Stub (V : Type) : Type := mkL0 { l0_inner : ShardedTierStub V }.
Record L1Stub (V : Type) : Type := mkL1 { l1_inner : ShardedTierStub V }.
Record L2Stub (V : Type) : Type := mkL2 { l2_inner : ShardedTierStub V }.
Record L3Stub (V : Type) : Type := mkL3 { l3_inner : ShardedTierStub V }.
Record L4Stub (V : Type) : Type := mkL4 { l4_inner : ShardedTierStub V }.
Record L5Stub (V : Type) : Type := mkL5 { l5_inner : ShardedTierStub V }.
Arguments mkL0 {V} _. Arguments l0_inner {V} _.
Arguments mkL1 {V} _. Arguments l1_inner {V} _.
Arguments mkL2 {V} _. Arguments l2_inner {V} _.
Arguments mkL3 {V} _. Arguments l3_inner {V} _.
Arguments mkL4 {V} _. Arguments l4_inner {V} _.
Arguments mkL5 {V} _. Arguments l5_inner {V} _.

(** [L3Stub::with_capacity] and its siblings. *)
Definition L3Stub_with_capacity {V} (cap : nat) : res (L3Stub V) :=
  let? t := sh_with_shards DEFAULT_SHARDS cap in Ok (mkL3 t).
Definition L4Stub_with_capacity {V} (cap : nat) : res (L4Stub V) :=
  let? t := sh_with_shards DEFAULT_SHARDS cap in Ok (mkL4 t).
Definition L5Stub_with_capacity {V} (cap : nat) : res (L5Stub V) :=
  let? t := sh_with_shards DEFAULT_SHARDS cap in Ok (mkL5 t).

Section rungs.
Context {V : Type} `{IntegrityCheck V} `{DefaultHasher}.

#[export] Instance CacheTier_L0 : CacheTier V (L0Stub V) :=
  stub_tier l0_inner mkL0 "L0-request-local" InMemory (flags_union IN_MEMORY VOLATILE) L0.

#[export] Instance CacheTier_L1 : CacheTier V (L1Stub V) :=
  stub_tier l1_inner mkL1 "L1-hot-local" InMemory
    (flags_union (flags_union IN_MEMORY VOLATILE) ATOMIC_WRITE_OR_ERROR) L1.

#[export] Instance CacheTier_L2 : CacheTier V (L2Stub V) :=
  stub_tier l2_inner mkL2 "L2-local" InMemory
    (flags_union (flags_union IN_MEMORY VOLATILE) ATOMIC_WRITE_OR_ERROR) L2.

#[export] Instance CacheTier_L3 : CacheTier V (L3Stub V) :=
  stub_tier l3_inner mkL3 "L3-in-memory-fallback" InMemoryFallback FALLBACK_FLAGS L3.

#[export] Instance CacheTier_L4 : CacheTier V (L4Stub V) :=
  stub_tier l4_inner mkL4 "L4-in-memory-fallback" InMemoryFallback FALLBACK_FLAGS L4.

#[export] Instance CacheTier_L5 : CacheTier V (L5Stub V) :=
  stub_tier l5_inner mkL5 "L5-in-memory-fallback" InMemoryFallback FALLBACK_FLAGS L5.
End rungs.

(** ** The rebindable rung of [src/tier/hot_rung.rs] *)

Record HotRungTier (T : Type) : Type := mkHot {
  hr_rung : TierId;
  hr_inner : Mutex T
}.
Arguments mkHot {T}.
Arguments hr_rung {T} _.
Arguments hr_inner {T} _.

Section hot_rung.
Context {V T : Type} `{CacheTier V T}.

Definition hot_new (rung : TierId) (initial : T) : res (HotRungTier T) :=
  if decide (tier_id initial = rung) then Ok (mkHot rung (new_mutex initial))
  else Err ConfigurationError.

(** The tier displaced, or an error that leaves the binding alone. *)
Definition hot_swap (replacement : T) (self : HotRungTier T) : res T * HotRungTier T :=
  if decide (tier_id replacement = hr_rung self) then
    match lock (hr_inner self) with
    | None => (Err ConfigurationError, self)
    | Some old => (Ok old, mkHot (hr_rung self) (store (hr_inner self) replacement))
    end
  else (Err ConfigurationError, self).

(** [current]: the tier bound now. *)
Definition hot_current (self : HotRungTier T) : res T :=
  match lock (hr_inner self) with
  | Some t => Ok t
  | None => Err ConfigurationError
  end.

(** [let inner = self.current()?; inner.op(..)]: the operation acts on the
    shared tier the handle points to. *)
Definition hot_forward {A} (op : T -> res A * T) (self : HotRungTier T) : res A * HotRungTier T :=
  match hot_current self with
  | Err e => (Err e, self)
  | Ok inner => let '(r, inner') := op inner in
                (r, mkHot (hr_rung self) (store (hr_inner self) inner'))
  end.

#[export] Instance CacheTier_hot : CacheTier V (HotRungTier T) := {|
  tier_name := fun self =>
    match hot_current self with Ok t => tier_name t | Err _ => "hot-rung-poisoned"%string end;
  backend := fun self =>
    match hot_current self with Ok t => backend t | Err _ => BackendUnavailable end;
  capability := fun self =>
    match hot_current self with Ok t => capability t | Err _ => capability_unbound end;
  eviction_candidate := fun now cursor self =>
    match hot_current self with
    | Err _ => (None, cursor, self)
    | Ok inner => let '(c, cursor', inner') := eviction_candidate now cursor inner in
                  (c, cursor', mkHot (hr_rung self) (store (hr_inner self) inner'))
    end;
  capacity := fun self =>
    match hot_current self with Ok t => capacity t | Err _ => None end;
  remove_if_address := fun address => hot_forward (remove_if_address address);
  tier_get := fun now key => hot_forward (tier_get now key);
  tier_set := fun now key value ttl => hot_forward (tier_set now key value ttl);
  tier_remove := fun now key => hot_forward (tier_remove now key);
  tier_contains := fun now key => hot_forward (tier_contains now key);
  health := fun wall self =>
    match hot_current self with Ok t => health wall t | Err _ => TierHealth_default end;
  tier_id := fun self => hr_rung self
|}.
End hot_rung.

(** ** The failure-injecting tier of [src/tier/test.rs] *)

Record TestTier (V : Type) : Type := mkTest {
  tt_healthy : bool;
  tt_inner : Mutex (FixedTierStub V);
  tt_tier_id : TierId;
  tt_failure_count : Z
}.
Arguments mkTest {V}.
Arguments tt_healthy {V} _.
Arguments tt_inner {V} _.
Arguments tt_tier_id {V} _.
Arguments tt_failure_count {V} _.

(** Construction expects the allocation to succeed. *)
Definition TestTier_new {V} (id : TierId) : res (TestTier V) :=
  let? t := ft_with_capacity 1024 in Ok (mkTest true (new_mutex t) id 0).

Definition set_healthy {V} (self : TestTier V) (h : bool) : TestTier V :=
  mkTest h (tt_inner self) (tt_tier_id self) (tt_failure_count self).

(** The prefix of every operation: an unhealthy tier counts a failure and
    refuses; a healthy one runs the operation under its lock. *)
Definition test_run {V A} (op : FixedTierStub V -> res A * FixedTierStub V) (self : TestTier V) :
    res A * TestTier V :=
  if negb (tt_healthy self) then
    (Err TierUnavailable,
     mkTest (tt_healthy self) (tt_inner self) (tt_tier_id self) (add64 (tt_failure_count self) 1))
  else
    match lock (tt_inner self) with
    | None => (Err ConfigurationError, self)
    | Some t => let '(r, t') := op t in
                (r, mkTest (tt_healthy self) (store (tt_inner self) t') (tt_tier_id self)
                      (tt_failure_count self))
    end.

Definition test_health {V} (wall : Z) (self : TestTier V) : TierHealth :=
  let failures := tt_failure_count self in
  mkHealth failures (if (0 <? failures)%Z then Some wall else None)
    (if (5 <=? failures)%Z then f64_zero
     else f64_max (f64_sub f64_one (f64_mul (f64_from_u32 failures) f64_tenth)) f64_zero)
    f64_one.

#[export] Instance CacheTier_test {V} `{IntegrityCheck V} : CacheTier V (TestTier V) := {|
  tier_name := fun self => ("test-" ++ TierId_display (tt_tier_id self))%string;
  backend := fun _ => TestBackend;
  capability := fun self =>
    mkCapability TestBackend (flags_union IN_MEMORY VOLATILE)
      (if tt_healthy self then OsHealthy else OsUnavailable) DcVolatile;
  eviction_candidate := fun _ => default_eviction_candidate;
  capacity := fun self => option_map ft_capacity (lock (tt_inner self));
  remove_if_address := default_remove_if_address;
  tier_get := fun now key => test_run (ft_get now key);
  tier_set := fun now key value ttl => test_run (ft_set now key value ttl);
  tier_remove := fun now key => test_run (ft_remove now key);
  tier_contains := fun now key => test_run (ft_contains now key);
  health := test_health;
  tier_id := fun self => tt_tier_id self
|}.

(** ** The laws of the interface *)

Lemma forward_eq {V T R} (inner : T -> ShardedTierStub V) wrap
    (op : ShardedTierStub V -> R * ShardedTierStub V) self :
  forward inner wrap op self = (fst (op (inner self)), wrap (snd (op (inner self)))).
Proof. unfold forward. by destruct (op (inner self)). Qed.

(** A stub keeps every promise of its sharded table. *)
Definition stub_laws {V T} `{IntegrityCheck V} `{DefaultHasher}
    (inner : T -> ShardedTierStub V) (wrap : ShardedTierStub V -> T) name kind flags rung
    (Hiso : forall x, inner (wrap x) = x) :
  @TierLaws V T (stub_tier inner wrap name kind flags rung).
Proof.
  refine (@Build_TierLaws V T (stub_tier inner wrap name kind flags rung)
    (fun t => sh_ok (inner t)) (fun t => sh_separates (inner t)) _ _ _ _ _ _ _ _ _ _ _ _ _);
    intros; unfold holds in *; cbn in *; rewrite ?forward_eq in *; cbn; rewrite ?Hiso; auto.
  - by apply sh_set_ok.
  - by apply sh_get_ok.
  - by apply sh_remove_ok.
  - by apply sh_contains_ok.
  - by apply sh_evict_ok.
  - by apply sh_reclaim_ok.
  - match goal with Hs : (_, _) = (Ok tt, _) |- _ => injection Hs as Hr <- end.
    rewrite Hiso. destruct (sh_set now k v ttl (inner t)) as [r t''] eqn:Hs. cbn in *. subst r.
    rewrite (sh_set_get now now' k v ttl (inner t) t'') by done. by rewrite bool_decide_true.
  - by apply sh_set_frame.
Defined.

#[export] Instance TierLaws_L0 {V} `{IntegrityCheck V} `{DefaultHasher} : TierLaws V (L0Stub V) :=
  stub_laws l0_inner mkL0 _ _ _ _ (fun _ => eq_refl).
#[export] Instance TierLaws_L1 {V} `{IntegrityCheck V} `{DefaultHasher} : TierLaws V (L1Stub V) :=
  stub_laws l1_inner mkL1 _ _ _ _ (fun _ => eq_refl).
#[export] Instance TierLaws_L2 {V} `{IntegrityCheck V} `{DefaultHasher} : TierLaws V (L2Stub V) :=
  stub_laws l2_inner mkL2 _ _ _ _ (fun _ => eq_refl).
#[export] Instance TierLaws_L3 {V} `{IntegrityCheck V} `{DefaultHasher} : TierLaws V (L3Stub V) :=
  stub_laws l3_inner mkL3 _ _ _ _ (fun _ => eq_refl).
#[export] Instance TierLaws_L4 {V} `{IntegrityCheck V} `{DefaultHasher} : TierLaws V (L4Stub V) :=
  stub_laws l4_inner mkL4 _ _ _ _ (fun _ => eq_refl).
#[export] Instance TierLaws_L5 {V} `{IntegrityCheck V} `{DefaultHasher} : TierLaws V (L5Stub V) :=
  stub_laws l5_inner mkL5 _ _ _ _ (fun _ => eq_refl).

(** *** The rebindable rung *)

Section hot_rung_laws.
Context {V T : Type} `{HT : CacheTier V T} `{HL : !TierLaws V T}.
Implicit Types (h : HotRungTier T).

Inductive hot_op : Type :=
| HotSwap (replacement : T)
| HotGet (now : Instant) (key : bytes)
| HotSet (now : Instant) (key : bytes) (value : V) (ttl : option Duration)
| HotRemove (now : Instant) (key : bytes)
| HotEvict (now : Instant) (cursor : Z)
| HotReclaim (address : KeyAddress).

Definition hot_exec h (op : hot_op) : HotRungTier T :=
  match op with
  | HotSwap r => snd (hot_swap r h)
  | HotGet now k => snd (tier_get (V := V) now k h)
  | HotSet now k v ttl => snd (tier_set now k v ttl h)
  | HotRemove now k => snd (tier_remove now k h)
  | HotEvict now c => snd (eviction_candidate now c h)
  | HotReclaim a => snd (remove_if_address a h)
  end.

(** What is bound claims the rung it is bound to. *)
Definition hot_honest (rung : TierId) h : Prop :=
  hr_rung h = rung /\ tier_id (mx_data (hr_inner h)) = rung.

Lemma hot_forward_honest {A} (op : T -> res A * T) rung h :
  (forall t, tier_id (snd (op t)) = tier_id t) ->
  hot_honest rung h -> hot_honest rung (snd (hot_forward op h)).
Proof.
  intros Hop [Hr Hi]. unfold hot_forward, hot_current.
  destruct (lock (hr_inner h)) as [t|] eqn:Hl; [|done].
  assert (t = mx_data (hr_inner h)) as -> by (unfold lock in Hl; by branches_in Hl).
  specialize (Hop (mx_data (hr_inner h))). destruct (op _). cbn in *. split; cbn; congruence.
Qed.

Lemma hot_exec_honest rung h op : hot_honest rung h -> hot_honest rung (hot_exec h op).
Proof.
  intros Hh. destruct op; cbn.
  - unfold hot_swap. destruct (decide _) as [Heq|]; [|done]. destruct (lock _); [|done].
    destruct Hh as [Hr Hi]. split; cbn; congruence.
  - apply hot_forward_honest; [|done]. intros. apply law_id_get.
  - apply hot_forward_honest; [|done]. intros. apply law_id_set.
  - apply hot_forward_honest; [|done]. intros. apply law_id_remove.
  - destruct Hh as [Hr Hi]. unfold hot_current. destruct (lock (hr_inner h)) as [t|] eqn:Hl; [|done].
    assert (t = mx_data (hr_inner h)) as -> by (unfold lock in Hl; by branches_in Hl).
    pose proof (law_id_evict now cursor (mx_data (hr_inner h))) as Hid.
    destruct (eviction_candidate _ _ _) as [[? ?] ?]. cbn in *. split; cbn; congruence.
  - apply hot_forward_honest; [|done]. intros. apply law_id_reclaim.
Qed.

Lemma hot_forward_eq {A} (op : T -> res A * T) h :
  hot_forward op h =
    match lock (hr_inner h) with
    | Some t => (fst (op t), mkHot (hr_rung h) (store (hr_inner h) (snd (op t))))
    | None => (Err ConfigurationError, h)
    end.
Proof. unfold hot_forward, hot_current. destruct (lock _) as [t|]; [|done]. by destruct (op t). Qed.

Lemma hot_forward_data {A} (op : T -> res A * T) (I : T -> Prop) h :
  (forall t, I t -> I (snd (op t))) ->
  I (mx_data (hr_inner h)) -> I (mx_data (hr_inner (snd (hot_forward op h)))).
Proof.
  intros Hop Hi. rewrite hot_forward_eq. unfold lock.
  destruct (mx_poisoned (hr_inner h)); [done|]. cbn. by apply Hop.
Qed.

(** A hot rung keeps the promises of the tier bound to it. *)
#[export] Instance TierLaws_hot : TierLaws V (HotRungTier T).
Proof.
  refine (@Build_TierLaws V (HotRungTier T) CacheTier_hot
    (fun h => tier_ok (mx_data (hr_inner h))) (fun h => tier_separates (mx_data (hr_inner h)))
    _ _ _ _ _ _ _ _ _ _ _ _ _);
    intros; unfold holds in *; cbn in *.
  - by apply hot_forward_data; [intros; by apply law_set_ok|].
  - by apply hot_forward_data; [intros; by apply law_get_ok|].
  - by apply hot_forward_data; [intros; by apply law_remove_ok|].
  - by apply hot_forward_data; [intros; by apply law_contains_ok|].
  - unfold hot_current, lock. destruct (mx_poisoned (hr_inner t)); [done|].
    pose proof (law_evict_ok now c (mx_data (hr_inner t)) H) as Hev.
    by destruct (eviction_candidate now c (mx_data (hr_inner t))) as [[? ?] ?].
  - by apply hot_forward_data; [intros; by apply law_reclaim_ok|].
  - match goal with Hs : hot_forward _ _ = _ |- _ => rename Hs into Heq end.
    destruct t as [rung [d p]]. rewrite hot_forward_eq in Heq. rewrite hot_forward_eq.
    unfold lock in *. cbn in *. destruct p; cbn in *; [done|]. injection Heq as Hr <-. cbn.
    destruct (tier_set now k v ttl d) as [r d'] eqn:Hs. cbn in *. subst r. by eapply law_set_get.
  - destruct t as [rung [d p]]. rewrite !hot_forward_eq in *. unfold lock in *. cbn in *.
    destruct p; cbn in *; [done|]. by apply law_set_frame.
  - rewrite hot_forward_eq. by destruct (lock _).
  - rewrite hot_forward_eq. by destruct (lock _).
  - rewrite hot_forward_eq. by destruct (lock _).
  - destruct (hot_current t); [|done]. by destruct (eviction_candidate _ _ _) as [[? ?] ?].
  - rewrite hot_forward_eq. by destruct (lock _).
Defined.

(** Replacing what is bound by a well-formed tier. *)
Lemma hot_swap_ok (r : T) h : tier_ok r -> tier_ok h -> tier_ok (snd (hot_swap r h)).
Proof.
  intros Hr Hh. unfold hot_swap. destruct (decide _); [|done]. by destruct (lock _).
Qed.

(** A hot rung never lies about which rung answers: built for a rung and
    driven through any sequence of swaps and operations, what is bound claims
    that rung, a replacement claiming another rung is refused and changes
    nothing, and an accepted swap hands back exactly the displaced tier. *)
Theorem hot_rung_never_rebinds_the_rung (rung : TierId) (t0 : T) (h0 : HotRungTier T)
    (ops : list hot_op) (r : T) (Hnew : hot_new rung t0 = Ok h0) :
  let h := fold_left hot_exec ops h0 in
  tier_id h = rung /\
  (forall t, hot_current h = Ok t -> tier_id t = rung) /\
  (tier_id r <> rung -> hot_swap r h = (Err ConfigurationError, h)) /\
  (forall t, tier_id r = rung -> hot_current h = Ok t ->
     exists h', hot_swap r h = (Ok t, h') /\ hot_current h' = Ok r /\ tier_id h' = rung).
Proof.
  cbn zeta. assert (Hh : hot_honest rung (fold_left hot_exec ops h0)).
  { assert (Hh0 : hot_honest rung h0).
    { unfold hot_new in Hnew. destruct (decide _); [|done]. by injection Hnew as <-. }
    clear Hnew. revert h0 Hh0. induction ops as [|op ops IH]; intros h0 Hh0; cbn; [done|].
    by apply IH, hot_exec_honest. }
  destruct (fold_left _ _ _) as [rg [d p]], Hh as [Hr Hi]. cbn in *. subst rg.
  unfold hot_current, hot_swap, lock, store; cbn. split_and!; [done| | |].
  - intros t. destruct p; cbn; [done|]. by intros [= <-].
  - intros Hne. by destruct (decide _).
  - intros t Heq. destruct p; cbn; [done|]. intros [= <-]. rewrite decide_True by done.
    eexists. split_and!; [done|done|done].
Qed.
End hot_rung_laws.

Lemma hot_rung_never_rebinds_the_rung_witness :
  let t := mkL0 (mkSharded [new_mutex wit_new] 0) in
  let hasher : DefaultHasher := fun _ => 0%Z in
  match hot_new (V := bytes) L0 t with
  | Ok h => tier_id (V := bytes) (fold_left (hot_exec (V := bytes)) [HotSet 0%Z [1%Z] [2%Z] None] h) = L0
  | Err _ => False
  end.
Proof.
  cbn zeta. destruct (hot_new L0 _) as [h|e] eqn:Hn; [|vm_compute in Hn; discriminate Hn].
  eapply (hot_rung_never_rebinds_the_rung (HL := @TierLaws_L0 bytes _ (fun _ => 0%Z)) L0 _ h
    [HotSet 0%Z [1%Z] [2%Z] None] (mkL0 (mkSharded [new_mutex wit_new] 0)) Hn).
Defined.
