(* ===== verification/Stored.v ===== *)
(** * What a tier stores

    A tier tells keys apart by their fingerprints. The interface [TierStores]
    says which values a tier stores under which fingerprint, that a read serves
    one of them, and that only a write adds one; it is discharged for every
    in-memory rung and for the rebindable one. *)

From S2P Require Import Prelude Entry Integrity Probe Pool Tier TierTrait FixedTier ShardedTier Stubs.

Class TierStores (V T : Type) `{HT : CacheTier V T} `{!TierLaws V T} := {
  stores : T -> Z -> V -> Prop;
  stores_read : forall now k v t,
    tier_ok t -> fst (tier_get now k t) = Ok (Some v) -> stores t (KeyFingerprint_of k) v;
  stores_set : forall now k v ttl t f u,
    tier_ok t -> stores (snd (tier_set now k v ttl t)) f u ->
    stores t f u \/ (f = KeyFingerprint_of k /\ u = v);
  stores_get : forall now k t f u, tier_ok t -> stores (snd (tier_get now k t)) f u -> stores t f u;
  stores_remove : forall now k t f u, tier_ok t -> stores (snd (tier_remove now k t)) f u -> stores t f u;
  stores_contains : forall now k t f u,
    tier_ok t -> stores (snd (tier_contains now k t)) f u -> stores t f u;
  stores_evict : forall now c t f u,
    tier_ok t -> stores (snd (eviction_candidate now c t)) f u -> stores t f u;
  stores_reclaim : forall a t f u, tier_ok t -> stores (snd (remove_if_address a t)) f u -> stores t f u
}.

(** ** The fixed table *)

Section fixed.
Context {V : Type} `{IntegrityCheck V}.
Implicit Types (t : FixedTierStub V).

(** Some occupied slot has the fingerprint and owns a cell with the value. *)
Definition ft_stores t (f : Z) (v : V) : Prop :=
  exists i s, ft_slots t !! i = Some (Some s) /\ sl_fingerprint s = f /\ cell t s = Some v.

(** Slots and cells alone decide it. *)
Lemma ft_stores_ext t t' f v :
  ft_slots t' = ft_slots t -> ft_pool t' = ft_pool t -> ft_stores t' f v -> ft_stores t f v.
Proof. intros Hs Hp (i & s & Hi & Hf & Hc). exists i, s. unfold cell in *. by rewrite <- Hs, <- Hp. Qed.

Lemma ft_stores_read now k v t :
  ft_wf t -> fst (ft_get now k t) = Ok (Some v) -> ft_stores t (KeyFingerprint_of k) v.
Proof.
  intros Hwf Hg. apply (ft_holds_iff t now k v Hwf) in Hg as (idx & s & Hfind & Hs & Hc & _).
  apply ft_find_slot_Some in Hfind as (s' & Hs' & [_ Hm]%slot_matches_spec & _).
  exists idx, s. split; [done|]. split; [congruence|done].
Qed.

Lemma ft_stores_get now k t f u : ft_wf t -> ft_stores (snd (ft_get now k t)) f u -> ft_stores t f u.
Proof.
  intros Hwf. pose proof (ft_get_eq now k t Hwf) as Hg. destruct (ft_find_slot _ _ _ _) as [idx|].
  - destruct Hg as (s & v & _ & _ & ->). destruct (_ =? _)%Z; [done|]. by apply ft_stores_ext.
  - by rewrite Hg.
Qed.

Lemma ft_stores_set now k v ttl t f u :
  ft_wf t -> ft_stores (snd (ft_set now k v ttl t)) f u ->
  ft_stores t f u \/ (f = KeyFingerprint_of k /\ u = v).
Proof.
  intros Hwf. pose proof (ft_set_eq now k v ttl t Hwf) as Heq.
  destruct (ft_find_empty _ _ _ _) as [idx|]; [|rewrite Heq; by left].
  destruct Heq as (slot & t' & -> & _ & Hlt & Hsl & _ & Hc & _ & _ & _ & Hf & Hother). cbn [snd].
  intros (i & s & Hi & Hfs & Hcs). rewrite Hsl in Hi.
  apply list_lookup_insert_Some in Hi as [(<- & [= <-] & _)|[Hne Hi]].
  - right. split; congruence.
  - left. exists i, s. split; [done|]. split; [done|]. by rewrite <- (Hother i s).
Qed.

Lemma ft_stores_take idx s t f u :
  ft_wf t -> ft_slots t !! idx = Some (Some s) -> ft_stores (ft_take t idx) f u -> ft_stores t f u.
Proof.
  intros Hwf Hs. destruct (ft_take_spec t idx s Hwf Hs) as (_ & Hsl & _ & Hother).
  intros (i & s' & Hi & Hf & Hc). rewrite Hsl in Hi.
  apply list_lookup_insert_Some in Hi as [(_ & [=] & _)|[Hne Hi]].
  exists i, s'. split; [done|]. split; [done|]. by rewrite <- (Hother i s').
Qed.

Lemma ft_stores_remove now k t f u : ft_wf t -> ft_stores (snd (ft_remove now k t)) f u -> ft_stores t f u.
Proof.
  intros Hwf. unfold ft_remove. destruct (ft_find_slot _ _ _ _) as [idx|] eqn:Hfind; [|done].
  apply ft_find_slot_Some in Hfind as (s & Hs & _). by eapply ft_stores_take.
Qed.

Lemma ft_stores_reclaim a t f u :
  ft_wf t -> ft_stores (snd (ft_remove_if_address a t)) f u -> ft_stores t f u.
Proof.
  intros Hwf. pose proof (ft_reclaim_spec a t Hwf) as Hr. destruct (find_address _ _ _) as [idx|].
  - destruct Hr as (s & Hs & _ & -> & _). by eapply ft_stores_take.
  - by rewrite Hr.
Qed.

Lemma ft_stores_evict now t f u : ft_stores (snd (ft_eviction_candidate now t)) f u -> ft_stores t f u.
Proof. destruct (ft_candidate_slots now t) as (? & ? & _). by apply ft_stores_ext. Qed.
End fixed.

(** ** The sharded table *)

Section sharded.
Context {V : Type} `{IntegrityCheck V} `{DefaultHasher}.
Implicit Types (t : ShardedTierStub V).

Definition shards_store (l : list (Mutex (FixedTierStub V))) (f : Z) (v : V) : Prop :=
  exists i m, l !! i = Some m /\ ft_stores (mx_data m) f v.

Definition sh_stores t (f : Z) (v : V) : Prop := shards_store (sh_shards t) f v.

Lemma lock_data {A} (m : Mutex A) x : lock m = Some x -> x = mx_data m.
Proof. unfold lock. by destruct (mx_poisoned m); intros [= <-]. Qed.

(** Replacing one shard: what the new table stores, or what was stored. *)
Lemma shards_store_insert l i m x f u :
  l !! i = Some m -> shards_store (<[i := store m x]> l) f u ->
  ft_stores x f u \/ shards_store l f u.
Proof.
  intros Hm (j & m' & Hj & Hst). apply list_lookup_insert_Some in Hj as [(_ & <- & _)|[_ Hj]].
  - by left.
  - right. by exists j, m'.
Qed.

Lemma with_shard_stores {A} t idx (op : FixedTierStub V -> res A * FixedTierStub V) f u (Q : Prop) :
  sh_ok t ->
  (forall x, ft_wf x -> ft_stores (snd (op x)) f u -> ft_stores x f u \/ Q) ->
  sh_stores (snd (with_shard t idx op)) f u -> sh_stores t f u \/ Q.
Proof.
  intros [[_ Hall] _] Hop. unfold with_shard, sh_stores.
  destruct (sh_shards t !! idx) as [m|] eqn:Hm; [|by left].
  destruct (lock m) as [x|] eqn:Hl; [|by left]. apply lock_data in Hl as ->.
  specialize (Hop (mx_data m) (Forall_lookup_1 _ _ _ _ Hall Hm)).
  destruct (op (mx_data m)) as [r x'] eqn:Ho. cbn in *.
  intros [Hx|Hst]%(shards_store_insert _ _ _ _ _ _ Hm); [|by left].
  destruct (Hop Hx) as [Hs|]; [|by right]. left. by exists idx, m.
Qed.

Lemma sh_stores_read now k v t :
  sh_ok t -> fst (sh_get now k t) = Ok (Some v) -> sh_stores t (KeyFingerprint_of k) v.
Proof.
  intros [[_ Hall] _]. unfold sh_get, with_shard.
  destruct (sh_shards t !! _) as [m|] eqn:Hm; [|done].
  destruct (lock m) as [x|] eqn:Hl; [|done]. apply lock_data in Hl as ->.
  pose proof (ft_stores_read now k v (mx_data m) (Forall_lookup_1 _ _ _ _ Hall Hm)) as Hr.
  destruct (ft_get now k (mx_data m)). cbn in *. intros Hg. eexists _, m. split; [exact Hm|by apply Hr].
Qed.

Lemma sh_stores_set now k v ttl t f u :
  sh_ok t -> sh_stores (snd (sh_set now k v ttl t)) f u ->
  sh_stores t f u \/ (f = KeyFingerprint_of k /\ u = v).
Proof. intros Hok. apply with_shard_stores; [done|]. intros x Hx. by apply ft_stores_set. Qed.

(** An operation that adds nothing to a shard adds nothing. *)
Lemma with_shard_stores_kept {A} t idx (op : FixedTierStub V -> res A * FixedTierStub V) f u :
  sh_ok t -> (forall x, ft_wf x -> ft_stores (snd (op x)) f u -> ft_stores x f u) ->
  sh_stores (snd (with_shard t idx op)) f u -> sh_stores t f u.
Proof.
  intros Hok Hop Hst. destruct (with_shard_stores t idx op f u False Hok) as [|[]]; [|done..].
  intros x Hx Hs. left. by apply Hop.
Qed.

Lemma candidate_scan_stores now t start fuel off f u :
  sh_stores (snd (candidate_scan now t start fuel off)) f u -> sh_stores t f u.
Proof.
  revert t off. induction fuel as [|fuel IH]; intros t off; cbn; [done|].
  destruct (sh_shards t !! _) as [m|] eqn:Hm; [|by apply IH].
  destruct (lock m) as [x|] eqn:Hl; [|by apply IH]. apply lock_data in Hl as ->.
  pose proof (ft_stores_evict now (mx_data m) f u) as Hev.
  destruct (ft_eviction_candidate now (mx_data m)) as [c x']. cbn in Hev.
  assert (Hins : sh_stores (mkSharded
    (<[(start + off) mod length (sh_shards t) := store m x']> (sh_shards t)) (sh_mask t)) f u -> sh_stores t f u).
  { unfold sh_stores. cbn. intros [Hx|]%(shards_store_insert _ _ _ _ _ _ Hm); [|done].
    eexists _, m. split; [exact Hm|by apply Hev]. }
  destruct c as [a|]; cbn; [exact Hins|]. intros Hst. by apply Hins, (IH _ (S off)).
Qed.

Lemma sh_stores_evict now c t f u :
  sh_stores (snd (sh_eviction_candidate now c t)) f u -> sh_stores t f u.
Proof.
  unfold sh_eviction_candidate. destruct (length (sh_shards t) =? 0); [done|].
  pose proof (candidate_scan_stores now t (Z.to_nat (c mod Z.of_nat (length (sh_shards t))))
    (length (sh_shards t)) 0 f u) as H1.
  by destruct (candidate_scan _ _ _ _ _).
Qed.

Lemma shards_store_cons m l f u :
  shards_store (m :: l) f u <-> ft_stores (mx_data m) f u \/ shards_store l f u.
Proof.
  split.
  - intros ([|i] & m' & Hi & Hst); cbn in Hi; [injection Hi as <-; by left|]. right. by exists i, m'.
  - intros [Hst|(i & m' & Hi & Hst)]; [by exists 0, m|by exists (S i), m'].
Qed.

Lemma reclaim_scan_stores a l f u :
  Forall (fun m => ft_wf (mx_data m)) l -> shards_store (snd (reclaim_scan a l)) f u -> shards_store l f u.
Proof.
  induction 1 as [|m l Hm _ IH]; cbn [reclaim_scan]; [done|].
  rewrite shards_store_cons. destruct (lock m) as [x|] eqn:Hl.
  - apply lock_data in Hl as ->. pose proof (ft_stores_reclaim a (mx_data m) f u Hm) as Hr.
    destruct (ft_remove_if_address a (mx_data m)) as [[[]|e] x']; cbn [snd] in Hr.
    + cbn [snd]. rewrite shards_store_cons. intros [Hst|]; [left; by apply Hr|by right].
    + destruct (reclaim_scan a l) as [r' l']. cbn [snd] in *. rewrite shards_store_cons.
      intros [Hst|Hst]; [left; by apply Hr|right; by apply IH].
    + cbn [snd]. rewrite shards_store_cons. intros [Hst|]; [left; by apply Hr|by right].
  - destruct (reclaim_scan a l) as [r' l']. cbn [snd] in *. rewrite shards_store_cons.
    intros [|Hst]; [by left|right; by apply IH].
Qed.

Lemma sh_stores_reclaim a t f u :
  sh_ok t -> sh_stores (snd (sh_remove_if_address a t)) f u -> sh_stores t f u.
Proof.
  intros [[_ Hall] _]. unfold sh_remove_if_address, sh_stores.
  pose proof (reclaim_scan_stores a (sh_shards t) f u Hall) as Hr. by destruct (reclaim_scan _ _).
Qed.
End sharded.

(** ** The instances *)

(** A stub stores what its sharded table stores. *)
Definition stub_stores {V T} `{IntegrityCheck V} `{DefaultHasher}
    (inner : T -> ShardedTierStub V) (wrap : ShardedTierStub V -> T) name kind flags rung
    (Hiso : forall x, inner (wrap x) = x) :
  @TierStores V T (stub_tier inner wrap name kind flags rung) (stub_laws inner wrap name kind flags rung Hiso).
Proof.
  refine (@Build_TierStores V T (stub_tier inner wrap name kind flags rung)
    (stub_laws inner wrap name kind flags rung Hiso) (fun t => sh_stores (inner t)) _ _ _ _ _ _ _);
    cbn; intros until 0; rewrite ?forward_eq; cbn; rewrite ?Hiso.
  - apply sh_stores_read.
  - apply sh_stores_set.
  - intros Hok. apply with_shard_stores_kept; [done|]. intros x Hx. by apply ft_stores_get.
  - intros Hok. apply with_shard_stores_kept; [done|]. intros x Hx. by apply ft_stores_remove.
  - intros Hok. by apply with_shard_stores_kept.
  - intros _. apply sh_stores_evict.
  - apply sh_stores_reclaim.
Defined.

#[export] Instance TierStores_L0 {V} `{IntegrityCheck V} `{DefaultHasher} : TierStores V (L0Stub V) :=
  stub_stores l0_inner mkL0 _ _ _ _ (fun _ => eq_refl).
#[export] Instance TierStores_L1 {V} `{IntegrityCheck V} `{DefaultHasher} : TierStores V (L1Stub V) :=
  stub_stores l1_inner mkL1 _ _ _ _ (fun _ => eq_refl).
#[export] Instance TierStores_L2 {V} `{IntegrityCheck V} `{DefaultHasher} : TierStores V (L2Stub V) :=
  stub_stores l2_inner mkL2 _ _ _ _ (fun _ => eq_refl).
#[export] Instance TierStores_L3 {V} `{IntegrityCheck V} `{DefaultHasher} : TierStores V (L3Stub V) :=
  stub_stores l3_inner mkL3 _ _ _ _ (fun _ => eq_refl).
#[export] Instance TierStores_L4 {V} `{IntegrityCheck V} `{DefaultHasher} : TierStores V (L4Stub V) :=
  stub_stores l4_inner mkL4 _ _ _ _ (fun _ => eq_refl).
#[export] Instance TierStores_L5 {V} `{IntegrityCheck V} `{DefaultHasher} : TierStores V (L5Stub V) :=
  stub_stores l5_inner mkL5 _ _ _ _ (fun _ => eq_refl).

Section hot.
Context {V T : Type} `{HT : CacheTier V T} `{HL : !TierLaws V T} `{HS : !TierStores V T}.
Implicit Types (h : HotRungTier T).

Definition hot_stores h (f : Z) (v : V) : Prop := stores (mx_data (hr_inner h)) f v.

Lemma hot_forward_stores {A} (op : T -> res A * T) h f u (Q : Prop) :
  tier_ok (mx_data (hr_inner h)) ->
  (forall t, tier_ok t -> stores (snd (op t)) f u -> stores t f u \/ Q) ->
  hot_stores (snd (hot_forward op h)) f u -> hot_stores h f u \/ Q.
Proof.
  intros Hok Hop. rewrite hot_forward_eq. unfold hot_stores, lock.
  destruct (mx_poisoned (hr_inner h)); cbn; [by left|]. by apply Hop.
Qed.

Lemma hot_forward_stores_kept {A} (op : T -> res A * T) h f u :
  tier_ok (mx_data (hr_inner h)) ->
  (forall t, tier_ok t -> stores (snd (op t)) f u -> stores t f u) ->
  hot_stores (snd (hot_forward op h)) f u -> hot_stores h f u.
Proof.
  intros Hok Hop Hst. destruct (hot_forward_stores op h f u False Hok) as [|[]]; [|done..].
  intros t Ht Hs. left. by apply Hop.
Qed.

#[export] Instance TierStores_hot : TierStores V (HotRungTier T).
Proof.
  refine (@Build_TierStores V (HotRungTier T) CacheTier_hot TierLaws_hot hot_stores _ _ _ _ _ _ _);
    cbn; intros until 0.
  - rewrite hot_forward_eq. unfold hot_stores. destruct (lock (hr_inner t)) as [x|] eqn:Hl; [|done].
    apply lock_data in Hl as ->. cbn. apply stores_read.
  - intros Hok. apply hot_forward_stores; [done|]. intros x Hx. by apply stores_set.
  - intros Hok. apply hot_forward_stores_kept; [done|]. intros x Hx. by apply stores_get.
  - intros Hok. apply hot_forward_stores_kept; [done|]. intros x Hx. by apply stores_remove.
  - intros Hok. apply hot_forward_stores_kept; [done|]. intros x Hx. by apply stores_contains.
  - intros Hok. unfold hot_current, hot_stores. destruct (lock (hr_inner t)) as [x|] eqn:Hl; [|done].
    apply lock_data in Hl as ->. pose proof (stores_evict now c (mx_data (hr_inner t)) f u Hok) as Hev.
    destruct (eviction_candidate now c (mx_data (hr_inner t))) as [[? ?] ?]. exact Hev.
  - intros Hok. apply hot_forward_stores_kept; [done|]. intros x Hx. by apply stores_reclaim.
Defined.

(** After a swap: what the replacement stores, or what was stored. *)
Lemma hot_swap_stores (r : T) h f u :
  hot_stores (snd (hot_swap r h)) f u -> hot_stores h f u \/ stores r f u.
Proof.
  unfold hot_swap, hot_stores. destruct (decide _); [|by left]. destruct (lock _); cbn; [by right|by left].
Qed.
End hot.
