(* ===== verification/Codec.v ===== *)
(** * What the real backends share

    Models [src/tier/backends/mod.rs]: values that travel as bytes. A Rust
    [String] is a byte string together with the fact that it is valid UTF-8,
    as the standard library defines it. The health bookkeeping that every
    backend repeats is here too. *)

From S2P Require Import Prelude Entry Integrity Tier.
From Stdlib Require Import Eqdep_dec.
Local Open Scope Z_scope.

(** ** UTF-8 *)

Definition in_range (lo hi b : Z) : bool := (lo <=? b) && (b <=? hi).

(** A continuation byte. *)
Definition is_cont (b : Z) : bool := in_range 0x80 0xBF b.

(** The second byte a three- or four-byte sequence may have after its first:
    overlong forms, surrogates and values past U+10FFFF are excluded. *)
Definition second_ok (first second : Z) : bool :=
  if first =? 0xE0 then in_range 0xA0 0xBF second
  else if first =? 0xED then in_range 0x80 0x9F second
  else if first =? 0xF0 then in_range 0x90 0xBF second
  else if first =? 0xF4 then in_range 0x80 0x8F second
  else is_cont second.

Fixpoint utf8_valid (bs : bytes) : bool :=
  match bs with
  | [] => true
  | b0 :: rest =>
      if in_range 0 0x7F b0 then utf8_valid rest
      else if in_range 0xC2 0xDF b0 then
        match rest with
        | b1 :: rest => is_cont b1 && utf8_valid rest
        | _ => false
        end
      else if in_range 0xE0 0xEF b0 then
        match rest with
        | b1 :: b2 :: rest => second_ok b0 b1 && is_cont b2 && utf8_valid rest
        | _ => false
        end
      else if in_range 0xF0 0xF4 b0 then
        match rest with
        | b1 :: b2 :: b3 :: rest => second_ok b0 b1 && is_cont b2 && is_cont b3 && utf8_valid rest
        | _ => false
        end
      else false
  end.

Record RustString : Type := mkString {
  str_bytes : bytes;
  str_valid : utf8_valid str_bytes = true
}.

Lemma RustString_eq (a b : RustString) : str_bytes a = str_bytes b -> a = b.
Proof.
  destruct a as [x Hx], b as [y Hy]. cbn. intros ->. f_equal.
  apply UIP_dec. decide equality.
Qed.

#[export] Instance RustString_eq_dec : EqDecision RustString.
Proof.
  intros a b. destruct (decide (str_bytes a = str_bytes b)) as [H|H].
  - left. by apply RustString_eq.
  - right. by intros ->.
Defined.

(** [String::from_utf8] *)
Definition from_utf8 (bs : bytes) : option RustString :=
  match utf8_valid bs as b return utf8_valid bs = b -> option RustString with
  | true => fun H => Some (mkString bs H)
  | false => fun _ => None
  end eq_refl.

(** ** [ByteValue] *)

Class ByteValue (V : Type) := {
  encode_bytes : V -> res bytes;
  decode_bytes : bytes -> res V
}.

#[export] Instance ByteValue_vec : ByteValue bytes := {|
  encode_bytes self := Ok self;
  decode_bytes bs := Ok bs
|}.

#[export] Instance ByteValue_string : ByteValue RustString := {|
  encode_bytes self := Ok (str_bytes self);
  decode_bytes bs :=
    match from_utf8 bs with
    | Some s => Ok s
    | None => Err SerializationFailed
    end
|}.

(** What the trait asks of its implementations. *)
Class CodecLaws (V : Type) `{ByteValue V} :=
  codec_round_trip : forall v bs, encode_bytes v = Ok bs -> decode_bytes bs = Ok v.

Lemma from_utf8_spec bs :
  match from_utf8 bs with
  | Some s => str_bytes s = bs
  | None => utf8_valid bs = false
  end.
Proof.
  unfold from_utf8. generalize (eq_refl (utf8_valid bs)).
  generalize (utf8_valid bs) at 2 3. by intros [].
Qed.

Lemma from_utf8_valid (s : RustString) : from_utf8 (str_bytes s) = Some s.
Proof.
  pose proof (from_utf8_spec (str_bytes s)) as H. destruct (from_utf8 _) as [s'|].
  - by rewrite (RustString_eq s' s).
  - by rewrite (str_valid s) in H.
Qed.

#[export] Instance CodecLaws_vec : CodecLaws bytes.
Proof. by intros v bs [= <-]. Qed.

#[export] Instance CodecLaws_string : CodecLaws RustString.
Proof. intros v bs [= <-]. cbn. by rewrite from_utf8_valid. Qed.

(** ** Little-endian integers *)

(** [u64::from_le_bytes], [u128::from_le_bytes] *)
Fixpoint from_le (bs : bytes) : Z :=
  match bs with
  | [] => 0
  | b :: rest => b + 256 * from_le rest
  end.

Lemma le_bytes_length n z : length (le_bytes n z) = n.
Proof. revert z. induction n as [|n IH]; intros z; [done|]. cbn. by rewrite IH. Qed.

Lemma from_le_bytes n z : 0 <= z < 256 ^ Z.of_nat n -> from_le (le_bytes n z) = z.
Proof.
  revert z. induction n as [|n IH]; intros z Hz.
  - cbn in *. lia.
  - rewrite Nat2Z.inj_succ, Z.pow_succ_r in Hz by lia. cbn [le_bytes from_le].
    rewrite IH; [pose proof (Z_div_mod_eq_full z 256); lia|].
    split; [by apply Z.div_pos; lia|by apply Z.div_lt_upper_bound; lia].
Qed.

Lemma from_le_u64 d : u64 d -> from_le (le_bytes 8 d) = d.
Proof. intros. by apply from_le_bytes. Qed.

Lemma from_le_u128 d : u128 d -> from_le (le_bytes 16 d) = d.
Proof. intros. by apply from_le_bytes. Qed.

(** ** Health bookkeeping

    The pair [succeed] / [fail] that every backend repeats, on the content of
    its health lock; a poisoned lock is left alone. *)

Definition health_succeed (m : Mutex TierHealth) : Mutex TierHealth :=
  match lock m with
  | Some h => store m (mkHealth 0 (last_failure_timestamp h) f64_one (availability h))
  | None => m
  end.

Definition health_fail (now : Instant) (m : Mutex TierHealth) : Mutex TierHealth :=
  match lock m with
  | Some h => store m (mkHealth (add64 (consecutive_failures h) 1) (Some now)
                         (f64_max (f64_sub (health_score h) f64_tenth) f64_zero) (availability h))
  | None => m
  end.

Definition health_report (m : Mutex TierHealth) : TierHealth :=
  match lock m with Some h => h | None => TierHealth_default end.
