(* ===== verification/Utf8.v ===== *)
(** * Damaged text

    [String::from_utf8_lossy] of the standard library -- every maximal part of
    the input that begins a sequence and cannot be continued is replaced by one
    U+FFFD -- and [corrupt_string] of [testkit/src/lib.rs], which the harness
    uses to damage a stored value. *)

From S2P Require Import Prelude Entry Integrity Tier Codec.
Local Open Scope Z_scope.

(** U+FFFD. *)
Definition REPLACEMENT : bytes := [0xEF; 0xBF; 0xBD].

(** The first sequence: whether it is well-formed, and how many bytes it, or
    the longest part of it there is, takes. *)
Definition first_seq (b0 : Z) (rest : bytes) : bool * nat :=
  if in_range 0 0x7F b0 then (true, 1%nat)
  else if in_range 0xC2 0xDF b0 then
    match rest with
    | b1 :: _ => if is_cont b1 then (true, 2%nat) else (false, 1%nat)
    | [] => (false, 1%nat)
    end
  else if in_range 0xE0 0xEF b0 then
    match rest with
    | b1 :: rest =>
        if second_ok b0 b1 then
          match rest with
          | b2 :: _ => if is_cont b2 then (true, 3%nat) else (false, 2%nat)
          | [] => (false, 2%nat)
          end
        else (false, 1%nat)
    | [] => (false, 1%nat)
    end
  else if in_range 0xF0 0xF4 b0 then
    match rest with
    | b1 :: rest =>
        if second_ok b0 b1 then
          match rest with
          | b2 :: rest =>
              if is_cont b2 then
                match rest with
                | b3 :: _ => if is_cont b3 then (true, 4%nat) else (false, 3%nat)
                | [] => (false, 3%nat)
                end
              else (false, 2%nat)
          | [] => (false, 2%nat)
          end
        else (false, 1%nat)
    | [] => (false, 1%nat)
    end
  else (false, 1%nat).

(** Chunk by chunk; a chunk takes at least a byte, so [length bs] rounds do. *)
Fixpoint lossy_chunks (fuel : nat) (bs : bytes) : bytes :=
  match fuel, bs with
  | S fuel, b0 :: rest =>
      let '(ok, n) := first_seq b0 rest in
      (if ok then take n bs else REPLACEMENT) ++ lossy_chunks fuel (drop n bs)
  | _, _ => []
  end.

Definition from_utf8_lossy (bs : bytes) : bytes := lossy_chunks (length bs) bs.

(** [*last ^= 0xFF], or a lone 0xFF; then the lossy round trip. *)
Definition corrupt_bytes (s : bytes) : bytes :=
  match rev s with
  | [] => [0xFF]
  | last :: init => rev (Z.lxor last 0xFF :: init)
  end.

Definition corrupt_string (s : bytes) : bytes := from_utf8_lossy (corrupt_bytes s).

(** What the standard library's documentation shows. *)
Example lossy_hello :
  from_utf8_lossy [72; 101; 108; 108; 111; 32; 0xF0; 0x90; 0x80; 87; 111; 114; 108; 100] =
  [72; 101; 108; 108; 111; 32] ++ REPLACEMENT ++ [87; 111; 114; 108; 100].
Proof. reflexivity. Qed.

Example lossy_surrogate : from_utf8_lossy [0xED; 0xA0; 0x80] = REPLACEMENT ++ REPLACEMENT ++ REPLACEMENT.
Proof. reflexivity. Qed.

(** ** The decoder, sequence by sequence *)

Definition ascii_byte (a : Z) : Prop := 0 <= a <= 0x7F.

Lemma in_range_spec lo hi b : in_range lo hi b = true <-> lo <= b <= hi.
Proof. unfold in_range. rewrite andb_true_iff, !Z.leb_le. tauto. Qed.

Lemma in_range_false lo hi b : b < lo \/ hi < b -> in_range lo hi b = false.
Proof. intros H. apply not_true_iff_false. rewrite in_range_spec. lia. Qed.

Lemma ascii_not_cont a : ascii_byte a -> is_cont a = false.
Proof. intros [H0 H1]. apply in_range_false. lia. Qed.

Lemma ascii_not_second b a : ascii_byte a -> second_ok b a = false.
Proof.
  intros [H0 H1]. unfold second_ok. repeat case_match; try (by apply ascii_not_cont);
    apply in_range_false; lia.
Qed.

(** Case analysis on the tests of [first_seq]. *)
Ltac seqs :=
  unfold first_seq;
  repeat match goal with
  | |- context [match ?l with [] => _ | _ :: _ => _ end] => is_var l; destruct l
  | |- context [if ?b then _ else _] => destruct b eqn:?
  end.

Lemma first_seq_len b0 rest : (1 <= snd (first_seq b0 rest) <= S (length rest))%nat.
Proof. seqs; cbn; lia. Qed.

(** A well-formed sequence is valid text, whatever follows it. *)
Lemma first_seq_valid b0 rest l :
  fst (first_seq b0 rest) = true ->
  utf8_valid (take (snd (first_seq b0 rest)) (b0 :: rest) ++ l) = utf8_valid l.
Proof.
  seqs; intros; try done; cbn [snd take app utf8_valid];
    repeat match goal with H : _ = _ |- _ => rewrite H end; reflexivity.
Qed.

Lemma first_seq_invalid b0 rest : fst (first_seq b0 rest) = false -> utf8_valid (b0 :: rest) = false.
Proof.
  seqs; intros; try done; cbn [utf8_valid];
    repeat match goal with H : ?x = _ |- context [?x] => rewrite H end; try reflexivity;
    repeat match goal with |- context [match ?l with [] => _ | _ :: _ => _ end] => destruct l end; reflexivity.
Qed.

(** What follows a complete sequence, or an ASCII byte behind a broken one,
    makes no difference. *)
Lemma first_seq_app b0 l q : fst (first_seq b0 l) = true -> first_seq b0 (l ++ q) = first_seq b0 l.
Proof.
  unfold first_seq. destruct l as [|b1 [|b2 [|b3 l]]]; cbn [app]; cbv beta iota;
    repeat match goal with |- context [if ?b then _ else _] => destruct b end; done.
Qed.

Lemma first_seq_ascii b0 l a r : ascii_byte a -> first_seq b0 (l ++ a :: r) = first_seq b0 l.
Proof.
  intros Ha. pose proof (ascii_not_cont a Ha) as H1. pose proof (fun b => ascii_not_second b a Ha) as H2.
  unfold first_seq. destruct l as [|b1 [|b2 [|b3 l]]]; cbn [app]; cbv beta iota; rewrite ?H1, ?H2; done.
Qed.

(** ** [from_utf8_lossy] *)

(** More fuel than bytes changes nothing. *)
Lemma lossy_chunks_fuel n m bs :
  (length bs <= n)%nat -> (length bs <= m)%nat -> lossy_chunks n bs = lossy_chunks m bs.
Proof.
  revert m bs. induction n as [|n IH]; intros [|m] [|b0 rest]; cbn; try done; try lia. intros Hn Hm.
  pose proof (first_seq_len b0 rest). destruct (first_seq b0 rest) as [ok k]. cbn in *. f_equal.
  apply IH; rewrite length_drop; cbn; lia.
Qed.

Lemma from_utf8_lossy_cons b0 rest :
  from_utf8_lossy (b0 :: rest) =
  (if fst (first_seq b0 rest) then take (snd (first_seq b0 rest)) (b0 :: rest) else REPLACEMENT)
    ++ from_utf8_lossy (drop (snd (first_seq b0 rest)) (b0 :: rest)).
Proof.
  unfold from_utf8_lossy at 1. cbn [length lossy_chunks].
  pose proof (first_seq_len b0 rest). destruct (first_seq b0 rest) as [ok k]. cbn [fst snd] in *. f_equal.
  apply lossy_chunks_fuel; rewrite !length_drop; cbn; lia.
Qed.

(** Along the sequences of a text. *)
Lemma chunks_ind (P : bytes -> Prop) :
  P [] -> (forall b0 rest, P (drop (snd (first_seq b0 rest)) (b0 :: rest)) -> P (b0 :: rest)) -> forall bs, P bs.
Proof.
  intros Hnil Hcons bs. induction bs as [bs IH] using (induction_ltof1 _ (@length Z)).
  destruct bs as [|b0 rest]; [done|]. apply Hcons, IH. unfold ltof.
  pose proof (first_seq_len b0 rest). rewrite length_drop. cbn. lia.
Qed.

(** What comes out is always text. *)
Lemma from_utf8_lossy_valid bs : utf8_valid (from_utf8_lossy bs) = true.
Proof.
  induction bs as [|b0 rest IH] using chunks_ind; [done|]. rewrite from_utf8_lossy_cons.
  destruct (fst (first_seq b0 rest)) eqn:Hok; [by rewrite first_seq_valid|exact IH].
Qed.

(** A text at the front is kept. *)
Lemma from_utf8_lossy_app p q :
  utf8_valid p = true -> from_utf8_lossy (p ++ q) = p ++ from_utf8_lossy q.
Proof.
  induction p as [|b0 rest IH] using chunks_ind; [done|]. intros Hv.
  destruct (fst (first_seq b0 rest)) eqn:Hok; [|by rewrite first_seq_invalid in Hv].
  pose proof (first_seq_len b0 rest) as Hlen. cbn [app]. rewrite from_utf8_lossy_cons.
  rewrite !first_seq_app, Hok by done. rewrite app_comm_cons.
  rewrite take_app_le, drop_app_le by (cbn; lia).
  rewrite <- (take_drop (snd (first_seq b0 rest)) (b0 :: rest)) in Hv.
  rewrite first_seq_valid in Hv by done. rewrite (IH Hv), app_assoc. by rewrite take_drop.
Qed.

Lemma from_utf8_lossy_id bs : utf8_valid bs = true -> from_utf8_lossy bs = bs.
Proof. intros Hv. pose proof (from_utf8_lossy_app bs [] Hv) as H. by rewrite !app_nil_r in H. Qed.

(** An ASCII byte is kept where it is: nothing is merged across it. *)
Lemma from_utf8_lossy_ascii l a r :
  ascii_byte a -> from_utf8_lossy (l ++ a :: r) = from_utf8_lossy l ++ a :: from_utf8_lossy r.
Proof.
  intros Ha. induction l as [|b0 rest IH] using chunks_ind.
  - cbn [app]. rewrite from_utf8_lossy_cons. unfold first_seq.
    by rewrite (proj2 (in_range_spec 0 0x7F a) Ha).
  - pose proof (first_seq_len b0 rest) as Hlen. cbn [app]. rewrite !from_utf8_lossy_cons.
    rewrite !first_seq_ascii by done. rewrite app_comm_cons.
    rewrite take_app_le, drop_app_le by (cbn; lia). by rewrite IH, app_assoc.
Qed.

(** So an ASCII byte is in what comes out exactly when it was in what went in. *)
Lemma from_utf8_lossy_elem bs a : ascii_byte a -> a ∈ from_utf8_lossy bs <-> a ∈ bs.
Proof.
  intros Ha. split.
  - induction bs as [|b0 rest IH] using chunks_ind; [done|]. rewrite from_utf8_lossy_cons, elem_of_app.
    intros [Hin|Hin].
    + destruct (fst _); [|unfold REPLACEMENT, ascii_byte in *; rewrite !elem_of_cons, elem_of_nil in Hin; lia].
      rewrite <- (take_drop (snd (first_seq b0 rest)) (b0 :: rest)), elem_of_app. by left.
    + rewrite <- (take_drop (snd (first_seq b0 rest)) (b0 :: rest)), elem_of_app. right. by apply IH.
  - intros (l & r & ->)%list_elem_of_split. rewrite from_utf8_lossy_ascii by done.
    rewrite elem_of_app, elem_of_cons. auto.
Qed.

(** ** Damage *)

Ltac ranges :=
  repeat match goal with
  | H : in_range _ _ _ = true |- _ => apply in_range_spec in H
  | H : is_cont _ = true |- _ => apply in_range_spec in H
  end.

Lemma first_seq_last b0 rest n a :
  first_seq b0 rest = (true, n) -> last (take n (b0 :: rest)) = Some a -> 0 <= a <= 0xBF.
Proof. seqs; intros [= <-]; cbn; intros [= <-]; ranges; lia. Qed.

(** A text ends in an ASCII or a continuation byte. *)
Lemma from_utf8_lossy_last bs a : last (from_utf8_lossy bs) = Some a -> 0 <= a <= 0xBF.
Proof.
  induction bs as [|b0 rest IH] using chunks_ind; [done|]. rewrite from_utf8_lossy_cons, last_app.
  destruct (last (from_utf8_lossy _)); [exact IH|]. clear IH.
  destruct (first_seq b0 rest) as [[|] n] eqn:Hs; cbn [fst snd]; [by apply first_seq_last|].
  intros [= <-]. lia.
Qed.

(** Flipping the bits of a byte. *)
Lemma lxor_255 a : 0 <= a < 256 -> Z.lxor a 255 = 255 - a.
Proof.
  intros Ha. assert (H : Forall (fun a => Z.lxor a 255 = 255 - a) (seqZ 0 256)) by by_decision.
  rewrite list.Forall_forall in H. apply H, elem_of_seqZ. lia.
Qed.

(** A byte above ASCII is no text by itself. *)
Lemma lossy_lone b : 0x80 <= b -> from_utf8_lossy [b] = REPLACEMENT.
Proof.
  intros Hb. rewrite from_utf8_lossy_cons. unfold first_seq. rewrite (in_range_false 0 0x7F) by lia.
  by repeat match goal with |- context [if in_range ?x ?y ?z then _ else _] => destruct (in_range x y z) end.
Qed.

(** Damage is never undone. [corrupt_string] -- flip the last byte, then make
    text of it again -- always gives a text, and never the one it was given:
    whether the flipped byte was ASCII, or ended a longer sequence, or there
    was none, and whatever the replacement characters it brings do. A harness
    that damages a value with it stores a different value. *)
Theorem corrupt_string_changes_the_text (s : bytes) (Hs : utf8_valid s = true) :
  corrupt_string s <> s /\ utf8_valid (corrupt_string s) = true.
Proof.
  split; [|apply from_utf8_lossy_valid]. unfold corrupt_string, corrupt_bytes.
  pose proof (rev_involutive s) as Hrev. destruct (rev s) as [|b l]; [by subst s|]. symmetry in Hrev.
  cbn [rev] in *. set (init := rev l) in *.
  pose proof (from_utf8_lossy_id s Hs) as Hid. rewrite Hrev in Hid |- *.
  assert (Hb : 0 <= b <= 0xBF).
  { apply (from_utf8_lossy_last (init ++ [b])). by rewrite Hid, last_snoc. }
  rewrite lxor_255 by lia. destruct (decide (b <= 0x7F)) as [Ha|Ha].
  - assert (Hi : from_utf8_lossy init = init).
    { rewrite from_utf8_lossy_ascii in Hid by (unfold ascii_byte; lia). by apply app_inj_tail in Hid as [? _]. }
    assert (Hv : utf8_valid init = true) by (rewrite <- Hi; apply from_utf8_lossy_valid).
    rewrite from_utf8_lossy_app, lossy_lone by (done || lia).
    intros H%app_inv_head. discriminate H.
  - rewrite from_utf8_lossy_ascii by (unfold ascii_byte; lia). intros [_ H]%app_inj_tail. lia.
Qed.

Lemma corrupt_string_changes_the_text_witness :
  corrupt_string [118; 0xC3; 0xA9] <> [118; 0xC3; 0xA9] /\
  utf8_valid (corrupt_string [118; 0xC3; 0xA9]) = true.
Proof. refine (corrupt_string_changes_the_text [118; 0xC3; 0xA9] _). reflexivity. Defined.
