(* ===== verification/Sled.v ===== *)
(** * The persistent rung

    Models [src/tier/backends/l4_sled.rs]. The store is a third-party tree of
    byte strings, a parameter with its documented laws; a record is a deadline,
    a digest and a payload. *)

From Stdlib Require Import String.
From S2P Require Import Prelude Entry Integrity Tier Capability TierTrait Codec.
From stdpp Require Import gmap.
Local Open Scope Z_scope.

(** ** The store *)

(** [sled::Tree]: the operations the rung uses. Their errors are discarded. *)
Class SledTree (S : Type) := {
  tree_get : bytes -> S -> result (option bytes) unit * S;
  tree_insert : bytes -> bytes -> S -> result (option bytes) unit * S;
  tree_remove : bytes -> S -> result (option bytes) unit * S
}.

(** The documented behaviour: a mapping from keys to records, which a
    successful operation reads or updates at one key, and which no operation
    changes elsewhere. *)
Class SledLaws (S : Type) `{SledTree S} := {
  tree_map : S -> bytes -> option bytes;
  tree_get_ok : forall k s o s', tree_get k s = (Ok o, s') -> o = tree_map s k;
  tree_get_keeps : forall k s k', tree_map (snd (tree_get k s)) k' = tree_map s k';
  tree_insert_ok : forall k r s o s', tree_insert k r s = (Ok o, s') -> tree_map s' k = Some r;
  tree_insert_else : forall k r s k', k' <> k -> tree_map (snd (tree_insert k r s)) k' = tree_map s k';
  tree_remove_ok : forall k s o s', tree_remove k s = (Ok o, s') -> tree_map s' k = None;
  tree_remove_else : forall k s k', k' <> k -> tree_map (snd (tree_remove k s)) k' = tree_map s k'
}.

(** The wall clock at the process clock's anchor, in nanoseconds since the
    Unix epoch. *)
Class WallClock := wall_anchor : Z.

(** ** Records *)

Definition NO_EXPIRY : Z := 0.
Definition PREFIX_LEN : nat := 24.
Definition EXPIRY_LEN : nat := 8.
Definition DIGEST_LEN : nat := 16.

(** [Duration::as_millis() as u64] *)
Definition as_millis (d : Duration) : Z := wrap64 (d / 1000000).

Section sled.
Context {V S : Type} `{ByteValue V} `{SledTree S} `{WallClock}.

Definition now_millis (now : Instant) : Z :=
  if wall_anchor + now <? 0 then NO_EXPIRY else as_millis (wall_anchor + now).

Definition deadline_expired (now : Instant) (deadline_ms : Z) : bool :=
  negb (deadline_ms =? NO_EXPIRY) && (deadline_ms <=? now_millis now).

Definition decode_record (now : Instant) (raw : bytes) : res (option (Z * V)) :=
  if (length raw <? PREFIX_LEN)%nat then Err SerializationFailed
  else
    let expiry := take EXPIRY_LEN raw in
    let digest := take DIGEST_LEN (drop EXPIRY_LEN raw) in
    let deadline := from_le expiry in
    if deadline_expired now deadline then Ok None
    else
      let payload := drop PREFIX_LEN raw in
      let expected := from_le digest in
      if negb (ContentDigest_of_bytes payload =? expected) then Err Corrupted
      else map_ok (fun v => Some (deadline, v)) (decode_bytes payload).

(** The record [set] writes. *)
Definition encode_record (deadline : Z) (payload : bytes) : bytes :=
  le_bytes 8 deadline ++ le_bytes 16 (ContentDigest_of_bytes payload) ++ payload.

Definition deadline_of (now : Instant) (ttl : option Duration) : Z :=
  match ttl with
  | None => NO_EXPIRY
  | Some t => sat_add64 (now_millis now) (as_millis t)
  end.

(** ** The tier *)

Record L4SledBackend : Type := mkSled {
  sb_tree : S;
  sb_health : Mutex TierHealth
}.

(** [open], given what the library's own [open] and [open_tree] came to. *)
Definition sled_open (opened : option S) : res L4SledBackend :=
  match opened with
  | Some tree => Ok (mkSled tree (new_mutex TierHealth_default))
  | None => Err ConfigurationError
  end.

Definition sled_succeed (self : L4SledBackend) : L4SledBackend :=
  mkSled (sb_tree self) (health_succeed (sb_health self)).

Definition sled_fail (now : Instant) (self : L4SledBackend) : L4SledBackend :=
  mkSled (sb_tree self) (health_fail (wall_anchor + now) (sb_health self)).

Definition put_tree (self : L4SledBackend) (tree : S) : L4SledBackend := mkSled tree (sb_health self).

Definition finish_mutation (now : Instant) (result : result (option bytes) unit)
    (self : L4SledBackend) : res unit * L4SledBackend :=
  if is_ok result then (Ok tt, sled_succeed self) else (Err TierUnavailable, sled_fail now self).

Definition sled_get (now : Instant) (key : bytes) (self : L4SledBackend) :
    res (option V) * L4SledBackend :=
  let '(found, tree) := tree_get key (sb_tree self) in
  let self := put_tree self tree in
  match found with
  | Ok (Some raw) =>
      match decode_record now raw with
      | Ok None =>
          (Ok None, sled_succeed (put_tree self (snd (tree_remove key (sb_tree self)))))
      | Ok (Some (_, v)) => (Ok (Some v), sled_succeed self)
      | Err e => (Err e, sled_fail now self)
      end
  | Ok None => (Ok None, sled_succeed self)
  | Err _ => (Err TierUnavailable, sled_fail now self)
  end.

Definition sled_set (now : Instant) (key : bytes) (value : V) (ttl : option Duration)
    (self : L4SledBackend) : res unit * L4SledBackend :=
  match encode_bytes value with
  | Err e => (Err e, self)
  | Ok payload =>
      let record := encode_record (deadline_of now ttl) payload in
      let '(result, tree) := tree_insert key record (sb_tree self) in
      finish_mutation now result (put_tree self tree)
  end.

Definition sled_remove (now : Instant) (key : bytes) (self : L4SledBackend) :
    res unit * L4SledBackend :=
  let '(result, tree) := tree_remove key (sb_tree self) in
  finish_mutation now result (put_tree self tree).

Definition sled_contains (now : Instant) (key : bytes) (self : L4SledBackend) :
    res bool * L4SledBackend :=
  let '(found, tree) := tree_get key (sb_tree self) in
  let self := put_tree self tree in
  match found with
  | Ok (Some raw) =>
      match decode_record now raw with
      | Err e => (Err e, self)
      | Ok o => (Ok (bool_decide (is_Some (option_map fst o))), sled_succeed self)
      end
  | Ok None => (Ok false, sled_succeed self)
  | Err _ => (Err TierUnavailable, sled_fail now self)
  end.

(** [corrupt_payload_for_test] and [truncate_record_for_test]: how a stored
    record gets damaged behind the rung's back. *)
Definition sled_corrupt (key : bytes) (offset : nat) (self : L4SledBackend) : bool * L4SledBackend :=
  let '(found, tree) := tree_get key (sb_tree self) in
  let self := put_tree self tree in
  match found with
  | Ok (Some raw) =>
      if (PREFIX_LEN + offset <? length raw)%nat then
        let idx := (PREFIX_LEN + offset)%nat in
        let damaged := <[idx := Z.lxor (nth idx raw 0) 0xFF]> raw in
        let '(r, tree) := tree_insert key damaged (sb_tree self) in (is_ok r, put_tree self tree)
      else (false, self)
  | _ => (false, self)
  end.

Definition sled_truncate (key : bytes) (len : nat) (self : L4SledBackend) : bool * L4SledBackend :=
  let '(found, tree) := tree_get key (sb_tree self) in
  let self := put_tree self tree in
  match found with
  | Ok (Some raw) =>
      if (len <? length raw)%nat then
        let '(r, tree) := tree_insert key (take len raw) (sb_tree self) in (is_ok r, put_tree self tree)
      else (false, self)
  | _ => (false, self)
  end.

#[export] Instance CacheTier_sled : CacheTier V L4SledBackend := {|
  tier_name := fun _ => "L4-sled-persistent"%string;
  backend := fun _ => Sled;
  capability := fun _ =>
    mkCapability Sled (flags_union (flags_union PERSISTENT BLOCKING_IO) ATOMIC_WRITE_OR_ERROR)
      OsHealthy DcDelegated;
  eviction_candidate := fun _ => default_eviction_candidate;
  capacity := default_capacity;
  remove_if_address := default_remove_if_address;
  tier_get := sled_get;
  tier_set := sled_set;
  tier_remove := sled_remove;
  tier_contains := sled_contains;
  health := fun _ self => health_report (sb_health self);
  tier_id := fun _ => L4
|}.
End sled.
Arguments L4SledBackend S : clear implicits.

(** ** Records decode to what was encoded *)

Section records.
Context {V : Type} `{ByteValue V} `{WallClock}.

Lemma deadline_u64 now ttl : u64 (deadline_of now ttl).
Proof.
  unfold deadline_of, NO_EXPIRY, sat_add64, U64_MAX. destruct ttl as [t|]; [|apply u64_0].
  assert (u64 (now_millis now)) by (unfold now_millis, NO_EXPIRY; case_match; auto with u64; apply wrap64_u64).
  pose proof (wrap64_u64 (t / 1000000)). unfold as_millis. unfold u64, W64 in *. lia.
Qed.

Lemma record_parts (e d p : bytes) :
  length e = EXPIRY_LEN -> length d = DIGEST_LEN ->
  (length (e ++ d ++ p) <? PREFIX_LEN)%nat = false /\
  take EXPIRY_LEN (e ++ d ++ p) = e /\
  take DIGEST_LEN (drop EXPIRY_LEN (e ++ d ++ p)) = d /\
  drop PREFIX_LEN (e ++ d ++ p) = p.
Proof.
  intros He Hd. split_and!.
  - apply Nat.ltb_ge. rewrite !length_app, He, Hd. unfold PREFIX_LEN, EXPIRY_LEN, DIGEST_LEN. lia.
  - by rewrite <- He, take_app_length.
  - by rewrite <- He, drop_app_length, <- Hd, take_app_length.
  - replace PREFIX_LEN with (length (e ++ d)) by (by rewrite length_app, He, Hd).
    by rewrite app_assoc, drop_app_length.
Qed.

(** What is read from a record of the right shape. *)
Lemma decode_framed now deadline digest (payload : bytes) :
  u64 deadline -> u128 digest ->
  decode_record (V := V) now (le_bytes 8 deadline ++ le_bytes 16 digest ++ payload) =
  if deadline_expired now deadline then Ok None
  else if ContentDigest_of_bytes payload =? digest
       then map_ok (fun v => Some (deadline, v)) (decode_bytes payload) else Err Corrupted.
Proof.
  intros Hd Hg. unfold decode_record.
  destruct (record_parts (le_bytes 8 deadline) (le_bytes 16 digest) payload
              (le_bytes_length _ _) (le_bytes_length _ _)) as (-> & -> & -> & ->).
  rewrite from_le_u64, from_le_u128 by done. by destruct (_ =? _).
Qed.

Lemma decode_encoded now deadline payload :
  u64 deadline ->
  decode_record (V := V) now (encode_record deadline payload) =
  if deadline_expired now deadline then Ok None
  else map_ok (fun v => Some (deadline, v)) (decode_bytes payload).
Proof.
  intros Hd. unfold encode_record. rewrite decode_framed by (done || apply of_bytes_u128).
  by rewrite Z.eqb_refl.
Qed.

(** Damage to a stored value is never served. A record cut off inside its
    frame is refused as unreadable, one whose payload has any single byte
    changed, or whose digest does not fit its payload, as corrupted. The
    deadline is not covered by the digest: whatever eight bytes take its
    place, the record is read with that deadline, and with eight zeros it
    never expires. *)
Theorem sled_refuses_a_damaged_payload (now : Instant) (deadline deadline' digest : Z)
    (pre suf raw : bytes) (a b : Z)
    (Hd : u64 deadline) (Hd' : u64 deadline') (Hg : u128 digest)
    (Hlive : deadline_expired now deadline = false) (Hraw : (length raw < 24)%nat)
    (Hsuf : Forall byte suf) (Ha : byte a) (Hb : byte b) (Hne : a <> b)
    (Hdig : digest <> ContentDigest_of_bytes (pre ++ b :: suf)) :
  let good := pre ++ a :: suf in
  decode_record (V := V) now raw = Err SerializationFailed /\
  decode_record (V := V) now
    (le_bytes 8 deadline ++ le_bytes 16 (ContentDigest_of_bytes good) ++ pre ++ b :: suf)
    = Err Corrupted /\
  decode_record (V := V) now (le_bytes 8 deadline ++ le_bytes 16 digest ++ pre ++ b :: suf)
    = Err Corrupted /\
  decode_record (V := V) now (le_bytes 8 deadline' ++ drop 8 (encode_record deadline good))
    = (if deadline_expired now deadline' then Ok None
       else map_ok (fun v => Some (deadline', v)) (decode_bytes good)) /\
  deadline_expired now (from_le (replicate 8 0)) = false.
Proof.
  intros good. split_and!.
  - unfold decode_record. assert ((length raw <? PREFIX_LEN)%nat = true) as -> by by apply Nat.ltb_lt.
    done.
  - rewrite decode_framed, Hlive by (done || apply of_bytes_u128).
    destruct (Z.eqb_spec (ContentDigest_of_bytes (pre ++ b :: suf)) (ContentDigest_of_bytes good)) as [Heq|];
      [|done].
    by apply of_bytes_one_byte in Heq.
  - rewrite decode_framed, Hlive by done.
    by destruct (Z.eqb_spec (ContentDigest_of_bytes (pre ++ b :: suf)) digest) as [<-|].
  - unfold encode_record at 1.
    replace (drop 8 _) with (le_bytes 16 (ContentDigest_of_bytes good) ++ good).
    + by apply decode_encoded.
    + by rewrite drop_app_length' by (by rewrite le_bytes_length).
  - done.
Qed.
(** A deadline is kept to the millisecond, as long as the clock stays inside
    the range a record can express. *)
Lemma deadline_kept (now now' ttl : Z)
    (Hepoch : 1000000 <= wall_anchor + now) (Hle : now <= now') (Httl : 0 <= ttl)
    (Hfit : wall_anchor + now' + ttl < W64 * 1000000) :
  (ttl <= now' - now -> deadline_expired now' (deadline_of now (Some ttl)) = true) /\
  (now' - now + 2000000 <= ttl -> deadline_expired now' (deadline_of now (Some ttl)) = false).
Proof.
  assert (Hms : forall z, 0 <= z < W64 * 1000000 -> as_millis z = z / 1000000).
  { intros z Hz. unfold as_millis. apply wrap64_id. unfold u64. split; [apply Z.div_pos; lia|].
    apply Z.div_lt_upper_bound; lia. }
  assert (Hnow : forall t, now <= t <= now' -> now_millis t = (wall_anchor + t) / 1000000).
  { intros t Ht. unfold now_millis. destruct (Z.ltb_spec (wall_anchor + t) 0); [lia|]. apply Hms. lia. }
  unfold deadline_of, deadline_expired, NO_EXPIRY, sat_add64, U64_MAX.
  rewrite !Hnow, Hms by lia.
  pose proof (Z.div_mod (wall_anchor + now) 1000000 ltac:(lia)).
  pose proof (Z.div_mod (wall_anchor + now') 1000000 ltac:(lia)).
  pose proof (Z.div_mod ttl 1000000 ltac:(lia)).
  pose proof (Z.mod_pos_bound (wall_anchor + now) 1000000 ltac:(lia)).
  pose proof (Z.mod_pos_bound (wall_anchor + now') 1000000 ltac:(lia)).
  pose proof (Z.mod_pos_bound ttl 1000000 ltac:(lia)).
  unfold W64 in *. split; intros Hel.
  - apply andb_true_iff. rewrite negb_true_iff, Z.eqb_neq, Z.leb_le. lia.
  - apply andb_false_iff. right. apply Z.leb_gt. lia.
Qed.
End records.

Lemma sled_refuses_a_damaged_payload_witness :
  decode_record (V := bytes) (H1 := 1000000000000000000) 0
    (le_bytes 8 0 ++ le_bytes 16 (ContentDigest_of_bytes [111; 49; 50]) ++ [111; 48; 50])
  = Err Corrupted.
Proof.
  refine (proj1 (proj2 (@sled_refuses_a_damaged_payload bytes _ 1000000000000000000 0 0 0 7 [111] [50] [] 49 48
    _ _ _ _ _ _ _ _ _ _))); first [by_decision|vm_compute; lia|done|vm_compute; discriminate].
Defined.

(** ** The rung over the store *)

Section rung.
Context {V S : Type} `{ByteValue V} `{!CodecLaws V} `{SledTree S} `{!SledLaws S} `{WallClock}.
Implicit Types (self : L4SledBackend S).

Lemma finish_mutation_tree now r self : sb_tree (snd (finish_mutation now r self)) = sb_tree self.
Proof. unfold finish_mutation. by destruct (is_ok r). Qed.

(** What a read answers, by what the store answers. *)
Lemma sled_get_result now key self :
  fst (sled_get now key self) =
  match fst (tree_get key (sb_tree self)) with
  | Ok (Some raw) => map_ok (option_map snd) (decode_record now raw)
  | Ok None => Ok None
  | Err _ => Err TierUnavailable
  end.
Proof.
  unfold sled_get. destruct (tree_get key (sb_tree self)) as [[[raw|]|e] s']; cbn; try done.
  by destruct (decode_record now raw) as [[[d v]|]|e].
Qed.

Lemma sled_set_inv now key value ttl self self' :
  sled_set now key value ttl self = (Ok tt, self') ->
  exists payload, decode_bytes payload = Ok value /\
    tree_map (sb_tree self') key = Some (encode_record (deadline_of now ttl) payload) /\
    forall k, k <> key -> tree_map (sb_tree self') k = tree_map (sb_tree self) k.
Proof.
  unfold sled_set. destruct (encode_bytes value) as [payload|] eqn:Henc; [|done].
  destruct (tree_insert key _ (sb_tree self)) as [r s'] eqn:Hins. intros Hfin.
  exists payload. split; [by apply codec_round_trip|].
  assert (Hs : sb_tree self' = s').
  { pose proof (finish_mutation_tree now r (put_tree self s')) as Ht. by rewrite Hfin in Ht. }
  assert (exists o, r = Ok o) as [o ->] by (destruct r as [o|]; [by exists o|done]).
  rewrite Hs. split; [by eapply tree_insert_ok|]. intros k Hk.
  replace s' with (snd (tree_insert key (encode_record (deadline_of now ttl) payload) (sb_tree self)))
    by by rewrite Hins.
  by apply tree_insert_else.
Qed.

(** C27. The persistent rung gives back what it was given, for as long as it was
    told. After an acknowledged write, every later read the store answers
    returns that very value until two milliseconds before its time to live is
    over and nothing once it is over -- for ever, without one; in between it
    returns one of the two; a read the store fails reports the rung as
    unavailable; and no other key's record changed. (The clock is past the
    epoch and in the range a record can express.) *)
Theorem sled_read_your_write (now now' : Instant) (key : bytes) (value : V) (ttl : option Duration)
    self self' (Hset : sled_set now key value ttl self = (Ok tt, self'))
    (Hepoch : 1000000 <= wall_anchor + now) (Hle : now <= now')
    (Hfit : forall t, ttl = Some t -> 0 <= t /\ wall_anchor + now' + t < W64 * 1000000) :
  let read := fst (sled_get now' key self') in
  (is_ok (fst (tree_get key (sb_tree self'))) = false -> read = Err TierUnavailable) /\
  (is_ok (fst (tree_get key (sb_tree self'))) = true ->
   match ttl with
   | None => read = Ok (Some value)
   | Some t => (now' - now + 2000000 <= t -> read = Ok (Some value)) /\
               (t <= now' - now -> read = Ok None) /\
               (read = Ok (Some value) \/ read = Ok None)
   end) /\
  forall k, k <> key -> tree_map (sb_tree self') k = tree_map (sb_tree self) k.
Proof.
  apply sled_set_inv in Hset as (payload & Hdec & Hmap & Helse). cbn zeta.
  rewrite sled_get_result. destruct (tree_get key (sb_tree self')) as [[o|e] s'] eqn:Hget; [|done].
  apply tree_get_ok in Hget as ->. cbn. rewrite Hmap, decode_encoded, Hdec by apply deadline_u64.
  split_and!; [done| |done]. intros _. destruct ttl as [t|]; [|done].
  destruct (Hfit t eq_refl) as [Ht Hrange].
  destruct (deadline_kept now now' t Hepoch Hle Ht Hrange) as [Hover Hlive].
  split_and!; [intros Hel; by rewrite Hlive|intros Hel; by rewrite Hover|].
  destruct (deadline_expired _ _); [by right|by left].
Qed.

(** [contains] and [get] never disagree: on the same rung at the same
    instant, whatever bytes the store holds, [contains] answers exactly
    whether [get] would return a value, and fails with the same error. *)
Theorem sled_contains_agrees_with_get (now : Instant) (key : bytes) self :
  fst (sled_contains (V := V) now key self) =
  map_ok (fun o => bool_decide (is_Some o)) (fst (sled_get now key self)).
Proof.
  rewrite sled_get_result. unfold sled_contains.
  destruct (tree_get key (sb_tree self)) as [[[raw|]|e] s']; cbn; try done.
  destruct (decode_record now raw) as [[[d v]|]|e]; cbn; try done; f_equal.
Qed.

End rung.

(** ** A store in memory *)

#[export] Instance SledTree_map : SledTree (gmap bytes bytes) := {|
  tree_get k s := (Ok (s !! k), s);
  tree_insert k r s := (Ok (s !! k), <[k := r]> s);
  tree_remove k s := (Ok (s !! k), delete k s)
|}.

#[export] Instance SledLaws_map : SledLaws (gmap bytes bytes).
Proof.
  refine (Build_SledLaws _ _ (fun s k => s !! k) _ _ _ _ _ _); cbn.
  - by intros k s o s' [= <- <-].
  - done.
  - intros k r s o s' [= _ <-]. apply lookup_insert_eq.
  - intros k r s k' Hne. by apply lookup_insert_ne.
  - intros k s o s' [= _ <-]. apply lookup_delete_eq.
  - intros k s k' Hne. by apply lookup_delete_ne.
Defined.

#[local] Instance demo_clock : WallClock := 1700000000000000000.

Definition demo_sled : L4SledBackend (gmap bytes bytes) := mkSled ∅ (new_mutex TierHealth_default).

Lemma sled_read_your_write_witness :
  let s := snd (sled_set 0 [107] [118; 49] (Some 5000000000) demo_sled) in
  fst (sled_get 3000000000 [107] s) = Ok (Some [118; 49]) /\
  fst (sled_get (V := bytes) 5000000000 [107] s) = Ok None.
Proof.
  assert (Hset : sled_set 0 [107] [118; 49] (Some 5000000000) demo_sled =
    (Ok tt, snd (sled_set 0 [107] [118; 49] (Some 5000000000) demo_sled))) by (vm_compute; reflexivity).
  assert (Hfit : forall now', now' <= 5000000000 -> forall t, Some 5000000000 = Some t ->
    0 <= t /\ wall_anchor + now' + t < W64 * 1000000).
  { intros now' Hn t [= <-]. unfold wall_anchor, demo_clock, W64. lia. }
  split.
  - refine (proj1 (proj1 (proj2 (sled_read_your_write 0 3000000000 [107] [118; 49] (Some 5000000000)
      demo_sled _ Hset _ _ (Hfit _ _))) _) _); vm_compute; first [reflexivity|discriminate].
  - refine (proj1 (proj2 (proj1 (proj2 (sled_read_your_write 0 5000000000 [107] [118; 49]
      (Some 5000000000) demo_sled _ Hset _ _ (Hfit _ _))) _)) _);
      vm_compute; first [reflexivity|discriminate].
Defined.
