(* ===== verification/Remote.v ===== *)
(** * The distributed rung and the origin

    Models [src/tier/backends/l3_redis.rs] and [src/tier/backends/l5_origin.rs].
    The Redis connection is third-party code and the origin's fetcher and
    writer are the application's: each is a parameter, with its documented
    behaviour as laws. *)

From Stdlib Require Import String.
From S2P Require Import Prelude Entry Integrity Tier Capability TierTrait Codec.
From stdpp Require Import gmap.
Local Open Scope Z_scope.

(** [Duration::as_secs] *)
Definition as_secs (d : Duration) : Z := d / 1000000000.

(** ** Redis *)

(** [redis::Connection] through [redis::Commands]. The errors are discarded. *)
Class RedisConn (S : Type) := {
  conn_get : bytes -> S -> result (option bytes) unit * S;
  conn_set : bytes -> bytes -> S -> result unit unit * S;
  conn_set_ex : bytes -> bytes -> Z -> S -> result unit unit * S;
  conn_del : bytes -> S -> result unit unit * S;
  conn_exists : bytes -> S -> result bool unit * S
}.

(** What the server's documentation says of the commands as used: [SET] stores
    until deleted, [DEL] deletes, [GET] and [EXISTS] look at the same key, and
    an expiry of zero seconds is refused without effect. *)
Class RedisLaws (S : Type) `{RedisConn S} := {
  redis_set_get : forall k v s s' o s'',
    conn_set k v s = (Ok tt, s') -> conn_get k s' = (Ok o, s'') -> o = Some v;
  redis_del_get : forall k s s' o s'',
    conn_del k s = (Ok tt, s') -> conn_get k s' = (Ok o, s'') -> o = None;
  redis_zero_expiry : forall k v s, conn_set_ex k v 0 s = (Err tt, s)
}.

Section redis.
Context {V S : Type} `{ByteValue V} `{RedisConn S}.

Record L3RedisBackend : Type := mkRedis {
  rb_conn : Mutex S;
  rb_health : Mutex TierHealth
}.

(** [connect], given what [Client::open] and [get_connection] came to. *)
Definition redis_connect (client : bool) (connection : option S) : res L3RedisBackend :=
  if negb client then Err ConfigurationError
  else match connection with
       | None => Err TierUnavailable
       | Some c => Ok (mkRedis (new_mutex c) (new_mutex TierHealth_default))
       end.

(** The shape every command shares: take the connection, run the command,
    record how it went. *)
Definition redis_run {A B} (now : Instant) (command : S -> result A unit * S)
    (answer : A -> res B) (self : L3RedisBackend) : res B * L3RedisBackend :=
  match lock (rb_conn self) with
  | None => (Err ConfigurationError, self)
  | Some c =>
      let '(result, c') := command c in
      let conn := store (rb_conn self) c' in
      match result with
      | Ok a => (answer a, mkRedis conn (health_succeed (rb_health self)))
      | Err _ => (Err TierUnavailable, mkRedis conn (health_fail now (rb_health self)))
      end
  end.

Definition redis_get (now : Instant) (key : bytes) : L3RedisBackend -> res (option V) * L3RedisBackend :=
  redis_run now (conn_get key)
    (fun o => match o with Some bs => map_ok Some (decode_bytes bs) | None => Ok None end).

Definition redis_set (now : Instant) (key : bytes) (value : V) (ttl : option Duration)
    (self : L3RedisBackend) : res unit * L3RedisBackend :=
  match encode_bytes value with
  | Err e => (Err e, self)
  | Ok bs =>
      redis_run now
        (match ttl with
         | Some d => conn_set_ex key bs (as_secs d)
         | None => conn_set key bs
         end) Ok self
  end.

Definition redis_remove (now : Instant) (key : bytes) : L3RedisBackend -> res unit * L3RedisBackend :=
  redis_run now (conn_del key) Ok.

Definition redis_contains (now : Instant) (key : bytes) : L3RedisBackend -> res bool * L3RedisBackend :=
  redis_run now (conn_exists key) Ok.

#[export] Instance CacheTier_redis : CacheTier V L3RedisBackend := {|
  tier_name := fun _ => "L3-redis-distributed"%string;
  backend := fun _ => Redis;
  capability := fun _ =>
    mkCapability Redis (flags_union (flags_union SHARED BLOCKING_IO) ATOMIC_WRITE_OR_ERROR)
      OsHealthy DcDelegated;
  eviction_candidate := fun _ => default_eviction_candidate;
  capacity := default_capacity;
  remove_if_address := default_remove_if_address;
  tier_get := redis_get;
  tier_set := redis_set;
  tier_remove := redis_remove;
  tier_contains := redis_contains;
  health := fun _ self => health_report (rb_health self);
  tier_id := fun _ => L3
|}.
End redis.
Arguments L3RedisBackend S : clear implicits.

(** ** The origin *)

Section origin.
Context {V S : Type} `{ByteValue V}.

(** [S] is the state of whatever the closures reach. *)
Definition OriginFetcher : Type := bytes -> S -> res (option bytes) * S.
Definition OriginWriter : Type := bytes -> bytes -> option Duration -> S -> res unit * S.

Record L5OriginBackend : Type := mkOrigin {
  ob_origin : S;
  ob_fetcher : OriginFetcher;
  ob_writer : option OriginWriter;
  ob_health : Mutex TierHealth
}.

Definition origin_new (origin : S) (fetcher : OriginFetcher) : L5OriginBackend :=
  mkOrigin origin fetcher None (new_mutex TierHealth_default).

Definition origin_with_writer (writer : OriginWriter) (self : L5OriginBackend) : L5OriginBackend :=
  mkOrigin (ob_origin self) (ob_fetcher self) (Some writer) (ob_health self).

(** Run a closure of the application and record how it went. *)
Definition origin_run {A B} (now : Instant) (call : S -> res A * S) (answer : A -> res B)
    (self : L5OriginBackend) : res B * L5OriginBackend :=
  let '(result, origin) := call (ob_origin self) in
  match result with
  | Ok a => (answer a, mkOrigin origin (ob_fetcher self) (ob_writer self) (health_succeed (ob_health self)))
  | Err e => (Err e, mkOrigin origin (ob_fetcher self) (ob_writer self) (health_fail now (ob_health self)))
  end.

Definition origin_get (now : Instant) (key : bytes) (self : L5OriginBackend) :
    res (option V) * L5OriginBackend :=
  origin_run now (ob_fetcher self key)
    (fun o => match o with Some bs => map_ok Some (decode_bytes bs) | None => Ok None end) self.

Definition origin_set (now : Instant) (key : bytes) (value : V) (ttl : option Duration)
    (self : L5OriginBackend) : res unit * L5OriginBackend :=
  match ob_writer self with
  | None => (Ok tt, self)
  | Some writer =>
      match encode_bytes value with
      | Err e => (Err e, self)
      | Ok bs => origin_run now (writer key bs ttl) Ok self
      end
  end.

Definition origin_remove (now : Instant) (key : bytes) (self : L5OriginBackend) :
    res unit * L5OriginBackend :=
  match ob_writer self with
  | None => (Ok tt, self)
  | Some writer => origin_run now (writer key [] None) Ok self
  end.

Definition origin_contains (now : Instant) (key : bytes) (self : L5OriginBackend) :
    res bool * L5OriginBackend :=
  origin_run now (ob_fetcher self key) (fun o => Ok (bool_decide (is_Some o))) self.

#[export] Instance CacheTier_origin : CacheTier V L5OriginBackend := {|
  tier_name := fun _ => "L5-origin-fallback"%string;
  backend := fun _ => Origin;
  capability := fun _ =>
    mkCapability Origin (flags_union SHARED AUTHORITATIVE) OsHealthy DcDelegated;
  eviction_candidate := fun _ => default_eviction_candidate;
  capacity := default_capacity;
  remove_if_address := default_remove_if_address;
  tier_get := origin_get;
  tier_set := origin_set;
  tier_remove := origin_remove;
  tier_contains := origin_contains;
  health := fun _ self => health_report (ob_health self);
  tier_id := fun _ => L5
|}.
End origin.
Arguments L5OriginBackend S : clear implicits.
Arguments OriginFetcher S : clear implicits.
Arguments OriginWriter S : clear implicits.

(** ** What the two rungs promise *)

Section promises.
Context {V S : Type} `{ByteValue V} `{!CodecLaws V}.

Lemma redis_run_ok `{RedisConn S} {A B} now (command : S -> result A unit * S) (answer : A -> res B)
    (self self' : L3RedisBackend S) b :
  redis_run now command answer self = (Ok b, self') ->
  exists c a c', lock (rb_conn self) = Some c /\ command c = (Ok a, c') /\ answer a = Ok b /\
    lock (rb_conn self') = Some c'.
Proof.
  unfold redis_run. destruct (lock (rb_conn self)) as [c|] eqn:Hc; [|done].
  destruct (command c) as [[a|e] c'] eqn:Hcmd; [|done]. intros [= Ha <-].
  exists c, a, c'. split_and!; try done. by eapply lock_store.
Qed.

(** The distributed rung gives back what it was given, and nothing after a
    removal: once a write without a time to live (or a removal) has been
    acknowledged, the next read of that key returns the value (or nothing)
    unless the connection fails it, which is reported as an unavailable
    rung. *)
Theorem redis_read_your_write `{!RedisConn S, !RedisLaws S} (now now' : Instant) (key : bytes)
    (value : V) (self self' : L3RedisBackend S) :
  (redis_set now key value None self = (Ok tt, self') ->
   fst (redis_get now' key self') = Ok (Some value) \/
   fst (redis_get (V := V) now' key self') = Err TierUnavailable) /\
  (redis_remove now key self = (Ok tt, self') ->
   fst (redis_get (V := V) now' key self') = Ok None \/
   fst (redis_get (V := V) now' key self') = Err TierUnavailable).
Proof.
  split; unfold redis_set, redis_remove; intros Hop.
  - destruct (encode_bytes value) as [bs|] eqn:Henc; [|done].
    apply redis_run_ok in Hop as (c & [] & c' & _ & Hset & _ & Hc').
    unfold redis_get, redis_run. rewrite Hc'.
    destruct (conn_get key c') as [[o|e] c''] eqn:Hget; cbn; [left|by right].
    rewrite (redis_set_get _ _ _ _ _ _ Hset Hget). by rewrite (codec_round_trip _ _ Henc).
  - apply redis_run_ok in Hop as (c & [] & c' & _ & Hdel & _ & Hc').
    unfold redis_get, redis_run. rewrite Hc'.
    destruct (conn_get key c') as [[o|e] c''] eqn:Hget; cbn; [left|by right].
    by rewrite (redis_del_get _ _ _ _ _ Hdel Hget).
Qed.

(** A time to live below one second never works on the distributed rung:
    it is rounded down to zero seconds, which the server refuses. Every such
    write fails as if the rung were down, counts as a failure of a healthy
    connection, and leaves the store as it was. *)
Theorem redis_refuses_subsecond_ttl `{!RedisConn S, !RedisLaws S} (now : Instant) (key : bytes)
    (value : V) (ttl : Duration) (self : L3RedisBackend S) (c : S) (h : TierHealth) (bs : bytes)
    (Httl : 0 <= ttl < 1000000000) (Hc : lock (rb_conn self) = Some c)
    (Hh : lock (rb_health self) = Some h) (Hbs : encode_bytes value = Ok bs) :
  fst (redis_set now key value (Some ttl) self) = Err TierUnavailable /\
  lock (rb_conn (snd (redis_set now key value (Some ttl) self))) = Some c /\
  consecutive_failures (health_report (rb_health (snd (redis_set now key value (Some ttl) self)))) =
    add64 (consecutive_failures h) 1.
Proof.
  unfold redis_set. rewrite Hbs. unfold redis_run. rewrite Hc. unfold as_secs.
  rewrite Z.div_small, redis_zero_expiry by done. cbn. split_and!; [done|by eapply lock_store|].
  unfold health_fail, health_report. rewrite Hh. by erewrite lock_store.
Qed.

(** Removing from an origin does not make the key absent. Without a writer
    a write and a removal are acknowledged and do nothing. With one, a removal
    writes an empty value: from then on, at an origin that returns what was
    written to it, the key exists and reads as that empty value. *)
Theorem origin_remove_leaves_an_empty_value (now now' : Instant) (key : bytes) (value : V)
    (ttl : option Duration) (self self' : L5OriginBackend S)
    (Hkeeps : forall writer k v t s s', ob_writer self = Some writer ->
       writer k v t s = (Ok tt, s') -> fst (ob_fetcher self k s') = Ok (Some v))
    (Hremove : origin_remove now key self = (Ok tt, self')) :
  match ob_writer self with
  | None => self' = self /\ origin_set now key value ttl self = (Ok tt, self)
  | Some _ => fst (origin_contains now' key self') = Ok true /\
              fst (origin_get (V := V) now' key self') = map_ok Some (decode_bytes [])
  end.
Proof.
  unfold origin_remove, origin_set in *. destruct (ob_writer self) as [writer|] eqn:Hw.
  - unfold origin_run in Hremove. destruct (writer key [] None (ob_origin self)) as [[[]|e] s'] eqn:Hrun; [|done].
    apply (Hkeeps writer) in Hrun; [|done]. injection Hremove as <-.
    unfold origin_contains, origin_get, origin_run. cbn.
    destruct (ob_fetcher self key s') as [r s'']. cbn in Hrun. by subst r.
  - by injection Hremove as <-.
Qed.
End promises.

(** ** Stores in memory *)

(** A server that nothing expires on. *)
#[export] Instance RedisConn_map : RedisConn (gmap bytes bytes) := {|
  conn_get k s := (Ok (s !! k), s);
  conn_set k v s := (Ok tt, <[k := v]> s);
  conn_set_ex k v secs s := if secs <=? 0 then (Err tt, s) else (Ok tt, <[k := v]> s);
  conn_del k s := (Ok tt, delete k s);
  conn_exists k s := (Ok (bool_decide (is_Some (s !! k))), s)
|}.

#[export] Instance RedisLaws_map : RedisLaws (gmap bytes bytes).
Proof.
  refine (Build_RedisLaws _ _ _ _ _); cbn; [| |done].
  - intros k v s s' o s'' [= <-] [= <- <-]. apply lookup_insert_eq.
  - intros k s s' o s'' [= <-] [= <- <-]. apply lookup_delete_eq.
Defined.

Definition demo_redis : L3RedisBackend (gmap bytes bytes) :=
  mkRedis (new_mutex ∅) (new_mutex TierHealth_default).

Lemma redis_read_your_write_witness :
  let s := snd (redis_set 0 [107] [118] None demo_redis) in
  fst (redis_get (V := bytes) 1 [107] s) = Ok (Some [118]) \/
  fst (redis_get (V := bytes) 1 [107] s) = Err TierUnavailable.
Proof.
  refine (proj1 (redis_read_your_write 0 1 [107] [118] demo_redis _) _). vm_compute. reflexivity.
Defined.

Lemma redis_refuses_subsecond_ttl_witness :
  fst (redis_set 0 [107] [118] (Some 500000000) demo_redis) = Err TierUnavailable.
Proof.
  refine (proj1 (redis_refuses_subsecond_ttl 0 [107] [118] 500000000 demo_redis ∅ TierHealth_default
    [118] _ _ _ _)); [split; vm_compute; first [discriminate|reflexivity]|vm_compute; reflexivity..].
Defined.

Definition demo_origin : L5OriginBackend (gmap bytes bytes) :=
  origin_with_writer (fun k v _ s => (Ok tt, <[k := v]> s))
    (origin_new {[ [107] := [118] ]} (fun k s => (Ok (s !! k), s))).

Lemma origin_remove_leaves_an_empty_value_witness :
  fst (origin_contains 1 [107] (snd (origin_remove 0 [107] demo_origin))) = Ok true /\
  fst (origin_get (V := bytes) 1 [107] (snd (origin_remove 0 [107] demo_origin))) = Ok (Some []).
Proof.
  refine (origin_remove_leaves_an_empty_value 0 1 [107] [118] None demo_origin _ _ _).
  - intros writer k v t s s' [= <-] [= <-]. cbn. by rewrite lookup_insert_eq.
  - vm_compute. reflexivity.
Defined.
