(* ===== verification/Oxigraph.v ===== *)
(** * The RDF rung

    Models [src/tier/backends/l5_oxigraph.rs]. Each entry is one quad of a
    third-party store: the hex-encoded key in the subject, the hex-encoded
    value in the object. Strings are their UTF-8 bytes. *)

From Stdlib Require Import String.
From S2P Require Import Prelude Entry Integrity Tier Capability TierTrait Codec.
Local Open Scope Z_scope.

(** ** Hex *)

(** [{b:02x}] of each byte. *)
Definition hex_encode (bs : bytes) : bytes :=
  flat_map (fun b => [hex_digit (b / 16); hex_digit (b mod 16)]) bs.

(** [char::to_digit(16)] *)
Definition to_digit16 (c : Z) : option Z :=
  if in_range 48 57 c then Some (c - 48)
  else if in_range 97 102 c then Some (c - 87)
  else if in_range 65 70 c then Some (c - 55)
  else None.

(** The loop over [chunks(2)]. *)
Fixpoint hex_pairs (text : bytes) : res bytes :=
  match text with
  | hi :: lo :: rest =>
      match to_digit16 hi, to_digit16 lo with
      | Some h, Some l =>
          let? out := hex_pairs rest in Ok (Z.lor (Z.shiftl h 4) l mod 256 :: out)
      | _, _ => Err SerializationFailed
      end
  | _ => Ok []
  end.

Definition hex_decode (text : bytes) : res bytes :=
  if negb (Nat.even (length text)) then Err SerializationFailed else hex_pairs text.

(** ** The store *)

(** The parts of [oxigraph::model] the rung looks at: a subject is a named node
    or something else, an object a literal or something else. *)
Inductive Subject : Type := NamedSubject (iri : bytes) | OtherSubject (id : Z).
Inductive RdfTerm : Type := LiteralTerm (value : bytes) | OtherTerm (id : Z).

Record Quad : Type := mkQuad {
  q_subject : Subject;
  q_predicate : bytes;
  q_object : RdfTerm
}.

#[export] Instance Subject_eq_dec : EqDecision Subject.
Proof. solve_decision. Defined.
#[export] Instance RdfTerm_eq_dec : EqDecision RdfTerm.
Proof. solve_decision. Defined.
#[export] Instance Quad_eq_dec : EqDecision Quad.
Proof. solve_decision. Defined.

(** [Store] on the default graph, and the validation of [NamedNode::new]. The
    errors are discarded. *)
Class QuadStore (S : Type) := {
  iri_valid : bytes -> bool;
  quads_for_subject : Subject -> S -> list (result Quad unit);
  store_insert : Quad -> S -> result unit unit * S;
  store_remove : Quad -> S -> result unit unit * S
}.

(** The documented behaviour: a set of quads, enumerated in no particular
    order. An insertion adds the quad, a removal takes away that quad only. *)
Class QuadLaws (S : Type) `{QuadStore S} := {
  quad_in : Quad -> S -> Prop;
  enumerates : forall subject s q,
    Ok q ∈ quads_for_subject subject s <-> quad_in q s /\ q_subject q = subject;
  enumerates_all : forall subject s e, ~ Err e ∈ quads_for_subject subject s;
  insert_adds : forall q s s' q', store_insert q s = (Ok tt, s') ->
    (quad_in q' s' <-> q' = q \/ quad_in q' s);
  remove_takes : forall q s s' q', store_remove q s = (Ok tt, s') ->
    (quad_in q' s' <-> q' <> q /\ quad_in q' s)
}.

(** ["urn:thesix:entry:"] and ["urn:thesix:value"] *)
Definition ENTRY_NS : bytes := [117;114;110;58;116;104;101;115;105;120;58;101;110;116;114;121;58].
Definition VALUE_PRED : bytes := [117;114;110;58;116;104;101;115;105;120;58;118;97;108;117;101].

Section oxigraph.
Context {V S : Type} `{ByteValue V} `{QuadStore S}.

Record L5OxigraphBackend : Type := mkOxigraph { ox_store : S }.

(** [NamedNode::new], its error mapped by [map_store_error]. *)
Definition named_node (iri : bytes) : res bytes :=
  if iri_valid iri then Ok iri else Err PopulationFailed.

Definition subject_for (key : bytes) : res bytes := named_node (ENTRY_NS ++ hex_encode key).

Definition value_predicate : res bytes := named_node VALUE_PRED.

(** The loop of [find_value]: the first quad whose subject is the named node. *)
Fixpoint first_value (subject : bytes) (found : list (result Quad unit)) : res (option bytes) :=
  match found with
  | [] => Ok None
  | Err _ :: _ => Err PopulationFailed
  | Ok q :: rest =>
      if bool_decide (q_subject q = NamedSubject subject) then
        Ok (Some (match q_object q with LiteralTerm v => v | OtherTerm _ => [] end))
      else first_value subject rest
  end.

Definition find_value (key : bytes) (self : L5OxigraphBackend) : res (option bytes) :=
  let? subject := subject_for key in
  first_value subject (quads_for_subject (NamedSubject subject) (ox_store self)).

Definition ox_get (now : Instant) (key : bytes) (self : L5OxigraphBackend) :
    res (option V) * L5OxigraphBackend :=
  (match find_value key self with
   | Err e => Err e
   | Ok None => Ok None
   | Ok (Some encoded) =>
       if utf8_valid encoded then
         let? raw := hex_decode encoded in map_ok Some (decode_bytes raw)
       else Err SerializationFailed
   end, self).

(** The quad [set] makes of an entry. *)
Definition entry_quad (subject predicate payload : bytes) : Quad :=
  mkQuad (NamedSubject subject) predicate (LiteralTerm (hex_encode payload)).

Definition ox_set (now : Instant) (key : bytes) (value : V) (ttl : option Duration)
    (self : L5OxigraphBackend) : res unit * L5OxigraphBackend :=
  match encode_bytes value with
  | Err e => (Err e, self)
  | Ok payload =>
      match subject_for key, value_predicate with
      | Err e, _ => (Err e, self)
      | _, Err e => (Err e, self)
      | Ok subject, Ok predicate =>
          let quad := entry_quad subject predicate payload in
          match store_remove quad (ox_store self) with
          | (Err _, s) => (Err PopulationFailed, mkOxigraph s)
          | (Ok _, s) =>
              match store_insert quad s with
              | (Err _, s) => (Err PopulationFailed, mkOxigraph s)
              | (Ok _, s) => (Ok tt, mkOxigraph s)
              end
          end
      end
  end.

(** The collection loop of [remove]. *)
Fixpoint collect_quads (found : list (result Quad unit)) : res (list Quad) :=
  match found with
  | [] => Ok []
  | Err _ :: _ => Err PopulationFailed
  | Ok q :: rest => let? qs := collect_quads rest in Ok (q :: qs)
  end.

Fixpoint remove_quads (qs : list Quad) (s : S) : res unit * S :=
  match qs with
  | [] => (Ok tt, s)
  | q :: rest =>
      match store_remove q s with
      | (Err _, s) => (Err PopulationFailed, s)
      | (Ok _, s) => remove_quads rest s
      end
  end.

Definition ox_remove (now : Instant) (key : bytes) (self : L5OxigraphBackend) :
    res unit * L5OxigraphBackend :=
  match subject_for key with
  | Err e => (Err e, self)
  | Ok subject =>
      match collect_quads (quads_for_subject (NamedSubject subject) (ox_store self)) with
      | Err e => (Err e, self)
      | Ok to_remove =>
          let '(r, s) := remove_quads to_remove (ox_store self) in (r, mkOxigraph s)
      end
  end.

Definition ox_contains (now : Instant) (key : bytes) (self : L5OxigraphBackend) :
    res bool * L5OxigraphBackend :=
  (map_ok (fun o => bool_decide (is_Some o)) (find_value key self), self).

#[export] Instance CacheTier_oxigraph : CacheTier V L5OxigraphBackend := {|
  tier_name := fun _ => "L5-oxigraph"%string;
  backend := fun _ => Oxigraph;
  capability := fun _ => mkCapability Oxigraph BLOCKING_IO OsHealthy DcVolatile;
  eviction_candidate := fun _ => default_eviction_candidate;
  capacity := default_capacity;
  remove_if_address := default_remove_if_address;
  tier_get := ox_get;
  tier_set := ox_set;
  tier_remove := ox_remove;
  tier_contains := ox_contains;
  health := fun _ _ => TierHealth_default;
  tier_id := fun _ => L5
|}.
End oxigraph.
Arguments L5OxigraphBackend S : clear implicits.

(** ** Hex loses nothing *)

Definition nibble (d : Z) : Prop := 0 <= d < 16.

Lemma to_digit_hex d : nibble d -> to_digit16 (hex_digit d) = Some d /\ in_range 0 0x7F (hex_digit d) = true.
Proof.
  intros Hd. assert (d ∈ seqZ 0 16) as Hin by (apply elem_of_seqZ; unfold nibble in Hd; lia).
  assert (Forall (fun d => to_digit16 (hex_digit d) = Some d /\ in_range 0 0x7F (hex_digit d) = true)
            (seqZ 0 16)) as Hall by by_decision.
  rewrite list.Forall_forall in Hall. by apply Hall.
Qed.

Lemma byte_nibbles b : byte b -> nibble (b / 16) /\ nibble (b mod 16) /\
  Z.lor (Z.shiftl (b / 16) 4) (b mod 16) mod 256 = b.
Proof.
  intros Hb. assert (b ∈ seqZ 0 256) as Hin by (apply elem_of_seqZ; unfold byte in Hb; lia).
  assert (Forall (fun b => (0 <= b / 16 /\ b / 16 < 16) /\ (0 <= b mod 16 /\ b mod 16 < 16) /\
            Z.lor (Z.shiftl (b / 16) 4) (b mod 16) mod 256 = b) (seqZ 0 256)) as Hall by by_decision.
  rewrite list.Forall_forall in Hall. unfold nibble. by apply Hall.
Qed.

Lemma hex_encode_cons b bs :
  hex_encode (b :: bs) = hex_digit (b / 16) :: hex_digit (b mod 16) :: hex_encode bs.
Proof. done. Qed.

Lemma hex_encode_facts bs :
  Forall byte bs ->
  hex_pairs (hex_encode bs) = Ok bs /\ Nat.even (length (hex_encode bs)) = true /\
  utf8_valid (hex_encode bs) = true.
Proof.
  induction 1 as [|b bs Hb Hbs (IHp & IHe & IHu)]; [done|].
  apply byte_nibbles in Hb as (Hh & Hl & Hjoin).
  apply to_digit_hex in Hh as [Hh Hhr], Hl as [Hl Hlr].
  rewrite hex_encode_cons. cbn [hex_pairs utf8_valid length Nat.even].
  rewrite Hh, Hl, Hhr, Hlr, IHp, Hjoin. done.
Qed.

(** Hex loses nothing: every byte string, encoded for the store and
    decoded again, comes back unchanged, as valid text on the way; so distinct
    keys get distinct subjects and distinct values distinct literals. Text of
    odd length is refused. *)
Theorem hex_round_trip (bs bs' : bytes) (Hbs : Forall byte bs) (Hbs' : Forall byte bs') :
  hex_decode (hex_encode bs) = Ok bs /\ utf8_valid (hex_encode bs) = true /\
  (hex_encode bs = hex_encode bs' -> bs = bs') /\
  forall text, Nat.even (length text) = false -> hex_decode text = Err SerializationFailed.
Proof.
  destruct (hex_encode_facts bs Hbs) as (Hp & He & Hu), (hex_encode_facts bs' Hbs') as (Hp' & _ & _).
  split_and!.
  - unfold hex_decode. by rewrite He.
  - done.
  - intros Heq. rewrite Heq, Hp' in Hp. by injection Hp.
  - intros text Hodd. unfold hex_decode. by rewrite Hodd.
Qed.

Lemma hex_round_trip_witness :
  hex_decode (hex_encode [0; 128; 255]) = Ok [0; 128; 255].
Proof. refine (proj1 (hex_round_trip [0; 128; 255] [] _ _)); by_decision. Defined.

(** ** The rung over the store *)

Section rung.
Context {V S : Type} `{ByteValue V} `{!CodecLaws V} `{QuadStore S} `{!QuadLaws S}.
Implicit Types (self : L5OxigraphBackend S).

(** The quads stored for a key. *)
Definition stored_for (subject : bytes) (q : Quad) self : Prop :=
  quad_in q (ox_store self) /\ q_subject q = NamedSubject subject.

Lemma hex_encode_inj a b : Forall byte a -> Forall byte b -> hex_encode a = hex_encode b -> a = b.
Proof.
  intros Ha Hb Heq. apply hex_encode_facts in Ha as [Ha _], Hb as [Hb _].
  rewrite Heq, Hb in Ha. by injection Ha.
Qed.

Lemma ox_set_inv now key value ttl self self' :
  ox_set now key value ttl self = (Ok tt, self') ->
  exists payload subject predicate,
    encode_bytes value = Ok payload /\ subject_for key = Ok subject /\
    value_predicate = Ok predicate /\
    forall q, quad_in q (ox_store self') <->
      q = entry_quad subject predicate payload \/ quad_in q (ox_store self).
Proof.
  unfold ox_set. destruct (encode_bytes value) as [payload|]; [|done].
  destruct (subject_for key) as [subject|]; [|done].
  destruct value_predicate as [predicate|] eqn:Hp; [|done].
  destruct (store_remove _ _) as [[[]|[]] s1] eqn:Hrem; [|done].
  destruct (store_insert _ _) as [[[]|[]] s2] eqn:Hins; [|done].
  intros [= <-]. exists payload, subject, predicate. split_and!; try done. intros q. cbn.
  rewrite (insert_adds _ _ _ _ Hins), (remove_takes _ _ _ _ Hrem).
  destruct (decide (q = entry_quad subject predicate payload)); tauto.
Qed.

(** A read looks at the first quad the store enumerates for the key. *)
Lemma find_value_first key subject self :
  subject_for key = Ok subject ->
  match quads_for_subject (NamedSubject subject) (ox_store self) with
  | Ok q :: _ => find_value key self =
      Ok (Some (match q_object q with LiteralTerm v => v | OtherTerm _ => [] end)) /\
      stored_for subject q self
  | _ => find_value key self = Ok None /\ forall q, ~ stored_for subject q self
  end.
Proof.
  intros Hs. unfold find_value. rewrite Hs.
  assert (Hq := fun q => enumerates (NamedSubject subject) (ox_store self) q).
  assert (He := enumerates_all (NamedSubject subject) (ox_store self)).
  destruct (quads_for_subject _ _) as [|[q|e] rest]; cbn.
  - split; [done|]. intros q Hst. by apply Hq, elem_of_nil in Hst.
  - assert (Hst : stored_for subject q self) by (apply Hq; left).
    rewrite bool_decide_true by apply Hst. done.
  - destruct (He e). by left.
Qed.

Lemma find_value_stored key subject predicate payload self :
  subject_for key = Ok subject ->
  (forall q, stored_for subject q self <-> q = entry_quad subject predicate payload) ->
  find_value key self = Ok (Some (hex_encode payload)).
Proof.
  intros Hs Hone. pose proof (find_value_first key subject self Hs) as Hf.
  destruct (quads_for_subject _ _) as [|[q|e] rest].
  - destruct Hf as [_ Hf]. destruct (Hf (entry_quad subject predicate payload)). by apply Hone.
  - destruct Hf as [-> Hst]. apply Hone in Hst as ->. done.
  - destruct Hf as [_ Hf]. destruct (Hf (entry_quad subject predicate payload)). by apply Hone.
Qed.

Lemma ox_get_encoded now key payload v self :
  find_value key self = Ok (Some (hex_encode payload)) -> Forall byte payload ->
  decode_bytes payload = Ok v -> fst (ox_get now key self) = Ok (Some v).
Proof.
  intros Hf Hb Hdec. unfold ox_get. rewrite Hf. cbn.
  apply hex_encode_facts in Hb as (Hp & He & Hu). unfold hex_decode.
  rewrite Hu, He. cbn. rewrite Hp. cbn. by rewrite Hdec.
Qed.

Lemma remove_quads_spec qs s s' :
  remove_quads qs s = (Ok tt, s') -> forall q, quad_in q s' <-> ~ q ∈ qs /\ quad_in q s.
Proof.
  revert s. induction qs as [|q0 qs IH]; intros s; cbn.
  - intros [= ->] q. split; [|tauto]. split; [apply not_elem_of_nil|done].
  - destruct (store_remove q0 s) as [[[]|[]] s1] eqn:Hrem; [|done]. intros Hrest q.
    rewrite (IH _ Hrest), (remove_takes _ _ _ _ Hrem), not_elem_of_cons. tauto.
Qed.

Lemma collect_quads_spec found :
  (forall e, ~ Err e ∈ found) ->
  exists qs, collect_quads found = Ok qs /\ forall q, q ∈ qs <-> Ok q ∈ found.
Proof.
  induction found as [|[q|e] found IH]; intros He.
  - exists []. split; [done|]. intros q. split; intros Hq; by apply elem_of_nil in Hq.
  - destruct IH as (qs & Hc & Hqs); [intros e Hin; apply (He e); by right|].
    exists (q :: qs). cbn. rewrite Hc. split; [done|]. intros q'.
    rewrite !elem_of_cons, Hqs. split; (intros [Heq|?]; [left; congruence|by right]).
  - destruct (He e). by left.
Qed.

(** A fresh key of the RDF rung holds what was written to it, and a
    removed key holds nothing: after an acknowledged write of a key without
    quads, a read returns the value; after an acknowledged removal no quad is
    left for the key; both leave the quads of every other subject alone. *)
Theorem oxigraph_first_write_and_removal (now now' : Instant) (key payload subject : bytes) (value : V)
    (ttl : option Duration) self self'
    (Hs : subject_for key = Ok subject) (Henc : encode_bytes value = Ok payload)
    (Hbytes : Forall byte payload) (Hfresh : forall q, ~ stored_for subject q self) :
  (ox_set now key value ttl self = (Ok tt, self') ->
     fst (ox_get now' key self') = Ok (Some value) /\
     forall q, q_subject q <> NamedSubject subject ->
       (quad_in q (ox_store self') <-> quad_in q (ox_store self))) /\
  (forall self1 self2, ox_remove now key self1 = (Ok tt, self2) ->
     fst (ox_get (V := V) now' key self2) = Ok None /\
     forall q, quad_in q (ox_store self2) <->
       q_subject q <> NamedSubject subject /\ quad_in q (ox_store self1)).
Proof.
  split.
  - intros Hset. apply ox_set_inv in Hset as (p & s & pr & Hp & Hs' & _ & Hin).
    rewrite Henc in Hp. injection Hp as <-. rewrite Hs in Hs'. injection Hs' as <-. split.
    + eapply ox_get_encoded; [|done|by apply codec_round_trip].
      eapply (find_value_stored key subject pr); [done|]. intros q. unfold stored_for. rewrite Hin. split.
      * intros [[->|Hq] Hqs]; [done|]. by destruct (Hfresh q).
      * intros ->. by split; [left|].
    + intros q Hne. rewrite Hin. split; [intros [-> |?]; [by exfalso; apply Hne|done]|by right].
  - intros self1 self2. unfold ox_remove. rewrite Hs.
    destruct (collect_quads_spec (quads_for_subject (NamedSubject subject) (ox_store self1)))
      as (qs & -> & Hqs); [apply enumerates_all|].
    destruct (remove_quads qs (ox_store self1)) as [r s2] eqn:Hrem. intros [= -> <-].
    assert (Hin : forall q, quad_in q s2 <->
      q_subject q <> NamedSubject subject /\ quad_in q (ox_store self1)).
    { intros q. rewrite (remove_quads_spec _ _ _ Hrem q), Hqs, enumerates. clear. tauto. }
    split; [|done]. pose proof (find_value_first key subject (mkOxigraph s2) Hs) as Hf.
    unfold ox_get.
    destruct (quads_for_subject (NamedSubject subject) (ox_store (mkOxigraph s2))) as [|[q|e] rest];
      destruct Hf as [-> Hst]; try done.
    destruct Hst as [Hq Hqs']. by apply Hin in Hq as [? _].
Qed.

(** An overwrite does not replace. The rung removes the quad it is about
    to insert, which is a different quad from the one an earlier, different
    value left: after two acknowledged writes of different values to a fresh
    key both quads are stored, and a read returns whichever the store happens
    to enumerate first. *)
Theorem oxigraph_overwrite_keeps_the_old_value (now1 now2 : Instant) (key p1 p2 : bytes) (v1 v2 : V)
    (ttl1 ttl2 : option Duration) self self1 self2
    (H1 : encode_bytes v1 = Ok p1) (H2 : encode_bytes v2 = Ok p2)
    (Hb1 : Forall byte p1) (Hb2 : Forall byte p2) (Hne : p1 <> p2)
    (Hset1 : ox_set now1 key v1 ttl1 self = (Ok tt, self1))
    (Hset2 : ox_set now2 key v2 ttl2 self1 = (Ok tt, self2)) :
  exists subject q1 q2, subject_for key = Ok subject /\ q1 <> q2 /\
    q_object q1 = LiteralTerm (hex_encode p1) /\ q_object q2 = LiteralTerm (hex_encode p2) /\
    stored_for subject q1 self2 /\ stored_for subject q2 self2 /\
    forall q rest, quads_for_subject (NamedSubject subject) (ox_store self2) = Ok q :: rest ->
      find_value key self2 =
        Ok (Some (match q_object q with LiteralTerm v => v | OtherTerm _ => [] end)).
Proof.
  apply ox_set_inv in Hset1 as (p & subject & predicate & Hp & Hs & Hpr & Hin1).
  rewrite H1 in Hp. injection Hp as <-.
  apply ox_set_inv in Hset2 as (p & subject' & predicate' & Hp & Hs' & Hpr' & Hin2).
  rewrite H2 in Hp. injection Hp as <-. rewrite Hs in Hs'. injection Hs' as <-.
  rewrite Hpr in Hpr'. injection Hpr' as <-.
  exists subject, (entry_quad subject predicate p1), (entry_quad subject predicate p2).
  split_and!; try done.
  - intros [= Heq]. apply Hne. by apply hex_encode_inj.
  - split; [|done]. apply Hin2. right. apply Hin1. by left.
  - split; [|done]. apply Hin2. by left.
  - intros q rest Henum. pose proof (find_value_first key subject self2 Hs) as Hf.
    rewrite Henum in Hf. apply Hf.
Qed.
End rung.

(** ** A store in memory, in insertion order *)

#[export] Instance QuadStore_list : QuadStore (list Quad) := {|
  iri_valid := fun _ => true;
  quads_for_subject subject s := map Ok (List.filter (fun q => bool_decide (q_subject q = subject)) s);
  store_insert q s := (Ok tt, if decide (q ∈ s) then s else s ++ [q]);
  store_remove q s := (Ok tt, List.filter (fun q' => bool_decide (q' <> q)) s)
|}.

#[export] Instance QuadLaws_list : QuadLaws (list Quad).
Proof.
  refine (Build_QuadLaws _ _ (fun q s => q ∈ s) _ _ _ _); cbn.
  - intros subject s q. rewrite list_elem_of_fmap. split.
    + intros (q' & [= <-] & Hq). apply list_elem_of_In, filter_In in Hq as [Hq Hb].
      by apply list_elem_of_In in Hq; apply bool_decide_eq_true in Hb.
    + intros [Hq Hs]. exists q. split; [done|]. apply list_elem_of_In, filter_In.
      split; [by apply list_elem_of_In|by apply bool_decide_eq_true].
  - intros subject s e He. by apply list_elem_of_fmap in He as (q & ? & _).
  - intros q s s' q' [= <-]. case_decide.
    + split; [by right|]. by intros [->|].
    + rewrite elem_of_app, list_elem_of_singleton. tauto.
  - intros q s s' q' [= <-]. rewrite list_elem_of_In, filter_In, <- list_elem_of_In, bool_decide_eq_true.
    tauto.
Defined.

Definition demo_rdf : L5OxigraphBackend (list Quad) := mkOxigraph [].
Definition demo_rdf_once := snd (ox_set 0 [107] [118; 49] None demo_rdf).
Definition demo_rdf_twice := snd (ox_set 1 [107] [118; 50] None demo_rdf_once).

Lemma oxigraph_first_write_and_removal_witness :
  fst (ox_get 1 [107] demo_rdf_once) = Ok (Some [118; 49]) /\
  fst (ox_get (V := bytes) 1 [107] (snd (ox_remove 2 [107] demo_rdf_twice))) = Ok None.
Proof.
  assert (E1 : encode_bytes ([118; 49] : bytes) = Ok [118; 49]) by reflexivity.
  pose proof (oxigraph_first_write_and_removal 0 1 [107] [118; 49] (ENTRY_NS ++ hex_encode [107])
    ([118; 49] : bytes) None demo_rdf demo_rdf_once eq_refl E1) as H.
  destruct H as [Hw Hr]; [by_decision| |].
  - intros q [Hq _]. by apply elem_of_nil in Hq.
  - split; [apply Hw; vm_compute; reflexivity|].
    refine (proj1 (Hr demo_rdf_twice _ _)). vm_compute. reflexivity.
Defined.

(** The second value is stored beside the first, and the first is read. *)
Lemma oxigraph_overwrite_keeps_the_old_value_witness :
  length (ox_store demo_rdf_twice) = 2%nat /\
  fst (ox_get 3 [107] demo_rdf_twice) = Ok (Some [118; 49]) /\
  exists subject q1 q2, q1 <> q2 /\ stored_for subject q1 demo_rdf_twice /\
    stored_for subject q2 demo_rdf_twice.
Proof.
  split; [vm_compute; reflexivity|]. split; [vm_compute; reflexivity|].
  assert (E1 : encode_bytes ([118; 49] : bytes) = Ok [118; 49]) by reflexivity.
  assert (E2 : encode_bytes ([118; 50] : bytes) = Ok [118; 50]) by reflexivity.
  destruct (oxigraph_overwrite_keeps_the_old_value 0 1 [107] [118; 49] [118; 50]
    ([118; 49] : bytes) ([118; 50] : bytes) None None demo_rdf demo_rdf_once demo_rdf_twice E1 E2)
    as (subject & q1 & q2 & _ & Hne & _ & _ & H1 & H2 & _);
    [by_decision|by_decision|discriminate|vm_compute; reflexivity|vm_compute; reflexivity|].
  by exists subject, q1, q2.
Defined.
