(* ===== verification/Bootstrap.v ===== *)
(** * Ladder assembly from the environment

    Models [src/governor/bootstrap.rs]: which endpoint the environment names,
    its normalisation, and the six rungs bound from it. Strings are their UTF-8
    bytes; the process environment and the attempt to connect are parameters;
    the [redis] feature is a flag. *)

From Stdlib Require Import String.
From S2P Require Import Prelude Entry Integrity Tier Capability TierTrait Codec.
From S2P Require Import FixedTier ShardedTier Stubs Remote.
From stdpp Require Import gmap.
Local Open Scope Z_scope.

(** ** Strings *)

(** [value.trim().is_empty()]: only Unicode white space. *)
Fixpoint is_blank (s : bytes) : bool :=
  match s with
  | [] => true
  | b0 :: rest =>
      if in_range 9 13 b0 || (b0 =? 32) then is_blank rest
      else
        match rest with
        | b1 :: rest =>
            if (b0 =? 0xC2) && ((b1 =? 0x85) || (b1 =? 0xA0)) then is_blank rest
            else
              match rest with
              | b2 :: rest =>
                  ((b0 =? 0xE1) && (b1 =? 0x9A) && (b2 =? 0x80)
                   || (b0 =? 0xE2) && (b1 =? 0x80)
                      && (in_range 0x80 0x8A b2 || (b2 =? 0xA8) || (b2 =? 0xA9) || (b2 =? 0xAF))
                   || (b0 =? 0xE2) && (b1 =? 0x81) && (b2 =? 0x9F)
                   || (b0 =? 0xE3) && (b1 =? 0x80) && (b2 =? 0x80))
                  && is_blank rest
              | [] => false
              end
        | [] => false
        end
  end.

(** [str::strip_prefix] *)
Definition strip_prefix (s prefix : bytes) : option bytes :=
  if starts_with s prefix then Some (drop (length prefix) s) else None.

(** ["redis://"], ["rediss://"], ["valkey://"], ["valkeys://"] *)
Definition REDIS_SCHEME : bytes := [114;101;100;105;115;58;47;47].
Definition REDISS_SCHEME : bytes := [114;101;100;105;115;115;58;47;47].
Definition VALKEY_SCHEME : bytes := [118;97;108;107;101;121;58;47;47].
Definition VALKEYS_SCHEME : bytes := [118;97;108;107;101;121;115;58;47;47].

(** The four variables. *)
Definition ENV_REDIS_URL : bytes := [82;69;68;73;83;95;85;82;76].
Definition ENV_VALKEY_URL : bytes := [86;65;76;75;69;89;95;85;82;76].
Definition ENV_THESIX_REDIS_URL : bytes := [84;72;69;83;73;88;95] ++ ENV_REDIS_URL.
Definition ENV_THESIX_VALKEY_URL : bytes := [84;72;69;83;73;88;95] ++ ENV_VALKEY_URL.

(** ** Sources of configuration *)

Class EnvSource (E : Type) := env_lookup : E -> bytes -> option bytes.

(** [.filter(|value| !value.trim().is_empty())] *)
Definition unless_blank (value : option bytes) : option bytes :=
  match value with
  | Some v => if is_blank v then None else Some v
  | None => None
  end.

(** The process environment: what [std::env::var] finds. *)
Record ProcessEnv : Type := mkProcessEnv { pe_var : bytes -> option bytes }.
#[export] Instance EnvSource_process : EnvSource ProcessEnv :=
  fun self name => unless_blank (pe_var self name).

Record MapEnv : Type := mkMapEnv { me_map : gmap bytes bytes }.
Definition MapEnv_new : MapEnv := mkMapEnv ∅.
Definition MapEnv_with (self : MapEnv) (name value : bytes) : MapEnv :=
  mkMapEnv (<[name := value]> (me_map self)).
#[export] Instance EnvSource_map : EnvSource MapEnv :=
  fun self name => unless_blank (me_map self !! name).

(** ** Detection *)

Record DetectedUrl : Type := mkDetected {
  normalized : bytes;
  valkey : bool
}.

Definition normalize_url (raw : bytes) (valkey_by_name : bool) : res DetectedUrl :=
  match strip_prefix raw VALKEY_SCHEME with
  | Some rest => Ok (mkDetected (REDIS_SCHEME ++ rest) true)
  | None =>
      match strip_prefix raw VALKEYS_SCHEME with
      | Some rest => Ok (mkDetected (REDISS_SCHEME ++ rest) true)
      | None =>
          if starts_with raw REDIS_SCHEME || starts_with raw REDISS_SCHEME
          then Ok (mkDetected raw valkey_by_name) else Err ConfigurationError
      end
  end.

(** The variables in preference order, and whether the name says valkey. *)
Definition env_candidates : list (bytes * bool) :=
  [(ENV_THESIX_REDIS_URL, false); (ENV_THESIX_VALKEY_URL, true);
   (ENV_REDIS_URL, false); (ENV_VALKEY_URL, true)].

Fixpoint detect_among {E} `{EnvSource E} (env : E) (candidates : list (bytes * bool)) :
    res (option DetectedUrl) :=
  match candidates with
  | [] => Ok None
  | (name, by_name) :: rest =>
      match env_lookup env name with
      | Some raw => map_ok Some (normalize_url raw by_name)
      | None => detect_among env rest
      end
  end.

Definition detect_redis_endpoint {E} `{EnvSource E} (env : E) : res (option DetectedUrl) :=
  detect_among env env_candidates.

(** ** Assembly *)

Inductive L3Binding : Type :=
| NotConfigured
| BoundRedis (url : bytes) (by_valkey : bool)
| RedisDegradedToMemory (url : bytes) (by_valkey : bool) (reason : string).

(** What may be bound at L3, and what a slot of the assembled ladder holds. *)
Abbreviation L3Backend V S := (L3Stub V + L3RedisBackend S)%type.
Abbreviation Rung V S :=
  (L0Stub V + (L1Stub V + (L2Stub V + (L3Stub V + (L4Stub V +
    (L5Stub V + HotRungTier (L3Backend V S)))))))%type.

Section ladder.
Context {V S : Type} `{ByteValue V} `{IntegrityCheck V} `{DefaultHasher} `{RedisConn S}.

(** An entry of [hot_rungs]: the rebindable rung that sits in a slot of
    [tiers], the same object, or one that sits in none. *)
Inductive HotHandle : Type :=
| InSlot (idx : nat)
| OwnCell (hot : HotRungTier (L3Backend V S)).

Record Ladder : Type := mkLadder {
  ld_tiers : list (Rung V S);
  ld_hot_rungs : list HotHandle;
  ld_rebinder : option (TierId -> res (option (L3Backend V S)));
  ld_report : option L3Binding
}.

(** [L0Stub::new] and its siblings; the allocation is expected to succeed. *)
Definition new_table : res (ShardedTierStub V) :=
  sh_with_shards DEFAULT_SHARDS DEFAULT_CAPACITY_PER_SHARD.

Definition stub_ladder (t : ShardedTierStub V) : list (Rung V S) :=
  [inl (mkL0 t); inr (inl (mkL1 t)); inr (inr (inl (mkL2 t))); inr (inr (inr (inl (mkL3 t))));
   inr (inr (inr (inr (inl (mkL4 t))))); inr (inr (inr (inr (inr (inl (mkL5 t))))))].

(** The attempt to connect, and whether the [redis] feature is compiled in. *)
Variable connect : bytes -> res (L3RedisBackend S).
Variable redis_feature : bool.

Definition redis_rebinder (endpoint : DetectedUrl) (rung : TierId) : res (option (L3Backend V S)) :=
  if decide (rung = L3) then
    match connect (normalized endpoint) with
    | Ok b => Ok (Some (inr b))
    | Err e => Err e
    end
  else Ok None.

Definition bind_l3 (detected : DetectedUrl) (t : ShardedTierStub V) : res Ladder :=
  let tiers := stub_ladder t in
  if redis_feature then
    match connect (normalized detected) with
    | Ok b =>
        let? hot := hot_new (V := V) L3 (inr b : (L3Backend V S)) in
        Ok (mkLadder (<[3%nat := inr (inr (inr (inr (inr (inr hot)))))]> tiers) [InSlot 3]
              (Some (redis_rebinder detected))
              (Some (BoundRedis (normalized detected) (valkey detected))))
    | Err _ =>
        let? hot := hot_new (V := V) L3 (inl (mkL3 t) : (L3Backend V S)) in
        Ok (mkLadder tiers [OwnCell hot] (Some (redis_rebinder detected))
              (Some (RedisDegradedToMemory (normalized detected) (valkey detected)
                       "the redis server did not accept a connection")))
    end
  else
    Ok (mkLadder tiers [] None
          (Some (RedisDegradedToMemory (normalized detected) (valkey detected)
                   "the redis feature is not compiled in"))).

Definition assemble_ladder {E} `{EnvSource E} (env : E) : res Ladder :=
  let? endpoint := detect_redis_endpoint env in
  let? t := new_table in
  match endpoint with
  | None => Ok (mkLadder (stub_ladder t) [] None (Some NotConfigured))
  | Some detected => bind_l3 detected t
  end.

(** [hot_rungs.iter().find(|h| h.rung() == rung)] and [hot_swap] through the
    handle found: a handle in a slot changes the slot, the other only itself. *)
Definition handle_rung (l : Ladder) (h : HotHandle) : option TierId :=
  match h with
  | InSlot idx => option_map (fun r : (Rung V S) => tier_id (V := V) r) (ld_tiers l !! idx)
  | OwnCell hot => Some (hr_rung hot)
  end.

Definition swap_slot (replacement : (L3Backend V S)) (r : (Rung V S)) : res (L3Backend V S) * (Rung V S) :=
  match r with
  | inr (inr (inr (inr (inr (inr hot))))) =>
      let '(o, hot) := hot_swap (V := V) replacement hot in
      (o, inr (inr (inr (inr (inr (inr hot))))))
  | _ => (Err ConfigurationError, r)
  end.

Definition swap_handle (replacement : (L3Backend V S)) (h : HotHandle) (l : Ladder) : res (L3Backend V S) * Ladder :=
  match h with
  | InSlot idx =>
      match ld_tiers l !! idx with
      | None => (Err ConfigurationError, l)
      | Some r =>
          let '(o, r) := swap_slot replacement r in
          (o, mkLadder (<[idx := r]> (ld_tiers l)) (ld_hot_rungs l) (ld_rebinder l) (ld_report l))
      end
  | OwnCell hot =>
      let '(o, hot) := hot_swap (V := V) replacement hot in
      (o, mkLadder (ld_tiers l) [OwnCell hot] (ld_rebinder l) (ld_report l))
  end.
End ladder.

(** ** Detection is exact *)

(** A URL the client parses. *)
Definition redis_shaped (url : bytes) : bool :=
  starts_with url REDIS_SCHEME || starts_with url REDISS_SCHEME.

(** A URL detection accepts. *)
Definition accepted (url : bytes) : bool :=
  redis_shaped url || starts_with url VALKEY_SCHEME || starts_with url VALKEYS_SCHEME.

Lemma starts_with_app p s : starts_with (p ++ s) p = true.
Proof. induction p as [|b p IH]; cbn; [by destruct s|]. by rewrite Z.eqb_refl. Qed.

Lemma normalize_url_spec raw by_name :
  match normalize_url raw by_name with
  | Ok d => accepted raw = true /\ redis_shaped (normalized d) = true /\
            normalize_url (normalized d) (valkey d) = Ok d
  | Err e => e = ConfigurationError /\ accepted raw = false
  end.
Proof.
  unfold normalize_url, accepted, redis_shaped, strip_prefix.
  destruct (starts_with raw VALKEY_SCHEME) eqn:H1; [|destruct (starts_with raw VALKEYS_SCHEME) eqn:H2].
  - cbn [normalized valkey]. rewrite starts_with_app. by rewrite !orb_true_r.
  - cbn [normalized valkey]. rewrite starts_with_app. by rewrite !orb_true_r.
  - destruct (_ || _) eqn:H3; cbn [normalized valkey]; [|done].
    rewrite ?H1, ?H2, ?H3. done.
Qed.

Lemma detect_among_spec {E} `{EnvSource E} (env : E) candidates :
  match detect_among env candidates with
  | Ok None => forall name by_name, (name, by_name) ∈ candidates -> env_lookup env name = None
  | Ok (Some d) => redis_shaped (normalized d) = true
  | Err e => e = ConfigurationError /\
      exists name by_name raw, (name, by_name) ∈ candidates /\ env_lookup env name = Some raw /\
        accepted raw = false
  end.
Proof.
  induction candidates as [|[name by_name] rest IH]; cbn.
  - intros name by_name Hin. by apply elem_of_nil in Hin.
  - destruct (env_lookup env name) as [raw|] eqn:Hl.
    + pose proof (normalize_url_spec raw by_name) as Hn. destruct (normalize_url raw by_name); cbn.
      * apply Hn.
      * destruct Hn. split; [done|]. exists name, by_name, raw. split; [by left|done].
    + destruct (detect_among env rest) as [[d|]|e]; [done| |].
      * intros name' b' [Heq|Hin]%elem_of_cons; [by injection Heq as -> ->|by eapply IH].
      * destruct IH as (He & name' & b' & raw & Hin & Hr). split; [done|]. exists name', b', raw.
        split; [by right|done].
Qed.

(** ** The assembled ladder *)

Section assembled.
Context {V S E : Type} `{ByteValue V} `{IntegrityCheck V} `{DefaultHasher} `{RedisConn S} `{EnvSource E}.
Variable connect : bytes -> res (L3RedisBackend S).
Variable feature : bool.

Lemma new_table_ok : exists t : ShardedTierStub V, new_table = Ok t.
Proof. eexists. vm_compute. reflexivity. Qed.

Abbreviation assemble := (assemble_ladder (V := V) connect feature).

(** Slot by slot, what a rung reports to be. *)
Definition slot_ids (l : Ladder (V := V) (S := S)) : list TierId :=
  map (fun r : Rung V S => tier_id (V := V) r) (ld_tiers l).

Definition slot_backend (l : Ladder (V := V) (S := S)) (idx : nat) : option BackendKind :=
  option_map (fun r : Rung V S => backend (V := V) r) (ld_tiers l !! idx).

(** Assembly binds what it reports and reports what it bound. The ladder
    has its six rungs in order. It is reported unconfigured only when none of
    the four variables is set; as Redis only when the connection was made, and
    then the third rung is Redis; as degraded only when there is no connection
    or no client, and then the third rung is the in-memory one; a rebinder is
    there exactly when a client is. A URL handed to the client always carries
    a scheme it parses, and the only error is a variable that names no such
    URL. *)
Theorem assembly_reports_what_it_bound (env : E) :
  match assemble env with
  | Ok l =>
      slot_ids l = [L0; L1; L2; L3; L4; L5] /\
      match ld_report l with
      | Some NotConfigured =>
          (forall name b, (name, b) ∈ env_candidates -> env_lookup env name = None) /\
          slot_backend l 3 = Some InMemoryFallback /\ ld_hot_rungs l = [] /\ ld_rebinder l = None
      | Some (BoundRedis url _) =>
          redis_shaped url = true /\ is_ok (connect url) = true /\ slot_backend l 3 = Some Redis /\
          feature = true /\ is_Some (ld_rebinder l)
      | Some (RedisDegradedToMemory url _ _) =>
          redis_shaped url = true /\ slot_backend l 3 = Some InMemoryFallback /\
          (feature = false /\ ld_rebinder l = None \/
           feature = true /\ is_ok (connect url) = false /\ is_Some (ld_rebinder l))
      | None => False
      end
  | Err e => e = ConfigurationError /\
      exists name b raw, (name, b) ∈ env_candidates /\ env_lookup env name = Some raw /\
        accepted raw = false
  end.
Proof.
  unfold assemble_ladder. pose proof (detect_among_spec env env_candidates) as Hd.
  unfold detect_redis_endpoint. destruct (detect_among env env_candidates) as [[d|]|e]; [..|done].
  all: destruct new_table_ok as [t ->].
  - unfold bind_l3. destruct feature; cbn.
    + destruct (connect (normalized d)) as [b|e] eqn:Hc; cbn; (split; [reflexivity|]);
        split_and!; rewrite ?Hc; try done. by right.
    + split_and!; try done. by left.
  - cbn. by split_and!.
Qed.

(** C21. A ladder that started degraded cannot be repaired. A rung that was
    connected at assembly is rebound in place: the replacement becomes the
    third rung. One that was not hands the governor a rebindable rung that is
    in no slot: replacing its tier succeeds and is counted as done, and every
    rung of the ladder stays what it was. *)
Theorem degraded_ladder_is_never_rebound (env : E) (l : Ladder (V := V) (S := S))
    (url : bytes) (by_valkey : bool) (reason : string) (replacement : L3Backend V S)
    (Hl : assemble env = Ok l) (Hfeature : feature = true) :
  (ld_report l = Some (BoundRedis url by_valkey) ->
   exists h, ld_hot_rungs l = [h] /\ handle_rung l h = Some L3 /\
     is_ok (fst (swap_handle replacement h l)) = true /\
     slot_backend (snd (swap_handle replacement h l)) 3 = Some (backend (V := V) (T := L3Backend V S) replacement)) /\
  (ld_report l = Some (RedisDegradedToMemory url by_valkey reason) ->
   exists h, ld_hot_rungs l = [h] /\ handle_rung l h = Some L3 /\
     is_ok (fst (swap_handle replacement h l)) = true /\
     ld_tiers (snd (swap_handle replacement h l)) = ld_tiers l).
Proof.
  revert Hl. unfold assemble_ladder. destruct (detect_redis_endpoint env) as [[d|]|e]; [|..]; cbn.
  all: try destruct new_table_ok as [t ->].
  - unfold bind_l3. rewrite Hfeature.
    assert (Hid : tier_id (V := V) (T := L3Backend V S) replacement = L3) by by destruct replacement.
    destruct (connect (normalized d)) as [b|e]; cbn; intros [= <-]; cbn; split; intros [= -> -> ];
      eexists; split_and!; try reflexivity; unfold hot_swap; destruct replacement; reflexivity.
  - by intros [= <-].
  - done.
Qed.
End assembled.

#[local] Instance demo_hash : DefaultHasher := fun bs => fold_left (fun h b => add64 (mul64 h 31) b) bs 7.

Definition refusing (url : bytes) : res (L3RedisBackend (gmap bytes bytes)) := Err TierUnavailable.
Definition demo_vars : MapEnv := MapEnv_with MapEnv_new ENV_REDIS_URL (REDIS_SCHEME ++ [104; 47]).
Definition demo_replacement : L3Backend bytes (gmap bytes bytes) := inr demo_redis.

Definition demo_ladder : Ladder (V := bytes) (S := gmap bytes bytes) :=
  match assemble_ladder refusing true demo_vars with
  | Ok l => l
  | Err _ => mkLadder [] [] None None
  end.

(** The governor swaps a connected backend in; the ladder still has the stub. *)
Lemma degraded_ladder_is_never_rebound_witness :
  exists h, ld_hot_rungs demo_ladder = [h] /\
    is_ok (fst (swap_handle demo_replacement h demo_ladder)) = true /\
    ld_tiers (snd (swap_handle demo_replacement h demo_ladder)) = ld_tiers demo_ladder.
Proof.
  assert (Hl : assemble_ladder refusing true demo_vars = Ok demo_ladder) by reflexivity.
  destruct (proj2 (degraded_ladder_is_never_rebound refusing true demo_vars demo_ladder
    (REDIS_SCHEME ++ [104; 47]) false "the redis server did not accept a connection"
    demo_replacement Hl eq_refl) eq_refl) as (h & Hh & _ & Hok & Hsame).
  by exists h.
Defined.
