(* ===== verification/Fault.v ===== *)
(** * Deterministic fault injection

    Models [src/fault.rs]: the fault taxonomy, the seeded generator, the plan
    (a queue of armed faults) and the ledger of activations. *)

From Stdlib Require Import String.
From S2P Require Import Prelude.
Local Open Scope Z_scope.

Inductive OpKind : Type := KGet | KSet | KRemove | KContains.

#[export] Instance OpKind_eq_dec : EqDecision OpKind.
Proof. solve_decision. Defined.

Definition OpKind_ALL : list OpKind := [KGet; KSet; KRemove; KContains].

Definition OpKind_parse (s : string) : option OpKind :=
  (if (s =? "get") || (s =? "read") then Some KGet
   else if (s =? "set") || (s =? "write") then Some KSet
   else if s =? "remove" then Some KRemove
   else if s =? "contains" then Some KContains
   else None)%string.

Definition OpKind_display (op : OpKind) : string :=
  match op with KGet => "get" | KSet => "set" | KRemove => "remove" | KContains => "contains" end%string.

Inductive FaultClass : Type :=
| FLatency
| FTimeout
| FHang
| FReadFailure
| FWriteFailure
| FMetadataFailure
| FCorruption
| FDisconnect
| FCapacityExhaustion
| FFailureAfterN
| FCancellation
| FPartialWrite.

#[export] Instance FaultClass_eq_dec : EqDecision FaultClass.
Proof. solve_decision. Defined.

Definition FaultClass_ALL : list FaultClass :=
  [FLatency; FTimeout; FHang; FReadFailure; FWriteFailure; FMetadataFailure; FCorruption;
   FDisconnect; FCapacityExhaustion; FFailureAfterN; FCancellation; FPartialWrite].

Definition FaultClass_as_str (c : FaultClass) : string :=
  match c with
  | FLatency => "latency"
  | FTimeout => "timeout"
  | FHang => "hang"
  | FReadFailure => "read_failure"
  | FWriteFailure => "write_failure"
  | FMetadataFailure => "metadata_failure"
  | FCorruption => "corruption"
  | FDisconnect => "disconnect"
  | FCapacityExhaustion => "capacity_exhaustion"
  | FFailureAfterN => "failure_after_n_operations"
  | FCancellation => "cancellation"
  | FPartialWrite => "partial_write"
  end%string.

Definition is_scheduled_failure (c : FaultClass) : bool :=
  match c with
  | FTimeout | FReadFailure | FWriteFailure | FMetadataFailure | FCorruption | FDisconnect
  | FCapacityExhaustion | FCancellation => true
  | _ => false
  end.

Definition applies_to (c : FaultClass) (op : OpKind) : bool :=
  match c with
  | FLatency | FHang | FDisconnect | FCancellation | FFailureAfterN => true
  | FTimeout | FReadFailure | FCorruption =>
      match op with KGet | KContains => true | _ => false end
  | FWriteFailure | FCapacityExhaustion | FPartialWrite =>
      match op with KSet | KRemove => true | _ => false end
  | FMetadataFailure => match op with KGet | KSet => true | _ => false end
  end.

Definition fault_index (c : FaultClass) : nat :=
  match c with
  | FLatency => 0
  | FTimeout => 1
  | FHang => 2
  | FReadFailure => 3
  | FWriteFailure => 4
  | FMetadataFailure => 5
  | FCorruption => 6
  | FDisconnect => 7
  | FCapacityExhaustion => 8
  | FFailureAfterN => 9
  | FCancellation => 10
  | FPartialWrite => 11
  end%nat.

(** ** The generator

    xorshift64*; its state is a [u64]. *)

Definition rng_new (seed : Z) : Z := if seed =? 0 then 0x9E3779B97F4A7C15 else seed.

Definition rng_step (x : Z) : Z :=
  let x := Z.lxor x (Z.shiftr x 12) in
  let x := Z.lxor x (wrap64 (Z.shiftl x 25)) in
  Z.lxor x (Z.shiftr x 27).

(** The output and the new state. *)
Definition next_u64 (state : Z) : Z * Z :=
  let x := rng_step state in (mul64 x 0x2545F4914F6CDD1D, x).

Definition below (len : nat) (state : Z) : nat * Z :=
  let '(z, s) := next_u64 state in (Z.to_nat (z mod Z.of_nat len), s).

(** ** Plans *)

Record ArmedFault : Type := mkArmed {
  af_op : OpKind;
  af_class : FaultClass;
  af_amount : Z
}.

Record FaultPlan : Type := mkFaultPlan {
  fp_seed : Z;
  fp_queue : list ArmedFault
}.

Definition FaultPlan_new : FaultPlan := mkFaultPlan 0 [].

(** The operations a class can be armed for. *)
Definition fault_candidates (c : FaultClass) : list OpKind := List.filter (applies_to c) OpKind_ALL.

(** One round of [from_seed]. Both indices are in range (see below). *)
Definition draw_fault (s : Z) : ArmedFault * Z :=
  let '(i, s) := below (length FaultClass_ALL) s in
  let class := nth i FaultClass_ALL FLatency in
  let candidates := fault_candidates class in
  let '(j, s) := below (length candidates) s in
  let op := nth j candidates KGet in
  let '(amount, s) :=
    match class with
    | FLatency => let '(n, s) := below 50 s in (1 + Z.of_nat n, s)
    | FFailureAfterN => let '(n, s) := below 3 s in (Z.of_nat n, s)
    | _ => (0, s)
    end in
  (mkArmed op class amount, s).

Fixpoint draw_faults (len : nat) (s : Z) : list ArmedFault :=
  match len with
  | O => []
  | S len => let '(f, s) := draw_fault s in f :: draw_faults len s
  end.

Definition from_seed (seed : Z) (len : nat) : FaultPlan :=
  mkFaultPlan seed (draw_faults len (rng_new seed)).

Definition push_armed (f : ArmedFault) (p : FaultPlan) : FaultPlan :=
  mkFaultPlan (fp_seed p) (fp_queue p ++ [f]).

Definition push (op : OpKind) (c : FaultClass) : FaultPlan -> FaultPlan := push_armed (mkArmed op c 0).

Definition push_latency_ms (op : OpKind) (ms : Z) : FaultPlan -> FaultPlan :=
  push_armed (mkArmed op FLatency ms).

Definition push_after_n (op : OpKind) (c : FaultClass) (n : Z) : FaultPlan -> FaultPlan :=
  push_armed (mkArmed op c n).

Definition rearm (f : ArmedFault) (p : FaultPlan) : FaultPlan :=
  mkFaultPlan (fp_seed p) (f :: fp_queue p).

Definition plan_len (p : FaultPlan) : nat := length (fp_queue p).
Definition plan_is_empty (p : FaultPlan) : bool := match fp_queue p with [] => true | _ => false end.

(** [position] and [remove]: the first fault armed for [op], and the rest. *)
Fixpoint take_first (op : OpKind) (queue : list ArmedFault) : option (ArmedFault * list ArmedFault) :=
  match queue with
  | [] => None
  | f :: rest =>
      if bool_decide (af_op f = op) then Some (f, rest)
      else match take_first op rest with
           | Some (g, rest') => Some (g, f :: rest')
           | None => None
           end
  end.

Definition take_for (op : OpKind) (p : FaultPlan) : option ArmedFault * FaultPlan :=
  match take_first op (fp_queue p) with
  | Some (f, rest) => (Some f, mkFaultPlan (fp_seed p) rest)
  | None => (None, p)
  end.

(** ** The ledger *)

Record FaultLedger : Type := mkLedger {
  fl_counts : list Z;
  fl_ops : Z
}.

Definition FaultLedger_new : FaultLedger := mkLedger (replicate 12 0) 0.

Definition fired (l : FaultLedger) (c : FaultClass) : Z := nth (fault_index c) (fl_counts l) 0.

Definition ledger_record (c : FaultClass) (l : FaultLedger) : FaultLedger :=
  mkLedger (<[fault_index c := add64 (fired l c) 1]> (fl_counts l)) (fl_ops l).

Definition observe_op (l : FaultLedger) : FaultLedger := mkLedger (fl_counts l) (add64 (fl_ops l) 1).

Definition never_fired (l : FaultLedger) (armed : list FaultClass) : list string :=
  map FaultClass_as_str (List.filter (fun c => fired l c =? 0) armed).

(** ** The generator never sticks *)

Lemma shiftr_u64 x k : 0 <= k -> u64 x -> u64 (Z.shiftr x k).
Proof.
  intros Hk [H0 Hx]. rewrite Z.shiftr_div_pow2 by done.
  pose proof (Z.pow_pos_nonneg 2 k ltac:(lia) Hk) as Hp. split; [by apply Z.div_pos|].
  eapply Z.le_lt_trans; [|exact Hx]. apply Z.div_le_upper_bound; nia.
Qed.

Lemma lxor_stays_u64 a b : u64 a -> u64 b -> u64 (Z.lxor a b).
Proof. unfold u64, W64. intros. apply lxor_lt_pow2; lia. Qed.

Lemma lxor_shiftr_ne0 x k : 0 < k -> 0 <= x -> x <> 0 -> Z.lxor x (Z.shiftr x k) <> 0.
Proof.
  intros Hk Hx Hne Heq. apply Z.lxor_eq in Heq. rewrite Z.shiftr_div_pow2 in Heq by lia.
  pose proof (proj1 (Z.pow_gt_1 2 k ltac:(lia)) Hk).
  pose proof (Z.div_lt x (2 ^ k) ltac:(lia) ltac:(lia)). lia.
Qed.

(** A word equal to itself shifted left has no bit set. *)
Lemma lxor_shiftl_ne0 x k : 0 < k -> u64 x -> x <> 0 -> Z.lxor x (wrap64 (Z.shiftl x k)) <> 0.
Proof.
  intros Hk Hx Hne Heq. apply Hne. apply Z.lxor_eq in Heq. apply Z.bits_inj'. intros i Hi.
  rewrite Z.bits_0. revert i Hi.
  apply (Zlt_0_ind (fun i => Z.testbit x i = false)). intros i IH Hi.
  destruct (decide (i < 64)) as [Hlt|]; [|apply (testbit_high x 64); [exact Hx|lia]].
  rewrite Heq. unfold wrap64, W64. rewrite Z.mod_pow2_bits_low by lia.
  rewrite Z.shiftl_spec by lia. destruct (decide (k <= i)).
  - apply IH. lia.
  - apply Z.testbit_neg_r. lia.
Qed.

Lemma rng_step_alive s : u64 s -> s <> 0 -> u64 (rng_step s) /\ rng_step s <> 0.
Proof.
  intros Hu Hne. unfold rng_step.
  assert (H1 : u64 (Z.lxor s (Z.shiftr s 12))) by (apply lxor_stays_u64, shiftr_u64; done || lia).
  assert (N1 : Z.lxor s (Z.shiftr s 12) <> 0) by (apply lxor_shiftr_ne0; unfold u64 in *; lia).
  set (x := Z.lxor s (Z.shiftr s 12)) in *.
  assert (H2 : u64 (Z.lxor x (wrap64 (Z.shiftl x 25)))) by (apply lxor_stays_u64, wrap64_u64; done).
  assert (N2 : Z.lxor x (wrap64 (Z.shiftl x 25)) <> 0) by (apply lxor_shiftl_ne0; done || lia).
  set (y := Z.lxor x (wrap64 (Z.shiftl x 25))) in *.
  split; [apply lxor_stays_u64, shiftr_u64; done || lia|].
  apply lxor_shiftr_ne0; unfold u64 in *; lia.
Qed.

Lemma rng_new_alive seed : u64 seed -> u64 (rng_new seed) /\ rng_new seed <> 0.
Proof.
  intros Hu. unfold rng_new. destruct (Z.eqb_spec seed 0); [|done]. split; [by_decision|done].
Qed.

Definition alive (s : Z) : Prop := u64 s /\ s <> 0.

Lemma below_spec len s : (0 < len)%nat -> alive s ->
  (fst (below len s) < len)%nat /\ alive (snd (below len s)).
Proof.
  intros Hlen [Hu Hne]. unfold below. cbn. split; [|by apply rng_step_alive].
  pose proof (Z.mod_pos_bound (mul64 (rng_step s) 2685821657736338717) (Z.of_nat len) ltac:(lia)). lia.
Qed.

(** ** Generated plans *)

(** A fault its operation can have, with an amount in the range of its class. *)
Definition armed_ok (f : ArmedFault) : Prop :=
  applies_to (af_class f) (af_op f) = true /\
  match af_class f with
  | FLatency => 1 <= af_amount f <= 50
  | FFailureAfterN => 0 <= af_amount f <= 2
  | _ => af_amount f = 0
  end.

Lemma candidates_apply c j :
  (j < length (fault_candidates c))%nat -> applies_to c (nth j (fault_candidates c) KGet) = true.
Proof.
  intros Hj. assert (Hin : In (nth j (fault_candidates c) KGet) (fault_candidates c)) by by apply nth_In.
  by apply filter_In in Hin as [_ Hin].
Qed.

Lemma draw_fault_ok s : alive s -> armed_ok (fst (draw_fault s)) /\ alive (snd (draw_fault s)).
Proof.
  intros Hs. unfold draw_fault.
  destruct (below_spec (length FaultClass_ALL) s ltac:(cbn; lia) Hs) as [_ H1].
  destruct (below (length FaultClass_ALL) s) as [i s1]. cbn [fst snd] in H1.
  generalize (nth i FaultClass_ALL FLatency) as c. intros c.
  assert (Hc : (0 < length (fault_candidates c))%nat) by (destruct c; cbn; lia).
  destruct (below_spec _ s1 Hc H1) as [Hj H2].
  destruct (below (length (fault_candidates c)) s1) as [j s2]. cbn [fst snd] in Hj, H2.
  pose proof (candidates_apply c j Hj) as Happ.
  destruct (below_spec 50 s2 ltac:(lia) H2) as [Hl H3].
  destruct (below_spec 3 s2 ltac:(lia) H2) as [Hn H4].
  destruct (below 50 s2) as [l s3], (below 3 s2) as [n s4]. cbn [fst snd] in *.
  unfold armed_ok. destruct c; cbn [fst snd af_class af_op af_amount]; split_and!; try done; lia.
Qed.

(** C38. A generated plan asks only for faults that can happen. Whatever the
    seed, the plan has the length asked for; every fault in it applies to the
    operation it is armed for, and stalls, or lets pass, no more than the
    generator may draw; and the generator behind it never reaches the state it
    could not leave, so a plan can be of any length. *)
Theorem generated_plans_are_well_formed (seed : Z) (len : nat) (Hseed : u64 seed) :
  plan_len (from_seed seed len) = len /\ fp_seed (from_seed seed len) = seed /\
  Forall armed_ok (fp_queue (from_seed seed len)) /\
  (alive (rng_new seed) /\ forall s, alive s -> alive (snd (next_u64 s))).
Proof.
  assert (Hnew : alive (rng_new seed)) by by apply rng_new_alive.
  unfold plan_len, from_seed. cbn [fp_queue fp_seed]. split_and!; try done.
  - generalize (rng_new seed). induction len as [|len IH]; intros s; cbn [draw_faults]; [done|].
    destruct (draw_fault s). cbn [length]. by rewrite IH.
  - revert Hnew. generalize (rng_new seed). induction len as [|len IH]; intros s Hs; cbn [draw_faults]; [constructor|].
    destruct (draw_fault_ok s Hs) as [Hf Hs']. destruct (draw_fault s). cbn [fst snd] in *.
    constructor; auto.
  - intros s [Hu Hne]. by apply rng_step_alive.
Qed.

Lemma generated_plans_are_well_formed_witness :
  Forall armed_ok (fp_queue (from_seed 42 20)).
Proof. apply (generated_plans_are_well_formed 42 20). by_decision. Defined.

(** ** Taking from a plan *)

Lemma take_first_spec op queue :
  match take_first op queue with
  | Some (f, rest) => af_op f = op /\ exists pre post,
      queue = pre ++ f :: post /\ rest = pre ++ post /\ Forall (fun g => af_op g <> op) pre
  | None => Forall (fun g => af_op g <> op) queue
  end.
Proof.
  induction queue as [|g queue IH]; cbn; [constructor|]. case_bool_decide as Hg.
  - split; [done|]. by exists [], queue.
  - destruct (take_first op queue) as [[f rest]|].
    + destruct IH as (Hf & pre & post & -> & -> & Hpre). split; [done|]. exists (g :: pre), post.
      split_and!; [done|done|by constructor].
    + by constructor.
Qed.

Lemma take_for_head op c n p :
  take_for op (rearm (mkArmed op c n) p) = (Some (mkArmed op c n), p).
Proof. unfold take_for, rearm. cbn. rewrite bool_decide_true by done. by destruct p. Qed.
