(* ===== verification/Harness.v ===== *)
(** * The tiers of the test harness

    Models the wrapping tiers of [testkit/src/lib.rs]: one that injects the
    faults of a plan, one that counts, one that reports a chosen state, one
    that stalls and one that misreports a write. An operation that may never
    complete settles after a delay or does not settle. *)

From Stdlib Require Import String.
From S2P Require Import Prelude Entry Integrity Tier Capability TierTrait Fault.
Local Open Scope Z_scope.

(** What becomes of an awaited operation: it settles after so many
    nanoseconds, or never. *)
Inductive outcome (A : Type) : Type :=
| Settles (after : Duration) (a : A)
| Never.
Arguments Settles {A} after a.
Arguments Never {A}.

Definition MILLI : Z := 1000000.

Section harness.
Context {V T : Type} `{CacheTier V T}.

(** ** The fault-injecting tier *)

(** [withholds_atomicity] is stored and never read. *)
Record FaultyTier : Type := mkFaulty {
  fy_inner : T;
  fy_plan : FaultPlan;
  fy_ledger : FaultLedger;
  fy_remaining_ok : Z;
  fy_withholds_atomicity : bool;
  fy_window_armed : bool;
  fy_corrupt_next : bool;
  fy_corruptor : option (V -> V)
}.

Definition faulty_with_plan (inner : T) (p : FaultPlan) : FaultyTier :=
  mkFaulty inner p FaultLedger_new 0 true false false None.

Definition faulty_wrap (inner : T) : FaultyTier := faulty_with_plan inner FaultPlan_new.

Definition faulty_with_corruptor (inner : T) (p : FaultPlan) (corruptor : V -> V) : FaultyTier :=
  mkFaulty inner p FaultLedger_new 0 true false false (Some corruptor).

Definition faulty_arm (p : FaultPlan) (self : FaultyTier) : FaultyTier :=
  mkFaulty (fy_inner self) p (fy_ledger self) 0 (fy_withholds_atomicity self) false
    (fy_corrupt_next self) (fy_corruptor self).

Definition corrupt_next_write (self : FaultyTier) : FaultyTier :=
  mkFaulty (fy_inner self) (fy_plan self) (fy_ledger self) (fy_remaining_ok self)
    (fy_withholds_atomicity self) (fy_window_armed self) true (fy_corruptor self).

(** What [next_fault] touches. *)
Definition fy_update (p : FaultPlan) (l : FaultLedger) (remaining : Z) (window : bool)
    (self : FaultyTier) : FaultyTier :=
  mkFaulty (fy_inner self) p l remaining (fy_withholds_atomicity self) window
    (fy_corrupt_next self) (fy_corruptor self).

Definition put_inner (inner : T) (self : FaultyTier) : FaultyTier :=
  mkFaulty inner (fy_plan self) (fy_ledger self) (fy_remaining_ok self) (fy_withholds_atomicity self)
    (fy_window_armed self) (fy_corrupt_next self) (fy_corruptor self).

Definition next_fault (op : OpKind) (self : FaultyTier) : option (FaultClass * Z) * FaultyTier :=
  let l := observe_op (fy_ledger self) in
  let '(armed, p) := take_for op (fy_plan self) in
  match armed with
  | None => (None, fy_update p l (fy_remaining_ok self) (fy_window_armed self) self)
  | Some f =>
      let fired window :=
        (Some (af_class f, af_amount f),
         fy_update p (ledger_record (af_class f) l) (fy_remaining_ok self) window self) in
      if (0 <? af_amount f) && is_scheduled_failure (af_class f) then
        if negb (fy_window_armed self) then
          (None, fy_update (rearm f p) l (sat_sub64 (af_amount f) 1) true self)
        else if fy_remaining_ok self =? 0 then fired true
        else (None, fy_update (rearm f p) l (fy_remaining_ok self - 1) true self)
      else fired (fy_window_armed self)
  end.

Definition error_for (c : FaultClass) : CacheError :=
  match c with
  | FTimeout | FLatency => Timeout
  | FReadFailure | FDisconnect | FWriteFailure | FMetadataFailure => TierUnavailable
  | FCapacityExhaustion => CapacityExhausted
  | FCorruption => Corrupted
  | FCancellation => Cancelled
  | FHang | FFailureAfterN => TierUnavailable
  | FPartialWrite => WriteIndeterminate
  end.

(** Run an operation of the wrapped tier after [delay]. *)
Definition on_inner {A} (now : Instant) (delay : Duration) (op : Instant -> T -> res A * T)
    (self : FaultyTier) : outcome (res A) * FaultyTier :=
  let '(r, inner) := op (now + delay) (fy_inner self) in (Settles delay r, put_inner inner self).

Definition faulty_get (now : Instant) (key : bytes) (self : FaultyTier) :
    outcome (res (option V)) * FaultyTier :=
  let '(fault, self) := next_fault KGet self in
  match fault with
  | Some (FHang, _) => (Never, self)
  | Some (FLatency, _) => on_inner now (5 * MILLI) (fun t => tier_get t key) self
  | Some (c, _) => (Settles 0 (Err (error_for c)), self)
  | None => on_inner now 0 (fun t => tier_get t key) self
  end.

Definition faulty_set (now : Instant) (key : bytes) (value : V) (ttl : option Duration)
    (self : FaultyTier) : outcome (res unit) * FaultyTier :=
  let '(fault, self) := next_fault KSet self in
  match fault with
  | Some (FHang, _) => (Never, self)
  | Some (FLatency, amount) =>
      on_inner now (Z.max amount 1 * MILLI) (fun t => tier_set t key value ttl) self
  | Some (FPartialWrite, _) =>
      match tier_set now key value ttl (fy_inner self) with
      | (Ok _, inner) => (Settles 0 (Err (error_for FPartialWrite)), put_inner inner self)
      | (Err e, inner) => (Settles 0 (Err e), put_inner inner self)
      end
  | Some (c, _) => (Settles 0 (Err (error_for c)), self)
  | None =>
      if fy_corrupt_next self then
        let self := mkFaulty (fy_inner self) (fy_plan self) (fy_ledger self) (fy_remaining_ok self)
                      (fy_withholds_atomicity self) (fy_window_armed self) false (fy_corruptor self) in
        match fy_corruptor self with
        | None => on_inner now 0 (fun t => tier_set t key value ttl) self
        | Some corruptor =>
            let self := fy_update (fy_plan self) (ledger_record FCorruption (fy_ledger self))
                          (fy_remaining_ok self) (fy_window_armed self) self in
            on_inner now 0 (fun t => tier_set t key (corruptor value) ttl) self
        end
      else on_inner now 0 (fun t => tier_set t key value ttl) self
  end.

Definition faulty_remove (now : Instant) (key : bytes) (self : FaultyTier) :
    outcome (res unit) * FaultyTier :=
  let '(fault, self) := next_fault KRemove self in
  match fault with
  | Some (FHang, _) => (Never, self)
  | Some (c, _) => (Settles 0 (Err (error_for c)), self)
  | None => on_inner now 0 (fun t => tier_remove t key) self
  end.

Definition faulty_contains (now : Instant) (key : bytes) (self : FaultyTier) :
    outcome (res bool) * FaultyTier :=
  let '(fault, self) := next_fault KContains self in
  match fault with
  | Some (FHang, _) => (Never, self)
  | Some (c, _) => (Settles 0 (Err (error_for c)), self)
  | None => on_inner now 0 (fun t => tier_contains t key) self
  end.

Definition faulty_capability (self : FaultyTier) : TierCapability :=
  let cap := capability (fy_inner self) in
  if plan_is_empty (fy_plan self) then
    mkCapability (cap_backend cap) (flags_without (cap_flags cap) ATOMIC_WRITE_OR_ERROR)
      (cap_state cap) (cap_durability cap)
  else cap.

Definition faulty_health (wall : Z) (self : FaultyTier) : TierHealth :=
  if 0 <? fl_ops (fy_ledger self) then TierHealth_default else health wall (fy_inner self).

(** What a caller that waits until [deadline] makes of an operation. *)
Definition settled {A} (deadline : Duration) (o : outcome (res A)) : res A :=
  match o with
  | Settles after r => if after <? deadline then r else Err Timeout
  | Never => Err Timeout
  end.

(** The fault-injecting tier behind the trait, as the manager's bounded calls
    see it. *)
Definition faulty_as_tier (deadline : Duration) : CacheTier V FaultyTier := {|
  tier_name := fun self => ("faulty-" ++ tier_name (fy_inner self))%string;
  backend := fun _ => TestBackend;
  capability := faulty_capability;
  eviction_candidate := fun _ => default_eviction_candidate;
  capacity := default_capacity;
  remove_if_address := default_remove_if_address;
  tier_get := fun now key self => let '(o, self) := faulty_get now key self in (settled deadline o, self);
  tier_set := fun now key value ttl self =>
    let '(o, self) := faulty_set now key value ttl self in (settled deadline o, self);
  tier_remove := fun now key self => let '(o, self) := faulty_remove now key self in (settled deadline o, self);
  tier_contains := fun now key self =>
    let '(o, self) := faulty_contains now key self in (settled deadline o, self);
  health := faulty_health;
  tier_id := fun self => tier_id (fy_inner self)
|}.

(** ** The other wrappers *)

Record Tally : Type := mkTally {
  ta_reads : Z;
  ta_writes : Z;
  ta_removes : Z;
  ta_contains : Z
}.

Definition Tally_default : Tally := mkTally 0 0 0 0.
Definition tally_total (t : Tally) : Z :=
  add64 (add64 (add64 (ta_reads t) (ta_writes t)) (ta_removes t)) (ta_contains t).

Record RecordingTier : Type := mkRecording {
  rt_inner : T;
  rt_tally : Tally
}.

Definition recording_wrap (inner : T) : RecordingTier := mkRecording inner Tally_default.

(** Count, then delegate. *)
Definition recorded {A} (count : Tally -> Tally) (op : T -> res A * T) (self : RecordingTier) :
    res A * RecordingTier :=
  let '(r, inner) := op (rt_inner self) in (r, mkRecording inner (count (rt_tally self))).

#[export] Instance CacheTier_recording : CacheTier V RecordingTier := {|
  tier_name := fun self => tier_name (rt_inner self);
  backend := fun self => backend (rt_inner self);
  capability := fun self => default_capability (backend (rt_inner self));
  eviction_candidate := fun _ => default_eviction_candidate;
  capacity := default_capacity;
  remove_if_address := default_remove_if_address;
  tier_get := fun now key =>
    recorded (fun t => mkTally (add64 (ta_reads t) 1) (ta_writes t) (ta_removes t) (ta_contains t))
      (tier_get now key);
  tier_set := fun now key value ttl =>
    recorded (fun t => mkTally (ta_reads t) (add64 (ta_writes t) 1) (ta_removes t) (ta_contains t))
      (tier_set now key value ttl);
  tier_remove := fun now key =>
    recorded (fun t => mkTally (ta_reads t) (ta_writes t) (add64 (ta_removes t) 1) (ta_contains t))
      (tier_remove now key);
  tier_contains := fun now key =>
    recorded (fun t => mkTally (ta_reads t) (ta_writes t) (ta_removes t) (add64 (ta_contains t) 1))
      (tier_contains now key);
  health := fun wall self => health wall (rt_inner self);
  tier_id := fun self => tier_id (rt_inner self)
|}.

Record StatedTier : Type := mkStated {
  sd_inner : T;
  sd_state : OperationalState
}.

Definition stated {A} (op : T -> res A * T) (self : StatedTier) : res A * StatedTier :=
  let '(r, inner) := op (sd_inner self) in (r, mkStated inner (sd_state self)).

#[export] Instance CacheTier_stated : CacheTier V StatedTier := {|
  tier_name := fun self => ("stated-" ++ tier_name (sd_inner self))%string;
  backend := fun self => backend (sd_inner self);
  capability := fun self =>
    let cap := capability (sd_inner self) in
    mkCapability (cap_backend cap) (cap_flags cap) (sd_state self) (cap_durability cap);
  eviction_candidate := fun _ => default_eviction_candidate;
  capacity := default_capacity;
  remove_if_address := default_remove_if_address;
  tier_get := fun now key => stated (tier_get now key);
  tier_set := fun now key value ttl => stated (tier_set now key value ttl);
  tier_remove := fun now key => stated (tier_remove now key);
  tier_contains := fun now key => stated (tier_contains now key);
  health := fun wall self => health wall (sd_inner self);
  tier_id := fun self => tier_id (sd_inner self)
|}.

Record MisreportingTier : Type := mkMisreporting {
  mr_inner : T;
  mr_next : bool;
  mr_stored : Z
}.

Definition misreport_next (self : MisreportingTier) : MisreportingTier :=
  mkMisreporting (mr_inner self) true (mr_stored self).

Definition misreporting {A} (op : T -> res A * T) (self : MisreportingTier) : res A * MisreportingTier :=
  let '(r, inner) := op (mr_inner self) in (r, mkMisreporting inner (mr_next self) (mr_stored self)).

Definition misreporting_set (now : Instant) (key : bytes) (value : V) (ttl : option Duration)
    (self : MisreportingTier) : res unit * MisreportingTier :=
  if mr_next self then
    match tier_set now key value ttl (mr_inner self) with
    | (Ok _, inner) => (Err TierUnavailable, mkMisreporting inner false (add64 (mr_stored self) 1))
    | (Err e, inner) => (Err e, mkMisreporting inner false (mr_stored self))
    end
  else misreporting (tier_set now key value ttl) self.

#[export] Instance CacheTier_misreporting : CacheTier V MisreportingTier := {|
  tier_name := fun self => ("misreporting-" ++ tier_name (mr_inner self))%string;
  backend := fun _ => TestBackend;
  capability := fun _ => default_capability TestBackend;
  eviction_candidate := fun _ => default_eviction_candidate;
  capacity := default_capacity;
  remove_if_address := default_remove_if_address;
  tier_get := fun now key => misreporting (tier_get now key);
  tier_set := misreporting_set;
  tier_remove := fun now key => misreporting (tier_remove now key);
  tier_contains := fun now key => misreporting (tier_contains now key);
  health := fun wall self => health wall (mr_inner self);
  tier_id := fun self => tier_id (mr_inner self)
|}.

(** The stalling tier: its wrapped tier is asked for its rung only. *)
Record HangingTier : Type := mkHanging {
  hg_inner : T;
  hg_reached : Z
}.

Definition hang {A} (self : HangingTier) : outcome (res A) * HangingTier :=
  (Never, mkHanging (hg_inner self) (add64 (hg_reached self) 1)).
End harness.
Arguments FaultyTier V T : clear implicits.
Arguments RecordingTier T : clear implicits.
Arguments StatedTier T : clear implicits.
Arguments MisreportingTier T : clear implicits.
Arguments HangingTier T : clear implicits.

(** ** A schedule of successes and failures *)

Section schedule.
Context {V T : Type} `{CacheTier V T}.
Implicit Types (self : FaultyTier V T).

(** What [n] operations of a kind meet, in order. *)
Fixpoint faults_met (n : nat) (op : OpKind) self : list (option (FaultClass * Z)) * FaultyTier V T :=
  match n with
  | O => ([], self)
  | S n => let '(f, self) := next_fault op self in
           let '(fs, self) := faults_met n op self in (f :: fs, self)
  end.

(** How often a class has fired. *)
Definition times_fired (c : FaultClass) self : Z := fired (fy_ledger self) c.

(** The state in which [left] more operations pass before [c] is delivered. *)
Definition window_open (op : OpKind) (c : FaultClass) (n left : Z) (rest : list ArmedFault)
    (count : Z) self : Prop :=
  fp_queue (fy_plan self) = mkArmed op c n :: rest /\ fy_window_armed self = true /\
  fy_remaining_ok self = left /\ times_fired c self = count /\
  length (fl_counts (fy_ledger self)) = 12%nat.

Lemma fired_record c l :
  length (fl_counts l) = 12%nat -> fired (ledger_record c l) c = add64 (fired l c) 1.
Proof.
  intros Hl. unfold ledger_record, fired at 1. cbn [fl_counts].
  rewrite nth_lookup, list_lookup_insert_eq; [done|]. rewrite Hl. destruct c; cbn; lia.
Qed.

Lemma next_fault_taken op c n rest self :
  fp_queue (fy_plan self) = mkArmed op c n :: rest ->
  next_fault op self =
  let l := observe_op (fy_ledger self) in
  let p := mkFaultPlan (fp_seed (fy_plan self)) rest in
  let fired window := (Some (c, n), fy_update p (ledger_record c l) (fy_remaining_ok self) window self) in
  if (0 <? n) && is_scheduled_failure c then
    if negb (fy_window_armed self) then
      (None, fy_update (rearm (mkArmed op c n) p) l (sat_sub64 n 1) true self)
    else if fy_remaining_ok self =? 0 then fired true
    else (None, fy_update (rearm (mkArmed op c n) p) l (fy_remaining_ok self - 1) true self)
  else fired (fy_window_armed self).
Proof. intros Hq. unfold next_fault, take_for. rewrite Hq. cbn. by rewrite bool_decide_true. Qed.

Lemma window_passes op c n rest count (left : nat) self :
  0 < n -> is_scheduled_failure c = true ->
  window_open op c n (Z.of_nat left) rest count self ->
  fst (faults_met left op self) = replicate left None /\
  window_open op c n 0 rest count (snd (faults_met left op self)).
Proof.
  intros Hn Hc. revert self. induction left as [|left IH]; intros self Hw; [done|].
  pose proof Hw as (Hq & Ha & Hr & Hf & Hl). cbn [faults_met].
  rewrite (next_fault_taken _ _ _ _ _ Hq). cbn zeta. rewrite Hc, Ha, Hr.
  rewrite (proj2 (Z.ltb_lt 0 n) Hn). cbn [andb negb].
  destruct (Z.eqb_spec (Z.of_nat (S left)) 0) as [|_]; [lia|].
  set (self' := fy_update _ _ _ _ self).
  assert (Hw' : window_open op c n (Z.of_nat left) rest count self').
  { unfold window_open, self'. cbn. split_and!; [done|done|lia|done|done]. }
  destruct (IH self' Hw') as [Hfs Hw0]. destruct (faults_met left op self') as [fs self'']. cbn in *.
  by rewrite Hfs.
Qed.

(** A freshly armed schedule passes its [n] operations, the first of which
    opens the window. *)
Lemma schedule_passes op c rest (n : nat) self :
  (0 < n)%nat -> is_scheduled_failure c = true ->
  fp_queue (fy_plan self) = mkArmed op c (Z.of_nat n) :: rest -> fy_window_armed self = false ->
  length (fl_counts (fy_ledger self)) = 12%nat ->
  fst (faults_met n op self) = replicate n None /\
  window_open op c (Z.of_nat n) 0 rest (times_fired c self) (snd (faults_met n op self)).
Proof.
  intros Hn Hc Hq Ha Hl. destruct n as [|n]; [lia|]. cbn [faults_met].
  rewrite (next_fault_taken _ _ _ _ _ Hq). cbn zeta.
  rewrite Hc, Ha, (proj2 (Z.ltb_lt 0 (Z.of_nat (S n)))) by lia. cbn [andb negb].
  set (self' := fy_update _ _ _ _ _).
  assert (Hw : window_open op c (Z.of_nat (S n)) (Z.of_nat n) rest (times_fired c self) self').
  { unfold window_open, self'. cbn [fy_plan fy_update fy_window_armed fy_remaining_ok fy_ledger].
    split_and!; [done|done|unfold sat_sub64; lia|done|done]. }
  destruct (window_passes op c (Z.of_nat (S n)) rest _ n self' ltac:(lia) Hc Hw) as [Hfs Hw0].
  destruct (faults_met n op self') as [fs after]. cbn [fst snd] in *. by rewrite Hfs.
Qed.

(** Once the window is used up the failure is delivered. *)
Lemma window_fires op c n rest count self :
  0 < n -> is_scheduled_failure c = true -> window_open op c n 0 rest count self ->
  fst (next_fault op self) = Some (c, n) /\
  fp_queue (fy_plan (snd (next_fault op self))) = rest /\
  fy_window_armed (snd (next_fault op self)) = true /\
  fy_remaining_ok (snd (next_fault op self)) = 0 /\
  times_fired c (snd (next_fault op self)) = add64 count 1.
Proof.
  intros Hn Hc (Hq & Ha & Hr & Hf & Hl). rewrite (next_fault_taken _ _ _ _ _ Hq). cbn zeta.
  rewrite Hc, Ha, Hr, (proj2 (Z.ltb_lt 0 n) Hn). cbn [andb negb Z.eqb fst snd].
  split_and!; try done. unfold times_fired in *. cbn [fy_ledger fy_update].
  rewrite fired_record by done. unfold observe_op, fired in *. cbn [fl_counts]. by rewrite Hf.
Qed.

(** "Succeed [n] times, then fail" means exactly that. When the only fault
    of a freshly armed plan is a failure scheduled after [n] operations, the
    next [n] operations of that kind meet no fault and the ledger records
    none, the one after them meets the failure, which the ledger then counts
    once, and the plan is used up. *)
Theorem scheduled_fault_fires_after_exactly_n (inner : T) (op : OpKind) (c : FaultClass) (n : nat)
    (Hn : (0 < n)%nat) (Hc : is_scheduled_failure c = true) :
  let self := faulty_with_plan inner (push_after_n op c (Z.of_nat n) FaultPlan_new) in
  let after := snd (faults_met n op self) in
  fst (faults_met n op self) = replicate n None /\ times_fired c after = 0 /\
  fst (next_fault op after) = Some (c, Z.of_nat n) /\
  times_fired c (snd (next_fault op after)) = 1 /\
  fp_queue (fy_plan (snd (next_fault op after))) = [].
Proof.
  intros self after.
  destruct (schedule_passes op c [] n self Hn Hc) as [Hfs Hw]; [done..|].
  destruct (window_fires op c (Z.of_nat n) [] _ after ltac:(lia) Hc Hw) as (Hfire & Hq & _ & _ & Hcount).
  assert (H0 : times_fired c self = 0) by by destruct c.
  split_and!; try done; [|by rewrite Hcount, H0].
  destruct Hw as (_ & _ & _ & Hcnt & _). by rewrite <- H0.
Qed.

(** The window is never closed: a second scheduled failure of the same plan is
    delivered by the very next operation, however many it was to let pass. *)
Theorem second_window_never_opens (inner : T) (op : OpKind) (c c' : FaultClass) (n n' : nat)
    (Hn : (0 < n)%nat) (Hc : is_scheduled_failure c = true) :
  let self := faulty_with_plan inner
    (push_after_n op c' (Z.of_nat n') (push_after_n op c (Z.of_nat n) FaultPlan_new)) in
  let after := snd (next_fault op (snd (faults_met n op self))) in
  fst (next_fault op after) = Some (c', Z.of_nat n').
Proof.
  intros self after.
  destruct (schedule_passes op c [mkArmed op c' (Z.of_nat n')] n self Hn Hc) as [_ Hw]; [done..|].
  destruct (window_fires op c (Z.of_nat n) [mkArmed op c' (Z.of_nat n')] _ (snd (faults_met n op self))
              ltac:(lia) Hc Hw) as (_ & Hq & Ha & Hr & _).
  fold after in Hq, Ha, Hr. rewrite (next_fault_taken _ _ _ _ _ Hq). cbn zeta.
  rewrite Ha, Hr. by destruct (_ && _).
Qed.

(** The guarantee is withdrawn when nothing is armed and kept when something
    is: the reverse of what the harness says it does. *)
Theorem armed_plan_keeps_the_atomicity_flag self :
  (plan_is_empty (fy_plan self) = false -> faulty_capability self = capability (fy_inner self)) /\
  (plan_is_empty (fy_plan self) = true ->
   flags_contains (cap_flags (faulty_capability self)) ATOMIC_WRITE_OR_ERROR = false).
Proof.
  unfold faulty_capability. split; intros ->; [done|]. cbn [cap_flags].
  unfold flags_contains, flags_without. rewrite <- Z.land_assoc.
  replace (Z.land (Z.lxor ATOMIC_WRITE_OR_ERROR U16_MAX) ATOMIC_WRITE_OR_ERROR) with 0 by reflexivity.
  by rewrite Z.land_0_r.
Qed.
End schedule.

Lemma scheduled_fault_fires_after_exactly_n_witness :
  let self := faulty_with_plan (V := bytes) tt (push_after_n KSet FWriteFailure 2 FaultPlan_new) in
  fst (faults_met 2 KSet self) = [None; None] /\
  fst (next_fault KSet (snd (faults_met 2 KSet self))) = Some (FWriteFailure, 2).
Proof.
  pose proof (scheduled_fault_fires_after_exactly_n (V := bytes) tt KSet FWriteFailure 2
    ltac:(lia) eq_refl) as H.
  split; [exact (proj1 H)|exact (proj1 (proj2 (proj2 H)))].
Defined.
