(* ===== verification/ControlEntry.v ===== *)
(** * One entry of the control plane

    Models [EntryStateAtomic], [ControlEntry], [ControlSnapshot] and
    [PlaneStats] of [src/control/cachelito.rs]. The atomics of an entry are
    plain fields: every access in the crate happens under the shard's lock.
    [ce_notified] counts the [notify_waiters] calls, which is all a waiter can
    observe of the [Notify]. *)

From S2P Require Import Prelude Entry Integrity Tier.

(** ** [EntryStateAtomic] *)

(** [EntryStateAtomic::from(state) as u8] *)
Definition state_as_u8 (s : EntryState) : Z :=
  match s with
  | Absent => 0 | Ready => 1 | Stale => 2 | InFlight => 3 | Failed => 4 | Prepared => 5
  end.

(** [EntryStateAtomic::try_from] followed by [EntryState::from] *)
Definition state_try_from (v : Z) : option EntryState :=
  if (v =? 0)%Z then Some Absent
  else if (v =? 1)%Z then Some Ready
  else if (v =? 2)%Z then Some Stale
  else if (v =? 3)%Z then Some InFlight
  else if (v =? 4)%Z then Some Failed
  else if (v =? 5)%Z then Some Prepared
  else None.

(** ** [ControlEntry] *)

Record ControlEntry : Type := mkEntry {
  ce_state : Z;
  ce_generation : Z;
  ce_tier : Z;
  ce_population_owner : bool;
  ce_population_timestamp : Z;
  ce_expiration_nanos : Z;
  ce_last_error : Z;
  ce_intent_present : bool;
  ce_intent_generation : Z;
  ce_intent_kind : Z;
  ce_intent_tier : Z;
  ce_intent_since_nanos : Z;
  ce_intent_prev_state : Z;
  ce_address : KeyAddress;
  ce_notified : nat
}.

(** *** Stores into one field *)

Definition put_state (v : Z) (e : ControlEntry) : ControlEntry :=
  mkEntry v (ce_generation e) (ce_tier e) (ce_population_owner e) (ce_population_timestamp e)
    (ce_expiration_nanos e) (ce_last_error e) (ce_intent_present e) (ce_intent_generation e)
    (ce_intent_kind e) (ce_intent_tier e) (ce_intent_since_nanos e) (ce_intent_prev_state e)
    (ce_address e) (ce_notified e).

Definition put_generation (v : Z) (e : ControlEntry) : ControlEntry :=
  mkEntry (ce_state e) v (ce_tier e) (ce_population_owner e) (ce_population_timestamp e)
    (ce_expiration_nanos e) (ce_last_error e) (ce_intent_present e) (ce_intent_generation e)
    (ce_intent_kind e) (ce_intent_tier e) (ce_intent_since_nanos e) (ce_intent_prev_state e)
    (ce_address e) (ce_notified e).

Definition put_tier (v : Z) (e : ControlEntry) : ControlEntry :=
  mkEntry (ce_state e) (ce_generation e) v (ce_population_owner e) (ce_population_timestamp e)
    (ce_expiration_nanos e) (ce_last_error e) (ce_intent_present e) (ce_intent_generation e)
    (ce_intent_kind e) (ce_intent_tier e) (ce_intent_since_nanos e) (ce_intent_prev_state e)
    (ce_address e) (ce_notified e).

Definition put_owner (v : bool) (e : ControlEntry) : ControlEntry :=
  mkEntry (ce_state e) (ce_generation e) (ce_tier e) v (ce_population_timestamp e)
    (ce_expiration_nanos e) (ce_last_error e) (ce_intent_present e) (ce_intent_generation e)
    (ce_intent_kind e) (ce_intent_tier e) (ce_intent_since_nanos e) (ce_intent_prev_state e)
    (ce_address e) (ce_notified e).

Definition put_timestamp (v : Z) (e : ControlEntry) : ControlEntry :=
  mkEntry (ce_state e) (ce_generation e) (ce_tier e) (ce_population_owner e) v
    (ce_expiration_nanos e) (ce_last_error e) (ce_intent_present e) (ce_intent_generation e)
    (ce_intent_kind e) (ce_intent_tier e) (ce_intent_since_nanos e) (ce_intent_prev_state e)
    (ce_address e) (ce_notified e).

Definition put_expiration (v : Z) (e : ControlEntry) : ControlEntry :=
  mkEntry (ce_state e) (ce_generation e) (ce_tier e) (ce_population_owner e)
    (ce_population_timestamp e) v (ce_last_error e) (ce_intent_present e)
    (ce_intent_generation e) (ce_intent_kind e) (ce_intent_tier e) (ce_intent_since_nanos e)
    (ce_intent_prev_state e) (ce_address e) (ce_notified e).

Definition put_error (v : Z) (e : ControlEntry) : ControlEntry :=
  mkEntry (ce_state e) (ce_generation e) (ce_tier e) (ce_population_owner e)
    (ce_population_timestamp e) (ce_expiration_nanos e) v (ce_intent_present e)
    (ce_intent_generation e) (ce_intent_kind e) (ce_intent_tier e) (ce_intent_since_nanos e)
    (ce_intent_prev_state e) (ce_address e) (ce_notified e).

Definition put_prev_state (v : Z) (e : ControlEntry) : ControlEntry :=
  mkEntry (ce_state e) (ce_generation e) (ce_tier e) (ce_population_owner e)
    (ce_population_timestamp e) (ce_expiration_nanos e) (ce_last_error e) (ce_intent_present e)
    (ce_intent_generation e) (ce_intent_kind e) (ce_intent_tier e) (ce_intent_since_nanos e) v
    (ce_address e) (ce_notified e).

Definition put_notified (v : nat) (e : ControlEntry) : ControlEntry :=
  mkEntry (ce_state e) (ce_generation e) (ce_tier e) (ce_population_owner e)
    (ce_population_timestamp e) (ce_expiration_nanos e) (ce_last_error e) (ce_intent_present e)
    (ce_intent_generation e) (ce_intent_kind e) (ce_intent_tier e) (ce_intent_since_nanos e)
    (ce_intent_prev_state e) (ce_address e) v.

Definition put_intent (present : bool) (generation kind tier since : Z) (e : ControlEntry) : ControlEntry :=
  mkEntry (ce_state e) (ce_generation e) (ce_tier e) (ce_population_owner e)
    (ce_population_timestamp e) (ce_expiration_nanos e) (ce_last_error e) present generation
    kind tier since (ce_intent_prev_state e) (ce_address e) (ce_notified e).


(** *** The methods *)

Definition ControlEntry_new (address : KeyAddress) : ControlEntry :=
  mkEntry (state_as_u8 Absent) 0 (as_u8 L0) false 0 0 0 false 0 0 0 0 (state_as_u8 Absent)
    address 0.

Definition state (e : ControlEntry) : EntryState :=
  default Absent (state_try_from (ce_state e)).

Definition set_state (s : EntryState) (e : ControlEntry) : ControlEntry :=
  put_state (state_as_u8 s) e.

Definition generation (e : ControlEntry) : Generation := ce_generation e.

Definition set_generation (g : Generation) (e : ControlEntry) : ControlEntry :=
  put_generation g e.

(** [fetch_add(1)], which wraps; the new generation. *)
Definition increment_generation (e : ControlEntry) : ControlEntry :=
  put_generation (add64 (ce_generation e) 1) e.

Definition tier (e : ControlEntry) : TierId :=
  default L0 (from_usize (Z.to_nat (ce_tier e))).

Definition set_tier (t : TierId) (e : ControlEntry) : ControlEntry :=
  put_tier (Z.of_nat (as_usize t)) e.

Definition is_population_owner (e : ControlEntry) : bool := ce_population_owner e.

Definition set_population_owner (owner : bool) (e : ControlEntry) : ControlEntry :=
  put_owner owner e.

Definition instant_to_nanos (t : Instant) : Z :=
  if (0 <=? t)%Z then Z.min t U64_MAX else 0.

Definition nanos_to_instant (nanos : Z) : option Instant :=
  if (nanos =? 0)%Z then None else Some nanos.

Definition population_timestamp (e : ControlEntry) : option Instant :=
  nanos_to_instant (ce_population_timestamp e).

Definition set_population_timestamp (ts : option Instant) (e : ControlEntry) : ControlEntry :=
  put_timestamp (match ts with Some t => instant_to_nanos t | None => 0 end)%Z e.

Definition notify (e : ControlEntry) : ControlEntry := put_notified (S (ce_notified e)) e.

Definition intent_prev_state (e : ControlEntry) : EntryState :=
  default Absent (state_try_from (ce_intent_prev_state e)).

Definition set_intent_prev_state (s : EntryState) (e : ControlEntry) : ControlEntry :=
  put_prev_state (state_as_u8 s) e.

Definition set_intent (i : CommitIntent) (e : ControlEntry) : ControlEntry :=
  put_intent true (ci_generation i) (IntentKind_as_u8 (ci_kind i)) (ci_target_tier i)
    (ci_started_nanos i) e.

Definition intent (e : ControlEntry) : option CommitIntent :=
  if negb (ce_intent_present e) then None
  else
    match IntentKind_from_u8 (ce_intent_kind e) with
    | Some kind =>
        Some (mkIntent kind (ce_intent_tier e) (ce_intent_generation e) (ce_intent_since_nanos e))
    | None => None
    end.

(** The target rung is left behind. *)
Definition clear_intent (e : ControlEntry) : ControlEntry :=
  put_intent false 0 0 (ce_intent_tier e) 0 e.

(** [d.as_nanos() as u64] truncates. *)
Definition set_ttl (ttl : option Duration) (e : ControlEntry) : ControlEntry :=
  put_expiration (match ttl with Some d => wrap64 d | None => 0%Z end) e.

Definition ttl (e : ControlEntry) : option Duration :=
  if (ce_expiration_nanos e =? 0)%Z then None else Some (ce_expiration_nanos e).

Definition is_expired (now : Instant) (e : ControlEntry) : bool :=
  match ttl e, population_timestamp e with
  | Some ttl, Some populated_at => (ttl <=? elapsed now populated_at)%Z
  | _, _ => false
  end.

Definition encode_error (err : option CacheError) : Z :=
  match err with
  | None => 0
  | Some Timeout => 1
  | Some PopulationFailed => 2
  | Some TierUnavailable => 3
  | Some Cancelled => 4
  | Some _ => 2
  end.

Definition decode_error (code : Z) : option CacheError :=
  if (code =? 1)%Z then Some Timeout
  else if (code =? 2)%Z then Some PopulationFailed
  else if (code =? 3)%Z then Some TierUnavailable
  else if (code =? 4)%Z then Some Cancelled
  else None.

Definition set_last_error (err : option CacheError) (e : ControlEntry) : ControlEntry :=
  put_error (encode_error err) e.

Definition last_error (e : ControlEntry) : option CacheError := decode_error (ce_last_error e).

(** ** [ControlSnapshot]

    [snap_notified] stands for the cloned [Notify] handle: the wake-ups issued
    so far, which a waiter compares with later. *)
Record ControlSnapshot : Type := mkSnapshot {
  snap_state : EntryState;
  snap_generation : Generation;
  snap_tier : TierId;
  snap_population_owner : bool;
  snap_population_timestamp : option Instant;
  snap_ttl : option Duration;
  snap_expired : bool;
  snap_last_error : option CacheError;
  snap_intent : option CommitIntent;
  snap_notified : nat
}.

Definition snapshot_of (now : Instant) (e : ControlEntry) (st : EntryState) (g : Generation)
    (t : TierId) (owner : bool) (ts : option Instant) : ControlSnapshot :=
  mkSnapshot st g t owner ts (ttl e) (is_expired now e) (last_error e) (intent e) (ce_notified e).

(** What [peek] reports of a key never written. *)
Definition snapshot_absent : ControlSnapshot :=
  mkSnapshot Absent 0 L0 false None None false None None 0.

(** ** [PlaneStats] *)

Record PlaneStats : Type := mkStats {
  ps_capacity : nat;
  ps_occupied : nat;
  ps_by_state : list nat;
  ps_by_tier : list nat;
  ps_population_owned : nat;
  ps_intents_outstanding : nat;
  ps_expired_ready : nat
}.

Definition PlaneStats_default : PlaneStats :=
  mkStats 0 0 (replicate 6 0) (replicate 7 0) 0 0 0.

Definition stats_with_capacity (c : nat) (s : PlaneStats) : PlaneStats :=
  mkStats c (ps_occupied s) (ps_by_state s) (ps_by_tier s) (ps_population_owned s)
    (ps_intents_outstanding s) (ps_expired_ready s).

(** [f64::from(u32::try_from(n).unwrap_or(u32::MAX))] *)
Definition f64_of_usize (n : nat) : f64 := f64_from_u32 (Z.min (Z.of_nat n) U32_MAX).

Definition ps_occupancy (s : PlaneStats) : f64 :=
  if ps_capacity s =? 0 then f64_zero
  else f64_div (f64_of_usize (ps_occupied s)) (f64_of_usize (ps_capacity s)).

(** ** Invariant of an entry *)

Record entry_wf (e : ControlEntry) : Prop := {
  ewf_state : exists s, ce_state e = state_as_u8 s;
  ewf_gen : u64 (ce_generation e);
  ewf_tier : exists t, ce_tier e = as_u8 t;
  ewf_ts : u64 (ce_population_timestamp e);
  ewf_ttl : u64 (ce_expiration_nanos e);
  ewf_err : (0 <= ce_last_error e <= 4)%Z;
  ewf_kind : ce_intent_present e = true -> exists k, ce_intent_kind e = IntentKind_as_u8 k;
  ewf_prev : exists s, ce_intent_prev_state e = state_as_u8 s
}.

(** ** Lemmas *)

Lemma state_roundtrip s : state_try_from (state_as_u8 s) = Some s.
Proof. by destruct s. Qed.

Lemma state_as_u8_inj s s' : state_as_u8 s = state_as_u8 s' -> s = s'.
Proof. by destruct s, s'. Qed.

Lemma state_set_state s e : state (set_state s e) = s.
Proof. by destruct s. Qed.

Lemma prev_set_prev s e : intent_prev_state (set_intent_prev_state s e) = s.
Proof. by destruct s. Qed.

Lemma tier_set_tier t e : tier (set_tier t e) = t.
Proof. by destruct t. Qed.

Lemma intent_set_intent i e : intent (set_intent i e) = Some i.
Proof. destruct i as [[] ? ? ?]; reflexivity. Qed.

Lemma intent_clear e : intent (clear_intent e) = None.
Proof. done. Qed.

Lemma state_raw e : entry_wf e -> ce_state e = state_as_u8 (state e).
Proof. intros [[s Hs] _ _ _ _ _ _ _]. unfold state. by rewrite Hs, state_roundtrip. Qed.

Lemma instant_to_nanos_u64 t : u64 (instant_to_nanos t).
Proof. unfold instant_to_nanos, u64, U64_MAX, W64. destruct (Z.leb_spec 0 t); lia. Qed.

Lemma encode_error_range o : (0 <= encode_error o <= 4)%Z.
Proof. destruct o as [[]|]; cbn; lia. Qed.

Lemma entry_new_wf a : entry_wf (ControlEntry_new a).
Proof.
  constructor; cbn; [by exists Absent|unfold u64, W64; lia|by exists L0
    |unfold u64, W64; lia|unfold u64, W64; lia|lia|done|by exists Absent].
Qed.

#[export] Hint Rewrite state_set_state prev_set_prev tier_set_tier intent_set_intent
  intent_clear : thesix.

(** *** Every store keeps the entry well-formed and where it is *)

Lemma set_state_wf s e : entry_wf e -> entry_wf (set_state s e).
Proof. intros []. constructor; cbn; eauto. Qed.

Lemma set_generation_wf g e : u64 g -> entry_wf e -> entry_wf (set_generation g e).
Proof. intros ? []. constructor; cbn; eauto. Qed.

Lemma increment_generation_wf e : entry_wf e -> entry_wf (increment_generation e).
Proof. intros []. constructor; cbn; eauto with u64. Qed.

Lemma set_tier_wf t e : entry_wf e -> entry_wf (set_tier t e).
Proof. intros []. constructor; cbn; eauto. Qed.

Lemma set_population_owner_wf b e : entry_wf e -> entry_wf (set_population_owner b e).
Proof. intros []. constructor; cbn; eauto. Qed.

Lemma set_population_timestamp_wf ts e : entry_wf e -> entry_wf (set_population_timestamp ts e).
Proof.
  intros []. constructor; cbn; eauto. destruct ts; [apply instant_to_nanos_u64|apply u64_0].
Qed.

Lemma notify_wf e : entry_wf e -> entry_wf (notify e).
Proof. intros []. constructor; cbn; eauto. Qed.

Lemma set_intent_prev_state_wf s e : entry_wf e -> entry_wf (set_intent_prev_state s e).
Proof. intros []. constructor; cbn; eauto. Qed.

Lemma set_intent_wf i e : entry_wf e -> entry_wf (set_intent i e).
Proof. intros []. constructor; cbn; eauto. Qed.

Lemma clear_intent_wf e : entry_wf e -> entry_wf (clear_intent e).
Proof. intros []. constructor; cbn; eauto. done. Qed.

Lemma set_ttl_wf d e : entry_wf e -> entry_wf (set_ttl d e).
Proof. intros []. constructor; cbn; eauto. destruct d; [apply wrap64_u64|apply u64_0]. Qed.

Lemma set_last_error_wf o e : entry_wf e -> entry_wf (set_last_error o e).
Proof. intros []. constructor; cbn; eauto. apply encode_error_range. Qed.

Create HintDb entry_wf.
#[export] Hint Resolve set_state_wf set_generation_wf increment_generation_wf set_tier_wf
  set_population_owner_wf set_population_timestamp_wf notify_wf set_intent_prev_state_wf
  set_intent_wf clear_intent_wf set_ttl_wf set_last_error_wf add64_u64 : entry_wf.
