(* ===== verification/Shard.v ===== *)
(** * One shard of the control plane

    Models [Shard] of [src/control/cachelito.rs]: a fixed table of control
    entries, found by open addressing on their address, created on demand and
    never removed. *)

From S2P Require Import Prelude Entry Integrity Probe ControlEntry.

Abbreviation Shard := (list (option ControlEntry)) (only parsing).

Definition Shard_new (capacity : nat) : Shard := replicate capacity None.

(** One step of [find_slot]: an empty slot ends the search, entries are never
    removed. *)
Definition find_visit (address : KeyAddress) (o : option ControlEntry) : verdict :=
  match o with
  | Some e => if decide (ce_address e = address) then Found else Next
  | None => NotFound
  end.

Definition shard_find_slot (self : Shard) (address : KeyAddress) : option nat :=
  search (find_visit address) self (placement address).

(** One step of [find_empty]. *)
Definition free_visit (address : KeyAddress) (o : option ControlEntry) : verdict :=
  match o with
  | None => Found
  | Some e => if decide (ce_address e = address) then Found else Next
  end.

Definition shard_find_empty (self : Shard) (address : KeyAddress) : option nat :=
  search (free_visit address) self (placement address).

(** [find_or_create_entry]: the index and content of the entry, and the shard
    that holds it. *)
Definition find_or_create_entry (self : Shard) (address : KeyAddress) :
    res (nat * ControlEntry) * Shard :=
  match shard_find_slot self address with
  | Some idx =>
      match mjoin (self !! idx) with
      | Some e => (Ok (idx, e), self)
      | None => (Err ConfigurationError, self)
      end
  | None =>
      match shard_find_empty self address with
      | Some idx =>
          (Ok (idx, ControlEntry_new address), <[idx := Some (ControlEntry_new address)]> self)
      | None => (Err ConfigurationError, self)
      end
  end.

(** [find_entry], with the index the reference points at. *)
Definition find_entry (self : Shard) (address : KeyAddress) : option (nat * ControlEntry) :=
  match shard_find_slot self address with
  | Some idx => match mjoin (self !! idx) with Some e => Some (idx, e) | None => None end
  | None => None
  end.

(** ** The invariant: every entry is where a search for it ends *)

Definition shard_wf (s : Shard) : Prop :=
  forall i e, s !! i = Some (Some e) -> shard_find_slot s (ce_address e) = Some i.

Lemma shard_new_wf n : shard_wf (Shard_new n).
Proof. by intros i e [? _]%lookup_replicate. Qed.

Lemma find_slot_Some s a i :
  shard_find_slot s a = Some i -> exists e, s !! i = Some (Some e) /\ ce_address e = a.
Proof.
  intros (o & Ho & Hv)%search_Some_lookup. destruct o as [e|]; cbn in Hv; [|done].
  exists e. by destruct (decide (ce_address e = a)).
Qed.

Lemma find_entry_spec s a i e :
  shard_wf s -> find_entry s a = Some (i, e) <-> s !! i = Some (Some e) /\ ce_address e = a.
Proof.
  intros Hwf. unfold find_entry. split.
  - destruct (shard_find_slot s a) as [j|] eqn:Hj; [|done].
    apply find_slot_Some in Hj as (e' & He' & Ha). rewrite He'. cbn. by intros [= <- <-].
  - intros [Hi <-]. rewrite (Hwf _ _ Hi), Hi. done.
Qed.

Lemma find_entry_None s a :
  shard_wf s -> find_entry s a = None <-> forall i e, s !! i = Some (Some e) -> ce_address e <> a.
Proof.
  intros Hwf. split.
  - intros Hn i e Hi Ha. by rewrite (proj2 (find_entry_spec s a i e Hwf) (conj Hi Ha)) in Hn.
  - intros Hall. destruct (find_entry s a) as [[i e]|] eqn:Hf; [|done].
    apply find_entry_spec in Hf as [Hi Ha]; [|done]. by destruct (Hall _ _ Hi).
Qed.

Lemma free_find_Next a (o : option ControlEntry) : free_visit a o = Next -> find_visit a o = Next.
Proof. destruct o as [e|]; [done|]. by intros [=]. Qed.

Lemma find_visit_insert a e :
  ce_address e = a -> find_visit a (Some e) = Found.
Proof. intros <-. cbn. by rewrite decide_True. Qed.

(** Updating an entry in place moves no entry. *)
Lemma find_slot_update s i e e' a :
  s !! i = Some (Some e) -> ce_address e' = ce_address e ->
  shard_find_slot (<[i := Some e']> s) a = shard_find_slot s a.
Proof.
  intros Hi Ha. unfold shard_find_slot. eapply search_insert_same; [done|]. cbn. by rewrite Ha.
Qed.

Lemma shard_update_wf s i e e' :
  shard_wf s -> s !! i = Some (Some e) -> ce_address e' = ce_address e ->
  shard_wf (<[i := Some e']> s).
Proof.
  intros Hwf Hi Ha j x Hj. rewrite (find_slot_update s i e e') by done.
  apply list_lookup_insert_Some in Hj as [(-> & [= <-] & _)|[_ Hj]]; [|by apply Hwf].
  rewrite Ha. by apply Hwf.
Qed.

(** Creating an entry moves no other entry, and the new one is found. *)
Lemma find_slot_create s a i e :
  shard_wf s -> shard_find_slot s a = None -> shard_find_empty s a = Some i -> ce_address e = a ->
  s !! i = Some None /\ shard_find_slot (<[i := Some e]> s) a = Some i /\
  (forall b j, shard_find_slot s b = Some j ->
     shard_find_slot (<[i := Some e]> s) b = Some j).
Proof.
  intros Hwf Hnone Hempty Ha.
  assert (Hi : s !! i = Some None).
  { apply search_Some_lookup in Hempty as (o & Ho & Hv). destruct o as [x|]; [|done].
    cbn in Hv. destruct (decide (ce_address x = a)) as [Hx|]; [|done].
    pose proof (Hwf _ _ Ho) as Hfound. congruence. }
  split_and!; [done| |].
  - unfold shard_find_slot. erewrite (search_insert_self _ (find_visit a) _ _ _ _ Hempty).
    + by rewrite find_visit_insert.
    + intros x. apply free_find_Next.
    + by rewrite find_visit_insert.
  - intros b j Hb. assert (b <> a) by congruence.
    apply search_insert_other; [done| |cbn; rewrite decide_False by congruence; done].
    intros ->. apply find_slot_Some in Hb as (x & Hx & _). congruence.
Qed.

Lemma shard_create_wf s a i e :
  shard_wf s -> shard_find_slot s a = None -> shard_find_empty s a = Some i -> ce_address e = a ->
  shard_wf (<[i := Some e]> s).
Proof.
  intros Hwf Hn He Ha. destruct (find_slot_create s a i e Hwf Hn He Ha) as (Hi & Hf & Hkeep).
  intros j x Hj. apply list_lookup_insert_Some in Hj as [(-> & [= <-] & _)|[_ Hj]].
  - by rewrite Ha.
  - by apply Hkeep, Hwf.
Qed.

(** A shard has no room exactly when every slot is another key's. *)
Lemma shard_full s a :
  shard_find_slot s a = None -> shard_find_empty s a = None ->
  forall i o, s !! i = Some o -> exists e, o = Some e /\ ce_address e <> a.
Proof.
  intros _ Hempty i o Hi.
  assert (Hv : free_visit a o = Next).
  { refine (search_exhausted _ _ _ _ Hempty i o Hi). intros [x|] _; cbn; [|done].
    by destruct (decide _). }
  destruct o as [e|]; cbn in Hv; [|done]. exists e. split; [done|]. by destruct (decide _).
Qed.

(** [find_or_create_entry] finds the entry or creates it; either way the
    returned entry sits at the returned index of the returned shard. *)
Lemma find_or_create_spec s a :
  shard_wf s ->
  match find_or_create_entry s a with
  | (Ok (i, e), s') =>
      shard_wf s' /\ s' !! i = Some (Some e) /\ ce_address e = a /\ length s' = length s /\
     ((s' = s /\ find_entry s a = Some (i, e)) \/
       (e = ControlEntry_new a /\ find_entry s a = None /\ s !! i = Some None /\
       s' = <[i := Some e]> s))
  | (Err err, s') =>
      err = ConfigurationError /\ s' = s /\ find_entry s a = None /\
     forall i o, s !! i = Some o -> exists e, o = Some e /\ ce_address e <> a
  end.
Proof.
  intros Hwf. unfold find_or_create_entry, find_entry.
  destruct (shard_find_slot s a) as [i|] eqn:Hs.
  - destruct (find_slot_Some _ _ _ Hs) as (e & He & Ha). rewrite He. cbn.
    split_and!; try done. by left.
  - destruct (shard_find_empty s a) as [i|] eqn:He.
    + destruct (find_slot_create s a i (ControlEntry_new a) Hwf Hs He eq_refl) as (Hi & Hf & _).
      split_and!; [by apply (shard_create_wf s a)| |done|by rewrite length_insert|by right].
      apply list_lookup_insert_eq. by apply lookup_lt_Some in Hi.
    + split_and!; try done. by apply shard_full.
Qed.

#[export] Hint Resolve shard_new_wf shard_update_wf shard_create_wf : thesix.
