(* ===== verification/Cachelito.v ===== *)
(** * The control plane

    Models [Cachelito] of [src/control/cachelito.rs]: a fixed number of
    independently locked shards, every operation one critical section. An
    operation is given as a transition of the entry it addresses (the code
    after [find_entry]) and run by one of the two combinators that model the
    prefix all operations share: address, shard, lock, entry. *)

From S2P Require Import Prelude Entry Integrity Tier Continuity ControlEntry Shard.

Definition DEFAULT_SHARD_COUNT : nat := 16.
Definition DEFAULT_CAPACITY_PER_SHARD : nat := 1024.

Record Cachelito : Type := mkCachelito {
  c_shards : list (Mutex (list (option ControlEntry)));
  c_shard_count : nat;
  c_capacity_per_shard : nat;
  c_placement : Placement
}.

(** [with_shards], the per-shard capacity made explicit. *)
Definition cachelito_sized (shard_count capacity : nat) : Cachelito :=
  let shard_count := Nat.max shard_count 1 in
  mkCachelito (replicate shard_count (new_mutex (Shard_new capacity))) shard_count capacity
    PlaceDefault.

Definition Cachelito_with_shards (shard_count : nat) : Cachelito :=
  cachelito_sized shard_count DEFAULT_CAPACITY_PER_SHARD.

Definition Cachelito_new : Cachelito := Cachelito_with_shards DEFAULT_SHARD_COUNT.

Definition Cachelito_with_placement (self : Cachelito) (p : Placement) : Cachelito :=
  mkCachelito (c_shards self) (c_shard_count self) (c_capacity_per_shard self) p.

Definition address_of (self : Cachelito) (key : bytes) : KeyAddress :=
  KeyAddress_of key (c_placement self).

Definition shard_for (self : Cachelito) (address : KeyAddress) : nat :=
  Z.to_nat (placement address mod Z.of_nat (c_shard_count self))%Z.

(** ** The shared prefix of the operations *)

Definition put_shard (self : Cachelito) (idx : nat) (m : Mutex (list (option ControlEntry))) :
    Cachelito :=
  mkCachelito (<[idx := m]> (c_shards self)) (c_shard_count self) (c_capacity_per_shard self)
    (c_placement self).

(** [find_entry] under the lock of the address' shard, then [op]; [absent] when
    there is no such entry. Indexing out of range panics in the code and is
    excluded by [plane_ok]. *)
Definition with_entry {A} (self : Cachelito) (address : KeyAddress) (absent : res A)
    (op : ControlEntry -> res A * ControlEntry) : res A * Cachelito :=
  let idx := shard_for self address in
  match c_shards self !! idx with
  | None => (Err ConfigurationError, self)
  | Some m =>
      match lock m with
      | None => (Err ConfigurationError, self)
      | Some shard =>
          match find_entry shard address with
          | None => (absent, self)
          | Some (i, e) =>
              let '(r, e') := op e in
              (r, put_shard self idx (store m (<[i := Some e']> shard)))
          end
      end
  end.

(** [find_or_create_entry] under the lock, then [op]. *)
Definition with_created_entry {A} (self : Cachelito) (address : KeyAddress)
    (op : ControlEntry -> res A * ControlEntry) : res A * Cachelito :=
  let idx := shard_for self address in
  match c_shards self !! idx with
  | None => (Err ConfigurationError, self)
  | Some m =>
      match lock m with
      | None => (Err ConfigurationError, self)
      | Some shard =>
          match find_or_create_entry shard address with
          | (Err _, _) => (Err ConfigurationError, self)
          | (Ok (i, e), shard') =>
              let '(r, e') := op e in
              (r, put_shard self idx (store m (<[i := Some e']> shard')))
          end
      end
  end.

(** ** Population: acquire, publish, fail, release *)

(** [compare_exchange] on the state byte: the byte found, and the entry. *)
Definition state_compare_exchange (expected new : Z) (e : ControlEntry) :
    result Z Z * ControlEntry :=
  if (ce_state e =? expected)%Z then (Ok expected, put_state new e) else (Err (ce_state e), e).

Definition acquire_entry (now : Instant) (tier' : TierId) (e : ControlEntry) :
    res ControlSnapshot * ControlEntry :=
  let current_state := state e in
  let current_gen := generation e in
  let current_tier := tier e in
  match current_state with
  | Absent | Failed | Stale =>
      match state_compare_exchange (state_as_u8 current_state) (state_as_u8 InFlight) e with
      | (Ok _, e) =>
          let e := set_population_owner true e in
          let new_gen := add64 current_gen 1 in
          let e := set_generation new_gen e in
          let e := set_tier tier' e in
          let e := set_last_error None e in
          let e := set_population_timestamp (Some now) e in
          (Ok (snapshot_of now e InFlight new_gen tier' true (Some now)), e)
      | (Err _, e) =>
          (Ok (snapshot_of now e (state e) (generation e) (tier e) (is_population_owner e) None), e)
      end
  | Prepared => (Ok (snapshot_of now e Prepared current_gen current_tier false None), e)
  | InFlight => (Ok (snapshot_of now e InFlight current_gen current_tier false None), e)
  | Ready => (Ok (snapshot_of now e Ready current_gen current_tier false None), e)
  end.

Definition acquire (now : Instant) (key : bytes) (t : TierId) (self : Cachelito) :
    res ControlSnapshot * Cachelito :=
  with_created_entry self (address_of self key) (acquire_entry now t).

Definition publish_entry (now : Instant) (expected : Generation) (t : TierId)
    (ttl' : option Duration) (e : ControlEntry) : res unit * ControlEntry :=
  let current_gen := generation e in
  if is_stale expected current_gen || negb (expected =? current_gen)%Z then
    (Err StaleGeneration, e)
  else
    let e := set_state Ready e in
    let e := set_tier t e in
    let e := set_ttl ttl' e in
    let e := set_last_error None e in
    let e := set_population_owner false e in
    let e := set_population_timestamp (Some now) e in
    (Ok tt, notify e).

Definition publish (now : Instant) (key : bytes) (expected : Generation) (t : TierId)
    (ttl' : option Duration) (self : Cachelito) : res unit * Cachelito :=
  with_entry self (address_of self key) (Err Miss) (publish_entry now expected t ttl').

Definition fail_entry (error : CacheError) (e : ControlEntry) : res unit * ControlEntry :=
  let e := set_state Failed e in
  let e := set_last_error (Some error) e in
  let e := set_population_owner false e in
  let e := set_population_timestamp None e in
  (Ok tt, notify e).

Definition fail_with_error (key : bytes) (error : CacheError) (self : Cachelito) :
    res unit * Cachelito :=
  with_entry self (address_of self key) (Err Miss) (fail_entry error).

Definition fail (key : bytes) (self : Cachelito) : res unit * Cachelito :=
  fail_with_error key PopulationFailed self.

(** The common body of [release] and [invalidate]. *)
Definition invalidate_entry (e : ControlEntry) : res unit * ControlEntry :=
  let e := increment_generation e in
  let e := set_state Absent e in
  let e := set_population_owner false e in
  let e := set_population_timestamp None e in
  let e := set_ttl None e in
  let e := set_last_error None e in
  (Ok tt, notify e).

Definition release (key : bytes) (self : Cachelito) : res unit * Cachelito :=
  with_entry self (address_of self key) (Ok tt) invalidate_entry.

Definition invalidate (key : bytes) (self : Cachelito) : res unit * Cachelito :=
  with_entry self (address_of self key) (Ok tt) invalidate_entry.

(** ** Direct stores *)

Definition plane_health (key : bytes) (self : Cachelito) : res TierHealth := Ok TierHealth_default.

Definition plane_set_generation (key : bytes) (g : Generation) (self : Cachelito) :
    res unit * Cachelito :=
  with_created_entry self (address_of self key) (fun e => (Ok tt, set_generation g e)).

Definition plane_set_tier (key : bytes) (t : TierId) (self : Cachelito) : res unit * Cachelito :=
  with_created_entry self (address_of self key) (fun e => (Ok tt, set_tier t e)).

Definition plane_set_state (key : bytes) (s : EntryState) (self : Cachelito) :
    res unit * Cachelito :=
  with_created_entry self (address_of self key) (fun e => (Ok tt, notify (set_state s e))).

Definition update_tier_health (key : bytes) (h : TierHealth) (self : Cachelito) :
    res unit * Cachelito := (Ok tt, self).

(** ** Observation and generations *)

Definition peek_entry (now : Instant) (e : ControlEntry) : ControlSnapshot :=
  snapshot_of now e (state e) (generation e) (tier e) (is_population_owner e)
    (population_timestamp e).

(** [peek] leaves the plane as it is: its result only. *)
Definition peek (now : Instant) (key : bytes) (self : Cachelito) : res ControlSnapshot :=
  fst (with_entry self (address_of self key) (Ok snapshot_absent)
         (fun e => (Ok (peek_entry now e), e))).

Definition bump_generation (key : bytes) (self : Cachelito) : res Generation * Cachelito :=
  with_created_entry self (address_of self key)
    (fun e => let e := increment_generation e in (Ok (generation e), notify e)).

(** ** Claims and eviction *)

Definition release_claim_entry (e : ControlEntry) : res bool * ControlEntry :=
  if negb (bool_decide (state e = Prepared)) || negb (is_population_owner e) then (Ok false, e)
  else
    let e := set_state Failed e in
    let e := increment_generation e in
    let e := set_population_owner false e in
    (Ok true, notify e).

Definition release_population_claim (address : KeyAddress) (self : Cachelito) :
    res bool * Cachelito :=
  with_entry self address (Ok false) release_claim_entry.

Definition reserve_entry (e : ControlEntry) : res bool * ControlEntry :=
  if negb (bool_decide (state e = Ready)) || is_population_owner e then (Ok false, e)
  else
    match intent e with
    | Some _ => (Ok false, e)
    | None =>
        let e := increment_generation e in
        let e := set_state Stale e in
        (Ok true, notify e)
    end.

Definition reserve_eviction (address : KeyAddress) (self : Cachelito) : res bool * Cachelito :=
  with_entry self address (Ok false) reserve_entry.

(** ** Two-phase commit *)

Definition prepare_entry (now : Instant) (address : KeyAddress)
    (expected_generation : option Generation) (target : TierId) (kind : IntentKind)
    (e : ControlEntry) : res CommitToken * ControlEntry :=
  let current := generation e in
  let moved :=
    match expected_generation with Some expected => negb (expected =? current)%Z | None => false end in
  if moved then (Err StaleGeneration, e)
  else
    let i := mkIntent kind (as_u8 target) current (instant_to_nanos now) in
    let e := set_intent_prev_state (state e) e in
    let e := set_intent i e in
    let e := set_state Prepared e in
    let e := set_population_owner true e in
    (Ok (mkToken address current kind (ci_target_tier i)), e).

Definition prepare (now : Instant) (key : bytes) (expected_generation : option Generation)
    (target : TierId) (kind : IntentKind) (self : Cachelito) : res CommitToken * Cachelito :=
  with_created_entry self (address_of self key)
    (prepare_entry now (address_of self key) expected_generation target kind).

Definition commit_entry (now : Instant) (token : CommitToken) (ttl' : option Duration)
    (e : ControlEntry) : res unit * ControlEntry :=
  if expired_by token (generation e) || negb (bool_decide (state e = Prepared)) then
    (Err StaleGeneration, e)
  else
    let e := set_state Ready e in
    let e := match from_index (tok_target_tier token) with
             | Some t => set_tier t e
             | None => e
             end in
    let e := set_ttl ttl' e in
    let e := set_intent_prev_state Ready e in
    let e := set_population_owner false e in
    let e := clear_intent e in
    let e := set_population_timestamp (Some now) e in
    let e := set_last_error None e in
    (Ok tt, notify e).

Definition commit (now : Instant) (token : CommitToken) (ttl' : option Duration)
    (self : Cachelito) : res unit * Cachelito :=
  with_entry self (tok_address token) (Err Miss) (commit_entry now token ttl').

Definition abort_entry (error : CacheError) (proven_clean : bool) (e : ControlEntry) :
    res unit * ControlEntry :=
  if negb (bool_decide (state e = Prepared)) then (Ok tt, e)
  else
    let e :=
      if proven_clean then set_state (intent_prev_state e) e
      else increment_generation (set_state Failed e) in
    let e := set_population_owner false e in
    let e := clear_intent e in
    let e := set_last_error (Some error) e in
    (Ok tt, notify e).

Definition abort_inner (token : CommitToken) (error : CacheError) (proven_clean : bool)
    (self : Cachelito) : res unit * Cachelito :=
  with_entry self (tok_address token) (Ok tt) (abort_entry error proven_clean).

Definition abort (token : CommitToken) (error : CacheError) (self : Cachelito) :
    res unit * Cachelito :=
  abort_inner token error false self.

Definition abort_proven_clean (token : CommitToken) (error : CacheError) (self : Cachelito) :
    res unit * Cachelito :=
  abort_inner token error true self.

(** ** Sweeps over the whole plane *)

(** [stats.by_state[i] += 1] *)
Definition bump_at (i : nat) (l : list nat) : list nat := alter S i l.

Definition count_entry (now : Instant) (s : PlaneStats) (e : ControlEntry) : PlaneStats :=
  mkStats (ps_capacity s) (S (ps_occupied s))
    (bump_at (Z.to_nat (state_as_u8 (state e))) (ps_by_state s))
    (if as_usize (tier e) <? length (ps_by_tier s)
     then bump_at (as_usize (tier e)) (ps_by_tier s) else ps_by_tier s)
    (if is_population_owner e then S (ps_population_owned s) else ps_population_owned s)
    (if bool_decide (is_Some (intent e))
     then S (ps_intents_outstanding s) else ps_intents_outstanding s)
    (if bool_decide (is_Some (ttl e)) && is_expired now e
     then S (ps_expired_ready s) else ps_expired_ready s).

(** [guard.entries.iter().flatten()] *)
Definition flatten_entries (s : list (option ControlEntry)) : list ControlEntry := omap id s.

(** The entries of the shards whose lock is not poisoned, in sweep order. *)
Definition sweep_entries (self : Cachelito) : list ControlEntry :=
  concat (map (fun m => match lock m with Some s => flatten_entries s | None => [] end)
            (c_shards self)).

Definition plane_stats (now : Instant) (self : Cachelito) : PlaneStats :=
  fold_left (count_entry now) (sweep_entries self)
    (stats_with_capacity (length (c_shards self) * c_capacity_per_shard self) PlaneStats_default).

(** One slot of [sweep_expired]: the slot after it, and whether it was demoted. *)
Definition sweep_slot (now : Instant) (o : option ControlEntry) : option ControlEntry * nat :=
  match o with
  | None => (None, 0)
  | Some e =>
      if is_authority_rung (tier e) then (Some e, 0)
      else if bool_decide (state e = Ready) && is_expired now e
      then (Some (notify (set_state Stale e)), 1)
      else (Some e, 0)
  end.

Definition sweep_shard (now : Instant) (m : Mutex (list (option ControlEntry))) :
    Mutex (list (option ControlEntry)) * nat :=
  match lock m with
  | None => (m, 0)
  | Some s =>
      let swept := map (sweep_slot now) s in
      (store m (map fst swept), list_sum (map snd swept))
  end.

Definition sweep_expired (now : Instant) (self : Cachelito) : nat * Cachelito :=
  let swept := map (sweep_shard now) (c_shards self) in
  (list_sum (map snd swept),
   mkCachelito (map fst swept) (c_shard_count self) (c_capacity_per_shard self)
     (c_placement self)).

Definition stale_intents (now : Instant) (older_than_nanos : Z) (self : Cachelito) :
    list (KeyAddress * CommitIntent) :=
  let cutoff := sat_sub64 (instant_to_nanos now) older_than_nanos in
  omap (fun e =>
          match intent e with
          | Some i => if (ci_started_nanos i <=? cutoff)%Z then Some (ce_address e, i) else None
          | None => None
          end) (sweep_entries self).

Definition abort_intent_entry (error : CacheError) (e : ControlEntry) : res bool * ControlEntry :=
  match intent e with
  | None => (Ok false, e)
  | Some _ =>
      if negb (bool_decide (state e = Prepared)) then (Ok false, e)
      else
        let e := set_state Failed e in
        let e := increment_generation e in
        let e := set_population_owner false e in
        let e := clear_intent e in
        let e := set_last_error (Some error) e in
        (Ok true, notify e)
  end.

Definition abort_intent_by_address (address : KeyAddress) (error : CacheError)
    (self : Cachelito) : res bool * Cachelito :=
  with_entry self address (Ok false) (abort_intent_entry error).

Definition resolve_intent (now : Instant) (key : bytes) (i : CommitIntent)
    (direction : RecoveryDirection) (self : Cachelito) : res RecoveryOutcome * Cachelito :=
  let token := mkToken (address_of self key) (ci_generation i) (ci_kind i) (ci_target_tier i) in
  match direction with
  | DirAbort =>
      let '(r, self) := abort token UncommittedIntent self in
      (map_ok (fun _ => RoAborted (ci_kind i)) r, self)
  | CompleteForward =>
      let '(r, self) := commit now token None self in
      (map_ok (fun _ => RoCompleted (ci_kind i)) r, self)
  | ExternalReconciliation => (Err ConfigurationError, self)
  end.
