(* ===== verification/Plane.v ===== *)
(** * The control plane as a map from addresses to entries

    The invariant of [Cachelito], the abstraction function [view], and the
    refinement lemmas of the two combinators: an operation on an address reads
    and writes that address of the map and nothing else. *)

From S2P Require Import Prelude Entry Integrity Probe Tier Continuity ControlEntry Shard Cachelito.

(** ** The invariant *)

(** A shard at index [i]: found entries, of the addresses this index serves,
    each well-formed. *)
Record shard_ok (self : Cachelito) (i : nat) (s : list (option ControlEntry)) : Prop := {
  sok_wf : shard_wf s;
  sok_len : length s = c_capacity_per_shard self;
  sok_home : forall j e, s !! j = Some (Some e) -> shard_for self (ce_address e) = i;
  sok_entries : forall j e, s !! j = Some (Some e) -> entry_wf e
}.

(** No lock is poisoned: no thread panicked inside a critical section. *)
Record plane_ok (self : Cachelito) : Prop := {
  pok_count : length (c_shards self) = c_shard_count self;
  pok_pos : 0 < c_shard_count self;
  pok_shards : forall i m, c_shards self !! i = Some m ->
    mx_poisoned m = false /\ shard_ok self i (mx_data m)
}.

(** ** The abstraction *)

Definition view (self : Cachelito) (a : KeyAddress) : option ControlEntry :=
  match c_shards self !! shard_for self a with
  | Some m => option_map snd (find_entry (mx_data m) a)
  | None => None
  end.

(** Two planes of the same shape, equal everywhere but at [a]. *)
Record same_but (self self' : Cachelito) (a : KeyAddress) : Prop := {
  sb_other : forall b, b <> a -> view self' b = view self b;
  sb_placement : c_placement self' = c_placement self;
  sb_count : c_shard_count self' = c_shard_count self;
  sb_capacity : c_capacity_per_shard self' = c_capacity_per_shard self
}.

(** The shard of [a] holds an entry of another address in every slot. *)
Definition shard_is_full (self : Cachelito) (a : KeyAddress) : Prop :=
  exists m, c_shards self !! shard_for self a = Some m /\
    forall i o, mx_data m !! i = Some o -> exists e, o = Some e /\ ce_address e <> a.

(** Decided by [find_or_create_entry]. *)
Definition room_for (self : Cachelito) (a : KeyAddress) : bool :=
  match c_shards self !! shard_for self a with
  | Some m => is_ok (fst (find_or_create_entry (mx_data m) a))
  | None => false
  end.

Lemma view_at self a m :
  c_shards self !! shard_for self a = Some m ->
  view self a = option_map snd (find_entry (mx_data m) a).
Proof. intros Hm. unfold view. by rewrite Hm. Qed.

Lemma same_but_refl self a : same_but self self a.
Proof. by constructor. Qed.

Lemma plane_shape_shard_for c c' a :
  c_shard_count c' = c_shard_count c -> shard_for c' a = shard_for c a.
Proof. unfold shard_for. by intros ->. Qed.

Lemma shard_for_lt self a : plane_ok self -> shard_for self a < length (c_shards self).
Proof.
  intros [Hc Hp _]. rewrite Hc. unfold shard_for.
  pose proof (Z.mod_pos_bound (placement a) (Z.of_nat (c_shard_count self)) ltac:(lia)). lia.
Qed.

Lemma shard_at self a :
  plane_ok self -> exists m, c_shards self !! shard_for self a = Some m /\
    mx_poisoned m = false /\ lock m = Some (mx_data m) /\ shard_ok self (shard_for self a) (mx_data m).
Proof.
  intros Hok. destruct (lookup_lt_is_Some_2 _ _ (shard_for_lt self a Hok)) as [m Hm].
  destruct (pok_shards self Hok _ _ Hm) as [Hp Hs]. exists m. split_and!; try done.
  unfold lock. by rewrite Hp.
Qed.

Lemma sized_ok n cap : plane_ok (cachelito_sized n cap).
Proof.
  constructor; cbn -[Nat.max]; [by rewrite length_replicate|lia|].
  intros i m [-> _]%lookup_replicate. cbn. split; [done|].
  constructor; cbn; [apply shard_new_wf|apply length_replicate| |];
    by intros j e [? _]%lookup_replicate.
Qed.

Lemma with_placement_ok n cap p : plane_ok (Cachelito_with_placement (cachelito_sized n cap) p).
Proof. destruct (sized_ok n cap) as [Hc Hp Hs]. constructor; cbn -[Nat.max] in *; try done.
  intros i m [-> _]%lookup_replicate. cbn. split; [done|].
  constructor; cbn; [apply shard_new_wf|apply length_replicate| |];
    by intros j e [? _]%lookup_replicate.
Qed.

(** An entry of the view is well-formed and carries the address asked for. *)
Lemma view_wf self a e : plane_ok self -> view self a = Some e -> entry_wf e /\ ce_address e = a.
Proof.
  intros Hok. destruct (shard_at self a Hok) as (m & Hm & _ & _ & [Hwf Hl Hh He]).
  unfold view. rewrite Hm. destruct (find_entry (mx_data m) a) as [[i x]|] eqn:Hf; [|done].
  cbn. intros [= <-]. apply find_entry_spec in Hf as [Hi Ha]; [|done]. split; [by eapply He|done].
Qed.

(** No operation moves the plane to another placement. *)
Lemma with_entry_placement {A} self a (absent : res A) op :
  c_placement (snd (with_entry self a absent op)) = c_placement self.
Proof. unfold with_entry. branches; done. Qed.

Lemma with_created_entry_placement {A} self a (op : ControlEntry -> res A * ControlEntry) :
  c_placement (snd (with_created_entry self a op)) = c_placement self.
Proof. unfold with_created_entry. branches; done. Qed.

(** Replacing one shard by one that differs only at [a]. *)
Lemma put_shard_spec self a m s' :
  plane_ok self -> c_shards self !! shard_for self a = Some m ->
  shard_ok self (shard_for self a) s' ->
  (forall b, b <> a -> shard_for self b = shard_for self a ->
     option_map snd (find_entry s' b) = option_map snd (find_entry (mx_data m) b)) ->
  let self' := put_shard self (shard_for self a) (store m s') in
  plane_ok self' /\ same_but self self' a /\ view self' a = option_map snd (find_entry s' a).
Proof.
  intros Hok Hm Hs' Hother self'.
  assert (Hlt : shard_for self a < length (c_shards self)) by (by apply shard_for_lt).
  split_and!.
  - destruct Hok as [Hc Hp Hs]. constructor; cbn; [by rewrite length_insert|done|].
    intros i x [(<- & <- & _)|[Hne Hx]]%list_lookup_insert_Some; cbn.
    + split; [by destruct (Hs _ _ Hm)|]. by destruct Hs'.
    + destruct (Hs _ _ Hx) as [? [? ? ? ?]]. by split.
  - constructor; [|done..]. intros b Hb. unfold view, self'. cbn.
    change (shard_for (put_shard self (shard_for self a) (store m s')) b) with (shard_for self b).
    destruct (decide (shard_for self b = shard_for self a)) as [Heq|Hne].
    + rewrite Heq, list_lookup_insert_eq by done. cbn. rewrite Hm. by apply Hother.
    + by rewrite list_lookup_insert_ne.
  - unfold view, self'. cbn.
    change (shard_for (put_shard self (shard_for self a) (store m s')) a) with (shard_for self a).
    by rewrite list_lookup_insert_eq.
Qed.

Lemma find_entry_update s i e e' b :
  s !! i = Some (Some e) -> ce_address e' = ce_address e -> shard_wf s ->
  option_map snd (find_entry (<[i := Some e']> s) b) =
  if decide (b = ce_address e) then Some e' else option_map snd (find_entry s b).
Proof.
  intros Hi Ha Hwf.
  pose proof (shard_update_wf s i e e' Hwf Hi Ha) as Hwf'.
  destruct (decide (b = ce_address e)) as [->|Hne].
  - rewrite (proj2 (find_entry_spec _ _ i e' Hwf')); [done|].
    rewrite list_lookup_insert_eq by (by apply lookup_lt_Some in Hi). done.
  - unfold find_entry. rewrite (find_slot_update s i e e') by done.
    destruct (shard_find_slot s b) as [j|] eqn:Hj; [|done].
    rewrite list_lookup_insert_ne; [done|]. intros ->.
    apply find_slot_Some in Hj as (x & Hx & Hxa). congruence.
Qed.

Lemma shard_ok_update self n s i e e' :
  shard_ok self n s -> s !! i = Some (Some e) -> ce_address e' = ce_address e -> entry_wf e' ->
  shard_ok self n (<[i := Some e']> s).
Proof.
  intros [Hwf Hl Hh He] Hi Ha Hwf'. constructor.
  - by eapply shard_update_wf.
  - by rewrite length_insert.
  - intros j x [(_ & [= <-] & _)|[_ Hj]]%list_lookup_insert_Some; [rewrite Ha|]; by eapply Hh.
  - intros j x [(_ & [= <-] & _)|[_ Hj]]%list_lookup_insert_Some; [done|]. by eapply He.
Qed.

(** Creating an entry changes no other lookup. *)
Lemma find_entry_create s s' i e b :
  shard_wf s -> shard_wf s' -> s !! i = Some None -> s' = <[i := Some e]> s -> b <> ce_address e ->
  find_entry s' b = find_entry s b.
Proof.
  intros Hwf Hwf' Hi Hs' Hb. destruct (find_entry s b) as [[j x]|] eqn:Hf.
  - apply find_entry_spec in Hf as [Hj Ha]; [|done]. apply find_entry_spec; [done|].
    split; [|done]. rewrite Hs', list_lookup_insert_ne; [done|]. intros ->. congruence.
  - apply find_entry_None; [done|]. intros j x Hj. rewrite Hs' in Hj.
    apply list_lookup_insert_Some in Hj as [(_ & [= <-] & _)|[_ Hj]]; [congruence|].
    by eapply (proj1 (find_entry_None s b Hwf)).
Qed.

(** ** The two combinators, as map updates *)

(** A transition that keeps an entry well-formed and where it is. *)
Definition entry_op_ok {A} (op : ControlEntry -> res A * ControlEntry) : Prop :=
  forall e, entry_wf e -> entry_wf (snd (op e)) /\ ce_address (snd (op e)) = ce_address e.

Lemma with_entry_spec {A} self a (absent : res A) op :
  plane_ok self -> entry_op_ok op ->
  match view self a with
  | None => with_entry self a absent op = (absent, self)
  | Some e => exists self', with_entry self a absent op = (fst (op e), self') /\
      plane_ok self' /\ same_but self self' a /\ view self' a = Some (snd (op e))
  end.
Proof.
  intros Hok Hop. destruct (shard_at self a Hok) as (m & Hm & Hp & Hl & Hs).
  rewrite (view_at self a m Hm). unfold with_entry. rewrite Hm, Hl.
  destruct (find_entry (mx_data m) a) as [[i e]|] eqn:Hf; [|done]. cbn [option_map snd].
  apply find_entry_spec in Hf as [Hi Ha]; [|apply Hs].
  destruct (Hop e) as [Hwf' Ha']; [by eapply (sok_entries _ _ _ Hs)|].
  destruct (op e) as [r e'] eqn:Heq. cbn in *.
  exists (put_shard self (shard_for self a) (store m (<[i := Some e']> (mx_data m)))).
  split; [done|].
  destruct (put_shard_spec self a m (<[i := Some e']> (mx_data m)) Hok Hm) as (? & ? & Hv).
  - by eapply shard_ok_update.
  - intros b Hb _. rewrite (find_entry_update _ i e) by (done || apply Hs).
    by rewrite decide_False by congruence.
  - split_and!; [done|done|]. rewrite Hv, (find_entry_update _ i e) by (done || apply Hs).
    by rewrite decide_True.
Qed.

Lemma with_created_entry_spec {A} self a (op : ControlEntry -> res A * ControlEntry) :
  plane_ok self -> entry_op_ok op ->
  match view self a with
  | Some e => exists self', with_created_entry self a op = (fst (op e), self') /\
      plane_ok self' /\ same_but self self' a /\ view self' a = Some (snd (op e))
  | None =>
      if room_for self a then
        exists self', with_created_entry self a op = (fst (op (ControlEntry_new a)), self') /\
          plane_ok self' /\ same_but self self' a /\
          view self' a = Some (snd (op (ControlEntry_new a)))
      else with_created_entry self a op = (Err ConfigurationError, self) /\ shard_is_full self a
  end.
Proof.
  intros Hok Hop. destruct (shard_at self a Hok) as (m & Hm & Hp & Hl & Hs).
  rewrite (view_at self a m Hm). unfold room_for, with_created_entry. rewrite Hm, Hl.
  pose proof (find_or_create_spec (mx_data m) a (sok_wf _ _ _ Hs)) as Hfc.
  destruct (find_or_create_entry (mx_data m) a) as [[[i e]|err] s'].
  2: { destruct Hfc as (-> & -> & -> & Hfull). cbn. split; [done|]. by exists m. }
  destruct Hfc as (Hwf' & Hi & Ha & Hlen & [[-> Hfe]|(-> & Hfe & Hfree & Hs')]); rewrite Hfe; cbn.
  - destruct (Hop e) as [Hewf Hea]; [by eapply (sok_entries _ _ _ Hs)|].
    destruct (op e) as [r e'] eqn:Heq. cbn in *.
    exists (put_shard self (shard_for self a) (store m (<[i := Some e']> (mx_data m)))).
    split; [done|].
    destruct (put_shard_spec self a m (<[i := Some e']> (mx_data m)) Hok Hm) as (? & ? & Hv).
    + by eapply shard_ok_update.
    + intros b Hb _. rewrite (find_entry_update _ i e) by (done || apply Hs).
      by rewrite decide_False by congruence.
    + split_and!; [done|done|]. rewrite Hv, (find_entry_update _ i e) by (done || apply Hs).
      by rewrite decide_True.
  - assert (Hok' : shard_ok self (shard_for self a) s').
    { constructor; [done|by rewrite Hlen; apply Hs| |]; rewrite Hs';
        intros j x [(_ & [= <-] & _)|[_ Hj]]%list_lookup_insert_Some; cbn.
      - done.
      - by eapply (sok_home _ _ _ Hs).
      - apply entry_new_wf.
      - by eapply (sok_entries _ _ _ Hs). }
    destruct (Hop (ControlEntry_new a) (entry_new_wf a)) as [Hewf Hea].
    destruct (op (ControlEntry_new a)) as [r e'] eqn:Heq. cbn in *.
    exists (put_shard self (shard_for self a) (store m (<[i := Some e']> s'))). split; [done|].
    destruct (put_shard_spec self a m (<[i := Some e']> s') Hok Hm) as (? & ? & Hv).
    + by eapply shard_ok_update.
    + intros b Hb _. rewrite (find_entry_update s' i (ControlEntry_new a)) by done.
      rewrite decide_False by done. f_equal.
      by eapply find_entry_create; [apply Hs|..].
    + split_and!; [done|done|].
      rewrite Hv, (find_entry_update s' i (ControlEntry_new a)) by done. by rewrite decide_True.
Qed.
