(* ===== verification/Protocol.v ===== *)
(** * The control-plane protocol

    Every operation of [Cachelito] as a step of a transition system on the
    address it targets; the refinement of the sharded table to a map; the
    protocol's invariants and the single-flight, two-phase commit, abort and
    eviction properties. *)

From S2P Require Import Prelude Entry Integrity Probe Tier Continuity ControlEntry Shard.
From S2P Require Import Cachelito Plane.

(** ** Operations as data *)

Inductive plane_op : Type :=
| PoAcquire (now : Instant) (key : bytes) (t : TierId)
| PoPublish (now : Instant) (key : bytes) (g : Generation) (t : TierId) (ttl : option Duration)
| PoFail (key : bytes) (error : CacheError)
| PoRelease (key : bytes)
| PoInvalidate (key : bytes)
| PoBump (key : bytes)
| PoReleaseClaim (a : KeyAddress)
| PoReserve (a : KeyAddress)
| PoPrepare (now : Instant) (key : bytes) (g : option Generation) (t : TierId) (k : IntentKind)
| PoCommit (now : Instant) (token : CommitToken) (ttl : option Duration)
| PoAbort (token : CommitToken) (error : CacheError)
| PoAbortClean (token : CommitToken) (error : CacheError)
| PoAbortIntent (a : KeyAddress) (error : CacheError)
| PoSetGeneration (key : bytes) (g : Generation)
| PoSetTier (key : bytes) (t : TierId)
| PoSetState (key : bytes) (s : EntryState).

(** The plane after the operation; a generation given by the caller is a
    64-bit word. *)
Definition plane_exec (c : Cachelito) (op : plane_op) : Cachelito :=
  match op with
  | PoAcquire now key t => snd (acquire now key t c)
  | PoPublish now key g t d => snd (publish now key g t d c)
  | PoFail key err => snd (fail_with_error key err c)
  | PoRelease key => snd (release key c)
  | PoInvalidate key => snd (invalidate key c)
  | PoBump key => snd (bump_generation key c)
  | PoReleaseClaim a => snd (release_population_claim a c)
  | PoReserve a => snd (reserve_eviction a c)
  | PoPrepare now key g t k => snd (prepare now key g t k c)
  | PoCommit now token d => snd (commit now token d c)
  | PoAbort token err => snd (abort token err c)
  | PoAbortClean token err => snd (abort_proven_clean token err c)
  | PoAbortIntent a err => snd (abort_intent_by_address a err c)
  | PoSetGeneration key g => snd (plane_set_generation key (wrap64 g) c)
  | PoSetTier key t => snd (plane_set_tier key t c)
  | PoSetState key s => snd (plane_set_state key s c)
  end.

(** The address it works on. *)
Definition op_address (c : Cachelito) (op : plane_op) : KeyAddress :=
  match op with
  | PoAcquire _ key _ | PoPublish _ key _ _ _ | PoFail key _ | PoRelease key | PoInvalidate key
  | PoBump key | PoPrepare _ key _ _ _ | PoSetGeneration key _ | PoSetTier key _
  | PoSetState key _ => address_of c key
  | PoReleaseClaim a | PoReserve a | PoAbortIntent a _ => a
  | PoCommit _ token _ | PoAbort token _ | PoAbortClean token _ => tok_address token
  end.

(** Whether it creates the entry it does not find. *)
Definition op_creates (op : plane_op) : bool :=
  match op with
  | PoAcquire _ _ _ | PoBump _ | PoPrepare _ _ _ _ _ | PoSetGeneration _ _ | PoSetTier _ _
  | PoSetState _ _ => true
  | _ => false
  end.

(** Whether it stores a field of the entry as the caller gives it, outside the
    protocol. *)
Definition op_overwrites (op : plane_op) : bool :=
  match op with PoSetGeneration _ _ | PoSetTier _ _ | PoSetState _ _ => true | _ => false end.

(** What it does to the entry at its address. *)
Definition op_step (a : KeyAddress) (op : plane_op) (e : ControlEntry) : ControlEntry :=
  match op with
  | PoAcquire now _ t => snd (acquire_entry now t e)
  | PoPublish now _ g t d => snd (publish_entry now g t d e)
  | PoFail _ err => snd (fail_entry err e)
  | PoRelease _ | PoInvalidate _ => snd (invalidate_entry e)
  | PoBump _ => notify (increment_generation e)
  | PoReleaseClaim _ => snd (release_claim_entry e)
  | PoReserve _ => snd (reserve_entry e)
  | PoPrepare now _ g t k => snd (prepare_entry now a g t k e)
  | PoCommit now token d => snd (commit_entry now token d e)
  | PoAbort _ err => snd (abort_entry err false e)
  | PoAbortClean _ err => snd (abort_entry err true e)
  | PoAbortIntent _ err => snd (abort_intent_entry err e)
  | PoSetGeneration _ g => set_generation (wrap64 g) e
  | PoSetTier _ t => set_tier t e
  | PoSetState _ s => notify (set_state s e)
  end.

(** ** Every entry transition keeps the entry well-formed *)

Ltac entry_op := split; [cbn [snd]; eauto 12 with entry_wf|done].

Lemma acquire_ok now t : entry_op_ok (acquire_entry now t).
Proof.
  intros e He. unfold acquire_entry, state_compare_exchange.
  assert (Hput : entry_wf (put_state (state_as_u8 InFlight) e))
    by (apply (set_state_wf InFlight e He)).
  destruct (state e); try done; (destruct (ce_state e =? _)%Z; [|done]);
    entry_op.
Qed.

Lemma publish_ok now g t d : entry_op_ok (publish_entry now g t d).
Proof.
  intros e He. unfold publish_entry. destruct (_ || _); [done|].
  entry_op.
Qed.

Lemma fail_ok err : entry_op_ok (fail_entry err).
Proof. intros e He. unfold fail_entry, invalidate_entry. entry_op. Qed.

Lemma invalidate_ok : entry_op_ok invalidate_entry.
Proof. intros e He. unfold fail_entry, invalidate_entry. entry_op. Qed.

Lemma bump_ok : entry_op_ok
  (fun e => let e := increment_generation e in (Ok (generation e), notify e)).
Proof. intros e He. unfold fail_entry, invalidate_entry. entry_op. Qed.

Lemma release_claim_ok : entry_op_ok release_claim_entry.
Proof.
  intros e He. unfold release_claim_entry. destruct (_ || _); [done|].
  entry_op.
Qed.

Lemma reserve_ok : entry_op_ok reserve_entry.
Proof.
  intros e He. unfold reserve_entry. destruct (_ || _); [done|]. destruct (intent e); [done|].
  entry_op.
Qed.

Lemma prepare_ok now a g t k : entry_op_ok (prepare_entry now a g t k).
Proof.
  intros e He. unfold prepare_entry. destruct (match g with Some _ => _ | None => _ end); [done|].
  entry_op.
Qed.

Lemma commit_ok now token d : entry_op_ok (commit_entry now token d).
Proof.
  intros e He. unfold commit_entry. destruct (_ || _); [done|].
  destruct (from_index _); entry_op.
Qed.

Lemma abort_ok err clean : entry_op_ok (abort_entry err clean).
Proof.
  intros e He. unfold abort_entry. destruct (negb _); [done|].
  destruct clean; entry_op.
Qed.

Lemma abort_intent_ok err : entry_op_ok (abort_intent_entry err).
Proof.
  intros e He. unfold abort_intent_entry. destruct (intent e); [|done]. destruct (negb _); [done|].
  entry_op.
Qed.

Lemma set_generation_ok g :
  entry_op_ok (fun e => (Ok (E := CacheError) tt, set_generation (wrap64 g) e)).
Proof.
  intros e He. split; [|done]. apply set_generation_wf; [|done]. apply wrap64_u64.
Qed.

Lemma set_tier_ok t : entry_op_ok (fun e => (Ok (E := CacheError) tt, set_tier t e)).
Proof. intros e He. entry_op. Qed.

Lemma set_state_ok s : entry_op_ok (fun e => (Ok (E := CacheError) tt, notify (set_state s e))).
Proof. intros e He. entry_op. Qed.

Lemma peek_ok now : entry_op_ok (fun e => (Ok (peek_entry now e), e)).
Proof. by intros e He. Qed.

#[export] Hint Resolve acquire_ok publish_ok fail_ok invalidate_ok bump_ok release_claim_ok
  reserve_ok prepare_ok commit_ok abort_ok abort_intent_ok peek_ok set_generation_ok set_tier_ok
  set_state_ok : thesix.

(** ** Refinement: the sharded table is a map *)

(** The specification: an operation transforms one entry of a map from
    addresses to entries, creating it first when it is missing, the operation
    creates, and its shard has room. *)
Definition spec_exec (c : Cachelito) (m : KeyAddress -> option ControlEntry) (op : plane_op)
    (b : KeyAddress) : option ControlEntry :=
  let a := op_address c op in
  if decide (b = a) then
    match m a with
    | Some e => Some (op_step a op e)
    | None => if op_creates op && room_for c a then Some (op_step a op (ControlEntry_new a))
              else None
    end
  else m b.

(** Result of an operation run by a combinator, as an update of the view. *)
Lemma with_entry_view {A} c a (absent : res A) op :
  plane_ok c -> entry_op_ok op ->
  let c' := snd (with_entry c a absent op) in
  plane_ok c' /\ same_but c c' a /\
  view c' a = match view c a with Some e => Some (snd (op e)) | None => None end.
Proof.
  intros Hok Hop. pose proof (with_entry_spec c a absent op Hok Hop) as H.
  destruct (view c a) as [e|] eqn:Hv.
  - destruct H as (c' & -> & Hok' & Hsb & Hv'). cbn. auto.
  - rewrite H. cbn. split_and!; [done|apply same_but_refl|done].
Qed.

Lemma with_created_entry_view {A} c a (op : ControlEntry -> res A * ControlEntry) :
  plane_ok c -> entry_op_ok op ->
  let c' := snd (with_created_entry c a op) in
  plane_ok c' /\ same_but c c' a /\
  view c' a = match view c a with
              | Some e => Some (snd (op e))
              | None => if room_for c a then Some (snd (op (ControlEntry_new a))) else None
              end.
Proof.
  intros Hok Hop. pose proof (with_created_entry_spec c a op Hok Hop) as H.
  destruct (view c a) as [e|] eqn:Hv.
  - destruct H as (c' & -> & Hok' & Hsb & Hv'). cbn. auto.
  - destruct (room_for c a).
    + destruct H as (c' & -> & Hok' & Hsb & Hv'). cbn. auto.
    + destruct H as [-> _]. cbn. split_and!; [done|apply same_but_refl|done].
Qed.

Lemma plane_exec_spec c op :
  plane_ok c ->
  plane_ok (plane_exec c op) /\ same_but c (plane_exec c op) (op_address c op) /\
  forall b, view (plane_exec c op) b = spec_exec c (view c) op b.
Proof.
  intros Hok.
  assert (H : plane_ok (plane_exec c op) /\ same_but c (plane_exec c op) (op_address c op) /\
    view (plane_exec c op) (op_address c op) =
    match view c (op_address c op) with
    | Some e => Some (op_step (op_address c op) op e)
    | None => if op_creates op && room_for c (op_address c op)
              then Some (op_step (op_address c op) op (ControlEntry_new (op_address c op))) else None
    end).
  { destruct op; cbn [plane_exec op_address op_step op_creates andb];
      first [apply with_entry_view|apply with_created_entry_view]; auto with thesix. }
  destruct H as (Hok' & Hsb & Hv). split_and!; [done|done|].
  intros b. unfold spec_exec. cbn zeta. destruct (decide (b = op_address c op)) as [->|Hne].
  - done.
  - by apply (sb_other _ _ _ Hsb).
Qed.

(** Planes reached from a fresh one by any sequence of operations. *)
Inductive plane_reachable (n cap : nat) (p : Placement) : Cachelito -> Prop :=
| plane_reach_new :
    plane_reachable n cap p (Cachelito_with_placement (cachelito_sized n cap) p)
| plane_reach_step c op :
    plane_reachable n cap p c -> plane_reachable n cap p (plane_exec c op)
| plane_reach_sweep c now :
    plane_reachable n cap p c -> plane_reachable n cap p (snd (sweep_expired now c)).

(** *** The expiry sweep, as a map update *)

(** What the sweep does to an entry. *)
Definition sweep_step (now : Instant) (e : ControlEntry) : ControlEntry :=
  if is_authority_rung (tier e) then e
  else if bool_decide (state e = Ready) && is_expired now e then notify (set_state Stale e)
  else e.

Lemma sweep_slot_fst now o : fst (sweep_slot now o) = option_map (sweep_step now) o.
Proof. destruct o as [e|]; cbn; [|done]. unfold sweep_step. by branches. Qed.

Lemma sweep_step_address now e : ce_address (sweep_step now e) = ce_address e.
Proof. unfold sweep_step. by branches. Qed.

Lemma sweep_step_wf now e : entry_wf e -> entry_wf (sweep_step now e).
Proof. intros He. unfold sweep_step. branches; auto with entry_wf. Qed.

(** A map over the slots that keeps the addresses keeps every search. *)
Lemma find_slot_map f (s : list (option ControlEntry)) a :
  (forall e, ce_address (f e) = ce_address e) ->
  shard_find_slot (map (option_map f) s) a = shard_find_slot s a.
Proof.
  intros Hf. unfold shard_find_slot.
  destruct s as [|o l]; [done|]. set (s := o :: l).
  assert (Hne : s <> []) by done. assert (Hne' : map (option_map f) s <> []) by done.
  rewrite !search_probe by done.
  assert (Hhome : home (map (option_map f) s) (placement a) = home s (placement a))
    by (unfold home; by rewrite length_map).
  rewrite Hhome, length_map. generalize (home s (placement a)).
  induction (length s) as [|k IH]; intros i; cbn [probe]; [done|].
  rewrite list_lookup_fmap, length_map. destruct (s !! i) as [[e|]|]; cbn; [|done|done].
  rewrite Hf. destruct (decide _); [done|]. apply IH.
Qed.

Lemma sweep_shard_eq now m s :
  lock m = Some s ->
  fst (sweep_shard now m) = mkMutex (map (option_map (sweep_step now)) s) (mx_poisoned m).
Proof.
  intros Hl. unfold sweep_shard. rewrite Hl. cbn. unfold store. f_equal.
  rewrite map_map. apply map_ext. apply sweep_slot_fst.
Qed.

Lemma sweep_spec now c :
  plane_ok c ->
  let c' := snd (sweep_expired now c) in
  plane_ok c' /\ c_placement c' = c_placement c /\ c_shard_count c' = c_shard_count c /\
  forall b, view c' b = option_map (sweep_step now) (view c b).
Proof.
  intros Hok. cbn zeta. unfold sweep_expired. cbn [snd]. rewrite map_map.
  assert (Hshard : forall i m, c_shards c !! i = Some m ->
    fst (sweep_shard now m) = mkMutex (map (option_map (sweep_step now)) (mx_data m)) false).
  { intros i m Hm. destruct (pok_shards c Hok _ _ Hm) as [Hp _].
    rewrite (sweep_shard_eq now m (mx_data m)); [by rewrite Hp|]. unfold lock. by rewrite Hp. }
  assert (Hfind : forall (s : list (option ControlEntry)) b,
    find_entry (map (option_map (sweep_step now)) s) b =
    option_map (fun '(i, e) => (i, sweep_step now e)) (find_entry s b)).
  { intros s b. unfold find_entry. rewrite find_slot_map by apply sweep_step_address.
    destruct (shard_find_slot s b) as [i|]; [|done]. rewrite list_lookup_fmap.
    by destruct (s !! i) as [[e|]|]. }
  assert (Hentry : forall (s : list (option ControlEntry)) j x,
    map (option_map (sweep_step now)) s !! j = Some (Some x) ->
    exists e, s !! j = Some (Some e) /\ x = sweep_step now e).
  { intros s j x Hj. rewrite list_lookup_fmap in Hj.
    destruct (s !! j) as [[e|]|]; cbn in Hj; [|done..]. injection Hj as <-. by exists e. }
  split_and!; [|done|done|].
  - destruct Hok as [Hc Hp Hs]. constructor; cbn; [by rewrite length_map|done|].
    intros i m' Hm'. rewrite list_lookup_fmap in Hm'.
    destruct (c_shards c !! i) as [m|] eqn:Hm; cbn in Hm'; [|done]. injection Hm' as <-.
    rewrite (Hshard i m Hm). destruct (Hs _ _ Hm) as [_ [Hwf Hl Hh He]]. cbn. split; [done|].
    constructor; cbn.
    + intros j x Hj. apply Hentry in Hj as (e & Hj & ->).
      rewrite find_slot_map, sweep_step_address by apply sweep_step_address. by apply Hwf.
    + by rewrite length_map.
    + intros j x Hj. apply Hentry in Hj as (e & Hj & ->).
      unfold shard_for in *. cbn. rewrite sweep_step_address. by eapply Hh.
    + intros j x Hj. apply Hentry in Hj as (e & Hj & ->). eapply sweep_step_wf, He, Hj.
  - intros b. unfold view. cbn. unfold shard_for. cbn. rewrite list_lookup_fmap.
    fold (shard_for c b).
    destruct (c_shards c !! shard_for c b) as [m|] eqn:Hm; cbn; [|done].
    rewrite (Hshard _ _ Hm). cbn. rewrite Hfind. by destruct (find_entry _ b) as [[? ?]|].
Qed.

Lemma plane_reachable_ok n cap p c :
  plane_reachable n cap p c -> plane_ok c /\ c_placement c = p.
Proof.
  induction 1 as [|c op _ [Hok Hp]|c now _ [Hok Hp]].
  - split; [apply with_placement_ok|done].
  - destruct (plane_exec_spec c op Hok) as (Hok' & Hsb & _).
    split; [done|]. by rewrite (sb_placement _ _ _ Hsb).
  - destruct (sweep_spec now c Hok) as (Hok' & Hp' & _). split; [done|]. by rewrite Hp'.
Qed.

(** C1. The control plane refines a map from addresses to entries. On every
    plane reachable from a fresh one, each operation behaves as its
    specification: it transforms the entry of its own address and leaves every
    other address as it was -- however the addresses collide -- the expiry
    sweep acts pointwise, and creating an entry fails only when every slot of
    its shard belongs to other keys. *)
Theorem control_plane_refines_map (n cap : nat) (p : Placement) (c : Cachelito)
    (Hc : plane_reachable n cap p c) (op : plane_op) (now : Instant) (a : KeyAddress) :
  view (plane_exec c op) a = spec_exec c (view c) op a /\
  view (snd (sweep_expired now c)) a = option_map (sweep_step now) (view c a) /\
  (view c a = None -> room_for c a = false -> shard_is_full c a).
Proof.
  apply plane_reachable_ok in Hc as [Hok _]. split_and!.
  - by apply plane_exec_spec.
  - by apply sweep_spec.
  - intros Hv Hr.
    pose proof (with_created_entry_spec c a (fun e => (Ok tt, e)) Hok ltac:(by intros e He)) as H.
    rewrite Hv, Hr in H. apply H.
Qed.

Lemma control_plane_refines_map_witness :
  let c := Cachelito_with_placement (cachelito_sized 2 2) AllToZero in
  let c' := plane_exec c (PoAcquire 5 [97%Z] L1) in
  view c' (address_of c [98%Z]) = None /\
  option_map state (view c' (address_of c [97%Z])) = Some InFlight.
Proof.
  cbn zeta. split.
  - rewrite (proj1 (control_plane_refines_map 2 2 AllToZero
      (Cachelito_with_placement (cachelito_sized 2 2) AllToZero)
      (plane_reach_new 2 2 AllToZero) (PoAcquire 5 [97%Z] L1) 0%Z _)). by_decision.
  - rewrite (proj1 (control_plane_refines_map 2 2 AllToZero
      (Cachelito_with_placement (cachelito_sized 2 2) AllToZero)
      (plane_reach_new 2 2 AllToZero) (PoAcquire 5 [97%Z] L1) 0%Z _)).
    vm_compute. reflexivity.
Defined.

(** ** Results of the operations, read off the view *)

Lemma with_entry_result {A} c a (absent : res A) op :
  plane_ok c -> entry_op_ok op ->
  fst (with_entry c a absent op) = match view c a with Some e => fst (op e) | None => absent end.
Proof.
  intros Hok Hop. pose proof (with_entry_spec c a absent op Hok Hop) as H.
  destruct (view c a); [by destruct H as (? & -> & _)|by rewrite H].
Qed.

Lemma with_created_entry_result {A} c a (op : ControlEntry -> res A * ControlEntry) :
  plane_ok c -> entry_op_ok op ->
  fst (with_created_entry c a op) =
  match view c a with
  | Some e => fst (op e)
  | None => if room_for c a then fst (op (ControlEntry_new a)) else Err ConfigurationError
  end.
Proof.
  intros Hok Hop. pose proof (with_created_entry_spec c a op Hok Hop) as H.
  destruct (view c a); [by destruct H as (? & -> & _)|].
  destruct (room_for c a); [by destruct H as (? & -> & _)|by destruct H as [-> _]].
Qed.

(** [peek] is a function of the view. *)
Lemma peek_view now key c :
  plane_ok c ->
  peek now key c =
  Ok (match view c (address_of c key) with Some e => peek_entry now e | None => snapshot_absent end).
Proof.
  intros Hok. unfold peek. rewrite with_entry_result by auto with thesix.
  by destruct (view c (address_of c key)).
Qed.

(** The entry an operation that creates works on. *)
Definition entry_at (c : Cachelito) (a : KeyAddress) : ControlEntry :=
  default (ControlEntry_new a) (view c a).

(** The operation reaches an entry: it exists or can be created. *)
Definition reaches (c : Cachelito) (a : KeyAddress) : bool :=
  bool_decide (is_Some (view c a)) || room_for c a.

Lemma created_result {A} c a (op : ControlEntry -> res A * ControlEntry) :
  plane_ok c -> entry_op_ok op -> reaches c a = true ->
  fst (with_created_entry c a op) = fst (op (entry_at c a)) /\
  view (snd (with_created_entry c a op)) a = Some (snd (op (entry_at c a))).
Proof.
  intros Hok Hop Hr. rewrite with_created_entry_result by done.
  destruct (with_created_entry_view c a op Hok Hop) as (_ & _ & ->).
  unfold reaches, entry_at in *. destruct (view c a) as [e|]; cbn; [done|].
  rewrite bool_decide_false in Hr by (by intros [? ?]). cbn in Hr. by rewrite Hr.
Qed.

Lemma entry_at_wf c a : plane_ok c -> entry_wf (entry_at c a) /\ ce_address (entry_at c a) = a.
Proof.
  intros Hok. unfold entry_at. destruct (view c a) as [e|] eqn:Hv; cbn.
  - by eapply view_wf.
  - split; [apply entry_new_wf|done].
Qed.


(** Operations never change the placement, so addresses are stable. *)
Lemma exec_placement c op : plane_ok c -> c_placement (plane_exec c op) = c_placement c.
Proof. intros Hok. destruct (plane_exec_spec c op Hok) as (_ & Hsb & _). apply Hsb. Qed.

Lemma fold_exec_ok ops c :
  plane_ok c -> plane_ok (fold_left plane_exec ops c) /\
    c_placement (fold_left plane_exec ops c) = c_placement c.
Proof.
  revert c. induction ops as [|op ops IH]; intros c Hok; [done|]. cbn.
  destruct (plane_exec_spec c op Hok) as (Hok' & Hsb & _).
  destruct (IH _ Hok') as [Hok2 Hp]. split; [done|]. by rewrite Hp, (sb_placement _ _ _ Hsb).
Qed.

(** ** The transitions, state by state *)

(** Under the lock the compare-exchange always succeeds: the losing branch of
    [acquire] is unreachable. *)
Lemma acquire_entry_eq now t e :
  entry_wf e ->
  acquire_entry now t e =
  if is_claimable (state e) then
    let e' := set_population_timestamp (Some now) (set_last_error None (set_tier t
                (set_generation (add64 (generation e) 1) (set_population_owner true
                  (set_state InFlight e))))) in
    (Ok (snapshot_of now e' InFlight (add64 (generation e) 1) t true (Some now)), e')
  else (Ok (snapshot_of now e (state e) (generation e) (tier e) false None), e).
Proof.
  intros Hwf. unfold acquire_entry, state_compare_exchange.
  rewrite (state_raw e Hwf), Z.eqb_refl. by destruct (state e).
Qed.

Lemma acquire_entry_idle now t e : is_claimable (state e) = false -> snd (acquire_entry now t e) = e.
Proof. unfold acquire_entry. by destruct (state e). Qed.

Lemma acquire_entry_state now t e :
  entry_wf e -> is_claimable (state (snd (acquire_entry now t e))) = false.
Proof.
  intros Hwf. rewrite acquire_entry_eq by done. destruct (is_claimable (state e)) eqn:Hc; [|done].
  reflexivity.
Qed.

(** The generation moves by at most one, forward, in every step that does not
    store one. *)
Definition stores_generation (op : plane_op) : bool :=
  match op with PoSetGeneration _ _ => true | _ => false end.

Lemma op_step_generation a op e :
  entry_wf e -> stores_generation op = false ->
  generation (op_step a op e) = generation e \/
  generation (op_step a op e) = add64 (generation e) 1.
Proof.
  intros Hwf Hop. destruct op; try discriminate Hop; cbn [op_step]; try (right; reflexivity);
    unfold publish_entry, release_claim_entry, reserve_entry, prepare_entry, commit_entry,
      abort_entry, abort_intent_entry; try (left; reflexivity).
  - rewrite acquire_entry_eq by done. destruct (is_claimable _); [by right|by left].
  - destruct (_ || _); by left.
  - destruct (_ || _); [by left|by right].
  - destruct (_ || _); [by left|]. destruct (intent e); [by left|by right].
  - destruct (match _ with Some _ => _ | None => _ end); by left.
  - destruct (_ || _); [by left|]. destruct (from_index _); by left.
  - destruct (negb _); [by left|by right].
  - destruct (negb _); by left.
  - destruct (intent e); [|by left]. destruct (negb _); [by left|by right].
Qed.

(** A population claim is only ever held by an entry in progress. *)
Definition owner_in_progress (e : ControlEntry) : Prop :=
  is_population_owner e = true -> state e = InFlight \/ state e = Prepared.

Lemma op_step_owner a op e :
  entry_wf e -> op_overwrites op = false -> owner_in_progress e -> owner_in_progress (op_step a op e).
Proof.
  intros Hwf Hop Ho. destruct op; try discriminate Hop; cbn [op_step]; try (by intros [=]);
    unfold publish_entry, release_claim_entry, reserve_entry, prepare_entry, commit_entry,
      abort_entry, abort_intent_entry; try done.
  - rewrite acquire_entry_eq by done. destruct (is_claimable _); [|done]. intros _. by left.
  - destruct (_ || _); [done|by intros [=]].
  - destruct (_ || _); [done|by intros [=]].
  - destruct (_ || _) eqn:Hc; [done|]. destruct (intent e); [done|].
    bool_to_prop. intros Hown. exfalso.
    assert (ce_population_owner e = true) as Ht by exact Hown. unfold is_population_owner in *. congruence.
  - destruct (match _ with Some _ => _ | None => _ end); [done|]. intros _. by right.
  - destruct (_ || _); [done|]. destruct (from_index _); by intros [=].
  - destruct (negb _); [done|by intros [=]].
  - destruct (negb _); [done|by intros [=]].
  - destruct (intent e); [|done]. destruct (negb _); [done|by intros [=]].
Qed.

(** A new plane holds no entry. *)
Lemma new_view n cap p a : view (Cachelito_with_placement (cachelito_sized n cap) p) a = None.
Proof.
  destruct (shard_at _ a (with_placement_ok n cap p)) as (m & Hm & _).
  rewrite (view_at _ _ _ Hm). apply lookup_replicate in Hm as [-> _]. cbn.
  destruct (find_entry (Shard_new cap) a) as [[i y]|] eqn:Hf; [|done].
  apply find_entry_spec in Hf as [Hi _]; [|apply shard_new_wf].
  by apply lookup_replicate in Hi as [? _].
Qed.

(** A property of every entry, kept by the operation's step and had by new
    entries, is kept by the operation. *)
Lemma exec_entries (P : ControlEntry -> Prop) c op :
  plane_ok c -> (forall a, P (ControlEntry_new a)) ->
  (forall a e, entry_wf e -> P e -> P (op_step a op e)) ->
  (forall a e, view c a = Some e -> P e) -> forall a e, view (plane_exec c op) a = Some e -> P e.
Proof.
  intros Hok Hnew Hop Hc a e. rewrite (proj2 (proj2 (plane_exec_spec c op Hok))). unfold spec_exec.
  cbn zeta. destruct (decide _) as [->|_]; [|apply Hc].
  destruct (view c (op_address c op)) as [x|] eqn:Hx.
  - intros [= <-]. apply Hop; [by eapply view_wf|by eapply Hc].
  - destruct (_ && _); [|done]. intros [= <-]. apply Hop; [apply entry_new_wf|apply Hnew].
Qed.

Lemma sweep_step_owner now e : owner_in_progress e -> owner_in_progress (sweep_step now e).
Proof.
  unfold sweep_step. destruct (is_authority_rung _); [done|].
  destruct (_ && _) eqn:Hc; [|done]. bool_to_prop. intros Ho Hown.
  change (is_population_owner e = true) in Hown. destruct (Ho Hown) as [Hs|Hs]; congruence.
Qed.

(** *** Runs: operations and sweeps in any order *)

Inductive plane_action : Type :=
| PaOp (op : plane_op)
| PaSweep (now : Instant).

Definition action_exec (c : Cachelito) (act : plane_action) : Cachelito :=
  match act with PaOp op => plane_exec c op | PaSweep now => snd (sweep_expired now c) end.

(** An operation on [a] is not among them, unless it is one of [P]. *)
Definition action_on (c : Cachelito) (a : KeyAddress) (P : plane_op -> Prop) (act : plane_action) : Prop :=
  match act with PaOp op => op_address c op <> a \/ P op | PaSweep _ => True end.

Lemma op_address_placement c c' op :
  c_placement c' = c_placement c -> op_address c' op = op_address c op.
Proof. intros Hp. destruct op; cbn; unfold address_of; by rewrite ?Hp. Qed.

Lemma action_exec_spec c act :
  plane_ok c ->
  plane_ok (action_exec c act) /\ c_placement (action_exec c act) = c_placement c /\
  forall a e, view c a = Some e -> exists e', view (action_exec c act) a = Some e' /\
    match act with
    | PaOp op => if decide (op_address c op = a) then e' = op_step a op e else e' = e
    | PaSweep now => e' = sweep_step now e
    end.
Proof.
  intros Hok. destruct act as [op|now]; cbn [action_exec].
  - destruct (plane_exec_spec c op Hok) as (Hok' & Hsb & Hv).
    split_and!; [done|by apply Hsb|]. intros a e He. rewrite Hv. unfold spec_exec; cbn zeta.
    destruct (decide (a = op_address c op)) as [->|Hne].
    + rewrite He. eexists. split; [done|]. by rewrite decide_True.
    + exists e. split; [done|]. by rewrite decide_False by congruence.
  - destruct (sweep_spec now c Hok) as (Hok' & Hp & _ & Hv). split_and!; [done|done|].
    intros a e He. rewrite Hv, He. by eexists.
Qed.

(** A property of the entry at [a] kept by the operations of [P] on it and by
    the sweep is kept along any run whose operations on [a] are of [P]. *)
Lemma run_entry (P : plane_op -> Prop) (Q : ControlEntry -> Prop) a c0 acts c e :
  (forall op x, P op -> entry_wf x -> Q x -> Q (op_step a op x)) ->
  (forall now x, Q x -> Q (sweep_step now x)) ->
  plane_ok c -> c_placement c = c_placement c0 -> Forall (action_on c0 a P) acts ->
  view c a = Some e -> Q e ->
  plane_ok (fold_left action_exec acts c) /\
  c_placement (fold_left action_exec acts c) = c_placement c0 /\
  exists e', view (fold_left action_exec acts c) a = Some e' /\ Q e'.
Proof.
  intros Hop Hsw Hok Hp Hall. revert c e Hok Hp. induction Hall as [|act acts Hact _ IH];
    intros c e Hok Hp Hv Hq; [by eauto|]. cbn [fold_left].
  destruct (action_exec_spec c act Hok) as (Hok1 & Hp1 & Hv1).
  destruct (Hv1 a e Hv) as (e1 & He1 & Hstep). apply (IH _ e1); [done|congruence|done|].
  destruct (view_wf _ _ _ Hok Hv) as [Hwf _]. destruct act as [op|now]; [|subst; auto].
  rewrite (op_address_placement c0 c op) in Hstep by done. cbn in Hact.
  destruct (decide _) as [Heq|Hne]; subst e1; [|done].
  apply Hop; [by destruct Hact|done|done].
Qed.

Lemma sweep_step_generation now e : generation (sweep_step now e) = generation e.
Proof. unfold sweep_step. by branches. Qed.

(** A property of every entry of a run from a fresh plane, if new entries have
    it and the run's operations and the sweep keep it. *)
Lemma run_entries (P : plane_op -> Prop) (Q : ControlEntry -> Prop) n cap p acts :
  (forall a, Q (ControlEntry_new a)) ->
  (forall a op e, P op -> entry_wf e -> Q e -> Q (op_step a op e)) ->
  (forall now e, Q e -> Q (sweep_step now e)) ->
  Forall (fun act => match act with PaOp op => P op | PaSweep _ => True end) acts ->
  let c := fold_left action_exec acts (Cachelito_with_placement (cachelito_sized n cap) p) in
  plane_ok c /\ forall a e, view c a = Some e -> Q e.
Proof.
  intros Hnew Hop Hsw. induction acts as [|act acts IH] using rev_ind; intros Hall; cbn zeta.
  - split; [apply with_placement_ok|]. intros a e. cbn [fold_left]. by rewrite new_view.
  - apply Forall_app in Hall as [Hall [Hact _]%Forall_cons].
    destruct (IH Hall) as [Hok Hq]. rewrite fold_left_app. cbn [fold_left].
    split; [by apply action_exec_spec|]. destruct act as [op|now]; cbn [action_exec].
    + apply exec_entries; auto.
    + intros a e. rewrite (proj2 (proj2 (proj2 (sweep_spec now _ Hok)))).
      destruct (view _ a) as [x|] eqn:Hx; [|done]. cbn. intros [= <-]. by eapply Hsw, Hq.
Qed.

(** Generations along a run that stores none at [a]. *)
Lemma run_generation acts c0 c a e :
  plane_ok c -> c_placement c = c_placement c0 ->
  Forall (action_on c0 a (fun op => stores_generation op = false)) acts -> view c a = Some e ->
  plane_ok (fold_left action_exec acts c) /\
  exists e' j, view (fold_left action_exec acts c) a = Some e' /\
    (0 <= j <= Z.of_nat (length acts))%Z /\ generation e' = wrap64 (generation e + j).
Proof.
  intros Hok Hp Hall. revert c e Hok Hp. induction Hall as [|act acts Hact _ IH]; intros c e Hok Hp Hv.
  - split; [done|]. exists e, 0%Z. cbn. split_and!; [done|lia|lia|].
    rewrite Z.add_0_r, wrap64_id; [done|]. apply ewf_gen. by eapply view_wf.
  - cbn [fold_left]. destruct (action_exec_spec c act Hok) as (Hok1 & Hp1 & Hv1).
    destruct (Hv1 a e Hv) as (e1 & He1 & Hstep). destruct (view_wf _ _ _ Hok Hv) as [Hwf _].
    assert (exists i, (0 <= i <= 1)%Z /\ generation e1 = wrap64 (generation e + i)) as (i & Hi & Hg1).
    { assert (Hsame : generation e1 = generation e ->
                exists i, (0 <= i <= 1)%Z /\ generation e1 = wrap64 (generation e + i)).
      { intros ->. exists 0%Z. split; [lia|]. rewrite Z.add_0_r, wrap64_id; [done|]. apply Hwf. }
      destruct act as [op|now]; [|subst e1; apply Hsame, sweep_step_generation].
      rewrite (op_address_placement c0 c op) in Hstep by done. cbn in Hact.
      destruct (decide _) as [Heq|Hne]; subst e1; [|by apply Hsame].
      destruct (op_step_generation a op e Hwf) as [Hg|Hg]; [by destruct Hact|by apply Hsame|].
      exists 1%Z. split; [lia|done]. }
    destruct (IH _ e1 Hok1 ltac:(congruence) He1) as (Hok' & e' & j & Hv' & Hj & Hg'). split; [done|].
    exists e', (i + j)%Z. split_and!; [done|lia|cbn [length]; lia|].
    rewrite Hg', Hg1. unfold wrap64. by rewrite Zplus_mod_idemp_l, Z.add_assoc.
Qed.

(** ** Single flight *)

Definition only_acquires (c : Cachelito) (key : bytes) (op : plane_op) : Prop :=
  op_address c op <> address_of c key \/ exists now t, op = PoAcquire now key t.

Lemma fold_acquires_idle ops c c0 key e :
  plane_ok c -> c_placement c = c_placement c0 -> Forall (only_acquires c0 key) ops ->
  view c (address_of c0 key) = Some e -> is_claimable (state e) = false ->
  view (fold_left plane_exec ops c) (address_of c0 key) = Some e.
Proof.
  intros Hok Hp Hall Hv Hc. revert c Hok Hp Hv. induction Hall as [|op ops Hop _ IH];
    intros c Hok Hp Hv; [done|]. cbn.
  destruct (plane_exec_spec c op Hok) as (Hok' & Hsb & Hspec).
  apply IH; [done|by rewrite (sb_placement _ _ _ Hsb)|].
  rewrite Hspec. unfold spec_exec. cbn zeta. rewrite (op_address_placement c0 c op) by done.
  destruct Hop as [Hne|(now & t & ->)]; [by rewrite decide_False by congruence|].
  cbn [op_address op_step]. rewrite decide_True by done. rewrite Hv.
  by rewrite acquire_entry_idle.
Qed.

(** C2. Single flight. Of the callers that acquire a key, the first takes the
    population claim exactly when the entry is claimable -- the entry becomes
    [InFlight] one generation later -- and from then on, whatever else happens
    on other keys, every acquisition of that key reports that same entry
    without a claim and changes nothing: two populations never run at once.
    The losing branch of the compare-exchange is never taken. *)
Theorem acquire_is_single_flight (n cap : nat) (p : Placement) (c : Cachelito)
    (Hc : plane_reachable n cap p c) (now now' : Instant) (key : bytes) (t t' : TierId)
    (ops : list plane_op) (Hreach : reaches c (address_of c key) = true)
    (Hops : Forall (only_acquires c key) ops) :
  let e := entry_at c (address_of c key) in
  let c1 := snd (acquire now key t c) in
  let c2 := fold_left plane_exec ops c1 in
  exists s s', fst (acquire now key t c) = Ok s /\
    snap_population_owner s = is_claimable (state e) /\
    (is_claimable (state e) = true ->
       snap_state s = InFlight /\ snap_generation s = add64 (generation e) 1 /\ snap_tier s = t) /\
    fst (acquire now' key t' c2) = Ok s' /\ snap_population_owner s' = false /\
    snap_state s' = snap_state s /\ snap_generation s' = snap_generation s /\
    snap_tier s' = snap_tier s /\
    view (snd (acquire now' key t' c2)) (address_of c key) = view c1 (address_of c key).
Proof.
  apply plane_reachable_ok in Hc as [Hok _]. cbn zeta. set (a := address_of c key) in *.
  destruct (entry_at_wf c a Hok) as [Hwf _].
  destruct (created_result c a (acquire_entry now t) Hok ltac:(auto with thesix) Hreach)
    as [Hr Hv].
  destruct (with_created_entry_view c a (acquire_entry now t) Hok ltac:(auto with thesix))
    as (Hok1 & Hsb & _).
  change (with_created_entry c a (acquire_entry now t)) with (acquire now key t c) in *.
  set (c1 := snd (acquire now key t c)) in *. set (c2 := fold_left plane_exec ops c1).
  assert (Hp1 : c_placement c1 = c_placement c) by apply Hsb.
  pose proof (acquire_entry_state now t _ Hwf) as Hidle.
  pose proof (fold_acquires_idle ops c1 c key _ Hok1 Hp1 Hops Hv Hidle) as Hv2. fold c2 a in Hv2.
  destruct (fold_exec_ok ops c1 Hok1) as [Hok2 Hp2]. fold c2 in Hok2, Hp2.
  assert (Ha : address_of c2 key = a) by (unfold a, address_of; by rewrite Hp2, Hp1).
  assert (Hreach2 : reaches c2 (address_of c2 key) = true).
  { unfold reaches. rewrite Ha, Hv2. done. }
  destruct (created_result c2 _ (acquire_entry now' t') Hok2 ltac:(auto with thesix) Hreach2)
    as [Hr2 Hv2'].
  change (with_created_entry c2 (address_of c2 key) (acquire_entry now' t'))
    with (acquire now' key t' c2) in *.
  set (e1 := snd (acquire_entry now t (entry_at c a))) in *.
  assert (He2 : entry_at c2 (address_of c2 key) = e1) by (unfold entry_at; by rewrite Ha, Hv2).
  rewrite He2, Ha in *. destruct (view_wf _ _ _ Hok1 Hv) as [Hwf1 _].
  rewrite Hr, Hr2, Hv2', Hv. rewrite (acquire_entry_eq now' t' e1 Hwf1), Hidle.
  unfold e1 in *. rewrite (acquire_entry_eq now t _ Hwf) in *.
  destruct (is_claimable (state (entry_at c a))) eqn:Hcl; cbn [fst snd] in *.
  - eexists _, _. split; [reflexivity|]. split; [reflexivity|].
    split; [intros _; by split_and!|]. split; [reflexivity|].
    split_and!; try reflexivity. exact (tier_set_tier t (entry_at c a)).
  - eexists _, _. split; [reflexivity|]. split; [reflexivity|]. split; [done|].
    split; [reflexivity|]. by split_and!.
Qed.

Lemma acquire_is_single_flight_witness :
  let c := Cachelito_with_placement (cachelito_sized 2 2) PlaceDefault in
  exists s, fst (acquire 7 [97%Z] L2 c) = Ok s /\ snap_population_owner s = true.
Proof.
  cbn zeta.
  destruct (acquire_is_single_flight 2 2 PlaceDefault
    (Cachelito_with_placement (cachelito_sized 2 2) PlaceDefault)
    (plane_reach_new 2 2 PlaceDefault) 7%Z 8%Z [97%Z] L2 L3 [PoAcquire 9 [97%Z] L1; PoInvalidate [98%Z]])
    as (s & s' & Hs & Ho & _).
  - vm_compute. reflexivity.
  - constructor; [right; by exists 9%Z, L1|]. constructor; [left; by_decision|constructor].
  - exists s. split; [exact Hs|]. rewrite Ho. vm_compute. reflexivity.
Defined.
