(* ===== verification/Commit.v ===== *)
(** * Two-phase commit, aborts, eviction and the sweeps

    The protocol's safety theorems on reachable planes, stated on what the
    public operations return and on what [peek] observes. *)

From S2P Require Import Prelude Entry Integrity Probe Tier Continuity ControlEntry Shard.
From S2P Require Import Cachelito Plane Protocol.

(** ** An operation on an entry that exists *)

Lemma existing {A} c a e (absent : res A) op :
  plane_ok c -> entry_op_ok op -> view c a = Some e ->
  fst (with_entry c a absent op) = fst (op e) /\
  plane_ok (snd (with_entry c a absent op)) /\
  c_placement (snd (with_entry c a absent op)) = c_placement c /\
  view (snd (with_entry c a absent op)) a = Some (snd (op e)) /\
  (forall b, b <> a -> view (snd (with_entry c a absent op)) b = view c b).
Proof.
  intros Hok Hop Hv. rewrite with_entry_result by done.
  destruct (with_entry_view c a absent op Hok Hop) as (Hok' & Hsb & Hv').
  rewrite Hv in *. split_and!; [done|done|apply Hsb|done|apply Hsb].
Qed.

(** The prepared entry and its token. *)
Lemma prepare_entry_eq now a g t k e :
  (forall x, g = Some x -> x = generation e) ->
  prepare_entry now a g t k e =
  (Ok (mkToken a (generation e) k (as_u8 t)),
   set_population_owner true (set_state Prepared
     (set_intent (mkIntent k (as_u8 t) (generation e) (instant_to_nanos now))
        (set_intent_prev_state (state e) e)))).
Proof.
  intros Hg. unfold prepare_entry. destruct g as [x|]; [|done].
  by rewrite (Hg x eq_refl), Z.eqb_refl.
Qed.

(** The entry as [prepare] leaves it. *)
Definition prepared_entry (now : Instant) (t : TierId) (k : IntentKind) (e : ControlEntry) : ControlEntry :=
  set_population_owner true (set_state Prepared
    (set_intent (mkIntent k (as_u8 t) (generation e) (instant_to_nanos now))
       (set_intent_prev_state (state e) e))).

Lemma prepared_view now key g t k c token c1 :
  plane_ok c -> prepare now key g t k c = (Ok token, c1) ->
  let a := address_of c key in
  token = mkToken a (generation (entry_at c a)) k (as_u8 t) /\ plane_ok c1 /\ same_but c c1 a /\
  view c1 a = Some (prepared_entry now t k (entry_at c a)).
Proof.
  intros Hok Hprep a. assert (Hop : entry_op_ok (prepare_entry now a g t k)) by auto with thesix.
  assert (Hreach : reaches c a = true).
  { unfold prepare in Hprep. fold a in Hprep.
    pose proof (with_created_entry_spec c a _ Hok Hop) as H. unfold reaches.
    destruct (view c a); [done|]. cbn. destruct (room_for c a); [done|].
    destruct H as [H _]. congruence. }
  destruct (created_result c a _ Hok Hop Hreach) as [Hr Hv].
  destruct (with_created_entry_view c a _ Hok Hop) as (Hok1 & Hsb & _).
  change (with_created_entry c a (prepare_entry now a g t k)) with (prepare now key g t k c) in *.
  rewrite Hprep in Hr, Hv, Hok1, Hsb. cbn [fst snd] in *.
  assert (Hg : forall x, g = Some x -> x = generation (entry_at c a)).
  { intros x ->. unfold prepare_entry in Hr. destruct (Z.eqb_spec x (generation (entry_at c a)));
      [done|]. by cbn in Hr. }
  rewrite (prepare_entry_eq now a g t k _ Hg) in Hr, Hv. cbn [fst snd] in Hr, Hv.
  by injection Hr as ->.
Qed.

(** [commit] decides by the generation and the state alone. *)
Lemma commit_entry_accepts now token d e :
  fst (commit_entry now token d e) =
  if (generation e =? tok_generation token)%Z && bool_decide (state e = Prepared)
  then Ok tt else Err StaleGeneration.
Proof.
  unfold commit_entry, expired_by. destruct (generation e =? tok_generation token)%Z; cbn; [|done].
  by destruct (bool_decide (state e = Prepared)).
Qed.

Lemma commit_entry_rejects now token d e :
  fst (commit_entry now token d e) = Err StaleGeneration -> snd (commit_entry now token d e) = e.
Proof. unfold commit_entry. by destruct (_ || _). Qed.

(** The committed entry. *)
Lemma commit_entry_spec now token t d e :
  tok_target_tier token = as_u8 t -> fst (commit_entry now token d e) = Ok tt ->
  let e' := snd (commit_entry now token d e) in
  state e' = Ready /\ tier e' = t /\ generation e' = generation e /\
  is_population_owner e' = false /\ intent e' = None /\ last_error e' = None /\
  ttl e' = ttl (set_ttl d e) /\ population_timestamp e' = nanos_to_instant (instant_to_nanos now) /\
  ce_notified e' = S (ce_notified e).
Proof.
  intros Ht Hc. unfold commit_entry in *. destruct (_ || _); [done|].
  rewrite Ht, from_index_as_u8. cbn zeta. split_and!; try reflexivity.
  exact (tier_set_tier t e).
Qed.

Lemma commit_existing now token d c e :
  plane_ok c -> view c (tok_address token) = Some e ->
  fst (commit now token d c) =
    (if (generation e =? tok_generation token)%Z && bool_decide (state e = Prepared)
     then Ok tt else Err StaleGeneration) /\
  plane_ok (snd (commit now token d c)) /\
  view (snd (commit now token d c)) (tok_address token) = Some (snd (commit_entry now token d e)).
Proof.
  intros Hok Hv. rewrite <- (commit_entry_accepts now token d).
  destruct (existing c _ e (Err Miss) (commit_entry now token d) Hok ltac:(auto with thesix) Hv)
    as (? & ? & _ & ? & _). done.
Qed.

(** ** Publishing a population *)

(** Publication is exact: the owner's value becomes readable precisely
    when the generation it acquired is still the entry's, and then at the
    tier and TTL it names, with the claim released, the error cleared and the
    waiters woken; any generation in between makes it fail with
    [StaleGeneration] and change nothing, and an entry never created is a
    [Miss]. *)
Theorem publish_is_exact (n cap : nat) (p : Placement) (c : Cachelito)
    (Hc : plane_reachable n cap p c) (now : Instant) (key : bytes) (g : Generation) (t : TierId)
    (d : option Duration) :
  let a := address_of c key in
  match view c a with
  | None => publish now key g t d c = (Err Miss, c)
  | Some e =>
      let (r, c') := publish now key g t d c in
      if (g =? generation e)%Z then
        r = Ok tt /\ exists e', view c' a = Some e' /\ state e' = Ready /\ tier e' = t /\
          generation e' = generation e /\ is_population_owner e' = false /\
          last_error e' = None /\ ttl e' = ttl (set_ttl d e) /\
          ce_notified e' = S (ce_notified e)
      else r = Err StaleGeneration /\ view c' a = Some e
  end.
Proof.
  apply plane_reachable_ok in Hc as [Hok _]. cbn zeta.
  pose proof (with_entry_spec c (address_of c key) (Err Miss) (publish_entry now g t d) Hok
    ltac:(auto with thesix)) as H. fold (publish now key g t d c) in H.
  destruct (view c (address_of c key)) as [e|] eqn:Hv; [|done].
  destruct H as (c' & -> & _ & _ & ->). unfold publish_entry, is_stale.
  destruct (Z.eqb_spec g (generation e)) as [->|Hne].
  - rewrite Z.ltb_irrefl. cbn [orb negb fst snd]. split; [done|].
    eexists. split; [reflexivity|]. split; [reflexivity|].
    split; [exact (tier_set_tier t e)|]. by split_and!.
  - rewrite orb_true_r. done.
Qed.

(** ** Two-phase commit *)

(** What others may do to a key prepared at generation [g] without disturbing
    it: try to acquire it or to evict it, or act for another generation. *)
Definition bystander (g : Generation) (op : plane_op) : Prop :=
  match op with
  | PoAcquire _ _ _ | PoReserve _ => True
  | PoPublish _ _ g' _ _ | PoPrepare _ _ (Some g') _ _ => g' <> g
  | PoCommit _ token _ => tok_generation token <> g
  | _ => False
  end.

Lemma bystander_idle a g op e :
  state e = Prepared -> generation e = g -> bystander g op -> op_step a op e = e.
Proof.
  intros Hs <- Hop. destruct op; try done; cbn [op_step bystander] in *.
  - apply acquire_entry_idle. by rewrite Hs.
  - unfold publish_entry. by rewrite (proj2 (Z.eqb_neq _ _) Hop), orb_true_r.
  - unfold reserve_entry. by rewrite bool_decide_false by congruence.
  - destruct g as [g|]; [|done]. unfold prepare_entry. by rewrite (proj2 (Z.eqb_neq _ _) Hop).
  - apply commit_entry_rejects. rewrite commit_entry_accepts.
    by rewrite (proj2 (Z.eqb_neq _ _)) by congruence.
Qed.

Lemma prepared_sweep now e : state e = Prepared -> sweep_step now e = e.
Proof.
  intros Hs. unfold sweep_step. destruct (is_authority_rung _); [done|].
  by rewrite bool_decide_false by congruence.
Qed.

(** The operations that make a key [Prepared] (again): a prepare, and the
    direct store of a state. *)
Definition prepares_again (op : plane_op) : Prop :=
  match op with PoPrepare _ _ _ _ _ | PoSetState _ _ => True | _ => False end.

Lemma op_step_settled a op e :
  entry_wf e -> ~ prepares_again op -> state e <> Prepared -> state (op_step a op e) <> Prepared.
Proof.
  intros Hwf Hop Hs. destruct op; cbn [op_step prepares_again] in *; try done.
  - rewrite acquire_entry_eq by done. by destruct (is_claimable _).
  - unfold publish_entry. by destruct (_ || _).
  - unfold release_claim_entry. by destruct (_ || _).
  - unfold reserve_entry. destruct (_ || _); [done|]. by destruct (intent e).
  - unfold commit_entry. destruct (_ || _); [done|]. by destruct (from_index _).
  - unfold abort_entry. by rewrite bool_decide_false.
  - unfold abort_entry. by rewrite bool_decide_false.
  - unfold abort_intent_entry. destruct (intent e); [|done]. by rewrite bool_decide_false.
Qed.

Lemma sweep_step_settled now e : state e <> Prepared -> state (sweep_step now e) <> Prepared.
Proof.
  intros Hs. unfold sweep_step. destruct (is_authority_rung _); [done|]. by destruct (_ && _).
Qed.

(** A token cannot commit a key that is not [Prepared], whatever the others do
    to it short of preparing it again. *)
Lemma settled_refuses token now d acts c0 c e :
  plane_ok c -> c_placement c = c_placement c0 ->
  Forall (action_on c0 (tok_address token) (fun op => ~ prepares_again op)) acts ->
  view c (tok_address token) = Some e -> state e <> Prepared ->
  let c' := fold_left action_exec acts c in
  exists e', view c' (tok_address token) = Some e' /\
    fst (commit now token d c') = Err StaleGeneration /\
    view (snd (commit now token d c')) (tok_address token) = Some e'.
Proof.
  intros Hok Hp Hacts He Hs c'.
  destruct (run_entry (fun op => ~ prepares_again op) (fun e => state e <> Prepared)
    (tok_address token) c0 acts c e (fun op x Hop Hwf => op_step_settled _ op x Hwf Hop) sweep_step_settled Hok Hp Hacts He Hs)
    as (Hok' & _ & e' & He' & Hs').
  destruct (commit_existing now token d c' e' Hok' He') as (Hr & _ & Hv).
  rewrite bool_decide_false, andb_false_r in Hr by done. exists e'. split_and!; [done|done|].
  rewrite Hv. f_equal. apply commit_entry_rejects.
  by rewrite commit_entry_accepts, bool_decide_false, andb_false_r.
Qed.

(** C16. A prepared write stays invisible, and intact, until it commits, and its
    token commits once -- as long as no other writer prepares, publishes,
    aborts or overwrites the same key in between.
    After [prepare] the key is [Prepared]: neither readable nor claimable. It
    stays exactly that entry along any run of operations on other keys, expiry
    sweeps, and attempts of others on this key: acquisitions, evictions, and
    publications, prepares and commits for another generation. Committing after
    such a run succeeds and makes the key [Ready] at the target rung, at the
    same generation, with the TTL armed at the commit, no intent and no owner
    left, waiters woken. From then on, along any run at all in which the key is
    not prepared again (by a [prepare] or a direct store of its state), the
    token is refused and refusing it changes nothing. *)
Theorem prepared_write_is_invisible_until_commit (n cap : nat) (p : Placement) (c : Cachelito)
    (Hc : plane_reachable n cap p c) (now now' now'' : Instant) (key : bytes) (g : option Generation)
    (t : TierId) (k : IntentKind) (d d' : option Duration) (token : CommitToken) (c1 : Cachelito)
    (Hprep : prepare now key g t k c = (Ok token, c1)) (between after : list plane_action)
    (Hbetween : Forall (action_on c (address_of c key)
                  (bystander (generation (entry_at c (address_of c key))))) between)
    (Hafter : Forall (action_on c (address_of c key) (fun op => ~ prepares_again op)) after) :
  let a := address_of c key in
  let e := entry_at c a in
  let c1' := fold_left action_exec between c1 in
  exists e1, view c1 a = Some e1 /\ view c1' a = Some e1 /\
    state e1 = Prepared /\ is_readable (state e1) = false /\
    is_claimable (state e1) = false /\ generation e1 = generation e /\
    (forall b, b <> a -> view c1 b = view c b) /\
    exists c2 e2, commit now' token d c1' = (Ok tt, c2) /\ view c2 a = Some e2 /\
      state e2 = Ready /\ tier e2 = t /\ generation e2 = generation e /\
      is_population_owner e2 = false /\ intent e2 = None /\
      population_timestamp e2 = nanos_to_instant (instant_to_nanos now') /\
      ttl e2 = ttl (set_ttl d e) /\ ce_notified e2 = S (ce_notified e) /\
      let c2' := fold_left action_exec after c2 in
      exists e3, view c2' a = Some e3 /\
        fst (commit now'' token d' c2') = Err StaleGeneration /\
        view (snd (commit now'' token d' c2')) a = Some e3.
Proof.
  apply plane_reachable_ok in Hc as [Hok _]. cbn zeta. set (a := address_of c key) in *.
  destruct (prepared_view now key g t k c token c1 Hok Hprep) as (-> & Hok1 & Hsb & Hv). fold a in Hsb, Hv |- *.
  set (tok := mkToken a (generation (entry_at c a)) k (as_u8 t)) in *.
  match type of Hv with _ = Some ?e => set (e1 := e) in * end.
  set (c1' := fold_left action_exec between c1).
  destruct (run_entry (bystander (generation (entry_at c a))) (eq e1) a c between c1 e1) as (Hok1' & Hp1' & ? & Hv' & <-); try done.
  { intros op x Hop _ <-. symmetry. by eapply (bystander_idle a). }
  { intros now0 x <-. symmetry. by apply prepared_sweep. }
  { apply Hsb. }
  exists e1. split; [exact Hv|]. split; [exact Hv'|].
  split_and!; try reflexivity; [apply Hsb|].
  destruct (commit_existing now' tok d c1' e1 Hok1' Hv') as (Hcr & Hok2 & Hcv).
  assert (Hacc : fst (commit_entry now' tok d e1) = Ok tt).
  { rewrite commit_entry_accepts. unfold e1. cbn. by rewrite Z.eqb_refl. }
  destruct (commit_entry_spec now' tok t d e1 eq_refl Hacc) as (H1&H2&H3&H4&H5&H6&H7&H8&H9).
  exists (snd (commit now' tok d c1')), (snd (commit_entry now' tok d e1)).
  split; [|split_and!; try done].
  - rewrite <- (commit_entry_accepts now' tok d e1), Hacc in Hcr. rewrite <- Hcr.
    apply surjective_pairing.
  - apply (settled_refuses tok now'' d' after c _ (snd (commit_entry now' tok d e1)));
      [done| |done|done|by rewrite H1].
    rewrite <- Hp1'. apply (existing c1' a e1 (Err Miss) (commit_entry now' tok d)); auto with thesix.
Qed.

(** ** Aborts *)

Lemma abort_existing token err clean c e :
  plane_ok c -> view c (tok_address token) = Some e ->
  fst (abort_inner token err clean c) = Ok tt /\
  plane_ok (snd (abort_inner token err clean c)) /\
  view (snd (abort_inner token err clean c)) (tok_address token) =
    Some (snd (abort_entry err clean e)).
Proof.
  intros Hok Hv.
  destruct (existing c _ e (Ok tt) (abort_entry err clean) Hok ltac:(auto with thesix) Hv)
    as (Hr & ? & _ & ? & _). split_and!; [|done|done].
  change (with_entry c (tok_address token) (Ok tt) (abort_entry err clean))
    with (abort_inner token err clean c) in Hr.
  rewrite Hr. unfold abort_entry. by destruct (negb _), clean.
Qed.

Lemma abort_entry_prepared err clean e :
  state e = Prepared ->
  let e' := snd (abort_entry err clean e) in
  state e' = (if clean then intent_prev_state e else Failed) /\
  generation e' = (if clean then generation e else add64 (generation e) 1) /\
  tier e' = tier e /\ ttl e' = ttl e /\ population_timestamp e' = population_timestamp e /\
  is_population_owner e' = false /\ intent e' = None /\
  last_error e' = decode_error (encode_error (Some err)) /\ ce_notified e' = S (ce_notified e).
Proof.
  intros Hs. unfold abort_entry. rewrite bool_decide_true by done. cbn [negb].
  destruct clean; cbn zeta; split_and!; try reflexivity. apply (state_set_state _ e).
Qed.


(** ** Generations and dead tokens *)

(** C18. Generations only move forward, and a dead token stays dead: along any
    run of the plane's operations and sweeps, its direct stores of a state or a
    rung among them, in which nobody stores a generation into the entry and
    which is too short for the [u64] to wrap, the generation of an entry never
    decreases and advances at most once per operation, so a token prepared for
    an older generation is refused by every later commit. *)
Theorem dead_tokens_stay_dead (n cap : nat) (p : Placement) (c : Cachelito)
    (Hc : plane_reachable n cap p c) (acts : list plane_action) (a : KeyAddress) (e : ControlEntry)
    (He : view c a = Some e) (Hwrap : (generation e + Z.of_nat (length acts) < W64)%Z)
    (Hacts : Forall (action_on c a (fun op => stores_generation op = false)) acts) :
  let c' := fold_left action_exec acts c in
  exists e', view c' a = Some e' /\
    (generation e <= generation e' <= generation e + Z.of_nat (length acts))%Z /\
    forall token now d, tok_address token = a -> (tok_generation token < generation e)%Z ->
      fst (commit now token d c') = Err StaleGeneration /\
      view (snd (commit now token d c')) a = Some e'.
Proof.
  apply plane_reachable_ok in Hc as [Hok _]. cbn zeta.
  destruct (run_generation acts c c a e Hok eq_refl Hacts He) as (Hok' & e' & j & Hv' & Hj & Hg).
  exists e'. assert (Hge : generation e' = (generation e + j)%Z).
  { rewrite Hg. apply wrap64_id. destruct (view_wf _ _ _ Hok He) as [Hwf _].
    pose proof (ewf_gen e Hwf) as Hu. unfold u64, generation in *. lia. }
  split_and!; [done|lia|lia|]. intros token now d <- Hlt.
  destruct (commit_existing now token d _ _ Hok' Hv') as (Hr & _ & Hv2).
  rewrite (proj2 (Z.eqb_neq _ _)) in Hr by lia. cbn in Hr. split; [done|].
  rewrite Hv2. f_equal. apply commit_entry_rejects. rewrite commit_entry_accepts.
  by rewrite (proj2 (Z.eqb_neq _ _)) by lia.
Qed.

(** ** Eviction and claims *)

Lemma reserve_entry_true e :
  fst (reserve_entry e) = Ok true <->
  state e = Ready /\ is_population_owner e = false /\ intent e = None.
Proof.
  unfold reserve_entry. destruct (decide (state e = Ready)) as [Hs|Hs].
  - rewrite bool_decide_true by done. cbn. destruct (is_population_owner e); [naive_solver|].
    destruct (intent e); naive_solver.
  - rewrite bool_decide_false by done. naive_solver.
Qed.

(** C19. An eviction never races a commit. A reservation is granted exactly for
    a [Ready] entry with neither a population owner nor an outstanding intent;
    it then invalidates the entry before anything is removed -- no longer
    [Ready], claimable again, one generation later -- so that every token
    prepared for the evicted generation is refused. A refusal changes
    nothing. *)
Theorem eviction_never_races_a_commit (n cap : nat) (p : Placement) (c : Cachelito)
    (Hc : plane_reachable n cap p c) (a : KeyAddress) (e : ControlEntry)
    (He : view c a = Some e) :
  let c' := snd (reserve_eviction a c) in
  (fst (reserve_eviction a c) = Ok true <->
     state e = Ready /\ is_population_owner e = false /\ intent e = None) /\
  (fst (reserve_eviction a c) <> Ok true ->
     fst (reserve_eviction a c) = Ok false /\ view c' a = Some e) /\
  (fst (reserve_eviction a c) = Ok true ->
     exists e', view c' a = Some e' /\ state e' = Stale /\ is_claimable (state e') = true /\
       generation e' = add64 (generation e) 1 /\ tier e' = tier e /\
       forall token now d, tok_address token = a -> tok_generation token = generation e ->
         fst (commit now token d c') = Err StaleGeneration).
Proof.
  apply plane_reachable_ok in Hc as [Hok _]. cbn zeta. unfold reserve_eviction.
  destruct (existing c a e (Ok false) reserve_entry Hok reserve_ok He) as (-> & Hok' & _ & Hv & _).
  split_and!.
  - apply reserve_entry_true.
  - rewrite Hv. unfold reserve_entry. destruct (_ || _); [done|]. by destruct (intent e).
  - intros Ht. pose proof Ht as (Hs & Ho & Hi)%reserve_entry_true.
    assert (Heq : snd (reserve_entry e) = notify (set_state Stale (increment_generation e))).
    { unfold reserve_entry. rewrite bool_decide_true by done. rewrite Ho. cbn. by rewrite Hi. }
    eexists. split; [exact Hv|]. rewrite Heq in *. split_and!; try reflexivity.
    intros token now d <- Hg.
    destruct (commit_existing now token d _ _ Hok' Hv) as (Hr & _).
    unfold reserve_eviction. rewrite Hr. by rewrite bool_decide_false, andb_false_r.
Qed.

(** No entry is ever both readable and claimed: along every run from a fresh
    plane that stores no field directly, a population claim is held only by an
    entry in flight or prepared. *)
Lemma claims_are_in_progress (n cap : nat) (p : Placement) (acts : list plane_action)
    (Hacts : Forall (fun act => match act with PaOp op => op_overwrites op = false | _ => True end) acts)
    (a : KeyAddress) (e : ControlEntry) :
  view (fold_left action_exec acts (Cachelito_with_placement (cachelito_sized n cap) p)) a = Some e ->
  is_population_owner e = true -> state e = InFlight \/ state e = Prepared.
Proof.
  apply (run_entries (fun op => op_overwrites op = false) owner_in_progress); [| | |done].
  - by intros b [=].
  - intros. by apply op_step_owner.
  - intros. by apply sweep_step_owner.
Qed.

(** Releasing the claim of an abandoned prepare leaves the key claimable, so
    the next acquisition owns it; the intent survives as evidence. *)
Theorem released_claim_unblocks_the_key (n cap : nat) (p : Placement) (c : Cachelito)
    (Hc : plane_reachable n cap p c) (key : bytes) (e : ControlEntry)
    (He : view c (address_of c key) = Some e) (now : Instant) (t : TierId) :
  let (r, c') := release_population_claim (address_of c key) c in
  (r = Ok true <-> state e = Prepared /\ is_population_owner e = true) /\
  (r = Ok true ->
     exists e', view c' (address_of c key) = Some e' /\ state e' = Failed /\
       intent e' = intent e /\ generation e' = add64 (generation e) 1 /\
       exists s, fst (acquire now key t c') = Ok s /\ snap_population_owner s = true).
Proof.
  apply plane_reachable_ok in Hc as [Hok _].
  destruct (existing c _ e (Ok false) release_claim_entry Hok release_claim_ok He)
    as (Hr & Hok' & Hp & Hv & _).
  change (with_entry c (address_of c key) (Ok false) release_claim_entry)
    with (release_population_claim (address_of c key) c) in *.
  destruct (release_population_claim (address_of c key) c) as [r c']. cbn [fst snd] in *. subst r.
  unfold release_claim_entry in *.
  destruct (negb (bool_decide (state e = Prepared)) || negb (is_population_owner e)) eqn:Hcond.
  - split; [|done]. split; [done|]. intros [Hs Ho].
    rewrite bool_decide_true, Ho in Hcond by done. done.
  - bool_to_prop. split; [by split|]. intros _. cbn [snd] in Hv.
    eexists. split; [exact Hv|]. split_and!; try reflexivity.
    assert (Ha : address_of c' key = address_of c key) by (unfold address_of; by rewrite Hp).
    unfold acquire. rewrite with_created_entry_result, Ha, Hv by auto with thesix.
    rewrite acquire_entry_eq by (by eapply view_wf). cbn [fst].
    eexists. split; [reflexivity|reflexivity].
Qed.

(** ** Witnesses *)

Definition demo_key : bytes := [107%Z; 49%Z].
Definition demo_plane : Cachelito := Cachelito_with_placement (cachelito_sized 2 2) PlaceDefault.
Definition demo_acquired : Cachelito := plane_exec demo_plane (PoAcquire 5 demo_key L1).
Definition demo_ready : Cachelito := plane_exec demo_acquired (PoPublish 9 demo_key 1 L1 (Some 50%Z)).
Definition demo_prepared : Cachelito := plane_exec demo_ready (PoPrepare 12 demo_key None L2 Write).
Definition demo_token : CommitToken := mkToken (address_of demo_plane demo_key) 1 Write 2.

Lemma demo_acquired_reachable : plane_reachable 2 2 PlaceDefault demo_acquired.
Proof. apply plane_reach_step, plane_reach_new. Defined.

Lemma demo_ready_reachable : plane_reachable 2 2 PlaceDefault demo_ready.
Proof. apply plane_reach_step, demo_acquired_reachable. Defined.

Lemma demo_prepared_reachable : plane_reachable 2 2 PlaceDefault demo_prepared.
Proof. apply plane_reach_step, demo_ready_reachable. Defined.

(** The entry of the demonstration key in a plane. *)
Definition demo_entry (c : Cachelito) : ControlEntry := entry_at c (address_of demo_plane demo_key).

Lemma publish_is_exact_witness :
  fst (publish 9 demo_key 1 L1 None demo_acquired) = Ok tt /\
  fst (publish 9 demo_key 0 L1 None demo_acquired) = Err StaleGeneration.
Proof.
  pose proof (publish_is_exact 2 2 PlaceDefault demo_acquired demo_acquired_reachable 9 demo_key 1
                L1 None) as H1.
  pose proof (publish_is_exact 2 2 PlaceDefault demo_acquired demo_acquired_reachable 9 demo_key 0
                L1 None) as H2.
  vm_compute in H1, H2. vm_compute. exact (conj (proj1 H1) (proj1 H2)).
Defined.

(** Acquisitions, an eviction, a stale publication and a sweep come between
    the prepare and its commit; an invalidation and an abort after it. *)
Lemma prepared_write_is_invisible_until_commit_witness :
  let between := [PaOp (PoAcquire 13 demo_key L1); PaOp (PoReserve (address_of demo_ready demo_key));
                  PaOp (PoPublish 14 demo_key 0 L1 None); PaOp (PoInvalidate [98%Z]); PaSweep 15] in
  exists e1, view (fold_left action_exec between demo_prepared) (address_of demo_ready demo_key) = Some e1 /\
    state e1 = Prepared /\ fst (commit 16 demo_token None (fold_left action_exec between demo_prepared)) = Ok tt.
Proof.
  cbn zeta.
  destruct (prepared_write_is_invisible_until_commit 2 2 PlaceDefault demo_ready
    demo_ready_reachable 12 16 17 demo_key None L2 Write None None demo_token demo_prepared
    ltac:(vm_compute; reflexivity)
    [PaOp (PoAcquire 13 demo_key L1); PaOp (PoReserve (address_of demo_ready demo_key));
     PaOp (PoPublish 14 demo_key 0 L1 None); PaOp (PoInvalidate [98%Z]); PaSweep 15]
    [PaOp (PoInvalidate demo_key); PaOp (PoAbort demo_token Timeout)])
    as (e1 & _ & Hv & Hs & _ & _ & _ & _ & c2 & e2 & Hc & _).
  - repeat apply Forall_cons_2; cbn [action_on bystander];
      [by right|by right|right; by_decision|left; by_decision|done|constructor].
  - repeat apply Forall_cons_2; cbn [action_on prepares_again]; [right; by intros []..|constructor].
  - exists e1. split; [exact Hv|]. split; [exact Hs|]. by rewrite Hc.
Defined.


Lemma dead_tokens_stay_dead_witness :
  fst (commit 30 (mkToken (address_of demo_plane demo_key) 0 Write 2) None
         (fold_left action_exec
            [PaOp (PoInvalidate demo_key); PaOp (PoSetState demo_key Stale); PaSweep 20] demo_ready)) =
  Err StaleGeneration.
Proof.
  destruct (dead_tokens_stay_dead 2 2 PlaceDefault demo_ready demo_ready_reachable
    [PaOp (PoInvalidate demo_key); PaOp (PoSetState demo_key Stale); PaSweep 20]
    (address_of demo_plane demo_key) (demo_entry demo_ready)
    ltac:(vm_compute; reflexivity) ltac:(vm_compute; reflexivity)
    ltac:(repeat apply Forall_cons_2; [by right|by right|exact I|constructor])) as (e' & _ & _ & H).
  exact (proj1 (H (mkToken (address_of demo_plane demo_key) 0 Write 2) 30%Z None
    eq_refl ltac:(vm_compute; reflexivity))).
Defined.

Lemma eviction_never_races_a_commit_witness :
  fst (reserve_eviction (address_of demo_plane demo_key) demo_ready) = Ok true /\
  fst (reserve_eviction (address_of demo_plane demo_key) demo_prepared) = Ok false.
Proof.
  split.
  - apply (eviction_never_races_a_commit 2 2 PlaceDefault demo_ready demo_ready_reachable
      (address_of demo_plane demo_key) (demo_entry demo_ready)); vm_compute; auto.
  - apply (eviction_never_races_a_commit 2 2 PlaceDefault demo_prepared demo_prepared_reachable
      (address_of demo_plane demo_key) (demo_entry demo_prepared)); vm_compute; [reflexivity|].
    discriminate.
Defined.

Lemma released_claim_unblocks_the_key_witness :
  exists s, fst (acquire 40 demo_key L3
    (snd (release_population_claim (address_of demo_prepared demo_key) demo_prepared))) = Ok s /\
    snap_population_owner s = true.
Proof.
  pose proof (released_claim_unblocks_the_key 2 2 PlaceDefault demo_prepared demo_prepared_reachable
    demo_key (demo_entry demo_prepared) ltac:(vm_compute; reflexivity) 40%Z L3) as H.
  destruct (release_population_claim (address_of demo_prepared demo_key) demo_prepared)
    as [r c'] eqn:Hr.
  assert (Htrue : r = Ok true).
  { change r with (fst (r, c')). rewrite <- Hr. vm_compute. reflexivity. }
  destruct (proj2 H Htrue) as (e' & _ & _ & _ & _ & Hs). exact Hs.
Defined.

(** What [dead_tokens_stay_dead] excludes. A writer's token of generation 1 dies
    when the generation is bumped and another writer prepares the key for L3;
    storing 1 back into the entry revives it, and it commits the other writer's
    prepare at its own rung. *)
Lemma stored_generation_revives_a_token :
  let token := mkToken (address_of demo_plane demo_key) 1 Write (as_u8 L2) in
  let c := fold_left plane_exec [PoBump demo_key; PoPrepare 20 demo_key None L3 Write] demo_ready in
  generation (demo_entry c) = 2%Z /\
  fst (commit 30 token None c) = Err StaleGeneration /\
  fst (commit 30 token None (plane_exec c (PoSetGeneration demo_key 1))) = Ok tt /\
  tier (demo_entry (snd (commit 30 token None (plane_exec c (PoSetGeneration demo_key 1))))) = L2.
Proof. vm_compute. split_and!; reflexivity. Qed.
