(* ===== verification/Sweeps.v ===== *)
(** * The aggregate operations of the control plane

    What [plane_stats], [sweep_expired] and [stale_intents] report, related to
    the map the plane refines. *)

From S2P Require Import Prelude Entry Integrity Probe Tier Continuity ControlEntry Shard.
From S2P Require Import Cachelito Plane Protocol.

Definition count_if {A} (f : A -> bool) (l : list A) : nat := length (List.filter f l).

Lemma count_if_cons {A} (f : A -> bool) x l :
  count_if f (x :: l) = (if f x then 1 else 0) + count_if f l.
Proof. unfold count_if. cbn. by destruct (f x). Qed.

Lemma count_if_omap {A B} (f : B -> bool) (g : A -> option B) l :
  count_if f (omap g l) = count_if (fun x => match g x with Some y => f y | None => false end) l.
Proof.
  induction l as [|x l IH]; [done|]. rewrite count_if_cons. cbn [omap list_omap].
  change (list_omap _ _ g l) with (omap g l).
  destruct (g x); [rewrite count_if_cons|]; by rewrite IH.
Qed.

Lemma count_if_map {A B} (f : B -> bool) (g : A -> B) l :
  count_if f (map g l) = count_if (fun x => f (g x)) l.
Proof. induction l as [|x l IH]; [done|]. cbn [map]. by rewrite !count_if_cons, IH. Qed.

Lemma count_if_ext {A} (f g : A -> bool) l :
  (forall x, x ∈ l -> f x = g x) -> count_if f l = count_if g l.
Proof.
  induction l as [|x l IH]; intros H; [done|]. rewrite !count_if_cons, (H x) by left. f_equal.
  apply IH. intros y Hy. apply H. by right.
Qed.

Lemma count_if_none {A} (f : A -> bool) l : (forall x, x ∈ l -> f x = false) -> count_if f l = 0.
Proof.
  intros H. rewrite (count_if_ext f (fun _ => false)) by done. clear H.
  induction l as [|x l IH]; [done|]. by rewrite count_if_cons.
Qed.

Lemma count_if_permutation {A} (f : A -> bool) l k : l ≡ₚ k -> count_if f l = count_if f k.
Proof.
  induction 1 as [|x l k _ IH|x y l|l k m _ IH1 _ IH2]; [done|by rewrite !count_if_cons, IH| |congruence].
  rewrite !count_if_cons. lia.
Qed.

Lemma count_if_le {A} (f : A -> bool) l : count_if f l <= length l.
Proof. induction l as [|x l IH]; [done|]. rewrite count_if_cons. cbn. destruct (f x); lia. Qed.

(** Histograms: every element falls in exactly one bucket. *)
Lemma histogram_sum {A} (f : A -> nat) k (l : list A) :
  (forall x, f x < k) ->
  list_sum (map (fun i => count_if (fun x => f x =? i) l) (seq 0 k)) = length l.
Proof.
  intros Hf. induction l as [|x l IH].
  - clear Hf. change (map _ _) with (map (fun _ : nat => 0) (seq 0 k)).
    generalize 0 at 2. induction k as [|k IHk]; intros i; [done|]. apply IHk.
  - cbn [length]. rewrite <- IH. clear IH. specialize (Hf x). remember (f x) as j eqn:Hj.
    assert (Hgen : forall s, s <= j ->
      list_sum (map (fun i => count_if (fun x0 => f x0 =? i) (x :: l)) (seq s (k - s))) =
      (if s <=? j then 1 else 0) +
      list_sum (map (fun i => count_if (fun x0 => f x0 =? i) l) (seq s (k - s)))).
    { intros s Hs. remember (k - s) as m eqn:Hm. revert s Hs Hm.
      induction m as [|m IHm]; intros s Hs Hm; [lia|]. cbn [seq map].
      change (list_sum (?a :: ?b)) with (a + list_sum b). rewrite count_if_cons, <- Hj.
      change (list_sum (?a :: ?b)) with (a + list_sum b).
      destruct (Nat.leb_spec s j) as [_|]; [|lia].
      destruct (Nat.eqb_spec j s) as [->|Hne].
      - assert (Hrest : map (fun i => count_if (fun x0 => f x0 =? i) (x :: l)) (seq (S s) m) =
                        map (fun i => count_if (fun x0 => f x0 =? i) l) (seq (S s) m)).
        { apply map_ext_in. intros i Hi%in_seq. rewrite count_if_cons, <- Hj.
          destruct (Nat.eqb_spec s i); [lia|done]. }
        rewrite Hrest. lia.
      - rewrite (IHm (S s)) by lia. destruct (Nat.leb_spec (S s) j); lia. }
    specialize (Hgen 0 ltac:(lia)). rewrite Nat.sub_0_r in Hgen. exact Hgen.
Qed.

(** ** The statistics *)

Lemma fold_stats now l s :
  length (ps_by_tier s) = 7 ->
  let s' := fold_left (count_entry now) l s in
  ps_capacity s' = ps_capacity s /\
  ps_occupied s' = ps_occupied s + length l /\
  (forall i, ps_by_state s' !! i = option_map (fun x => x +
     count_if (fun e => Z.to_nat (state_as_u8 (state e)) =? i) l) (ps_by_state s !! i)) /\
  (forall i, ps_by_tier s' !! i = option_map (fun x => x +
     count_if (fun e => as_usize (tier e) =? i) l) (ps_by_tier s !! i)) /\
  ps_population_owned s' = ps_population_owned s + count_if is_population_owner l /\
  ps_intents_outstanding s' = ps_intents_outstanding s +
    count_if (fun e => bool_decide (is_Some (intent e))) l /\
  ps_expired_ready s' = ps_expired_ready s + count_if (is_expired now) l.
Proof.
  revert s. induction l as [|e l IH]; intros s Hlen.
  { cbn. split_and!; try lia; intros i; destruct (_ !! i); cbn; f_equal; lia. }
  cbn [fold_left]. destruct (IH (count_entry now s e)) as (H1&H2&H3&H4&H5&H6&H7).
  { cbn [count_entry ps_by_tier]. destruct (Nat.ltb _ _); [|done]. unfold bump_at.
    by rewrite length_alter. }
  cbn [count_entry ps_capacity ps_occupied ps_population_owned ps_intents_outstanding
       ps_expired_ready] in H1, H2, H5, H6, H7.
  assert (Hbump : forall k (f : ControlEntry -> nat) (h : list nat) i, f e = k ->
    option_map (fun x => x + count_if (fun y => f y =? i) l) (bump_at k h !! i) =
    option_map (fun x => x + count_if (fun y => f y =? i) (e :: l)) (h !! i)).
  { intros k f h i Hk. unfold bump_at. rewrite count_if_cons, Hk.
    destruct (Nat.eqb_spec k i) as [<-|Hne].
    - rewrite list_lookup_alter_eq. destruct (h !! k); cbn; [f_equal; lia|done].
    - rewrite list_lookup_alter_ne by done. destruct (h !! i); cbn; [f_equal; lia|done]. }
  split_and!; [done|cbn; lia| | | | |].
  - intros i. rewrite H3. cbn [count_entry ps_by_state].
    by apply (Hbump _ (fun e => Z.to_nat (state_as_u8 (state e)))).
  - intros i. rewrite H4. cbn [count_entry ps_by_tier].
    rewrite (proj2 (Nat.ltb_lt _ _)) by (rewrite Hlen; apply as_usize_lt).
    by apply (Hbump _ (fun e => as_usize (tier e))).
  - rewrite H5, count_if_cons. destruct (is_population_owner e); lia.
  - rewrite H6, count_if_cons. destruct (bool_decide _); lia.
  - rewrite H7, count_if_cons.
    replace (bool_decide (is_Some (ttl e)) && is_expired now e) with (is_expired now e).
    + destruct (is_expired now e); lia.
    + unfold is_expired. destruct (ttl e); [done|]. by rewrite andb_false_r.
Qed.

(** The sweep order lists exactly the entries of the map. *)
Lemma sweep_entries_view c e :
  plane_ok c -> e ∈ sweep_entries c <-> view c (ce_address e) = Some e.
Proof.
  intros Hok. unfold sweep_entries. rewrite list_elem_of_In, in_concat. split.
  - intros (l & Hl & He). apply in_map_iff in Hl as (m & <- & Hm).
    apply list_elem_of_In, list_elem_of_lookup in Hm as [i Hi].
    destruct (pok_shards c Hok _ _ Hi) as [Hp Hs]. unfold lock in He. rewrite Hp in He.
    apply list_elem_of_In, list_elem_of_omap in He as (o & Ho & Heq). cbn in Heq. subst o.
    apply list_elem_of_lookup in Ho as [j Hj].
    assert (Hhome : shard_for c (ce_address e) = i) by (by eapply (sok_home _ _ _ Hs)).
    rewrite (view_at c (ce_address e) m) by (by rewrite Hhome).
    by rewrite (proj2 (find_entry_spec _ _ j e (sok_wf _ _ _ Hs)) (conj Hj eq_refl)).
  - intros Hv. destruct (shard_at c (ce_address e) Hok) as (m & Hm & Hp & Hl & Hs).
    rewrite (view_at c _ m Hm) in Hv.
    destruct (find_entry (mx_data m) (ce_address e)) as [[j x]|] eqn:Hf; [|done].
    cbn in Hv. injection Hv as ->. apply find_entry_spec in Hf as [Hj _]; [|apply Hs].
    exists (flatten_entries (mx_data m)). split.
    + apply in_map_iff. exists m. rewrite Hl. split; [done|].
      by apply list_elem_of_In, list_elem_of_lookup_2 with (i := shard_for c (ce_address e)).
    + apply list_elem_of_In, list_elem_of_omap. exists (Some e). split; [|done].
      by apply list_elem_of_lookup_2 in Hj.
Qed.

(** ... each of them once: no address is listed twice. *)
Lemma sweep_entries_NoDup c : plane_ok c -> NoDup (map ce_address (sweep_entries c)).
Proof.
  intros Hok. unfold sweep_entries.
  assert (H : forall ms k, (forall i m, ms !! i = Some m -> c_shards c !! (k + i) = Some m) ->
    let l := concat (map (fun m => match lock m with Some s => flatten_entries s | None => [] end) ms) in
    NoDup (map ce_address l) /\ forall a, a ∈ map ce_address l -> k <= shard_for c a).
  { induction ms as [|m ms IH]; intros k Hms; cbn zeta; [split; [constructor|by intros a ?%elem_of_nil]|].
    pose proof (Hms 0 m eq_refl) as Hm. rewrite Nat.add_0_r in Hm.
    destruct (pok_shards c Hok _ _ Hm) as [Hp Hs].
    destruct (IH (S k)) as [Hnd Hle].
    { intros i m' Hi. specialize (Hms (S i) m' Hi). by rewrite Nat.add_succ_r in Hms. }
    assert (Hhere : forall a, a ∈ map ce_address (flatten_entries (mx_data m)) -> shard_for c a = k).
    { intros a (e & -> & He)%list_elem_of_fmap. apply list_elem_of_omap in He as (o & Ho & Heq).
      cbn in Heq. subst o. apply list_elem_of_lookup in Ho as [j Hj]. by eapply (sok_home _ _ _ Hs). }
    cbn [map concat]. unfold lock at 1 3. rewrite Hp, map_app. split.
    - apply NoDup_app. split_and!; [|intros a Ha Hin|done].
      + unfold flatten_entries. change (@map ControlEntry KeyAddress) with (@fmap list _ ControlEntry KeyAddress).
        rewrite list_fmap_omap. apply NoDup_omap_lookup.
        intros i j [e|] [e'|] a Hi Hj He He'; try done. cbn in He, He'.
        injection He as <-. injection He' as He'.
        pose proof (proj2 (find_entry_spec (mx_data m) (ce_address e) i e (sok_wf _ _ _ Hs))
                      (conj Hi eq_refl)) as H1.
        pose proof (proj2 (find_entry_spec (mx_data m) (ce_address e) j e' (sok_wf _ _ _ Hs))
                      (conj Hj He')) as H2. congruence.
      + apply Hhere in Ha. apply Hle in Hin. lia.
    - intros a [Ha|Ha]%elem_of_app; [apply Hhere in Ha; lia|]. apply Hle in Ha. lia. }
  by apply (H (c_shards c) 0).
Qed.

Lemma flatten_length (s : list (option ControlEntry)) : length (flatten_entries s) <= length s.
Proof.
  induction s as [|[e|] s IH]; [done| |]; unfold flatten_entries in *; cbn [omap list_omap length id];
    change (list_omap _ _ id s) with (omap id s); lia.
Qed.

Lemma sweep_entries_length c :
  plane_ok c -> length (sweep_entries c) <= length (c_shards c) * c_capacity_per_shard c.
Proof.
  intros Hok. unfold sweep_entries.
  assert (Hall : Forall (fun m => length (mx_data m) = c_capacity_per_shard c) (c_shards c)).
  { apply Forall_lookup. intros i m Hm. destruct (pok_shards c Hok _ _ Hm) as [_ Hs]. apply Hs. }
  induction Hall as [|m l Hm _ IH]; cbn; [done|]. rewrite length_app.
  assert (length (match lock m with Some s => flatten_entries s | None => [] end) <=
          c_capacity_per_shard c); [|lia].
  unfold lock. destruct (mx_poisoned m); cbn; [lia|]. rewrite <- Hm. apply flatten_length.
Qed.

(** C31. The statistics account for every entry once: they range over exactly
    the entries of the map, never exceed the plane's capacity, the histograms
    by state and by rung each add up to the occupancy, and the counts of
    claims, intents and expired entries are the numbers of such entries. (The
    expired count has no state condition, although its documentation speaks
    of [Ready] entries.) *)
Theorem plane_stats_account_for_every_entry (n cap : nat) (p : Placement) (c : Cachelito)
    (Hc : plane_reachable n cap p c) (now : Instant) :
  let s := plane_stats now c in
  let l := sweep_entries c in
  (forall e, e ∈ l <-> view c (ce_address e) = Some e) /\
  ps_occupied s = length l /\ ps_occupied s <= ps_capacity s /\
  list_sum (ps_by_state s) = ps_occupied s /\ list_sum (ps_by_tier s) = ps_occupied s /\
  (forall st, ps_by_state s !! Z.to_nat (state_as_u8 st) =
     Some (count_if (fun e => bool_decide (state e = st)) l)) /\
  ps_population_owned s = count_if is_population_owner l /\
  ps_intents_outstanding s = count_if (fun e => bool_decide (is_Some (intent e))) l /\
  ps_expired_ready s = count_if (is_expired now) l.
Proof.
  apply plane_reachable_ok in Hc as [Hok _]. cbn zeta. unfold plane_stats.
  set (s0 := stats_with_capacity _ _). set (l := sweep_entries c).
  destruct (fold_stats now l s0 eq_refl) as (H1&H2&H3&H4&H5&H6&H7).
  assert (Hhist : forall (f : ControlEntry -> nat) k (h : list nat),
    (forall i, h !! i = option_map (fun x => x + count_if (fun e => f e =? i) l)
       (replicate k 0 !! i)) ->
    h = map (fun i => count_if (fun e => f e =? i) l) (seq 0 k)).
  { intros f k h Hh. apply list_eq. intros i. rewrite Hh, list_lookup_fmap.
    destruct (decide (i < k)).
    - rewrite lookup_replicate_2, lookup_seq_lt by done. done.
    - rewrite (proj2 (lookup_ge_None (replicate k 0) i)) by (rewrite length_replicate; lia).
      rewrite (proj2 (lookup_ge_None (seq 0 k) i)) by (rewrite length_seq; lia). done. }
  pose proof (Hhist (fun e => Z.to_nat (state_as_u8 (state e))) 6 _ H3) as Hst.
  pose proof (Hhist (fun e => as_usize (tier e)) 7 _ H4) as Hti.
  split_and!; [intros e; by apply sweep_entries_view|exact H2| | | | |exact H5|exact H6|exact H7].
  - rewrite H1, H2. cbn. by apply sweep_entries_length.
  - rewrite Hst, H2, histogram_sum; [done|]. intros e. by destruct (state e); vm_compute; lia.
  - rewrite Hti, H2, histogram_sum; [done|]. intros e. apply as_usize_lt.
  - intros st. rewrite H3.
    assert (Hext : count_if (fun e => Z.to_nat (state_as_u8 (state e)) =?
                                      Z.to_nat (state_as_u8 st)) l =
                   count_if (fun e => bool_decide (state e = st)) l).
    { unfold count_if. f_equal. apply List.filter_ext. intros e.
      by destruct (state e), st. }
    rewrite Hext. by destruct st.
Qed.

(** ** The expiry sweep *)

(** What the sweep demotes. *)
Definition demotable (now : Instant) (e : ControlEntry) : bool :=
  negb (is_authority_rung (tier e)) && bool_decide (state e = Ready) && is_expired now e.

Lemma sweep_slot_snd now o :
  snd (sweep_slot now o) = match o with Some e => if demotable now e then 1 else 0 | None => 0 end.
Proof.
  destruct o as [e|]; [|done]. unfold sweep_slot, demotable.
  destruct (is_authority_rung (tier e)); [done|]. cbn [negb andb].
  by destruct (bool_decide (state e = Ready) && is_expired now e).
Qed.

Lemma sweep_slot_again now o : sweep_slot now (fst (sweep_slot now o)) = (fst (sweep_slot now o), 0).
Proof.
  destruct o as [e|]; [|done]. cbn [sweep_slot].
  destruct (is_authority_rung (tier e)) eqn:Ha; cbn; [by rewrite Ha|].
  destruct (bool_decide (state e = Ready) && is_expired now e) eqn:Hd; cbn.
  - change (tier (notify (set_state Stale e))) with (tier e). rewrite Ha.
    by change (state (notify (set_state Stale e))) with Stale.
  - by rewrite Ha, Hd.
Qed.

Lemma sweep_shard_again now m :
  sweep_shard now (fst (sweep_shard now m)) = (fst (sweep_shard now m), 0).
Proof.
  unfold sweep_shard at 2 3. destruct (lock m) as [s|] eqn:Hl; cbn [fst].
  2: { unfold sweep_shard. by rewrite Hl. }
  unfold sweep_shard. rewrite (lock_store m s _ Hl). cbn zeta. rewrite !map_map. f_equal.
  - unfold store. cbn. f_equal. apply map_ext. intros o. by rewrite sweep_slot_again.
  - clear Hl. induction s as [|o s IH]; [done|]. cbn [map]. rewrite sweep_slot_again. exact IH.
Qed.

Lemma sweep_shard_count now m :
  snd (sweep_shard now m) =
  count_if (demotable now) (match lock m with Some s => flatten_entries s | None => [] end).
Proof.
  unfold sweep_shard. destruct (lock m) as [s|]; cbn [snd]; [|done]. rewrite map_map.
  rewrite (map_ext _ _ (sweep_slot_snd now)). unfold flatten_entries.
  induction s as [|[e|] s IH]; [done| |].
  - cbn [map omap list_omap id]. change (list_omap _ _ id s) with (omap id s).
    rewrite count_if_cons, <- IH. done.
  - exact IH.
Qed.

(** C30. The expiry sweep demotes exactly the [Ready] entries whose TTL ran out,
    never one on the authority rung: it returns their number, turns them
    [Stale] with their generation, rung and TTL unchanged and their waiters
    woken, leaves every other entry alone, and is idempotent -- a second sweep
    at the same instant demotes nothing and changes nothing. *)
Theorem expiry_sweep_is_exact_and_idempotent (n cap : nat) (p : Placement) (c : Cachelito)
    (Hc : plane_reachable n cap p c) (now : Instant) :
  let (k, c') := sweep_expired now c in
  k = count_if (demotable now) (sweep_entries c) /\
  sweep_expired now c' = (0, c') /\
  forall a e, view c a = Some e ->
    exists e', view c' a = Some e' /\ generation e' = generation e /\ tier e' = tier e /\
      ttl e' = ttl e /\ intent e' = intent e /\
      (demotable now e = true -> state e' = Stale /\ ce_notified e' = S (ce_notified e)) /\
      (demotable now e = false -> e' = e).
Proof.
  apply plane_reachable_ok in Hc as [Hok _].
  destruct (sweep_spec now c Hok) as (_ & _ & _ & Hv).
  destruct (sweep_expired now c) as [k c'] eqn:Hs. cbn [snd] in Hv.
  unfold sweep_expired in Hs. injection Hs as <- <-. split_and!.
  - unfold sweep_entries. rewrite map_map, (map_ext _ _ (sweep_shard_count now)).
    clear. generalize (c_shards c) as l. intros l. induction l as [|m l IH]; [done|]. cbn [map concat].
    change (list_sum (?a :: ?b)) with (a + list_sum b). rewrite IH.
    unfold count_if. by rewrite List.filter_app, length_app.
  - unfold sweep_expired. cbn [c_shards c_shard_count c_capacity_per_shard c_placement].
    rewrite !map_map. f_equal; [|f_equal].
    + clear. generalize (c_shards c) as l. intros l.
      induction l as [|m l IH]; [done|]. cbn [map]. rewrite sweep_shard_again. exact IH.
    + apply map_ext. intros m. by rewrite sweep_shard_again.
  - intros a e He. rewrite Hv, He. cbn. eexists. split; [done|].
    unfold sweep_step, demotable. destruct (is_authority_rung (tier e)); cbn [negb andb].
    { by split_and!. }
    destruct (bool_decide (state e = Ready) && is_expired now e); by split_and!.
Qed.

(** ** Outstanding intents *)

(** [stale_intents] lists exactly the addresses whose entry carries an intent
    at least that old. *)
Lemma stale_intents_spec now age c a i :
  plane_ok c ->
  (a, i) ∈ stale_intents now age c <->
  exists e, view c a = Some e /\ intent e = Some i /\
    (ci_started_nanos i <= sat_sub64 (instant_to_nanos now) age)%Z.
Proof.
  intros Hok. unfold stale_intents. rewrite list_elem_of_omap. split.
  - intros (e & He & Hi). apply (sweep_entries_view c e Hok) in He.
    destruct (intent e) as [i'|] eqn:Hie; [|done].
    destruct (Z.leb_spec (ci_started_nanos i') (sat_sub64 (instant_to_nanos now) age)); [|done].
    injection Hi as <- <-. by exists e.
  - intros (e & Hv & Hi & Hle). destruct (view_wf _ _ _ Hok Hv) as [_ Ha]. exists e. split.
    + apply (sweep_entries_view c e Hok). by rewrite Ha.
    + rewrite Hi, (proj2 (Z.leb_le _ _)), Ha by done. done.
Qed.

(** ** Witnesses *)

Lemma plane_stats_account_for_every_entry_witness :
  let c := plane_exec (Cachelito_with_placement (cachelito_sized 2 2) PlaceDefault)
             (PoAcquire 5 [97%Z] L1) in
  ps_occupied (plane_stats 9 c) = 1 /\ list_sum (ps_by_state (plane_stats 9 c)) = 1.
Proof.
  cbn zeta.
  destruct (plane_stats_account_for_every_entry 2 2 PlaceDefault
    (plane_exec (Cachelito_with_placement (cachelito_sized 2 2) PlaceDefault) (PoAcquire 5 [97%Z] L1))
    (plane_reach_step _ _ _ _ _ (plane_reach_new 2 2 PlaceDefault)) 9%Z)
    as (_ & Ho & _ & Hs & _).
  rewrite Hs, Ho. vm_compute. split; reflexivity.
Defined.

Definition sweep_demo : Cachelito :=
  plane_exec (plane_exec (Cachelito_with_placement (cachelito_sized 2 2) PlaceDefault)
    (PoAcquire 5 [97%Z] L1)) (PoPublish 6 [97%Z] 1 L1 (Some 10%Z)).

Lemma sweep_demo_reachable : plane_reachable 2 2 PlaceDefault sweep_demo.
Proof. do 2 apply plane_reach_step. apply plane_reach_new. Defined.

Lemma expiry_sweep_is_exact_and_idempotent_witness :
  exists c', sweep_expired 99 sweep_demo = (1, c') /\ sweep_expired 99 c' = (0, c').
Proof.
  pose proof (expiry_sweep_is_exact_and_idempotent 2 2 PlaceDefault sweep_demo
    sweep_demo_reachable 99%Z) as H.
  assert (Hk : fst (sweep_expired 99 sweep_demo) = 1) by (vm_compute; reflexivity).
  destruct (sweep_expired 99 sweep_demo) as [k c']. cbn in Hk. subst k.
  exists c'. split; [reflexivity|]. apply H.
Defined.
