(* ===== verification/Races.v ===== *)
(** * Interleavings the protocol does not exclude

    Executions of the control plane in which two writers, or a writer and a
    population, interfere on one key. Each is a theorem about the operations
    as they are; together they delimit what the two-phase protocol promises:
    a token is identified by its generation only, and [prepare] neither refuses
    a prepared entry nor advances the generation. *)

From S2P Require Import Prelude Entry Integrity Probe Tier Continuity ControlEntry Shard.
From S2P Require Import Cachelito Plane Protocol Commit.

(** A wedged entry: prepared, with nobody to commit or recover it. *)
Definition wedged (e : ControlEntry) : Prop :=
  state e = Prepared /\ is_population_owner e = false /\ intent e = None.

(** The operations a reader, the evictor, the recovery sweep and the governor
    use: everything but a new write or an explicit invalidation. *)
Definition recovery_op (op : plane_op) : Prop :=
  match op with
  | PoAcquire _ _ _ | PoReleaseClaim _ | PoReserve _ | PoAbortIntent _ _ => True
  | _ => False
  end.

Lemma wedged_idle a op e : wedged e -> recovery_op op -> op_step a op e = e.
Proof.
  intros (Hs & Ho & Hi) Hop. destruct op; try done; cbn [op_step].
  - apply acquire_entry_idle. by rewrite Hs.
  - unfold release_claim_entry. by rewrite Ho, orb_true_r.
  - unfold reserve_entry. by rewrite bool_decide_false by congruence.
  - unfold abort_intent_entry. by rewrite Hi.
Qed.

Lemma wedged_sweep now e : wedged e -> sweep_step now e = e.
Proof.
  intros (Hs & _). unfold sweep_step. destruct (is_authority_rung _); [done|].
  by rewrite bool_decide_false by congruence.
Qed.

Lemma wedged_forever ops c a e :
  plane_ok c -> view c a = Some e -> wedged e -> Forall recovery_op ops ->
  view (fold_left plane_exec ops c) a = Some e.
Proof.
  intros Hok Hv Hw Hops. revert c Hok Hv. induction Hops as [|op ops Hop _ IH]; intros c Hok Hv;
    [done|].
  cbn. destruct (plane_exec_spec c op Hok) as (Hok' & _ & Hspec). apply IH; [done|].
  rewrite Hspec. unfold spec_exec. cbn zeta. destruct (decide _) as [<-|_]; [|done].
  rewrite Hv. by rewrite wedged_idle.
Qed.

Lemma prepare_then_view now key g t k c token c1 :
  plane_ok c -> prepare now key g t k c = (Ok token, c1) ->
  exists e, (forall x, g = Some x -> x = generation e) /\
    (view c (address_of c key) = Some e \/
     e = ControlEntry_new (address_of c key)) /\
    plane_ok c1 /\ c_placement c1 = c_placement c /\
    token = mkToken (address_of c key) (generation e) k (as_u8 t) /\
    view c1 (address_of c key) =
      Some (snd (prepare_entry now (address_of c key) g t k e)).
Proof.
  intros Hok Hp. set (a := address_of c key).
  assert (Hop : entry_op_ok (prepare_entry now a g t k)) by auto with thesix.
  pose proof (with_created_entry_spec c a (prepare_entry now a g t k) Hok Hop) as H.
  change (with_created_entry c a (prepare_entry now a g t k)) with (prepare now key g t k c) in H.
  rewrite Hp in H. unfold entry_at.
  assert (Hcase : forall e, fst (prepare_entry now a g t k e) = Ok token ->
    (forall x, g = Some x -> x = generation e) /\ token = mkToken a (generation e) k (as_u8 t)).
  { intros e He. assert (Hg : forall x, g = Some x -> x = generation e).
    { intros x ->. unfold prepare_entry in He. by destruct (Z.eqb_spec x (generation e)). }
    split; [done|]. rewrite prepare_entry_eq in He by done. by injection He as <-. }
  destruct (view c a) as [e|] eqn:Hv.
  - destruct H as (c' & Heq & Hok' & Hsb & Hv'). injection Heq as Hr <-.
    destruct (Hcase e (eq_sym Hr)) as [Hg Ht]. exists e. split_and!; auto. apply Hsb.
  - destruct (room_for c a); [|by destruct H as [[=] _]].
    destruct H as (c' & Heq & Hok' & Hsb & Hv'). injection Heq as Hr <-.
    destruct (Hcase _ (eq_sym Hr)) as [Hg Ht]. eexists. split_and!; eauto. apply Hsb.
Qed.

(** Two writers can wedge a key. When both prepare the same key and both
    find their write provably stored nothing, the two clean aborts leave the
    entry [Prepared] with no owner and no intent: the second abort restores
    the state the second [prepare] recorded, which was [Prepared]. From there
    no acquisition claims it, no eviction or claim release is granted, the
    recovery sweep does not see it, and none of these operations changes it:
    readers wait or miss until somebody writes or invalidates the key. *)
Theorem nested_clean_aborts_wedge_the_key (n cap : nat) (p : Placement) (c c1 c2 : Cachelito)
    (Hc : plane_reachable n cap p c) (now1 now2 : Instant) (key : bytes) (t1 t2 : TierId)
    (token1 token2 : CommitToken) (err1 err2 : CacheError)
    (Hp1 : prepare now1 key None t1 Write c = (Ok token1, c1))
    (Hp2 : prepare now2 key None t2 Write c1 = (Ok token2, c2)) :
  let a := address_of c key in
  let c3 := snd (abort_proven_clean token1 err1 (snd (abort_proven_clean token2 err2 c2))) in
  exists e, view c3 a = Some e /\ wedged e /\
    (forall ops, Forall recovery_op ops -> view (fold_left plane_exec ops c3) a = Some e) /\
    (forall now, view (snd (sweep_expired now c3)) a = Some e).
Proof.
  apply plane_reachable_ok in Hc as [Hok _]. cbn zeta.
  destruct (prepare_then_view _ _ _ _ _ _ _ _ Hok Hp1) as (e0 & _ & _ & Hok1 & Hpl1 & -> & Hv1).
  assert (Ha1 : address_of c1 key = address_of c key) by (unfold address_of; by rewrite Hpl1).
  destruct (prepare_then_view _ _ _ _ _ _ _ _ Hok1 Hp2) as (e1 & _ & Hv1' & Hok2 & Hpl2 & -> & Hv2).
  rewrite Ha1 in *. set (a := address_of c key) in *.
  destruct Hv1' as [Hv1'|Hnew].
  2: { subst e1. pose proof (with_created_entry_spec c1 a (prepare_entry now2 a None t2 Write)
         Hok1 ltac:(auto with thesix)) as H. rewrite Hv1 in H.
       destruct H as (c' & Heq & _ & _ & Hv').
       unfold prepare in Hp2. rewrite Ha1 in Hp2. fold a in Hp2. rewrite Hp2 in Heq.
       injection Heq as _ <-. rewrite Hv2 in Hv'. exfalso. apply (f_equal (option_map
         intent_prev_state)) in Hv'. discriminate Hv'. }
  rewrite Hv1 in Hv1'. injection Hv1' as <-.
  destruct (abort_existing (mkToken a (generation (snd (prepare_entry now1 a None t1 Write e0)))
    Write (as_u8 t2)) err2 true c2 _ Hok2 Hv2) as (_ & Hok3 & Hv3).
  destruct (abort_existing (mkToken a (generation e0) Write (as_u8 t1)) err1 true _ _ Hok3 Hv3)
    as (_ & Hok4 & Hv4).
  eexists. split; [exact Hv4|].
  match goal with |- wedged ?e /\ _ => set (ew := e) in * end.
  assert (Hw : wedged ew) by (unfold ew; by split_and!).
  split; [done|]. split.
  - intros ops Hops. by apply (wedged_forever ops _ a ew Hok4 Hv4 Hw).
  - intros now. unfold abort_proven_clean. rewrite (proj2 (proj2 (proj2 (sweep_spec now _ Hok4)))).
    change (tok_address _) with a in Hv4. rewrite Hv4. cbn. by rewrite wedged_sweep.
Qed.

Lemma nested_clean_aborts_wedge_the_key_witness :
  let t := mkToken (address_of demo_plane demo_key) 1 Write 2 in
  exists e, view (snd (abort_proven_clean t CapacityExhausted
    (snd (abort_proven_clean t CapacityExhausted
      (snd (prepare 14 demo_key None L2 Write demo_prepared))))))
    (address_of demo_ready demo_key) = Some e /\ wedged e.
Proof.
  cbn zeta.
  destruct (nested_clean_aborts_wedge_the_key 2 2 PlaceDefault demo_ready demo_prepared
    (snd (prepare 14 demo_key None L2 Write demo_prepared)) demo_ready_reachable 12 14 demo_key
    L2 L2 demo_token demo_token CapacityExhausted CapacityExhausted
    ltac:(vm_compute; reflexivity) ltac:(vm_compute; reflexivity)) as (e & Hv & Hw & _).
  exact (ex_intro _ e (conj Hv Hw)).
Defined.

(** ** Concrete races *)

(** [key] prepared by writers A (rung 1) and B (rung 2) at one generation. *)
Definition race_a : res CommitToken * Cachelito := prepare 10 demo_key None L1 Write demo_ready.
Definition race_b : res CommitToken * Cachelito := prepare 11 demo_key None L2 Write (snd race_a).

Definition token_of (r : res CommitToken) : CommitToken :=
  match r with Ok t => t | Err _ => demo_token end.

(** A token can commit somebody else's write. Tokens carry a generation
    and [prepare] does not advance it, so after A commits and C prepares at
    the same generation, B's old token still commits: it publishes C's
    unfinished write, at B's rung, and C's own commit is then refused. *)
Lemma stale_token_commits_another_writers_prepare :
  let c1 := snd (commit 12 (token_of (fst race_a)) None (snd race_b)) in
  let race_c := prepare 13 demo_key None L3 Write c1 in
  let b := commit 14 (token_of (fst race_b)) None (snd race_c) in
  fst (commit 12 (token_of (fst race_a)) None (snd race_b)) = Ok tt /\
  is_ok (fst race_c) = true /\ fst b = Ok tt /\
  map_ok snap_state (peek 15 demo_key (snd b)) = Ok Ready /\
  map_ok snap_tier (peek 15 demo_key (snd b)) = Ok L2 /\
  fst (commit 15 (token_of (fst race_c)) None (snd b)) = Err StaleGeneration.
Proof. by vm_compute. Qed.

(** A losing writer's abort destroys the winner's prepare. An abort checks
    that the entry is [Prepared] but not whose intent it carries: A's abort
    fails the entry B has prepared, and B's commit is refused although nobody
    superseded B. *)
Lemma abort_destroys_another_writers_prepare :
  let c := snd (abort (token_of (fst race_a)) StaleGeneration (snd race_b)) in
  map_ok snap_state (peek 12 demo_key (snd race_b)) = Ok Prepared /\
  map_ok snap_state (peek 12 demo_key c) = Ok Failed /\
  fst (commit 12 (token_of (fst race_b)) None c) = Err StaleGeneration.
Proof. by vm_compute. Qed.

(** A population can publish over a prepared write. [publish] checks the
    generation only, which [prepare] leaves alone: the owner of a population
    claimed before a writer prepared makes the entry [Ready] while the
    writer's intent is outstanding -- so whatever the writer's data step put
    on that rung is readable before its commit, which is then refused. *)
Lemma publish_exposes_a_prepared_write :
  let c := snd (prepare 6 demo_key None L1 Write demo_acquired) in
  let r := publish 7 demo_key 1 L1 None c in
  map_ok snap_state (peek 7 demo_key c) = Ok Prepared /\ fst r = Ok tt /\
  map_ok snap_state (peek 8 demo_key (snd r)) = Ok Ready /\
  map_ok (fun s => bool_decide (is_Some (snap_intent s))) (peek 8 demo_key (snd r)) = Ok true /\
  fst (commit 8 demo_token None (snd r)) = Err StaleGeneration.
Proof. by vm_compute. Qed.

(** A superseded population can fail the value that replaced it:
    [fail_with_error] checks no generation, so the owner of a claim that was
    invalidated and reacquired meanwhile turns the newer committed entry
    [Failed]. *)
Lemma stale_population_fails_a_newer_value :
  let c1 := snd (invalidate demo_key demo_acquired) in
  let c2 := snd (acquire 7 demo_key L1 c1) in
  let c3 := snd (publish 8 demo_key 3 L1 None c2) in
  let c4 := snd (fail_with_error demo_key Cancelled c3) in
  map_ok snap_state (peek 9 demo_key c3) = Ok Ready /\
  map_ok snap_generation (peek 9 demo_key c3) = Ok 3%Z /\
  map_ok snap_state (peek 9 demo_key c4) = Ok Failed.
Proof. by vm_compute. Qed.

(** Nothing ties a claim to its claimant. A token from before a commit
    publishes another writer's unfinished write; a loser's abort fails the
    entry the winner has prepared; the owner of a population claimed earlier
    publishes over a prepared write; and the owner of a population that was
    superseded fails the value that replaced it. Each is a run of public
    operations on a reachable plane; in each the rightful writer's next step
    is refused or its committed value is lost. *)
Theorem claims_do_not_identify_their_writer :
  (let c := snd (prepare 13 demo_key None L3 Write
                   (snd (commit 12 (token_of (fst race_a)) None (snd race_b)))) in
   let b := commit 14 (token_of (fst race_b)) None c in
   fst b = Ok tt /\ map_ok snap_state (peek 15 demo_key (snd b)) = Ok Ready /\
   map_ok snap_tier (peek 15 demo_key (snd b)) = Ok L2) /\
  (let c := snd (abort (token_of (fst race_a)) StaleGeneration (snd race_b)) in
   fst (commit 12 (token_of (fst race_b)) None (snd race_b)) = Ok tt /\
   fst (commit 12 (token_of (fst race_b)) None c) = Err StaleGeneration) /\
  (let c := snd (prepare 6 demo_key None L1 Write demo_acquired) in
   map_ok snap_state (peek 7 demo_key c) = Ok Prepared /\
   map_ok snap_state (peek 8 demo_key (snd (publish 7 demo_key 1 L1 None c))) = Ok Ready) /\
  (let c := snd (publish 8 demo_key 3 L1 None
                   (snd (acquire 7 demo_key L1 (snd (invalidate demo_key demo_acquired))))) in
   map_ok snap_state (peek 9 demo_key c) = Ok Ready /\
   map_ok snap_state (peek 9 demo_key (snd (fail_with_error demo_key Cancelled c))) = Ok Failed).
Proof. by vm_compute. Qed.
