(* ===== verification/Telemetry.v ===== *)
(** * Telemetry

    Models [src/telemetry.rs]: key identities, operation records, the bounded
    ring sink and the latency percentiles. *)

From S2P Require Import Prelude Entry Integrity Tier Continuity.
From Stdlib Require Import String Sorting.Permutation Sorting.Sorted.
From stdpp Require Import sorting.

(** ** [KeyIdentity]: a digest and a length, never the key *)

Definition fnv1a64 (bs : bytes) : Z :=
  fold_left (fun hash b => mul64 (Z.lxor hash b) 0x00000100000001b3) bs 0xcbf29ce484222325%Z.

Record KeyIdentity : Type := mkKeyIdentity {
  kid_digest : Z;
  kid_len : Z
}.

#[export] Instance KeyIdentity_eq_dec : EqDecision KeyIdentity.
Proof. solve_decision. Defined.

Definition KeyIdentity_of (key : bytes) : KeyIdentity :=
  mkKeyIdentity (fnv1a64 key) (Z.min (Z.of_nat (length key)) U16_MAX).

(** ** Operations and outcomes *)

Inductive Operation : Type :=
| TGet | TGetOrFetch | TSet | TInvalidate | TRemove | TExists | TRefresh | TPromote | TDemote
| TRecover.

#[export] Instance Operation_eq_dec : EqDecision Operation.
Proof. solve_decision. Defined.

Definition Operation_name (o : Operation) : string :=
  match o with
  | TGet => "get" | TGetOrFetch => "get_or_fetch" | TSet => "set" | TInvalidate => "invalidate"
  | TRemove => "remove" | TExists => "exists" | TRefresh => "refresh" | TPromote => "promote"
  | TDemote => "demote" | TRecover => "recover"
  end%string.

Inductive Outcome : Type :=
| OutServed | OutMiss | OutPopulated | OutFellBack | OutDenied | OutFailed | OutCancelled.

#[export] Instance Outcome_eq_dec : EqDecision Outcome.
Proof. solve_decision. Defined.

Definition Outcome_name (o : Outcome) : string :=
  match o with
  | OutServed => "served" | OutMiss => "miss" | OutPopulated => "populated"
  | OutFellBack => "fell_back" | OutDenied => "denied" | OutFailed => "failed"
  | OutCancelled => "cancelled"
  end%string.

Definition Outcome_from_error (e : CacheError) : Outcome :=
  match e with
  | Unauthenticated | Unauthorized | PolicyDenied => OutDenied
  | Cancelled => OutCancelled
  | Miss => OutMiss
  | _ => OutFailed
  end.

(** ** [OperationRecord] *)

Record OperationRecord : Type := mkRecord {
  or_operation : Operation;
  or_key : KeyIdentity;
  or_source_tier : option TierId;
  or_destination_tier : option TierId;
  or_backend : option BackendKind;
  or_generation : option Generation;
  or_latency : Duration;
  or_outcome : Outcome;
  or_fallback : bool;
  or_failure_class : option CacheError;
  or_recovery_state : option ContinuityState
}.

Definition record_begin (op : Operation) (key : bytes) : OperationRecord :=
  mkRecord op (KeyIdentity_of key) None None None None 0 OutServed false None None.

Definition record_finish (now started : Instant) (out : Outcome) (r : OperationRecord) :
    OperationRecord :=
  mkRecord (or_operation r) (or_key r) (or_source_tier r) (or_destination_tier r) (or_backend r)
    (or_generation r) (elapsed now started) out (or_fallback r) (or_failure_class r)
    (or_recovery_state r).

Definition with_source (t : TierId) (r : OperationRecord) : OperationRecord :=
  mkRecord (or_operation r) (or_key r) (Some t) (or_destination_tier r) (or_backend r)
    (or_generation r) (or_latency r) (or_outcome r) (or_fallback r) (or_failure_class r)
    (or_recovery_state r).

Definition with_destination (t : TierId) (r : OperationRecord) : OperationRecord :=
  mkRecord (or_operation r) (or_key r) (or_source_tier r) (Some t) (or_backend r)
    (or_generation r) (or_latency r) (or_outcome r) (or_fallback r) (or_failure_class r)
    (or_recovery_state r).

Definition with_backend (b : BackendKind) (r : OperationRecord) : OperationRecord :=
  mkRecord (or_operation r) (or_key r) (or_source_tier r) (or_destination_tier r) (Some b)
    (or_generation r) (or_latency r) (or_outcome r) (or_fallback r) (or_failure_class r)
    (or_recovery_state r).

Definition with_generation (g : Generation) (r : OperationRecord) : OperationRecord :=
  mkRecord (or_operation r) (or_key r) (or_source_tier r) (or_destination_tier r) (or_backend r)
    (Some g) (or_latency r) (or_outcome r) (or_fallback r) (or_failure_class r)
    (or_recovery_state r).

Definition with_fallback (b : bool) (r : OperationRecord) : OperationRecord :=
  mkRecord (or_operation r) (or_key r) (or_source_tier r) (or_destination_tier r) (or_backend r)
    (or_generation r) (or_latency r) (or_outcome r) b (or_failure_class r)
    (or_recovery_state r).

(** A failure also decides the outcome. *)
Definition with_failure (e : CacheError) (r : OperationRecord) : OperationRecord :=
  mkRecord (or_operation r) (or_key r) (or_source_tier r) (or_destination_tier r) (or_backend r)
    (or_generation r) (or_latency r) (Outcome_from_error e) (or_fallback r) (Some e)
    (or_recovery_state r).

Definition with_recovery_state (s : ContinuityState) (r : OperationRecord) : OperationRecord :=
  mkRecord (or_operation r) (or_key r) (or_source_tier r) (or_destination_tier r) (or_backend r)
    (or_generation r) (or_latency r) (or_outcome r) (or_fallback r) (or_failure_class r) (Some s).

(** ** The bounded ring *)

Record RingTelemetry : Type := mkRing {
  ring_buf : Mutex (list OperationRecord);
  ring_cap : nat
}.

Definition RingTelemetry_new (cap : nat) : RingTelemetry := mkRing (new_mutex []) (Nat.max cap 1).

Definition ring_records (self : RingTelemetry) : list OperationRecord :=
  default [] (lock (ring_buf self)).

Definition ring_records_for (self : RingTelemetry) (key : bytes) : list OperationRecord :=
  List.filter (fun r => bool_decide (or_key r = KeyIdentity_of key)) (ring_records self).

Definition ring_len (self : RingTelemetry) : nat :=
  match lock (ring_buf self) with Some b => length b | None => 0 end.

(** [TelemetrySink::record]: a poisoned lock drops the record. *)
Definition ring_record (self : RingTelemetry) (r : OperationRecord) : RingTelemetry :=
  match lock (ring_buf self) with
  | Some buf =>
      let buf := if length buf =? ring_cap self then tail buf else buf in
      mkRing (store (ring_buf self) (buf ++ [r])) (ring_cap self)
  | None => self
  end.

(** ** Percentiles *)

Record LatencyPercentiles : Type := mkPercentiles {
  lp_count : nat;
  lp_p50 : Z;
  lp_p95 : Z;
  lp_p99 : Z;
  lp_p99_9 : Z;
  lp_max : Z
}.

(** [samples.sort_unstable()] *)
Definition sort_samples (samples : list Z) : list Z := merge_sort Z.le samples.

(** [at(num, den)] on the sorted samples: nearest rank, rounded up. *)
Definition rank_of (len : nat) (num den : Z) : Z :=
  Z.max 1 (Z.min (- ((- (num * Z.of_nat len)) / den)) (Z.of_nat len)).

Definition percentile_at (sorted : list Z) (num den : Z) : Z :=
  default 0%Z (sorted !! Z.to_nat (rank_of (length sorted) num den - 1)).

Definition percentiles_from_samples (samples : list Z) : LatencyPercentiles :=
  match samples with
  | [] => mkPercentiles 0 0 0 0 0 0
  | _ =>
      let sorted := sort_samples samples in
      mkPercentiles (length sorted) (percentile_at sorted 50 100) (percentile_at sorted 95 100)
        (percentile_at sorted 99 100) (percentile_at sorted 999 1000)
        (default 0%Z (list.last sorted))
  end.

(** [as_micros() as u64] of the recorded latencies. *)
Definition ring_percentiles (self : RingTelemetry) : LatencyPercentiles :=
  percentiles_from_samples (map (fun r => wrap64 (or_latency r / 1000)) (ring_records self)).

(** ** The ring keeps the newest records *)

Definition newest {A} (n : nat) (l : list A) : list A := drop (length l - n) l.

Lemma tail_drop {A} k (l : list A) : tail (drop k l) = drop (S k) l.
Proof. revert l. induction k as [|k IH]; intros [|x l]; try done. apply (IH l). Qed.

Lemma newest_snoc {A} n (l : list A) x :
  0 < n -> newest n (l ++ [x]) =
    (if length (newest n l) =? n then tail (newest n l) else newest n l) ++ [x].
Proof.
  intros Hn. unfold newest. rewrite length_app, length_drop. cbn [length].
  destruct (Nat.eqb_spec (length l - (length l - n)) n) as [Hfull|Hpart].
  - replace (length l + 1 - n) with (S (length l - n)) by lia.
    rewrite drop_app_le by lia. f_equal.
    by rewrite tail_drop.
  - replace (length l + 1 - n) with 0 by lia. replace (length l - n) with 0 by lia. done.
Qed.

(** The ring is bounded and keeps the newest: whatever is recorded into a
    ring of capacity [cap] (at least one), it holds exactly the last [cap]
    records in order, and the records of a key are those of its identity. *)
Theorem ring_keeps_the_newest (cap : nat) (rs : list OperationRecord) (key : bytes) :
  let ring := fold_left ring_record rs (RingTelemetry_new cap) in
  ring_records ring = newest (Nat.max cap 1) rs /\
  ring_len ring = Nat.min (length rs) (Nat.max cap 1) /\
  (forall r, r ∈ ring_records_for ring key <->
     r ∈ newest (Nat.max cap 1) rs /\ or_key r = KeyIdentity_of key).
Proof.
  cbn zeta.
  assert (H : fold_left ring_record rs (RingTelemetry_new cap) =
              mkRing (new_mutex (newest (Nat.max cap 1) rs)) (Nat.max cap 1)).
  { induction rs as [|r rs IH] using rev_ind; [done|].
    rewrite fold_left_app, IH. cbn [fold_left]. unfold ring_record. cbn -[Nat.max newest].
    unfold store, new_mutex. cbn -[Nat.max newest]. rewrite newest_snoc by lia. done. }
  rewrite H. unfold ring_records_for, ring_records, ring_len. cbn -[Nat.max newest].
  split_and!; [done| |].
  - unfold newest. rewrite length_drop. lia.
  - intros r. rewrite list_elem_of_In, filter_In, <- list_elem_of_In, bool_decide_eq_true. done.
Qed.

(** ** The percentiles are nearest-rank *)

Definition count_le (x : Z) (l : list Z) : nat := length (List.filter (fun y => (y <=? x)%Z) l).
Definition count_lt (x : Z) (l : list Z) : nat := length (List.filter (fun y => (y <? x)%Z) l).

Lemma filter_length_perm {A} (f : A -> bool) (l l' : list A) :
  l ≡ₚ l' -> length (List.filter f l) = length (List.filter f l').
Proof. induction 1; cbn; repeat destruct (f _); cbn; congruence. Qed.

Lemma count_split (f : Z -> bool) (l : list Z) k :
  length (List.filter f l) =
  length (List.filter f (take k l)) + length (List.filter f (drop k l)).
Proof. rewrite <- (take_drop k l) at 1. by rewrite List.filter_app, length_app. Qed.

Lemma filter_all (f : Z -> bool) (l : list Z) :
  Forall (fun y => f y = true) l -> length (List.filter f l) = length l.
Proof. induction 1 as [|x l Hx _ IH]; [done|]. cbn. rewrite Hx. cbn. by rewrite IH. Qed.

Lemma filter_none (f : Z -> bool) (l : list Z) :
  Forall (fun y => f y = false) l -> length (List.filter f l) = 0.
Proof. induction 1 as [|x l Hx _ IH]; [done|]. cbn. by rewrite Hx. Qed.

(** In a sorted list the element at [k] has more than [k] elements at or below
    it and at most [k] strictly below it. *)
Lemma sorted_rank (l : list Z) k x :
  StronglySorted Z.le l -> l !! k = Some x -> k < count_le x l /\ count_lt x l <= k.
Proof.
  revert k. induction l as [|y l IH]; intros k Hs Hk; [done|].
  inversion Hs as [|? ? Hs' Hall]; subst. destruct k as [|k].
  - cbn in Hk. injection Hk as ->. unfold count_le, count_lt. cbn.
    rewrite Z.leb_refl, Z.ltb_irrefl. cbn. split; [lia|].
    rewrite filter_none; [lia|]. eapply Forall_impl; [exact Hall|]. cbn. intros z Hz.
    apply Z.ltb_ge. lia.
  - destruct (IH k Hs' Hk) as [H1 H2]. unfold count_le, count_lt in *. cbn.
    assert (Hyx : (y <= x)%Z) by (eapply Forall_lookup_1 in Hall; [exact Hall|exact Hk]).
    rewrite (proj2 (Z.leb_le _ _) Hyx). cbn. split; [lia|]. destruct (y <? x)%Z; cbn; lia.
Qed.

Lemma rank_of_spec len num den :
  (0 < num <= den)%Z -> 0 < len ->
  let r := rank_of len num den in
  (1 <= r <= Z.of_nat len)%Z /\ (num * Z.of_nat len <= r * den)%Z /\
  ((r - 1) * den < num * Z.of_nat len)%Z.
Proof.
  intros Hn Hl. cbn zeta. unfold rank_of.
  pose proof (Z.div_mod (- (num * Z.of_nat len)) den ltac:(lia)) as Hdm.
  pose proof (Z.mod_pos_bound (- (num * Z.of_nat len)) den ltac:(lia)) as Hmod.
  set (q := ((- (num * Z.of_nat len)) / den)%Z) in *.
  assert (1 <= - q)%Z by nia. assert (- q <= Z.of_nat len)%Z by nia.
  rewrite Z.min_l, Z.max_r by lia. split_and!; nia.
Qed.

(** The reported percentiles are exact nearest-rank order statistics: for
    the quantile [num/den] the value is one of the samples, at least that
    share of the samples is at or below it, and less than that share is
    strictly below it; the extremes are bounded by the reported maximum. *)
Theorem percentiles_are_nearest_rank (samples : list Z) (num den : Z)
    (Hq : (0 < num <= den)%Z) (Hne : samples <> []) :
  let x := percentile_at (sort_samples samples) num den in
  x ∈ samples /\
  (num * Z.of_nat (length samples) <= Z.of_nat (count_le x samples) * den)%Z /\
  (Z.of_nat (count_lt x samples) * den < num * Z.of_nat (length samples))%Z /\
  (x <= lp_max (percentiles_from_samples samples))%Z.
Proof.
  cbn zeta. set (l := sort_samples samples).
  assert (Hp : l ≡ₚ samples) by apply merge_sort_Permutation.
  assert (Hs : StronglySorted Z.le l) by (apply StronglySorted_merge_sort; apply _).
  assert (Hlen : length l = length samples) by (by rewrite Hp).
  assert (Hpos : 0 < length samples) by (destruct samples; [done|cbn; lia]).
  destruct (rank_of_spec (length l) num den Hq ltac:(lia)) as (Hr & Hr1 & Hr2).
  unfold percentile_at. set (r := rank_of (length l) num den) in *.
  destruct (lookup_lt_is_Some_2 l (Z.to_nat (r - 1)) ltac:(lia)) as [x Hx]. rewrite Hx. cbn.
  destruct (sorted_rank l _ x Hs Hx) as [Hle Hlt].
  assert (Hcle : count_le x samples = count_le x l) by (by apply filter_length_perm; symmetry).
  assert (Hclt : count_lt x samples = count_lt x l) by (by apply filter_length_perm; symmetry).
  split_and!.
  - rewrite <- Hp. by apply list_elem_of_lookup_2 in Hx.
  - rewrite Hcle. rewrite Hlen in *. nia.
  - rewrite Hclt. rewrite Hlen in *. nia.
  - assert (Hmax : lp_max (percentiles_from_samples samples) = default 0%Z (list.last l))
      by (by destruct samples).
    rewrite Hmax. destruct (exists_last (l := l)) as (l' & y & Hl').
    { intros Hnil. rewrite Hnil in Hlen. cbn in Hlen. lia. }
    rewrite Hl' in *. rewrite last_snoc. cbn.
    apply lookup_app_Some in Hx as [Hx|[_ Hx]].
    + apply StronglySorted_app in Hs as (Hs & _).
      apply Hs; [by apply list_elem_of_lookup_2 in Hx|by apply list_elem_of_singleton].
    + apply list_lookup_singleton_Some in Hx as [_ ->]. lia.
Qed.

Lemma percentiles_are_nearest_rank_witness :
  percentile_at (sort_samples [30%Z; 10%Z; 20%Z; 40%Z]) 50 100 ∈ [30%Z; 10%Z; 20%Z; 40%Z].
Proof.
  apply (percentiles_are_nearest_rank [30%Z; 10%Z; 20%Z; 40%Z] 50 100); [lia|discriminate].
Defined.
