(* ===== verification/Prog.v ===== *)
(** * Asynchronous programs with interference and cancellation

    The operations of [CacheManager] are async functions that run among other
    callers and can be dropped at any [.await]. A program is a tree of
    synchronous steps and awaits over the shared world; [run] executes it in
    an environment that decides the clock, what other callers do before every
    step, whether an awaited operation finishes in time, and at which await --
    if any -- the caller drops the future. A dropped future runs the armed
    [Drop] guards, innermost first. *)

From S2P Require Import Prelude Entry Integrity Tier Telemetry ControlEntry Shard Cachelito.

(** What all callers share: the control plane, the health registry, the bound
    tiers, the shard cursor and the telemetry sink. *)
Record World (T : Type) : Type := mkWorld {
  w_ctl : Cachelito;
  w_reg : TierRegistry;
  w_tiers : list T;
  w_cursor : Z;
  w_sink : list OperationRecord
}.
Arguments mkWorld {T}.
Arguments w_ctl {T} _.
Arguments w_reg {T} _.
Arguments w_tiers {T} _.
Arguments w_cursor {T} _.
Arguments w_sink {T} _.

Definition set_ctl {T} (c : Cachelito) (w : World T) : World T :=
  mkWorld c (w_reg w) (w_tiers w) (w_cursor w) (w_sink w).
Definition set_reg {T} (r : TierRegistry) (w : World T) : World T :=
  mkWorld (w_ctl w) r (w_tiers w) (w_cursor w) (w_sink w).
Definition set_tiers {T} (ts : list T) (w : World T) : World T :=
  mkWorld (w_ctl w) (w_reg w) ts (w_cursor w) (w_sink w).
Definition set_cursor {T} (c : Z) (w : World T) : World T :=
  mkWorld (w_ctl w) (w_reg w) (w_tiers w) c (w_sink w).
Definition set_sink {T} (s : list OperationRecord) (w : World T) : World T :=
  mkWorld (w_ctl w) (w_reg w) (w_tiers w) (w_cursor w) s.

(** ** Drop guards *)

(** An armed [PopulationGuard] or [IntentGuard]. *)
Inductive guard : Type :=
| GPopulation (key : bytes)
| GIntent (token : CommitToken).

Definition drop_guard {T} (g : guard) (w : World T) : World T :=
  match g with
  | GPopulation key => set_ctl (snd (fail_with_error key Cancelled (w_ctl w))) w
  | GIntent token => set_ctl (snd (abort token Cancelled (w_ctl w))) w
  end.

Definition drop_guards {T} (gs : list guard) (w : World T) : World T :=
  fold_left (fun w g => drop_guard g w) gs w.

(** ** Programs *)

Inductive prog (T A : Type) : Type :=
| Ret (a : A)
| Step {B : Type} (f : Instant -> World T -> B * World T) (k : B -> prog T A)
| Await {B : Type} (armed : list guard) (bounded : bool)
    (op : Instant -> World T -> res B * World T) (k : res B -> prog T A)
| Pause (armed : list guard) (k : prog T A)
| Notified (armed : list guard) (a : KeyAddress) (seen : nat) (k : res unit -> prog T A).
Arguments Ret {T A} a.
Arguments Step {T A B} f k.
Arguments Await {T A B} armed bounded op k.
Arguments Pause {T A} armed k.
Arguments Notified {T A} armed a seen k.

Fixpoint bind {T A B} (p : prog T A) (f : A -> prog T B) : prog T B :=
  match p with
  | Ret a => f a
  | Step g k => Step g (fun b => bind (k b) f)
  | Await armed bounded op k => Await armed bounded op (fun r => bind (k r) f)
  | Pause armed k => Pause armed (bind k f)
  | Notified armed a seen k => Notified armed a seen (fun r => bind (k r) f)
  end.

Notation "'let!' x ':=' p 'in' k" := (bind p (fun x => k))
  (at level 10, x name, p at level 100, k at level 200) : thesix_scope.

(** [let x = p.await?; k] *)
Notation "'let!?' x ':=' p 'in' k" :=
  (bind p (fun r => match r with Ok x => k | Err e => Ret (Err e) end))
  (at level 10, x name, p at level 100, k at level 200) : thesix_scope.

(** One synchronous step. *)
Definition atomically {T B} (f : Instant -> World T -> B * World T) : prog T B := Step f Ret.

(** An operation of the control plane: one critical section. *)
Definition ctl {T B} (op : Instant -> Cachelito -> B * Cachelito) : prog T B :=
  atomically (fun now w => let '(b, c) := op now (w_ctl w) in (b, set_ctl c w)).

(** Reading the world without changing it. *)
Definition ask {T B} (f : Instant -> World T -> B) : prog T B := atomically (fun now w => (f now w, w)).

Definition await {T B} (armed : list guard) (bounded : bool)
    (op : Instant -> World T -> res B * World T) : prog T (res B) :=
  Await armed bounded op Ret.

Definition pause {T} (armed : list guard) : prog T unit := Pause armed (Ret tt).

Definition notified {T} (armed : list guard) (a : KeyAddress) (seen : nat) : prog T (res unit) :=
  Notified armed a seen Ret.

(** ** Environments *)

(** What becomes of an await: done in time; not done within the bound, its
    effect lost or applied; or the future is dropped there, likewise. *)
Inductive pace : Type := OnTime | LateLost | LateApplied | DroppedLost | DroppedApplied.

Record Env (T : Type) : Type := mkEnv {
  env_clock : nat -> Instant;
  env_others : nat -> World T -> World T;
  env_pace : nat -> pace
}.
Arguments mkEnv {T}.
Arguments env_clock {T} _ _.
Arguments env_others {T} _ _ _.
Arguments env_pace {T} _ _.

(** Wake-ups issued so far for an address. *)
Definition wakeups {T} (a : KeyAddress) (w : World T) : nat :=
  match c_shards (w_ctl w) !! shard_for (w_ctl w) a with
  | Some m => match find_entry (mx_data m) a with Some (_, e) => ce_notified e | None => 0 end
  | None => 0
  end.

(** The result, or nothing when the future was dropped, and the world. *)
Fixpoint run {T A} (env : Env T) (n : nat) (p : prog T A) (w : World T) : option A * World T :=
  match p with
  | Ret a => (Some a, w)
  | Step f k =>
      let '(b, w) := f (env_clock env n) (env_others env n w) in
      run env (S n) (k b) w
  | Await armed bounded op k =>
      let w := env_others env n w in
      let '(r, w') := op (env_clock env n) w in
      match env_pace env n with
      | OnTime => run env (S n) (k r) w'
      | LateLost => if bounded then run env (S n) (k (Err Timeout)) w else run env (S n) (k r) w'
      | LateApplied =>
          if bounded then run env (S n) (k (Err Timeout)) w' else run env (S n) (k r) w'
      | DroppedLost => (None, drop_guards armed w)
      | DroppedApplied => (None, drop_guards armed w')
      end
  | Pause armed k =>
      let w := env_others env n w in
      match env_pace env n with
      | DroppedLost | DroppedApplied => (None, drop_guards armed w)
      | _ => run env (S n) k w
      end
  | Notified armed a seen k =>
      let w := env_others env n w in
      match env_pace env n with
      | DroppedLost | DroppedApplied => (None, drop_guards armed w)
      | OnTime => run env (S n) (k (if seen <? wakeups a w then Ok tt else Err Timeout)) w
      | _ => run env (S n) (k (Err Timeout)) w
      end
  end.

(** Nobody else is running. *)
Definition alone {T} (clock : nat -> Instant) (pc : nat -> pace) : Env T :=
  mkEnv clock (fun _ w => w) pc.

(** ** What a program can return, whatever the world *)

Section returns.
Context {T : Type}.

Fixpoint returns {A} (p : prog T A) (phi : A -> Prop) : Prop :=
  match p with
  | Ret a => phi a
  | Step f k => forall now w, returns (k (fst (f now w))) phi
  | Await armed bounded op k =>
      (forall now w, returns (k (fst (op now w))) phi) /\ (bounded = true -> returns (k (Err Timeout)) phi)
  | Pause armed k => returns k phi
  | Notified armed a seen k => forall r, returns (k r) phi
  end.

Lemma returns_mono {A} (p : prog T A) (phi phi' : A -> Prop) :
  (forall a, phi a -> phi' a) -> returns p phi -> returns p phi'.
Proof.
  intros H. induction p as [a|B f k IH|B armed b op k IH|armed k IH|armed a s k IH]; cbn; auto.
  intros [Hk Ht]. auto.
Qed.

Lemma returns_bind {A B} (p : prog T A) (f : A -> prog T B) phi psi :
  returns p psi -> (forall a, psi a -> returns (f a) phi) -> returns (bind p f) phi.
Proof.
  intros Hp Hf. induction p as [a|C g k IH|C armed b op k IH|armed k IH|armed a s k IH]; cbn in *; auto.
  destruct Hp. auto.
Qed.

(** Any program returns something or nothing. *)
Lemma returns_any {A} (p : prog T A) : returns p (fun _ => True).
Proof. induction p; cbn; auto. Qed.

Lemma run_returns {A} (env : Env T) n (p : prog T A) w phi a :
  returns p phi -> fst (run env n p w) = Some a -> phi a.
Proof.
  intros Hp. revert n w. induction p as [x|B f k IH|B armed b op k IH|armed k IH|armed x s k IH];
    intros n w; cbn in *.
  - by intros [= <-].
  - specialize (Hp (env_clock env n) (env_others env n w)). destruct (f _ _) as [y w']. by apply IH.
  - destruct Hp as [Hk Ht]. specialize (Hk (env_clock env n) (env_others env n w)).
    destruct (op _ _) as [r w']. destruct (env_pace env n); [|destruct b|destruct b|done|done];
      apply IH; auto.
  - destruct (env_pace env n); try done; by apply IH.
  - destruct (env_pace env n); try done; by apply IH.
Qed.

(** The caller dropped the future at some await from the [n]-th step on. *)
Definition dropped (env : Env T) (n : nat) : Prop :=
  exists m, n <= m /\ (env_pace env m = DroppedLost \/ env_pace env m = DroppedApplied).

Lemma dropped_later env n : dropped env (S n) -> dropped env n.
Proof. intros (m & Hm & Hd). exists m. split; [lia|done]. Qed.

(** A program comes to its end, unless its future is dropped on the way. *)
Lemma run_finishes {A} (env : Env T) n (p : prog T A) w :
  fst (run env n p w) = None -> dropped env n.
Proof.
  assert (Hnext : forall A (q : prog T A) n w',
    (forall n w, fst (run env n q w) = None -> dropped env n) ->
    fst (run env (S n) q w') = None -> dropped env n)
    by (intros A' q n' w' IH H; by apply dropped_later, (IH (S n') w')).
  revert n w. induction p as [x|B f k IH|B armed b op k IH|armed k IH|armed x s k IH];
    intros n w; cbn; [done|destruct (f _ _); apply Hnext, IH|destruct (op _ _)| |];
    (destruct (env_pace env n) eqn:Hp; try destruct b; intros H;
     first [eapply Hnext; [apply IH|exact H]|exists n; auto]).
Qed.

(** What a run ends with, when nothing is known of the environment. *)
Lemma run_ends {A} (env : Env T) n (p : prog T A) w phi :
  returns p phi ->
  match fst (run env n p w) with Some a => phi a | None => dropped env n end.
Proof.
  intros Hp. destruct (fst (run env n p w)) eqn:Hr; [by eapply run_returns|by eapply run_finishes].
Qed.
End returns.

(** ** Guarantees under interference *)

Section guarantee.
Context {T : Type} (I : World T -> Prop) (G : World T -> World T -> Prop).

(** From every world that satisfies [I], every step the program takes, its
    cancellation included, is a [G] step. *)
Fixpoint respects {A} (p : prog T A) : Prop :=
  match p with
  | Ret _ => True
  | Step f k => forall now w, I w -> G w (snd (f now w)) /\ respects (k (fst (f now w)))
  | Await armed bounded op k =>
      (forall now w, I w -> G w (snd (op now w)) /\ respects (k (fst (op now w)))) /\
      (forall w, I w -> G w (drop_guards armed w)) /\
      (bounded = true -> respects (k (Err Timeout)))
  | Pause armed k => (forall w, I w -> G w (drop_guards armed w)) /\ respects k
  | Notified armed _ _ k =>
      (forall w, I w -> G w (drop_guards armed w)) /\ forall r, respects (k r)
  end.

Lemma respects_bind {A B} (p : prog T A) (f : A -> prog T B) :
  respects p -> (forall a, respects (f a)) -> respects (bind p f).
Proof.
  intros Hp Hf. induction p as [a|C g k IH|C armed b op k IH|armed k IH|armed a s k IH]; cbn in *.
  - apply Hf.
  - intros now w Hw. destruct (Hp now w Hw). auto.
  - destruct Hp as (Hop & Hd & Ht). split_and!; [|done|auto].
    intros now w Hw. destruct (Hop now w Hw). auto.
  - destruct Hp. auto.
  - destruct Hp. auto.
Qed.

(** The continuation matters only on what the first part can return. *)
Lemma respects_bind_returns {A B} (p : prog T A) (f : A -> prog T B) phi :
  respects p -> returns p phi -> (forall a, phi a -> respects (f a)) -> respects (bind p f).
Proof.
  intros Hp Hr Hf. induction p as [a|C g k IH|C armed b op k IH|armed k IH|armed a s k IH]; cbn in *.
  - by apply Hf.
  - intros now w Hw. destruct (Hp now w Hw). auto.
  - destruct Hp as (Hop & Hd & Ht), Hr as [Hk Hto]. split_and!; [|done|auto].
    intros now w Hw. destruct (Hop now w Hw). auto.
  - destruct Hp. auto.
  - destruct Hp. auto.
Qed.

(** The result of a step that leaves the world alone matters only as far as
    the world decides it. *)
Lemma respects_step {A B} (f : Instant -> World T -> B * World T) (k : B -> prog T A) :
  (forall now w, I w -> G w (snd (f now w))) ->
  (forall now w, I w -> respects (k (fst (f now w)))) ->
  respects (bind (atomically f) k).
Proof. intros Hf Hk now w Hw. split; [by apply Hf|by apply Hk]. Qed.

Context `{!PreOrder G} (HI : forall w w', I w -> G w w' -> I w').

(** A program that respects [G], among callers that respect [G], moves the
    world by [G], however the run goes and wherever it is cancelled. *)
Lemma run_respects {A} (env : Env T) n (p : prog T A) w :
  respects p -> (forall m w, I w -> G w (env_others env m w)) -> I w ->
  G w (snd (run env n p w)).
Proof.
  intros Hp He. revert n w. induction p as [a|B f k IH|B armed b op k IH|armed k IH|armed a s k IH];
    intros n w Hw; cbn in *.
  - reflexivity.
  - pose proof (He n w Hw) as He1. pose proof (HI _ _ Hw He1) as Hw1.
    destruct (Hp (env_clock env n) (env_others env n w) Hw1) as [Hstep Hk].
    destruct (f _ _) as [x w']. cbn in *. etransitivity; [exact He1|]. etransitivity; [exact Hstep|].
    apply IH; [done|]. by eapply HI.
  - destruct Hp as (Hop & Hd & Ht). pose proof (He n w Hw) as He1. pose proof (HI _ _ Hw He1) as Hw1.
    destruct (Hop (env_clock env n) (env_others env n w) Hw1) as [Hstep Hk].
    destruct (op _ _) as [r w']. cbn in *. pose proof (HI _ _ Hw1 Hstep) as Hw2.
    etransitivity; [exact He1|].
    destruct (env_pace env n); [|destruct b|destruct b| |]; cbn;
      first [by apply Hd|by (etransitivity; [exact Hstep|]; first [by apply Hd|by apply IH; auto])
            |by apply IH; auto].
  - destruct Hp as [Hd Hk]. pose proof (He n w Hw) as He1. pose proof (HI _ _ Hw He1) as Hw1.
    etransitivity; [exact He1|]. destruct (env_pace env n); cbn; first [by apply IH|by apply Hd].
  - destruct Hp as [Hd Hk]. pose proof (He n w Hw) as He1. pose proof (HI _ _ Hw He1) as Hw1.
    etransitivity; [exact He1|]. destruct (env_pace env n); cbn; first [by apply IH|by apply Hd].
Qed.
End guarantee.

(** ** Running alone *)

Section alone.
Context {T : Type}.

(** The states a program run alone from time [t] can end in, and when,
    whatever a clock that does not run backwards shows and whatever the pace:
    a result, or a cancellation. *)
Fixpoint wp {A} (p : prog T A) (Q : option A -> Instant -> World T -> Prop) (t : Instant)
    (w : World T) : Prop :=
  match p with
  | Ret a => Q (Some a) t w
  | Step f k => forall now, (t <= now)%Z -> wp (k (fst (f now w))) Q now (snd (f now w))
  | Await armed bounded op k =>
      forall now, (t <= now)%Z ->
        wp (k (fst (op now w))) Q now (snd (op now w)) /\
        (bounded = true -> wp (k (Err Timeout)) Q now (snd (op now w)) /\ wp (k (Err Timeout)) Q now w) /\
        Q None now (drop_guards armed (snd (op now w))) /\ Q None now (drop_guards armed w)
  | Pause armed k =>
      forall now, (t <= now)%Z -> wp k Q now w /\ Q None now (drop_guards armed w)
  | Notified armed a seen k =>
      forall now, (t <= now)%Z -> (forall r, wp (k r) Q now w) /\ Q None now (drop_guards armed w)
  end.

(** The instant a run ends at is one its clock has shown. *)
Lemma wp_run {A} (p : prog T A) Q clock pc n t w :
  (forall m, (clock m <= clock (S m))%Z) -> (t <= clock n)%Z -> wp p Q t w ->
  exists m, (m = t \/ exists j, n <= j /\ m = clock j) /\
    Q (fst (run (alone clock pc) n p w)) m (snd (run (alone clock pc) n p w)).
Proof.
  intros Hmono. revert n t w.
  assert (Hlater : forall n (r : option A * World T) t,
    (exists m, (m = clock n \/ exists j, S n <= j /\ m = clock j) /\ Q (fst r) m (snd r)) ->
    exists m, (m = t \/ exists j, n <= j /\ m = clock j) /\ Q (fst r) m (snd r)).
  { intros n r t (m & [->|(j & Hj & ->)] & HQ); (eexists; split; [|exact HQ]); right;
      [by exists n|exists j; split; [lia|done]]. }
  assert (Hhere : forall n (r : option A * World T) t,
    Q (fst r) (clock n) (snd r) ->
    exists m, (m = t \/ exists j, n <= j /\ m = clock j) /\ Q (fst r) m (snd r)).
  { intros n r t HQ. exists (clock n). split; [right; by exists n|done]. }
  induction p as [a|B f k IH|B armed b op k IH|armed k IH|armed a s k IH]; intros n t w Ht; cbn.
  - intros H. exists t. by split; [left|].
  - intros H. specialize (H (clock n) Ht). apply Hlater. destruct (f (clock n) w). by apply IH.
  - intros H. destruct (H (clock n) Ht) as (Hk & Hto & Hd1 & Hd2).
    destruct (op (clock n) w) as [r w']. cbn in *.
    destruct (pc n); cbn; [apply Hlater; by apply IH|destruct b|destruct b|by apply (Hhere n (None, _))..];
      apply Hlater; apply IH; by (try apply Hto).
  - intros H. destruct (H (clock n) Ht) as [Hk Hd].
    destruct (pc n); cbn; first [by apply (Hhere n (None, _))|apply Hlater; by apply IH].
  - intros H. destruct (H (clock n) Ht) as [Hk Hd].
    destruct (pc n); cbn; first [by apply (Hhere n (None, _))|apply Hlater; by apply IH].
Qed.

Lemma wp_mono {A} (p : prog T A) (Q Q' : option A -> Instant -> World T -> Prop) t w :
  (forall o m w, (t <= m)%Z -> Q o m w -> Q' o m w) -> wp p Q t w -> wp p Q' t w.
Proof.
  revert t w. induction p as [a|B f k IH|B armed b op k IH|armed k IH|armed a s k IH];
    intros t w HQ; cbn.
  - apply HQ. lia.
  - intros H now Hn. eapply IH; [|by apply H]. intros o m w' Hm. apply HQ. lia.
  - intros H now Hn. destruct (H now Hn) as (Hk & Hto & Hd1 & Hd2).
    assert (HQ' : forall o m w, (now <= m)%Z -> Q o m w -> Q' o m w)
      by (intros; apply HQ; [lia|done]).
    split_and!; [by eapply IH|intros Hb; split; eapply IH; by try apply Hto|apply HQ'; [lia|done]..].
  - intros H now Hn. destruct (H now Hn) as [Hk Hd].
    assert (HQ' : forall o m w, (now <= m)%Z -> Q o m w -> Q' o m w)
      by (intros; apply HQ; [lia|done]).
    split; [by eapply IH|by apply HQ'; [lia|]].
  - intros H now Hn. destruct (H now Hn) as [Hk Hd].
    assert (HQ' : forall o m w, (now <= m)%Z -> Q o m w -> Q' o m w)
      by (intros; apply HQ; [lia|done]).
    split; [intros r; by eapply IH|by apply HQ'; [lia|]].
Qed.

(** Sequencing: a cancellation of the first part cancels the whole. *)
Lemma wp_bind {A B} (p : prog T A) (f : A -> prog T B) Q t w :
  wp p (fun o m w => match o with Some a => wp (f a) Q m w | None => Q None m w end) t w ->
  wp (bind p f) Q t w.
Proof.
  revert t w. induction p as [a|C g k IH|C armed b op k IH|armed k IH|armed a s k IH]; intros t w; cbn.
  - done.
  - intros H now Hn. by apply IH, H.
  - intros H now Hn. destruct (H now Hn) as (Hk & Hto & Hd1 & Hd2).
    split_and!; [by apply IH|intros Hb; split; apply IH; by apply Hto|done..].
  - intros H now Hn. destruct (H now Hn) as [Hk Hd]. auto.
  - intros H now Hn. destruct (H now Hn) as [Hk Hd]. auto.
Qed.

(** What holds of every later state holds at the end. *)
Lemma wp_always {A} (p : prog T A) (Q : option A -> Instant -> World T -> Prop) t w :
  (forall o m w, (t <= m)%Z -> Q o m w) -> wp p Q t w.
Proof.
  revert t w. induction p as [a|C g k IH|C armed b op k IH|armed k IH|armed a s k IH]; intros t w HQ; cbn.
  - apply HQ. lia.
  - intros now Hn. apply IH. intros. apply HQ. lia.
  - intros now Hn. assert (HQ' : forall o m w, (now <= m)%Z -> Q o m w) by (intros; apply HQ; lia).
    split_and!; [by apply IH|intros _; split; by apply IH|by apply HQ'; lia..].
  - intros now Hn. assert (HQ' : forall o m w, (now <= m)%Z -> Q o m w) by (intros; apply HQ; lia).
    split; [by apply IH|by apply HQ'; lia].
  - intros now Hn. assert (HQ' : forall o m w, (now <= m)%Z -> Q o m w) by (intros; apply HQ; lia).
    split; [intros r; by apply IH|by apply HQ'; lia].
Qed.
End alone.
