(* ===== verification/Threads.v ===== *)
(** * Many callers at once

    Any number of async programs over one shared world, interleaved by a
    scheduler that is free to choose who takes the next step, how long it
    takes, whether a bounded wait times out and whose future is dropped.
    [Prog.run] follows one program and leaves the others to its environment;
    here every step is some program's own. *)

From stdpp Require Import relations.
From S2P Require Import Prelude Entry Integrity Tier Telemetry ControlEntry Shard Cachelito.
From S2P Require Import Prog.

(** ** One step of one program *)

Section step.
Context {T A : Type}.

(** What is left of the program -- nothing when its future was dropped -- and
    the world. *)
Definition thread_step (now : Instant) (pc : pace) (p : prog T A) (w : World T) :
    option (prog T A) * World T :=
  match p with
  | Ret a => (Some (Ret a), w)
  | Step f k => let '(b, w') := f now w in (Some (k b), w')
  | Await armed bounded op k =>
      let '(r, w') := op now w in
      match pc with
      | OnTime => (Some (k r), w')
      | LateLost => if bounded then (Some (k (Err Timeout)), w) else (Some (k r), w')
      | LateApplied => if bounded then (Some (k (Err Timeout)), w') else (Some (k r), w')
      | DroppedLost => (None, drop_guards armed w)
      | DroppedApplied => (None, drop_guards armed w')
      end
  | Pause armed k =>
      match pc with
      | DroppedLost | DroppedApplied => (None, drop_guards armed w)
      | _ => (Some k, w)
      end
  | Notified armed a seen k =>
      match pc with
      | DroppedLost | DroppedApplied => (None, drop_guards armed w)
      | OnTime => (Some (k (if seen <? wakeups a w then Ok tt else Err Timeout)), w)
      | _ => (Some (k (Err Timeout)), w)
      end
  end.

(** [run] is these steps, with the environment's in between. *)
Lemma run_thread_step (env : Env T) n (p : prog T A) w :
  run env n p w =
  match p with
  | Ret a => (Some a, w)
  | _ =>
      match thread_step (env_clock env n) (env_pace env n) p (env_others env n w) with
      | (Some p', w') => run env (S n) p' w'
      | (None, w') => (None, w')
      end
  end.
Proof.
  destruct p as [a|B f k|B armed b op k|armed k|armed a s k]; cbn; [done| | | |].
  - by destruct (f _ _).
  - destruct (op _ _). by destruct (env_pace env n), b.
  - by destruct (env_pace env n).
  - by destruct (env_pace env n).
Qed.
End step.

(** ** The pool *)

Record Threads (T A : Type) : Type := mkThreads {
  th_progs : list (option (prog T A));
  th_world : World T;
  th_now : Instant
}.
Arguments mkThreads {T A}.
Arguments th_progs {T A} _.
Arguments th_world {T A} _.
Arguments th_now {T A} _.

Section threads.
Context {T A : Type}.
Implicit Types (c : Threads T A).

Definition spawn (ps : list (prog T A)) (w : World T) (t : Instant) : Threads T A :=
  mkThreads (map Some ps) w t.

(** Thread [i] takes a step at [now]; no step when there is no such thread or
    its future is gone. *)
Definition schedule (i : nat) (now : Instant) (pc : pace) c : Threads T A :=
  match th_progs c !! i with
  | Some (Some p) =>
      let '(p', w') := thread_step now pc p (th_world c) in
      mkThreads (<[i := p']> (th_progs c)) w' now
  | _ => c
  end.

(** One step of the whole: the clock does not run backwards. *)
Inductive threads_step : Threads T A -> Threads T A -> Prop :=
| threads_sched c i now pc :
    (th_now c <= now)%Z -> threads_step c (schedule i now pc c).

(** A fixed schedule, for concrete executions. *)
Definition follow (choices : list (nat * Instant * pace)) c : Threads T A :=
  fold_left (fun c x => schedule (fst (fst x)) (snd (fst x)) (snd x) c) choices c.

Lemma schedule_now i now pc c : (th_now c <= now)%Z -> (th_now (schedule i now pc c) <= now)%Z.
Proof.
  intros Hn. unfold schedule. destruct (th_progs c !! i) as [[p|]|]; [|done..].
  by destruct (thread_step _ _ _ _).
Qed.

(** A schedule at one instant is an execution. *)
Lemma follow_reachable choices c t :
  (th_now c <= t)%Z -> Forall (fun x => snd (fst x) = t) choices ->
  rtc threads_step c (follow choices c).
Proof.
  intros Hn Hall. revert c Hn. induction Hall as [|[[i now] pc] choices Ht _ IH]; intros c Hn; [done|].
  cbn in Ht. subst now. cbn [follow fold_left fst snd]. eapply rtc_l; [by constructor|].
  apply IH. by apply schedule_now.
Qed.
End threads.

(** ** Composition

    Programs that respect a guarantee keep it together: nothing is assumed of
    anybody else, because there is nobody else. *)

Section compose.
Context {T A : Type} (I : World T -> Prop) (G : World T -> World T -> Prop).
Context `{!PreOrder G} (HI : forall w w', I w -> G w w' -> I w').

(** Every thread that still runs respects the guarantee. *)
Definition all_respect (c : Threads T A) : Prop :=
  Forall (fun o => match o with Some p => respects I G p | None => True end) (th_progs c).

Lemma thread_step_respects now pc (p : prog T A) w :
  I w -> respects I G p ->
  G w (snd (thread_step now pc p w)) /\
  match fst (thread_step now pc p w) with Some p' => respects I G p' | None => True end.
Proof.
  intros Hw Hp. destruct p as [a|B f k|B armed b op k|armed k|armed a s k]; cbn in *.
  - by split.
  - specialize (Hp now w Hw). by destruct (f now w).
  - destruct Hp as (Hop & Hd & Ht). destruct (Hop now w Hw) as [Hg Hk].
    destruct (op now w) as [r w']. cbn in *. pose proof (HI w w' Hw Hg).
    destruct pc, b; cbn; split; auto; try done; by (etransitivity; [exact Hg|]; apply Hd).
  - destruct Hp as [Hd Hk]. destruct pc; cbn; split; auto; done.
  - destruct Hp as [Hd Hk]. destruct pc; cbn; split; auto; done.
Qed.

Lemma schedule_respects i now pc (c : Threads T A) :
  I (th_world c) -> all_respect c ->
  G (th_world c) (th_world (schedule i now pc c)) /\ all_respect (schedule i now pc c).
Proof.
  intros Hw Hall. unfold schedule. destruct (th_progs c !! i) as [[p|]|] eqn:Hi; [|done..].
  pose proof (Forall_lookup_1 _ _ _ _ Hall Hi) as Hp. cbn in Hp.
  destruct (thread_step_respects now pc p (th_world c) Hw Hp) as [Hg Hp'].
  destruct (thread_step now pc p (th_world c)) as [p' w']. cbn in *. split; [done|].
  apply Forall_insert; [exact Hall|exact Hp'].
Qed.

Lemma threads_respect (c c' : Threads T A) :
  I (th_world c) -> all_respect c -> rtc threads_step c c' ->
  G (th_world c) (th_world c') /\ I (th_world c').
Proof.
  intros Hw Hall Hr. induction Hr as [c|c c1 c' Hs _ IH]; [by split|].
  destruct Hs as [c i now pc _]. destruct (schedule_respects i now pc c Hw Hall) as [Hg Hall'].
  destruct (IH (HI _ _ Hw Hg) Hall') as [Hg' Hw']. split; [by etransitivity|done].
Qed.
End compose.
