(* ===== verification/Manager.v ===== *)
(** * The cache manager

    Models [CacheManager] of [src/manager.rs] as programs over the shared
    world: one step for each synchronous call on the control plane, the
    registry or the sink, one await for each [.await]. A backoff sleep and
    [yield_now] are pauses: how long they last is up to the environment, like
    every other delay. [SystemTime] is read from the same clock as [Instant]. *)

From S2P Require Import Prelude Entry Integrity Key Tier Capability Continuity Policy TierTrait.
From S2P Require Import Telemetry ControlEntry Shard Cachelito Prog.

(** ** Configuration *)

(** The stack buffer of the manager (the module [Key] has a wider one). *)
Definition MANAGER_KEY_SIZE : nat := 256.
Definition MAX_POPULATE_ATTEMPTS : nat := 3.
Definition MAX_COMMIT_ATTEMPTS : nat := 64.
Definition MAX_EVICTION_PASSES : nat := 16.
Definition MAX_POPULATION_ATTEMPTS : nat := 8.
Definition MAX_EVICTION_ATTEMPTS : nat := 8.

(** The parts of a manager that never change; the parts that do are the
    [World]. *)
Record CacheManager (P : Type) : Type := mkManager {
  policy : P;
  wait_timeout : Duration;
  authority_tier : TierId
}.
Arguments mkManager {P}.
Arguments policy {P} _.
Arguments wait_timeout {P} _.
Arguments authority_tier {P} _.

Definition CacheManager_with_timeout {P} (p : P) (wait : Duration) : CacheManager P :=
  mkManager p wait AUTHORITY_TIER.

Definition CacheManager_new {P} (p : P) : CacheManager P :=
  CacheManager_with_timeout p 5000000000%Z.

(** [with_authority] panics on a cache rung. *)
Definition with_authority {P} (self : CacheManager P) (authority : TierId) :
    option (CacheManager P) :=
  if is_authority_rung authority then Some (mkManager (policy self) (wait_timeout self) authority)
  else None.

Definition CacheState_from_snapshot (s : ControlSnapshot) (h : TierHealth) : CacheState :=
  mkCacheState (snap_state s) (snap_generation s) (snap_tier s) h None.

(** ** Pure helpers *)

Definition write_provably_stored_nothing (e : CacheError) : bool :=
  match e with SerializationFailed | CapacityExhausted => true | _ => false end.

Definition previous_rung (rung : TierId) : TierId :=
  match as_usize rung with
  | O => L6
  | S n => default L0 (from_usize n)
  end.

Definition is_retryable (e : CacheError) : bool :=
  match e with TierUnavailable | Timeout | PopulationFailed => true | _ => false end.

Definition check_auth (ctx : CacheContext) : res unit :=
  if negb (is_authenticated ctx) then Err Unauthenticated else Ok tt.

Definition authorize (d : PolicyDecision) : res unit :=
  if pd_authorized d then Ok tt else Err Unauthorized.

Inductive Freshness : Type := Fresh | FreshnessStale.

Record Lookup (V : Type) : Type := mkLookup { lk_value : option V; lk_freshness : Freshness }.
Arguments mkLookup {V}.
Arguments lk_value {V} _.
Arguments lk_freshness {V} _.

Section manager.
Context {K V P T : Type} `{!Key K} `{!CachePolicy P K V} `{!CacheTier V T}.
Variable self : CacheManager P.

Definition encode_key (key : K) (ctx : CacheContext) : res bytes :=
  match encode key (replicate MANAGER_KEY_SIZE 0%Z) with
  | (Err e, _) => Err e
  | (Ok key_len, raw) =>
      match frame_tenant_key (tenant (identity ctx)) (take (Z.to_nat key_len) raw)
              (replicate MANAGER_KEY_SIZE 0%Z) with
      | (Err e, _) => Err e
      | (Ok len, buf) => Ok (take (Z.to_nat len) buf)
      end
  end.

Definition request_for (op : CacheOperation) (key : K) (ctx : CacheContext) : CacheRequest K V :=
  let request := CacheRequest_new op key in
  match ctx_ttl ctx with Some t => request_with_ttl request t | None => request end.

Definition resolve (request : CacheRequest K V) (ctx : CacheContext) : PolicyDecision :=
  select (policy self) request CacheState_new (identity ctx).

Definition resolve_with_snapshot (request : CacheRequest K V) (ctx : CacheContext)
    (s : ControlSnapshot) (w : World T) : PolicyDecision :=
  select (policy self) request (CacheState_from_snapshot s (tier_health (w_reg w) (snap_tier s)))
    (identity ctx).

(** ** Bound rungs *)

Definition bound_tier (w : World T) (t : TierId) : option T := w_tiers w !! as_usize t.

Definition has_tier (w : World T) (t : TierId) : bool := as_usize t <? length (w_tiers w).

Definition backend_of (w : World T) (t : TierId) : BackendKind :=
  match bound_tier w t with Some tr => backend tr | None => BackendUnavailable end.

(** [let mut idx = wanted; loop], from index [idx] down. *)
Fixpoint nearest_from (w : World T) (idx : nat) : option TierId :=
  match from_usize idx with
  | None => None
  | Some candidate =>
      if has_tier w candidate then Some candidate
      else match idx with O => None | S idx' => nearest_from w idx' end
  end.

Definition nearest_bound_rung (w : World T) (wanted : TierId) : option TierId :=
  if negb (is_cache_rung wanted) then None else nearest_from w (as_usize wanted).

Definition capabilities (w : World T) : list (TierId * TierCapability) :=
  map (fun id =>
         let cap := if has_tier w id
                    then match bound_tier w id with
                         | Some t => capability t
                         | None => capability_unbound
                         end
                    else capability_unbound in
         (id, if bool_decide (id = authority_tier self) then add_flag cap AUTHORITATIVE else cap))
    TierId_ALL.

Definition continuity_of (w : World T) (t : TierId) : ContinuityState :=
  if negb (has_tier w t) then CsUnavailable
  else
    let n := consecutive_failures (tier_health (w_reg w) t) in
    if (n =? 0)%Z then CsHealthy
    else if (FAILURE_THRESHOLD <=? n)%Z then CsUnavailable
    else CsDegraded.

Definition continuity (w : World T) : ContinuityReport :=
  map (fun t => (t, continuity_of w t)) (reg_tiers (w_reg w)).

(** ** Calls on a tier, as transitions of the world *)

Definition on_slot {B} (idx : nat) (op : T -> res B * T) (w : World T) : res B * World T :=
  match w_tiers w !! idx with
  | Some t => let '(r, t') := op t in (r, set_tiers (<[idx := t']> (w_tiers w)) w)
  | None => (Err TierUnavailable, w)
  end.

Definition get_at (rung : TierId) (key : bytes) (now : Instant) : World T -> res (option V) * World T :=
  on_slot (as_usize rung) (tier_get now key).

Definition set_at (rung : TierId) (key : bytes) (value : V) (ttl' : option Duration)
    (now : Instant) : World T -> res unit * World T :=
  on_slot (as_usize rung) (tier_set now key value ttl').

Definition remove_at (rung : TierId) (key : bytes) (now : Instant) : World T -> res unit * World T :=
  on_slot (as_usize rung) (tier_remove now key).

Definition contains_at (rung : TierId) (key : bytes) (now : Instant) : World T -> res bool * World T :=
  on_slot (as_usize rung) (tier_contains now key).

Definition nominate_at (rung : TierId) (now : Instant) (w : World T) :
    option KeyAddress * World T :=
  match w_tiers w !! as_usize rung with
  | Some t =>
      let '(a, cursor, t') := eviction_candidate now (w_cursor w) t in
      (a, set_cursor cursor (set_tiers (<[as_usize rung := t']> (w_tiers w)) w))
  | None => (None, w)
  end.

Definition reclaim_at (rung : TierId) (a : KeyAddress) (w : World T) : res bool * World T :=
  on_slot (as_usize rung) (remove_if_address a) w.

(** [let Some(tier) = self.bound_tier(&rung) else { absent }; k] *)
Definition if_bound {A} (rung : TierId) (absent k : prog T A) : prog T A :=
  let! b := ask (fun _ w => has_tier w rung) in if b then k else absent.

(** ** Telemetry and health *)

Definition emit (record : Instant -> World T -> OperationRecord) : prog T unit :=
  atomically (fun now w => (tt, set_sink (w_sink w ++ [record now w]) w)).

Definition read_clock : prog T Instant := ask (fun now _ => now).

Definition failed_with {A} (r : res A) (record : OperationRecord) : OperationRecord :=
  match r with Ok _ => record | Err e => with_failure e record end.

Definition observed_read (op : Operation) (key : bytes) (rung : TierId) (armed : list guard) :
    prog T (res (option V)) :=
  let! started := read_clock in
  let! result := await armed true (get_at rung key) in
  let outcome := match result with
                 | Ok (Some _) => OutServed
                 | Ok None => OutMiss
                 | Err e => Outcome_from_error e
                 end in
  let! _ := emit (fun now w =>
    failed_with result
      (record_finish now started outcome
         (with_generation 0 (with_backend (backend_of w rung)
            (with_source rung (record_begin op key)))))) in
  Ret result.

Definition observed_write (op : Operation) (key : bytes) (rung : TierId) (armed : list guard)
    (value : V) (ttl' : option Duration) : prog T (res unit) :=
  let! started := read_clock in
  let! result := await armed true (set_at rung key value ttl') in
  let outcome := match result with Ok _ => OutPopulated | Err e => Outcome_from_error e end in
  let! _ := emit (fun now w =>
    failed_with result
      (record_finish now started outcome
         (with_backend (backend_of w rung) (with_destination rung (record_begin op key))))) in
  Ret result.

Definition observed_control_only (op : Operation) (key : bytes) (rung : TierId)
    (started : Instant) (outcome : Outcome) : prog T unit :=
  emit (fun now _ => record_finish now started outcome (with_source rung (record_begin op key))).

(** The clock is read and the record emitted in one synchronous stretch. *)
Definition record_fallback (key : bytes) (rung : TierId) (cause : CacheError) : prog T unit :=
  let! started := read_clock in
  emit (fun now w =>
    record_finish now started OutFellBack
      (with_failure cause (with_fallback true (with_backend (backend_of w rung)
         (with_source rung (record_begin TGetOrFetch key)))))).

Definition record_telemetry_refresh_failure (key : bytes) (s : ControlSnapshot)
    (cause : CacheError) : prog T unit :=
  let! started := read_clock in
  emit (fun now _ =>
    record_finish now started OutFellBack
      (with_failure cause (with_generation (snap_generation s)
         (with_source (snap_tier s) (record_begin TRefresh key))))).

(** [record_outcome] and [record_read]. *)
Definition record_outcome {A} (rung : TierId) (r : res A) : prog T unit :=
  atomically (fun now w =>
    match r with
    | Ok _ => (tt, set_reg (registry_recover (w_reg w) rung) w)
    | Err TierUnavailable => (tt, set_reg (registry_fail now (w_reg w) rung) w)
    | Err _ => (tt, w)
    end).

(** ** Calls on the control plane *)

Definition peek_at (key : bytes) : prog T (res ControlSnapshot) :=
  ask (fun now w => peek now key (w_ctl w)).

Definition mark_stale (key : bytes) : prog T unit :=
  let! _ := ctl (fun _ => plane_set_state key Stale) in Ret tt.

(** A guard going out of scope, or resolved by hand. *)
Definition drop_here (g : guard) : prog T unit := atomically (fun _ w => (tt, drop_guard g w)).

Definition abort_here (token : CommitToken) (e : CacheError) : prog T unit :=
  let! _ := ctl (fun _ => abort token e) in Ret tt.

Definition abort_clean_here (token : CommitToken) (e : CacheError) : prog T unit :=
  let! _ := ctl (fun _ => abort_proven_clean token e) in Ret tt.

(** ** Waiting for another caller's population *)

(** The waiter registers on the snapshot's [Notify], re-reads the state, and
    only then sleeps. *)
Definition wait_for_population (key : bytes) : prog T (res unit) :=
  let! seen := ask (fun _ w => (address_of (w_ctl w) key, wakeups (address_of (w_ctl w) key) w)) in
  let! now := peek_at key in
  let wait := notified [] (fst seen) (snd seen) in
  match now with
  | Ok s =>
      match snap_state s with
      | InFlight | Prepared => wait
      | _ => Ret (Ok tt)
      end
  | Err _ => wait
  end.

Definition wait_and_get (key : K) (ctx : CacheContext) : prog T (res V) :=
  let!? kb := Ret (encode_key key ctx) in
  let!? _w := wait_for_population kb in
  let!? after := peek_at kb in
  match snap_last_error after with
  | Some err => Ret (Err err)
  | None =>
      if negb (is_readable (snap_state after)) then Ret (Err Miss)
      else
        if_bound (snap_tier after) (Ret (Err TierUnavailable))
          (let!? v := observed_read TGetOrFetch kb (snap_tier after) [] in
           Ret (match v with Some v => Ok v | None => Err Miss end))
  end.

(** ** [get] *)

Definition control_only_then {A} (kb : bytes) (rung : TierId) (started : Instant)
    (outcome : Outcome) (e : CacheError) : prog T (res A) :=
  let! _ := observed_control_only TGet kb rung started outcome in Ret (Err e).

Definition get_ready (kb : bytes) (started : Instant) (s : ControlSnapshot) :
    prog T (res (option V)) :=
  if_bound (snap_tier s)
    (control_only_then kb (snap_tier s) started (Outcome_from_error TierUnavailable) TierUnavailable)
    (let! result := observed_read TGet kb (snap_tier s) [] in
     let! _ := record_outcome (snap_tier s) result in
     if is_ok result then
       let! after := peek_at kb in
       match after with
       | Ok a => if bool_decide (snap_state a = Ready) then Ret result else Ret (Err Miss)
       | Err _ => Ret result
       end
     else Ret result).

Definition get_waiting (kb : bytes) : prog T (res (option V)) :=
  let!? _w := wait_for_population kb in
  let!? after := peek_at kb in
  match snap_last_error after with
  | Some err => Ret (Err err)
  | None =>
      if negb (bool_decide (snap_state after = Ready)) then Ret (Err Miss)
      else
        if_bound (snap_tier after) (Ret (Err TierUnavailable))
          (let! result := observed_read TGet kb (snap_tier after) [] in
           let! _ := record_outcome (snap_tier after) result in
           Ret result)
  end.

Definition get_from (kb : bytes) (started : Instant) (s : ControlSnapshot) :
    prog T (res (option V)) :=
  let miss := control_only_then kb (snap_tier s) started OutMiss Miss in
  match snap_state s with
  | Ready =>
      if negb (snap_expired s) then get_ready kb started s
      else let! _ := mark_stale kb in miss
  | InFlight | Prepared => if negb (snap_population_owner s) then get_waiting kb else miss
  | _ => miss
  end.

Definition get (key : K) (ctx : CacheContext) : prog T (res (option V)) :=
  let! started := read_clock in
  let!? kb := Ret (encode_key key ctx) in
  match check_auth ctx with
  | Err e => control_only_then kb L0 started (Outcome_from_error e) e
  | Ok _ =>
      let decision := resolve (request_for OpGet key ctx) ctx in
      match authorize decision with
      | Err e => control_only_then kb (pd_tier decision) started (Outcome_from_error e) e
      | Ok _ => let!? s := peek_at kb in get_from kb started s
      end
  end.

(** ** Population *)

(** The caller's [fetch], a future of code outside the crate. *)
Abbreviation fetcher := (Instant -> World T -> res V).

Definition await_fetch (armed : list guard) (fetch : fetcher) : prog T (res V) :=
  await armed true (fun now w => (fetch now w, w)).

(** The first closed, bound rung that holds a value, from the top down. *)
Fixpoint try_fallback_rungs (kb : bytes) (cause : CacheError) (rungs : list TierId) :
    prog T (res V) :=
  match rungs with
  | [] => Ret (Err cause)
  | rung :: rest =>
      let next := try_fallback_rungs kb cause rest in
      if_bound rung next
        (let! is_open := ask (fun _ w => is_circuit_open (w_reg w) rung) in
         if is_open : bool then next
         else
           let! r := await [] true (get_at rung kb) in
           match r with
           | Ok (Some v) => let! _ := record_fallback kb rung cause in Ret (Ok v)
           | _ => next
           end)
  end.

Definition try_fallback_tier (key : K) (ctx : CacheContext) (cause : CacheError) :
    prog T (res V) :=
  let!? kb := Ret (encode_key key ctx) in try_fallback_rungs kb cause cache_ladder.

Definition populate_once (key : K) (kb : bytes) (expected : Generation) (ctx : CacheContext)
    (fetch : fetcher) (decision : PolicyDecision) : prog T (res V) :=
  let armed := [GPopulation kb] in
  let!? value := await_fetch armed fetch in
  let! found := ask (fun _ w => nearest_bound_rung w (pd_tier decision)) in
  match found with
  | None => Ret (Err TierUnavailable)
  | Some rung =>
      if_bound rung (Ret (Err TierUnavailable))
        (let!? kb2 := Ret (encode_key key ctx) in
         let! set_result := observed_write TGetOrFetch kb2 rung armed value (ctx_ttl ctx) in
         let! _ := record_outcome rung set_result in
         match set_result with
         | Err e => Ret (Err e)
         | Ok _ =>
             let!? _p := ctl (fun now => publish now kb expected rung (ctx_ttl ctx)) in
             Ret (Ok value)
         end)
  end.

(** The terminal arm of the population loop. *)
Definition population_failed (key : K) (kb : bytes) (ctx : CacheContext)
    (decision : PolicyDecision) (e : CacheError) : prog T (res V) :=
  let! started := read_clock in
  let! _ := emit (fun now w =>
    record_finish now started (Outcome_from_error e)
      (with_failure e (with_backend (backend_of w (pd_tier decision))
         (with_destination (pd_tier decision) (record_begin TGetOrFetch kb))))) in
  let! _ := ctl (fun _ => fail_with_error kb e) in
  if bool_decide (e = StaleGeneration) then Ret (Err StaleGeneration)
  else if bool_decide (pd_fail_mode decision = FailOpen) then try_fallback_tier key ctx e
  else Ret (Err e).

(** The loop, with [left] attempts left. *)
Fixpoint population_loop (left : nat) (key : K) (kb : bytes) (expected : Generation)
    (ctx : CacheContext) (decision : PolicyDecision) (fetch : fetcher) : prog T (res V) :=
  match left with
  | O => Ret (Err PopulationFailed)
  | S left' =>
      let! outcome := populate_once key kb expected ctx fetch decision in
      match outcome with
      | Ok value => Ret (Ok value)
      | Err e =>
          if (0 <? left') && is_retryable e then
            let! _ := pause [GPopulation kb] in
            population_loop left' key kb expected ctx decision fetch
          else population_failed key kb ctx decision e
      end
  end.

Definition become_population_owner (key : K) (kb : bytes) (expected : Generation)
    (ctx : CacheContext) (decision : PolicyDecision) (fetch : fetcher) : prog T (res V) :=
  population_loop MAX_POPULATE_ATTEMPTS key kb expected ctx decision fetch.

(** ** [get_or_fetch] *)

(** What follows the [acquire] of one attempt; [again] is the next attempt. *)
Definition dispatch_acquired (key : K) (kb : bytes) (ctx : CacheContext)
    (decision : PolicyDecision) (fetch : fetcher) (again : prog T (res V))
    (s : ControlSnapshot) : prog T (res V) :=
  match snap_state s with
  | InFlight =>
      if negb (snap_population_owner s) then wait_and_get key ctx
      else become_population_owner key kb (snap_generation s) ctx decision fetch
  | Prepared =>
      if snap_population_owner s then let!? _w := wait_for_population kb in again
      else wait_and_get key ctx
  | _ => become_population_owner key kb (snap_generation s) ctx decision fetch
  end.

Fixpoint population_attempts (left : nat) (key : K) (kb : bytes) (ctx : CacheContext)
    (decision : PolicyDecision) (fetch : fetcher) : prog T (res V) :=
  match left with
  | O => Ret (Err Timeout)
  | S left' =>
      let acquire_now := ctl (fun now => acquire now kb (pd_tier decision)) in
      let!? first := acquire_now in
      let!? s := (if bool_decide (snap_state first = Ready) && snap_expired first
                  then (let! _ := mark_stale kb in acquire_now) else Ret (Ok first)) in
      let dispatch :=
        dispatch_acquired key kb ctx decision fetch
          (population_attempts left' key kb ctx decision fetch) s in
      if bool_decide (snap_state s = Ready) && negb (snap_expired s) then
        if_bound (snap_tier s) (Ret (Err TierUnavailable))
          (let!? v := observed_read TGetOrFetch kb (snap_tier s) [] in
           match v with Some v => Ret (Ok v) | None => dispatch end)
      else dispatch
  end.

Definition get_or_fetch (key : K) (ctx : CacheContext) (fetch : fetcher) : prog T (res V) :=
  match check_auth ctx with
  | Err e => Ret (Err e)
  | Ok _ =>
      let!? kb := Ret (encode_key key ctx) in
      let decision := resolve (request_for OpGet key ctx) ctx in
      match authorize decision with
      | Err e => Ret (Err e)
      | Ok _ => population_attempts MAX_POPULATION_ATTEMPTS key kb ctx decision fetch
      end
  end.

(** ** Eviction *)

(** One rung, with [left] of the shared budget left; the budget that remains
    is returned. *)
Fixpoint try_evict_at_rung (left : nat) (rung : TierId) : prog T (bool * nat) :=
  match left with
  | O => Ret (false, O)
  | S left' =>
      let! candidate := atomically (nominate_at rung) in
      match candidate with
      | None => Ret (false, left')
      | Some address =>
          let! reserved := ctl (fun _ => reserve_eviction address) in
          match reserved with
          | Ok true =>
              let! r := atomically (fun _ => reclaim_at rung address) in
              Ret (match r with Ok true => true | _ => false end, left')
          | Ok false => try_evict_at_rung left' rung
          | Err _ => Ret (false, left')
          end
      end
  end.

Fixpoint try_free_rungs (left : nat) (rungs : list TierId) : prog T bool :=
  match rungs with
  | [] => Ret false
  | rung :: rest =>
      if_bound rung (try_free_rungs left rest)
        (let! r := try_evict_at_rung left rung in
         if fst r then Ret true else try_free_rungs (snd r) rest)
  end.

Definition try_free_somewhere_in_the_ladder : prog T bool :=
  try_free_rungs MAX_EVICTION_ATTEMPTS cache_ladder.

(** ** [set] *)

(** What one rung of the walk decides: the method returns, or the walk goes on
    from the rung before with the error just seen. *)
Inductive walk : Type :=
| Return_ (r : res unit)
| NextRung (e : CacheError).

(** The errors that send the write to another rung. *)
Definition moves_to_next_rung (e : CacheError) : bool :=
  match e with
  | CapacityExhausted | TierUnavailable | Timeout | Corrupted | SerializationFailed
  | WriteIndeterminate => true
  | _ => false
  end.

(** The body of the innermost [loop], with [left] commit attempts left. *)
Fixpoint set_races (left : nat) (kb : bytes) (value : V) (ctx : CacheContext) (rung : TierId) :
    prog T walk :=
  match left with
  | O => Ret (Return_ (Err WriteContended))
  | S left' =>
      let! prepared := ctl (fun now => prepare now kb None rung Write) in
      match prepared with
      | Err e => Ret (Return_ (Err e))
      | Ok token =>
          let armed := [GIntent token] in
          let! set_result := observed_write TSet kb rung armed value (ctx_ttl ctx) in
          let! _ := record_outcome rung set_result in
          let! _ := match set_result with
                    | Err WriteIndeterminate => await armed true (remove_at rung kb)
                    | _ => Ret (Ok tt)
                    end in
          match set_result with
          | Ok _ =>
              let! committed := ctl (fun now => commit now token (ctx_ttl ctx)) in
              match committed with
              | Ok _ => Ret (Return_ (Ok tt))
              | Err StaleGeneration =>
                  if left' =? 0 then
                    let! _ := drop_here (GIntent token) in Ret (Return_ (Err WriteContended))
                  else
                    let! _ := pause armed in
                    let! _ := drop_here (GIntent token) in
                    set_races left' kb value ctx rung
              | Err e =>
                  let! _ := await armed false (remove_at rung kb) in
                  let! _ := abort_here token e in
                  Ret (Return_ (Err e))
              end
          | Err e =>
              let! _ := (if write_provably_stored_nothing e then abort_clean_here token e
                         else abort_here token e) in
              Ret (if moves_to_next_rung e then NextRung e else Return_ (Err e))
          end
      end
  end.

(** The walk from [rung] towards the top of the ladder; [n] bounds it. *)
Fixpoint set_walk (n : nat) (kb : bytes) (value : V) (ctx : CacheContext) (rung : TierId)
    (last : CacheError) : prog T walk :=
  match n with
  | O => Ret (NextRung last)
  | S n' =>
      if negb (is_cache_rung rung) then Ret (NextRung last)
      else
        if_bound rung (set_walk n' kb value ctx (previous_rung rung) last)
          (let! r := set_races MAX_COMMIT_ATTEMPTS kb value ctx rung in
           match r with
           | Return_ r => Ret (Return_ r)
           | NextRung e => set_walk n' kb value ctx (previous_rung rung) e
           end)
  end.

(** Seven rungs: the walk visits each at most once and then meets [L6]. *)
Definition WALK_BOUND : nat := 7.

Fixpoint set_passes (passes : nat) (kb : bytes) (value : V) (ctx : CacheContext) (start : TierId)
    (last : CacheError) : prog T (res unit) :=
  match passes with
  | O => Ret (Err last)
  | S passes' =>
      let! r := set_walk WALK_BOUND kb value ctx start last in
      match r with
      | Return_ r => Ret r
      | NextRung last =>
          if bool_decide (last = CapacityExhausted) then
            let! freed := try_free_somewhere_in_the_ladder in
            if freed : bool then set_passes passes' kb value ctx start last else Ret (Err last)
          else Ret (Err last)
      end
  end.

Definition set (key : K) (value : V) (ctx : CacheContext) : prog T (res unit) :=
  match check_auth ctx with
  | Err e => Ret (Err e)
  | Ok _ =>
      let!? kb := Ret (encode_key key ctx) in
      let!? s := peek_at kb in
      let! decision := ask (fun _ w => resolve_with_snapshot (request_for OpSet key ctx) ctx s w) in
      match authorize decision with
      | Err e => Ret (Err e)
      | Ok _ =>
          if bool_decide (pd_tier decision = authority_tier self) then Ret (Err PolicyDenied)
          else set_passes (S MAX_EVICTION_PASSES) kb value ctx (pd_tier decision) TierUnavailable
      end
  end.

(** ** [invalidate], [remove], [exists] *)

Definition allowed (op : CacheOperation) (key : K) (ctx : CacheContext) : res PolicyDecision :=
  let decision := resolve (request_for op key ctx) ctx in
  match check_auth ctx with
  | Err e => Err e
  | Ok _ => map_ok (fun _ => decision) (authorize decision)
  end.

Definition invalidate (key : K) (ctx : CacheContext) : prog T (res unit) :=
  let!? _d := Ret (allowed OpInvalidate key ctx) in
  let!? kb := Ret (encode_key key ctx) in
  let!? _u := ctl (fun _ => Cachelito.invalidate kb) in
  Ret (Ok tt).

(** [for (idx, tier) in self.tiers.iter().enumerate()] *)
Fixpoint remove_from (slots : list nat) (kb : bytes) : prog T unit :=
  match slots with
  | [] => Ret tt
  | idx :: rest =>
      if idx =? as_usize L6 then remove_from rest kb
      else
        let! _ := await [] false (fun now => on_slot idx (tier_remove now kb)) in
        remove_from rest kb
  end.

Definition remove (key : K) (ctx : CacheContext) : prog T (res unit) :=
  let!? _d := Ret (allowed OpRemove key ctx) in
  let!? kb := Ret (encode_key key ctx) in
  let! n := ask (fun _ w => length (w_tiers w)) in
  let! _ := remove_from (seq 0 n) kb in
  let!? _u := ctl (fun _ => release kb) in
  Ret (Ok tt).

Definition exists_ (key : K) (ctx : CacheContext) : prog T (res bool) :=
  let!? _d := Ret (allowed OpExists key ctx) in
  let!? kb := Ret (encode_key key ctx) in
  let!? s := peek_at kb in
  if negb (bool_decide (snap_state s = Ready)) then Ret (Ok false)
  else if_bound (snap_tier s) (Ret (Ok false)) (await [] true (contains_at (snap_tier s) kb)).

(** ** [refresh] *)

Definition refresh_current (kb : bytes) (before : ControlSnapshot) : prog T (option V) :=
  if is_readable (snap_state before) then
    if_bound (snap_tier before) (Ret None)
      (let! r := await [] true (get_at (snap_tier before) kb) in Ret (unwrap_or None r))
  else Ret None.

Definition refresh_detailed (key : K) (ctx : CacheContext) (fetch : fetcher) :
    prog T (res (Lookup V)) :=
  match check_auth ctx with
  | Err e => Ret (Err e)
  | Ok _ =>
      let!? kb := Ret (encode_key key ctx) in
      let decision := resolve (request_for OpRefresh key ctx) ctx in
      match authorize decision with
      | Err e => Ret (Err e)
      | Ok _ =>
          let decision := decision_set_fail_mode decision FailClosed in
          let!? before := peek_at kb in
          let! current := refresh_current kb before in
          let! _ := (if bool_decide (snap_state before = Ready) && negb (snap_expired before)
                     then mark_stale kb else Ret tt) in
          let!? s := ctl (fun now => acquire now kb (pd_tier decision)) in
          if negb (snap_population_owner s) then Ret (Ok (mkLookup current FreshnessStale))
          else
            let! r := become_population_owner key kb (snap_generation s) ctx decision fetch in
            match r with
            | Ok v => Ret (Ok (mkLookup (Some v) Fresh))
            | Err e =>
                match current with
                | Some _ =>
                    let! _ := record_telemetry_refresh_failure kb s e in
                    Ret (Ok (mkLookup current FreshnessStale))
                | None => Ret (Err e)
                end
            end
      end
  end.

Definition refresh (key : K) (ctx : CacheContext) (fetch : fetcher) : prog T (res (option V)) :=
  let! r := refresh_detailed key ctx fetch in Ret (map_ok lk_value r).

(** ** [promote], [demote] *)

(** A guard resolved by [intent.abort(e)], and the error returned. *)
Definition abort_with {A} (token : CommitToken) (e : CacheError) : prog T (res A) :=
  let! _ := abort_here token e in Ret (Err e).

(** The write to the destination and what follows it. *)
Definition move_value (key : K) (kb : bytes) (from to : TierId) (token : CommitToken) (value : V)
    (ctx : CacheContext) : prog T (res unit) :=
  let armed := [GIntent token] in
  match encode_key key ctx with
  | Err e => abort_with token e
  | Ok kb2 =>
      let! set_result := observed_write TPromote kb2 to armed value (ctx_ttl ctx) in
      let! _ := record_outcome to set_result in
      match set_result with
      | Err e => abort_with token e
      | Ok _ =>
          let! remove_result := await armed false (remove_at from kb) in
          let! _ := record_outcome from remove_result in
          let! committed := ctl (fun now => commit now token (ctx_ttl ctx)) in
          match committed with
          | Ok _ => Ret (Ok tt)
          | Err e =>
              let! _ := await armed false (remove_at to kb2) in
              abort_with token e
          end
      end
  end.

Definition move_entry (key : K) (kb : bytes) (s : ControlSnapshot) (to : TierId)
    (ctx : CacheContext) : prog T (res unit) :=
  let!? token := ctl (fun now => prepare now kb None to Move) in
  let unbound := (let! _ := drop_here (GIntent token) in Ret (Err TierUnavailable)) in
  if_bound (snap_tier s)
    unbound
    (if_bound to
       unbound
       (let! read := await [GIntent token] true (get_at (snap_tier s) kb) in
        match read with
        | Ok (Some value) => move_value key kb (snap_tier s) to token value ctx
        | Ok None => abort_with token Miss
        | Err e => abort_with token e
        end)).

Definition promote (key : K) (ctx : CacheContext) : prog T (res unit) :=
  let!? _d := Ret (allowed OpPromote key ctx) in
  let!? kb := Ret (encode_key key ctx) in
  let!? s := peek_at kb in
  if negb (bool_decide (snap_state s = Ready)) then Ret (Err Miss)
  else if negb (is_cache_rung (snap_tier s)) || (as_usize (snap_tier s) =? 0) then Ret (Ok tt)
  else
    match from_usize (as_usize (snap_tier s) - 1) with
    | None => Ret (Err ConfigurationError)
    | Some to => move_entry key kb s to ctx
    end.

Definition demote (key : K) (ctx : CacheContext) : prog T (res unit) :=
  let!? _d := Ret (allowed OpDemote key ctx) in
  let!? kb := Ret (encode_key key ctx) in
  let!? s := peek_at kb in
  if negb (bool_decide (snap_state s = Ready)) then Ret (Err Miss)
  else if negb (is_cache_rung (snap_tier s))
          || (as_usize LAST_CACHE_TIER <=? as_usize (snap_tier s)) then Ret (Ok tt)
  else
    match from_usize (as_usize (snap_tier s) + 1) with
    | None => Ret (Err ConfigurationError)
    | Some to => move_entry key kb s to ctx
    end.
End manager.

(** ** Recovery

    The payload-free sweep over stranded intents. *)

Section recovery.
Context {T : Type}.

Fixpoint recover_each (items : list (KeyAddress * CommitIntent)) (report : RecoveryReport) :
    prog T RecoveryReport :=
  match items with
  | [] => Ret report
  | (address, i) :: rest =>
      match ci_kind i with
      | Write =>
          let! r := ctl (fun _ => abort_intent_by_address address UncommittedIntent) in
          recover_each rest
            match r with
            | Ok true =>
                mkRecoveryReport (S (rr_recovered report)) (rr_failed report)
                  (rr_needs_reconciliation report) (rr_released_for_reconciliation report)
            | Ok false => report
            | Err _ =>
                mkRecoveryReport (rr_recovered report) (S (rr_failed report))
                  (rr_needs_reconciliation report) (rr_released_for_reconciliation report)
            end
      | Move =>
          let! r := ctl (fun _ => release_population_claim address) in
          let report := mkRecoveryReport (rr_recovered report) (rr_failed report)
            (S (rr_needs_reconciliation report)) (rr_released_for_reconciliation report) in
          recover_each rest
            match r with
            | Ok true =>
                mkRecoveryReport (rr_recovered report) (rr_failed report)
                  (rr_needs_reconciliation report) (S (rr_released_for_reconciliation report))
            | Ok false => report
            | Err _ =>
                mkRecoveryReport (rr_recovered report) (S (rr_failed report))
                  (rr_needs_reconciliation report) (rr_released_for_reconciliation report)
            end
      end
  end.

Definition recover_older_than (age : Duration) : prog T RecoveryReport :=
  let! items := ask (fun now w => stale_intents now (wrap64 age) (w_ctl w)) in
  recover_each items RecoveryReport_default.

Definition recover : prog T RecoveryReport := recover_older_than INTENT_RECOVERY_AGE.

(** The manager's views of the plane. *)
Definition manager_sweep_expired : prog T nat := ctl sweep_expired.

Definition manager_plane_stats : prog T PlaneStats := ask (fun now w => plane_stats now (w_ctl w)).
End recovery.
