(* ===== verification/Steps.v ===== *)
(** * What a manager operation can do to the shared world

    The guarantee of [CacheManager] as a step relation: on the control plane an
    operation touches the address of its own key and, to evict, reserves
    others; on the authority rung it only reads. Every operation is proved to
    take only such steps, from every world it may find, to every await where
    it may be dropped. *)

From stdpp Require Import relations.
From S2P Require Import Prelude Entry Integrity Key Tier Continuity Policy TierTrait Telemetry.
From S2P Require Import ControlEntry Shard Cachelito Plane Protocol Prog Manager.

(** ** Requests *)

Section requests.
Context {K V P T : Type} `{!Key K} `{!CachePolicy P K V} `{!CacheTier V T}.
Variable self : CacheManager P.

(** A call of the manager's public interface. *)
Inductive request : Type :=
| RGet (key : K) (ctx : CacheContext)
| RGetOrFetch (key : K) (ctx : CacheContext) (fetch : Instant -> World T -> res V)
| RSet (key : K) (value : V) (ctx : CacheContext)
| RInvalidate (key : K) (ctx : CacheContext)
| RRemove (key : K) (ctx : CacheContext)
| RExists (key : K) (ctx : CacheContext)
| RRefresh (key : K) (ctx : CacheContext) (fetch : Instant -> World T -> res V)
| RPromote (key : K) (ctx : CacheContext)
| RDemote (key : K) (ctx : CacheContext).

Inductive response : Type :=
| AValue (r : res (option V))
| AFetched (r : res V)
| ADone (r : res unit)
| AExists (r : res bool)
| ALookup (r : res (Lookup V)).

Definition request_key (r : request) : K :=
  match r with
  | RGet k _ | RGetOrFetch k _ _ | RSet k _ _ | RInvalidate k _ | RRemove k _ | RExists k _
  | RRefresh k _ _ | RPromote k _ | RDemote k _ => k
  end.

Definition request_ctx (r : request) : CacheContext :=
  match r with
  | RGet _ c | RGetOrFetch _ c _ | RSet _ _ c | RInvalidate _ c | RRemove _ c | RExists _ c
  | RRefresh _ c _ | RPromote _ c | RDemote _ c => c
  end.

Definition perform (r : request) : prog T response :=
  match r with
  | RGet k c => let! r := get self k c in Ret (AValue r)
  | RGetOrFetch k c f => let! r := get_or_fetch self k c f in Ret (AFetched r)
  | RSet k v c => let! r := set self k v c in Ret (ADone r)
  | RInvalidate k c => let! r := invalidate self k c in Ret (ADone r)
  | RRemove k c => let! r := remove self k c in Ret (ADone r)
  | RExists k c => let! r := exists_ self k c in Ret (AExists r)
  | RRefresh k c f => let! r := refresh_detailed self k c f in Ret (ALookup r)
  | RPromote k c => let! r := promote self k c in Ret (ADone r)
  | RDemote k c => let! r := demote self k c in Ret (ADone r)
  end.
End requests.
Arguments request K V T : clear implicits.
Arguments response V : clear implicits.

(** ** The steps *)

Section steps.
Context {V T : Type} `{!CacheTier V T}.
Context (kb : bytes) (pl : Placement).

(** The address of the operation's own key. *)
Definition own_address : KeyAddress := KeyAddress_of kb pl.

Inductive manager_step : World T -> World T -> Prop :=
| ms_ctl w op : op_address (w_ctl w) op = own_address ->
    manager_step w (set_ctl (plane_exec (w_ctl w) op) w)
| ms_stale w : manager_step w (set_ctl (snd (plane_set_state kb Stale (w_ctl w))) w)
| ms_evict w a : manager_step w (set_ctl (snd (reserve_eviction a (w_ctl w))) w)
| ms_recover w rung : manager_step w (set_reg (registry_recover (w_reg w) rung) w)
| ms_fail w now rung : manager_step w (set_reg (registry_fail now (w_reg w) rung) w)
| ms_emit w r : manager_step w (set_sink (w_sink w ++ [r]) w)
| ms_get w now rung : manager_step w (snd (get_at rung kb now w))
| ms_contains w now rung : manager_step w (snd (contains_at rung kb now w))
| ms_set w now rung v ttl' : is_cache_rung rung = true ->
    manager_step w (snd (set_at rung kb v ttl' now w))
| ms_remove w now slot : slot <> as_usize L6 ->
    manager_step w (snd (on_slot slot (tier_remove now kb) w))
| ms_nominate w now rung : is_cache_rung rung = true ->
    manager_step w (snd (nominate_at rung now w))
| ms_reclaim w rung a : is_cache_rung rung = true -> manager_step w (snd (reclaim_at rung a w)).

Definition placed (w : World T) : Prop := c_placement (w_ctl w) = pl.

Abbreviation guarantee := (rtc manager_step).
Abbreviation R := (respects placed guarantee).

(** ** Small programs *)

Lemma r_ret {A} (a : A) : R (Ret a).
Proof. done. Qed.

Lemma r_step {B} (f : Instant -> World T -> B * World T) :
  (forall now w, placed w -> manager_step w (snd (f now w))) -> R (atomically f).
Proof. intros Hf now w Hw. split; [by apply rtc_once, Hf|done]. Qed.

Lemma r_ask {B} (f : Instant -> World T -> B) : R (ask f).
Proof. intros now w Hw. split; [reflexivity|done]. Qed.

Lemma own_address_of w : placed w -> address_of (w_ctl w) kb = own_address.
Proof. unfold address_of, own_address. by intros ->. Qed.

Lemma r_ctl_bind {A B} (op : Instant -> Cachelito -> B * Cachelito) po (k : B -> prog T A) :
  (forall now c, snd (op now c) = plane_exec c (po now)) ->
  (forall now w, placed w -> op_address (w_ctl w) (po now) = own_address) ->
  (forall now w, placed w -> R (k (fst (op now (w_ctl w))))) ->
  R (bind (ctl op) k).
Proof.
  intros Hop Ha Hk. apply respects_step; intros now w Hw; specialize (Hop now (w_ctl w));
    specialize (Hk now w Hw); destruct (op now (w_ctl w)) as [b c]; cbn in *; [|done].
  subst c. by apply rtc_once, ms_ctl, Ha.
Qed.

Lemma r_ctl {B} (op : Instant -> Cachelito -> B * Cachelito) po :
  (forall now c, snd (op now c) = plane_exec c (po now)) ->
  (forall now w, placed w -> op_address (w_ctl w) (po now) = own_address) -> R (ctl op).
Proof.
  intros Hop Ha now w Hw. specialize (Hop now (w_ctl w)). destruct (op now (w_ctl w)) as [b c].
  cbn in *. subst c. split; [by apply rtc_once, ms_ctl, Ha|done].
Qed.

Definition own_guard (g : guard) : Prop :=
  match g with
  | GPopulation key => key = kb
  | GIntent token => tok_address token = own_address
  end.

Lemma drop_guards_own gs :
  Forall own_guard gs ->
  forall w, placed w -> guarantee w (drop_guards gs w).
Proof.
  induction 1 as [|g gs Hg _ IH]; intros w Hw; [reflexivity|]. unfold drop_guards in *. cbn.
  assert (Hstep : manager_step w (drop_guard g w)).
  { destruct g as [key|token]; cbn in *.
    - subst key. apply (ms_ctl w (PoFail kb Cancelled)). by apply own_address_of.
    - apply (ms_ctl w (PoAbort token Cancelled)). done. }
  eapply rtc_l; [exact Hstep|]. apply IH.
  destruct g; unfold placed, drop_guard, fail_with_error, abort, abort_inner in *; cbn [w_ctl set_ctl];
    by rewrite with_entry_placement.
Qed.

Lemma r_await {B} armed bounded (op : Instant -> World T -> res B * World T) :
  Forall own_guard armed ->
  (forall now w, placed w -> manager_step w (snd (op now w))) -> R (await armed bounded op).
Proof.
  intros Hg Hop. split; [|split].
  - intros now w Hw. split; [by apply rtc_once, Hop|done].
  - by apply drop_guards_own.
  - done.
Qed.

Lemma r_pause armed : Forall own_guard armed -> R (pause armed).
Proof. intros Hg. split; [by apply drop_guards_own|done]. Qed.

Lemma r_notified a seen : R (notified [] a seen).
Proof. split; [|done]. intros w Hw. reflexivity. Qed.

Lemma r_emit record : R (emit record).
Proof. apply r_step. intros now w Hw. apply ms_emit. Qed.

Lemma r_drop_here g : own_guard g -> R (drop_here g).
Proof.
  intros Hg now w Hw. split; [|done]. apply (drop_guards_own [g]); [|done]. by constructor.
Qed.

Lemma r_mark_stale : R (mark_stale kb).
Proof.
  apply respects_bind; [|done]. intros now w Hw. split; [|done].
  pose proof (ms_stale w) as H. cbn. destruct (plane_set_state _ _ _). by apply rtc_once.
Qed.

Lemma r_if_bound {A} rung (absent k : prog T A) : R absent -> R k -> R (if_bound rung absent k).
Proof. intros Ha Hk. apply respects_bind; [apply r_ask|]. by intros []. Qed.

Lemma r_record_outcome {A} rung (r : res A) : R (record_outcome rung r).
Proof.
  intros now w Hw. split; [|done]. destruct r as [a|[]]; cbn; try reflexivity; apply rtc_once.
  - apply ms_recover.
  - apply ms_fail.
Qed.
End steps.

Create HintDb steps.
#[export] Hint Resolve r_ret r_ask r_notified r_emit r_mark_stale r_record_outcome : steps.
#[export] Hint Constructors manager_step : steps.

(** Walk through a program: sequencing, bound rungs, case analysis, and the
    lemmas of [steps] at the leaves. *)
Ltac resp1 :=
  match goal with
  | |- respects _ _ (bind (Ret _) _) => cbn [bind]
  | |- respects _ _ (bind _ _) => apply respects_bind
  | |- respects _ _ (if_bound _ _ _) => apply r_if_bound
  | |- respects _ _ (match ?x with _ => _ end) => destruct x eqn:?
  | |- respects _ _ (let _ := _ in _) => cbn zeta
  | |- respects _ _ _ => solve [eauto with steps]
  | |- Forall _ _ => solve [repeat constructor; auto]
  | |- forall _, _ => intros ?
  end.
Ltac resp := repeat resp1.

Section operations.
Context {K V P T : Type} `{!Key K} `{!CachePolicy P K V} `{!CacheTier V T}.
Variable self : CacheManager P.
Context (kb : bytes) (pl : Placement).

Abbreviation R := (respects (placed (T := T) pl) (rtc (manager_step kb pl))).

Lemma r_read_clock : R read_clock.
Proof. apply r_ask. Qed.

Lemma r_peek : R (peek_at kb).
Proof. apply r_ask. Qed.

Hint Resolve r_read_clock r_peek : steps.

Lemma r_abort_here token e : tok_address token = own_address kb pl -> R (abort_here token e).
Proof. intros Ht. apply (r_ctl_bind kb pl _ (fun _ => PoAbort token e)); [done|done|by intros]. Qed.

Lemma r_abort_clean_here token e :
  tok_address token = own_address kb pl -> R (abort_clean_here token e).
Proof.
  intros Ht. apply (r_ctl_bind kb pl _ (fun _ => PoAbortClean token e)); [done|done|by intros].
Qed.

Lemma r_observed_read op rung armed :
  Forall (own_guard kb pl) armed -> R (observed_read op kb rung armed).
Proof.
  intros Hg. unfold observed_read. resp.
  apply r_await; [done|]. intros now w Hw. apply ms_get.
Qed.

Lemma r_observed_write op rung armed v ttl' :
  Forall (own_guard kb pl) armed -> is_cache_rung rung = true ->
  R (observed_write op kb rung armed v ttl').
Proof.
  intros Hg Hr. unfold observed_write. resp.
  apply r_await; [done|]. intros now w Hw. by apply ms_set.
Qed.

Lemma r_get_at rung : R (await [] true (get_at rung kb)).
Proof. apply r_await; [done|]. intros now w Hw. apply ms_get. Qed.

Lemma r_remove_at armed bounded rung :
  Forall (own_guard kb pl) armed -> is_cache_rung rung = true ->
  R (await armed bounded (remove_at rung kb)).
Proof.
  intros Hg Hr. apply r_await; [done|]. intros now w Hw. apply ms_remove. by destruct rung.
Qed.

Lemma r_wait : R (wait_for_population kb).
Proof. unfold wait_for_population. resp; apply r_notified. Qed.

Hint Resolve r_abort_here r_abort_clean_here r_observed_read r_observed_write r_get_at r_remove_at
  r_wait : steps.

(** The key the manager works on is the framed key of the request. *)
Variables (key : K) (ctx : CacheContext).
Hypothesis Hkey : forall b, encode_key key ctx = Ok b -> b = kb.

Lemma r_with_key {A} (k : bytes -> prog T (res A)) :
  R (k kb) -> R (let!? b := Ret (encode_key key ctx) in k b).
Proof. intros Hk. cbn [bind]. destruct (encode_key key ctx) as [b|e] eqn:He; [|done]. by rewrite (Hkey b). Qed.

Lemma r_wait_and_get : R (wait_and_get (V := V) key ctx).
Proof. apply r_with_key. resp. Qed.

Lemma r_control_only_then {A} rung started outcome e :
  R (control_only_then (A := A) kb rung started outcome e).
Proof. unfold control_only_then. resp. Qed.

Hint Resolve r_wait_and_get r_control_only_then : steps.

Lemma r_get : R (get (V := V) self key ctx).
Proof.
  unfold get. apply respects_bind; [apply r_read_clock|]. intros started. apply r_with_key.
  unfold get_from, get_ready, get_waiting. resp.
Qed.

(** ** Population *)

Variable fetch : Instant -> World T -> res V.

Lemma r_fallback cause rungs : R (try_fallback_rungs (V := V) kb cause rungs).
Proof.
  induction rungs as [|rung rest IH]; cbn [try_fallback_rungs]; [done|].
  unfold record_fallback. resp.
Qed.

Lemma r_try_fallback cause : R (try_fallback_tier (V := V) key ctx cause).
Proof. apply r_with_key, r_fallback. Qed.

Lemma nearest_from_cache (w : World T) idx t :
  idx <= LAST_CACHE_RUNG_INDEX -> nearest_from w idx = Some t -> is_cache_rung t = true.
Proof.
  assert (Hcache : forall i c, i <= 5 -> from_usize i = Some c -> is_cache_rung c = true).
  { intros i c Hi Hc. destruct i as [|[|[|[|[|[|i]]]]]]; cbn in Hc; simplify_eq; try done. lia. }
  unfold LAST_CACHE_RUNG_INDEX.
  induction idx as [|idx IH]; cbn [nearest_from]; intros Hle H; [by branches_in H|].
  destruct (from_usize (S idx)) as [c|] eqn:Hc; [|done]. apply Hcache in Hc; [|done].
  destruct (has_tier w c); [congruence|]. apply IH; [lia|done].
Qed.

Lemma nearest_bound_rung_cache (w : World T) wanted t :
  nearest_bound_rung w wanted = Some t -> is_cache_rung t = true.
Proof.
  unfold nearest_bound_rung, is_cache_rung at 1. destruct (_ <=? _) eqn:Hle; [|done].
  apply Nat.leb_le in Hle. by apply nearest_from_cache.
Qed.

Lemma own_guard_population : Forall (own_guard kb pl) [GPopulation kb].
Proof. by repeat constructor. Qed.

Hint Resolve r_fallback r_try_fallback own_guard_population : steps.

Lemma r_publish g rung ttl' : R (ctl (fun now => publish now kb g rung ttl')).
Proof.
  apply (r_ctl kb pl _ (fun now => PoPublish now kb g rung ttl')); [done|].
  intros now w Hw. by apply own_address_of.
Qed.

Lemma r_fail_with_error e : R (ctl (fun _ => fail_with_error kb e)).
Proof.
  apply (r_ctl kb pl _ (fun _ => PoFail kb e)); [done|]. intros now w Hw. by apply own_address_of.
Qed.

Lemma r_await_fetch armed : Forall (own_guard kb pl) armed -> R (await_fetch armed fetch).
Proof. intros Hg. split_and!; [by intros now w Hw|by apply drop_guards_own|done]. Qed.

Hint Resolve r_publish r_fail_with_error r_await_fetch : steps.

Lemma r_populate_once g decision : R (populate_once key kb g ctx fetch decision).
Proof.
  unfold populate_once. apply respects_bind; [auto with steps|]. intros [value|e]; [|done].
  apply respects_step; [by intros|]. intros now w Hw. cbn [fst].
  destruct (nearest_bound_rung w (pd_tier decision)) as [rung|] eqn:Hr; [|done].
  apply nearest_bound_rung_cache in Hr. apply r_if_bound; [done|]. apply r_with_key. resp.
Qed.

Lemma r_population_failed decision e : R (population_failed (V := V) key kb ctx decision e).
Proof. unfold population_failed. resp. Qed.

Hint Resolve r_populate_once r_population_failed : steps.

Lemma r_population_loop left g decision : R (population_loop left key kb g ctx decision fetch).
Proof.
  induction left as [|left IH]; cbn [population_loop]; [done|]. resp.
  apply r_pause. auto with steps.
Qed.

Lemma r_become_owner g decision : R (become_population_owner key kb g ctx decision fetch).
Proof. apply r_population_loop. Qed.

Lemma r_acquire t : R (ctl (fun now => acquire now kb t)).
Proof.
  apply (r_ctl kb pl _ (fun now => PoAcquire now kb t)); [done|]. intros now w Hw.
  by apply own_address_of.
Qed.

Hint Resolve r_become_owner r_acquire : steps.

Lemma r_population_attempts left decision : R (population_attempts left key kb ctx decision fetch).
Proof.
  induction left as [|left IH]; cbn [population_attempts]; [done|].
  apply respects_bind; [auto with steps|]. intros [first|e]; [|done]. unfold dispatch_acquired. resp.
Qed.

Lemma r_get_or_fetch : R (get_or_fetch self key ctx fetch).
Proof.
  unfold get_or_fetch. destruct (check_auth ctx); [|done]. apply r_with_key.
  destruct (authorize _); [|done]. apply r_population_attempts.
Qed.

Lemma r_refresh_detailed : R (refresh_detailed self key ctx fetch).
Proof.
  unfold refresh_detailed. destruct (check_auth ctx); [|done]. apply r_with_key.
  unfold refresh_current, record_telemetry_refresh_failure. resp.
Qed.

(** ** Eviction *)

Lemma r_evict_rung left rung : is_cache_rung rung = true -> R (try_evict_at_rung left rung).
Proof.
  intros Hr. induction left as [|left IH]; cbn [try_evict_at_rung]; [done|].
  apply respects_bind; [apply r_step; auto with steps|]. intros [a|]; [|done].
  apply respects_bind.
  - intros now w Hw. pose proof (ms_evict kb pl w a) as H. cbn. destruct (reserve_eviction _ _).
    split; [by apply rtc_once|done].
  - intros [[]|]; [|done..]. apply respects_bind; [|done]. apply r_step. auto with steps.
Qed.

Lemma r_try_free_rungs left rungs :
  Forall (fun t => is_cache_rung t = true) rungs -> R (try_free_rungs left rungs).
Proof.
  intros Hall. revert left. induction Hall as [|rung rest Hr _ IH]; intros left; cbn; [done|].
  apply r_if_bound; [apply IH|]. apply respects_bind; [by apply r_evict_rung|].
  intros [[] n]; [done|apply IH].
Qed.

Lemma r_try_free : R try_free_somewhere_in_the_ladder.
Proof. apply r_try_free_rungs. by repeat constructor. Qed.

(** ** [set], [promote] and [demote] *)

Lemma prepare_token now k g t kind c token :
  fst (prepare now k g t kind c) = Ok token -> tok_address token = address_of c k.
Proof. unfold prepare, with_created_entry, prepare_entry. intros H. by branches_in H. Qed.

Lemma r_prepare {A} rung kind (k : res CommitToken -> prog T A) :
  (forall token, tok_address token = own_address kb pl -> R (k (Ok token))) ->
  (forall e, R (k (Err e))) ->
  R (bind (ctl (fun now => prepare now kb None rung kind)) k).
Proof.
  intros Hok Herr. apply (r_ctl_bind kb pl _ (fun now => PoPrepare now kb None rung kind)); [done| |];
    intros now w Hw; [by apply own_address_of|].
  destruct (fst (prepare _ _ _ _ _ _)) as [token|e] eqn:Hp; [|apply Herr].
  apply Hok. rewrite (prepare_token _ _ _ _ _ _ _ Hp). by apply own_address_of.
Qed.

Lemma r_commit token ttl' :
  tok_address token = own_address kb pl -> R (ctl (fun now => commit now token ttl')).
Proof. intros Ht. by apply (r_ctl kb pl _ (fun now => PoCommit now token ttl')). Qed.

Lemma own_guard_intent token :
  tok_address token = own_address kb pl -> Forall (own_guard kb pl) [GIntent token].
Proof. by repeat constructor. Qed.

Hint Resolve r_commit own_guard_intent r_pause r_try_free : steps.

Lemma r_drop_intent token :
  tok_address token = own_address kb pl -> R (drop_here (T := T) (GIntent token)).
Proof. intros Ht. by apply r_drop_here. Qed.

Hint Resolve r_drop_intent : steps.

Lemma r_set_races left value rung :
  is_cache_rung rung = true -> R (set_races left kb value ctx rung).
Proof.
  intros Hr. induction left as [|left IH]; cbn [set_races]; [done|].
  apply r_prepare; [|done]. intros token Ht. resp.
Qed.

Lemma r_set_walk n value rung last : R (set_walk n kb value ctx rung last).
Proof.
  revert rung last. induction n as [|n IH]; intros rung last; cbn [set_walk]; [done|].
  destruct (is_cache_rung rung) eqn:Hr; [|done]. cbn [negb].
  apply r_if_bound; [apply IH|]. apply respects_bind; [by apply r_set_races|].
  intros [r|e]; [done|apply IH].
Qed.

Lemma r_set_passes n value start last : R (set_passes n kb value ctx start last).
Proof.
  revert last. induction n as [|n IH]; intros last; cbn [set_passes]; [done|].
  apply respects_bind; [apply r_set_walk|]. resp.
Qed.

Lemma r_set value : R (set self key value ctx).
Proof.
  unfold set. destruct (check_auth ctx); [|done]. apply r_with_key.
  apply respects_bind; [apply r_peek|]. intros [s|e]; [|done].
  apply respects_bind; [apply r_ask|]. intros decision.
  destruct (authorize decision); [|done]. destruct (bool_decide _); [done|apply r_set_passes].
Qed.

Lemma r_abort_with {A} token e :
  tok_address token = own_address kb pl -> R (abort_with (A := A) token e).
Proof. intros Ht. unfold abort_with. resp. Qed.

Hint Resolve r_abort_with : steps.

Lemma r_move_value from to token value :
  tok_address token = own_address kb pl -> is_cache_rung from = true -> is_cache_rung to = true ->
  R (move_value key kb from to token value ctx).
Proof.
  intros Ht Hf Hto. unfold move_value. destruct (encode_key key ctx) as [kb2|e] eqn:He.
  - rewrite (Hkey kb2) by done. resp.
  - auto with steps.
Qed.

Lemma r_move_entry s to :
  is_cache_rung (snap_tier s) = true -> is_cache_rung to = true ->
  R (move_entry (V := V) key kb s to ctx).
Proof.
  intros Hf Hto. apply r_prepare; [|done]. intros token Ht. cbn zeta.
  assert (Hun : R (let! _ := drop_here (T := T) (GIntent token) in Ret (A := res unit) (Err TierUnavailable)))
    by resp.
  apply r_if_bound; [done|]. apply r_if_bound; [done|].
  apply respects_bind; [|intros [[v|]|e]; [by apply r_move_value|by auto with steps..]].
  apply r_await; [by auto with steps|]. intros now w Hw. apply ms_get.
Qed.

Lemma r_promote : R (promote self key ctx).
Proof.
  unfold promote. cbn [bind]. destruct (allowed self OpPromote key ctx); [|done].
  apply r_with_key. apply respects_bind; [apply r_peek|]. intros [s|e]; [|done].
  destruct (negb (bool_decide _)); [done|].
  destruct (negb (is_cache_rung (snap_tier s)) || _) eqn:Hb; [done|].
  destruct (from_usize _) as [to|] eqn:Hto; [|done].
  apply r_move_entry; destruct (snap_tier s); cbn in *; by simplify_eq.
Qed.

Lemma r_demote : R (demote self key ctx).
Proof.
  unfold demote. cbn [bind]. destruct (allowed self OpDemote key ctx); [|done].
  apply r_with_key. apply respects_bind; [apply r_peek|]. intros [s|e]; [|done].
  destruct (negb (bool_decide _)); [done|].
  destruct (negb (is_cache_rung (snap_tier s)) || _) eqn:Hb; [done|].
  destruct (from_usize _) as [to|] eqn:Hto; [|done].
  apply r_move_entry; destruct (snap_tier s); cbn in *; by simplify_eq.
Qed.

(** ** [invalidate], [remove] and [exists] *)

Lemma r_invalidate : R (invalidate self key ctx).
Proof.
  unfold invalidate. cbn [bind]. destruct (allowed self OpInvalidate key ctx); [|done].
  apply r_with_key. apply respects_bind; [|by intros []].
  apply (r_ctl kb pl _ (fun _ => PoInvalidate kb)); [done|]. intros now w Hw. by apply own_address_of.
Qed.

Lemma r_remove_from slots : R (remove_from slots kb).
Proof.
  induction slots as [|idx slots IH]; cbn [remove_from]; [done|].
  destruct (Nat.eqb_spec idx (as_usize L6)) as [|Hne]; [done|].
  apply respects_bind; [|intros _; apply IH].
  apply r_await; [done|]. intros now w Hw. by apply ms_remove.
Qed.

Lemma r_remove : R (remove self key ctx).
Proof.
  unfold remove. cbn [bind]. destruct (allowed self OpRemove key ctx); [|done].
  apply r_with_key. apply respects_bind; [apply r_ask|]. intros n.
  apply respects_bind; [apply r_remove_from|]. intros _.
  apply respects_bind; [|by intros []].
  apply (r_ctl kb pl _ (fun _ => PoRelease kb)); [done|]. intros now w Hw. by apply own_address_of.
Qed.

Lemma r_exists : R (exists_ self key ctx).
Proof.
  unfold exists_. cbn [bind]. destruct (allowed self OpExists key ctx); [|done].
  apply r_with_key. apply respects_bind; [apply r_peek|]. intros [s|e]; [|done].
  destruct (negb _); [done|]. apply r_if_bound; [done|].
  apply r_await; [done|]. intros now w Hw. apply ms_contains.
Qed.
End operations.

(** Every request takes only the steps of its own key. *)
Section perform.
Context {K V P T : Type} `{!Key K} `{!CachePolicy P K V} `{!CacheTier V T}.
Variable self : CacheManager P.

Definition names_key (r : request K V T) (kb : bytes) : Prop :=
  forall b, encode_key (request_key r) (request_ctx r) = Ok b -> b = kb.

Lemma perform_respects kb pl (r : request K V T) :
  names_key r kb -> respects (placed (T := T) pl) (rtc (manager_step kb pl)) (perform self r).
Proof.
  intros Hk. destruct r; cbn [perform]; (apply respects_bind; [|done]);
    [apply r_get|apply r_get_or_fetch|apply r_set|apply r_invalidate|apply r_remove|apply r_exists
    |apply r_refresh_detailed|apply r_promote|apply r_demote]; exact Hk.
Qed.

Lemma manager_step_placed kb pl (w w' : World T) :
  placed pl w -> rtc (manager_step kb pl) w w' -> placed pl w'.
Proof.
  intros Hw Hr. induction Hr as [w|w w1 w' Hs _ IH]; [done|]. apply IH. clear IH.
  unfold placed in *. destruct Hs; try done.
  - etransitivity; [|exact Hw]. destruct op; cbn; first [apply with_entry_placement|apply with_created_entry_placement].
  - etransitivity; [|exact Hw]. apply with_created_entry_placement.
  - etransitivity; [|exact Hw]. apply with_entry_placement.
  - unfold get_at, on_slot. branches; done.
  - unfold contains_at, on_slot. branches; done.
  - unfold set_at, on_slot. branches; done.
  - unfold on_slot. branches; done.
  - unfold nominate_at. branches; done.
  - unfold reclaim_at, on_slot. branches; done.
Qed.

(** A request alone, or among callers that keep the same guarantee for its
    key, moves the world by steps of its key. *)
Lemma perform_steps kb pl (r : request K V T) (env : Env T) n w :
  names_key r kb -> placed pl w ->
  (forall m w, placed pl w -> rtc (manager_step kb pl) w (env_others env m w)) ->
  rtc (manager_step kb pl) w (snd (run env n (perform self r) w)).
Proof.
  intros Hk Hw He.
  apply (run_respects (placed pl) (rtc (manager_step kb pl))); [|by apply perform_respects|done|done].
  intros w1 w2. apply manager_step_placed.
Qed.
End perform.
