(* ===== verification/Guarantee.v ===== *)
(** * What holds however the callers interleave

    Safety of the manager under any interference, any timing and cancellation
    at any await: the authority is only read, the invariants are kept, other
    keys are left alone, and an unauthenticated caller changes nothing. *)

From stdpp Require Import relations.
From S2P Require Import Prelude Entry Integrity Key Tier Continuity Policy TierTrait Telemetry.
From S2P Require Import Pool FixedTier ShardedTier Stubs ControlEntry Shard Cachelito Plane Protocol Commit Prog Manager Steps.

(** A weaker guarantee that every step of the manager implies is one the
    manager keeps among callers that keep it. *)
Section weaken.
Context {K V P T : Type} `{!Key K} `{!CachePolicy P K V} `{!CacheTier V T}.
Context (G : World T -> World T -> Prop) `{!PreOrder G}.

Lemma respects_weaken {A} (I : World T -> Prop) (G1 G2 : World T -> World T -> Prop) (p : prog T A) :
  (forall w w', I w -> G1 w w' -> G2 w w') -> respects I G1 p -> respects I G2 p.
Proof.
  intros HG. induction p as [a|C g k IH|C armed b op k IH|armed k IH|armed a s k IH]; cbn.
  - done.
  - intros Hp now w Hw. destruct (Hp now w Hw). eauto.
  - intros (Hop & Hd & Ht). split_and!; [|eauto|eauto]. intros now w Hw.
    destruct (Hop now w Hw). eauto.
  - intros [Hd Hk]. eauto.
  - intros [Hd Hk]. eauto.
Qed.

Lemma rtc_weaken (I : World T -> Prop) (R : World T -> World T -> Prop) w w' :
  (forall w w', I w -> R w w' -> I w') -> (forall w w', I w -> R w w' -> G w w') ->
  I w -> rtc R w w' -> G w w'.
Proof.
  intros HI HG Hw Hr. induction Hr as [w|w w1 w' Hs Hr IH]; [reflexivity|].
  etransitivity; [by apply HG|]. apply IH. by eapply HI.
Qed.

Lemma perform_keeps (self : CacheManager P) (kb : bytes) (pl : Placement) (r : request K V T)
    (env : Env T) n (w : World T) :
  names_key r kb -> placed pl w ->
  (forall w w', G w w' -> c_placement (w_ctl w') = c_placement (w_ctl w)) ->
  (forall w w', placed pl w -> manager_step kb pl w w' -> G w w') ->
  (forall m w, G w (env_others env m w)) ->
  G w (snd (run env n (perform self r) w)).
Proof.
  intros Hk Hw HP HG He.
  apply (run_respects (placed pl) G); [|eapply respects_weaken, perform_respects; [|done]|by auto|done].
  - intros w1 w2 Hw1 Hg. unfold placed in *. by rewrite (HP _ _ Hg).
  - intros w1 w2 Hw1 Hr. eapply (rtc_weaken (placed pl)); [|exact HG|done|exact Hr].
    intros w3 w4 Hw3 Hs. by eapply manager_step_placed, rtc_once.
Qed.
End weaken.

(** The key a request works on; any will do when the key does not encode. *)
Definition key_bytes {K V T} `{!Key K} (r : request K V T) : bytes :=
  match encode_key (request_key r) (request_ctx r) with Ok b => b | Err _ => [] end.

Lemma names_key_bytes {K V T} `{!Key K} (r : request K V T) : names_key r (key_bytes r).
Proof. intros b Hb. unfold key_bytes. by rewrite Hb. Qed.

Lemma manager_step_placement {V T} `{!CacheTier V T} kb pl (w w' : World T) :
  placed pl w -> manager_step kb pl w w' -> c_placement (w_ctl w') = c_placement (w_ctl w).
Proof.
  intros Hw Hs. transitivity pl; [|by symmetry]. by eapply manager_step_placed, rtc_once.
Qed.

(** ** The authority *)

Section authority.
Context {K V P T : Type} `{!Key K} `{!CachePolicy P K V} `{!CacheTier V T}.

(** A read of a tier, by value or by presence. *)
Inductive read_step : T -> T -> Prop :=
| read_get now k t : read_step t (snd (tier_get now k t))
| read_contains now k t : read_step t (snd (tier_contains now k t)).

(** The same rungs are bound, and whatever is bound on the authority has been
    read at most. *)
Record authority_only_read (w w' : World T) : Prop := {
  aor_rungs : length (w_tiers w') = length (w_tiers w);
  aor_placement : c_placement (w_ctl w') = c_placement (w_ctl w);
  aor_authority : forall t, w_tiers w !! as_usize AUTHORITY_TIER = Some t ->
    exists t', w_tiers w' !! as_usize AUTHORITY_TIER = Some t' /\ rtc read_step t t'
}.

#[export] Instance authority_preorder : PreOrder authority_only_read.
Proof.
  split.
  - intros w. split; [done..|]. intros t Ht. by exists t.
  - intros w1 w2 w3 [H1 H2 H3] [H4 H5 H6]. split; [congruence..|].
    intros t Ht. destruct (H3 t Ht) as (t2 & Ht2 & Hr). destruct (H6 t2 Ht2) as (t3 & Ht3 & Hr').
    exists t3. split; [done|]. by etransitivity.
Qed.

(** A call on one slot: the other slots stay. *)
Lemma on_slot_tiers {B} slot (op : T -> res B * T) (w : World T) :
  w_ctl (snd (on_slot slot op w)) = w_ctl w /\
  length (w_tiers (snd (on_slot slot op w))) = length (w_tiers w) /\
  forall j, w_tiers (snd (on_slot slot op w)) !! j =
    if decide (j = slot) then (fun t => snd (op t)) <$> (w_tiers w !! j) else w_tiers w !! j.
Proof.
  unfold on_slot. destruct (w_tiers w !! slot) as [t|] eqn:Ht.
  - destruct (op t) as [r t'] eqn:Hop. cbn. split_and!; [done|by rewrite length_insert|].
    intros j. destruct (decide (j = slot)) as [->|Hne].
    + rewrite list_lookup_insert_eq by (by apply lookup_lt_Some in Ht). rewrite Ht. cbn. by rewrite Hop.
    + by rewrite list_lookup_insert_ne.
  - split_and!; [done..|]. intros j. destruct (decide (j = slot)) as [->|]; [|done]. by rewrite Ht.
Qed.

Lemma nominate_tiers rung now (w : World T) :
  w_ctl (snd (nominate_at rung now w)) = w_ctl w /\
  length (w_tiers (snd (nominate_at rung now w))) = length (w_tiers w) /\
  forall j, w_tiers (snd (nominate_at rung now w)) !! j =
    if decide (j = as_usize rung)
    then (fun t => snd (eviction_candidate now (w_cursor w) t)) <$> (w_tiers w !! j)
    else w_tiers w !! j.
Proof.
  unfold nominate_at. destruct (w_tiers w !! as_usize rung) as [t|] eqn:Ht.
  - destruct (eviction_candidate now (w_cursor w) t) as [[a c] t'] eqn:Hop. cbn.
    split_and!; [done|by rewrite length_insert|].
    intros j. destruct (decide (j = as_usize rung)) as [->|Hne].
    + rewrite list_lookup_insert_eq by (by apply lookup_lt_Some in Ht). rewrite Ht. cbn. by rewrite Hop.
    + by rewrite list_lookup_insert_ne.
  - split_and!; [done..|]. intros j. destruct (decide (j = as_usize rung)) as [->|]; [|done].
    by rewrite Ht.
Qed.

Lemma authority_step kb pl (w w' : World T) :
  placed pl w -> manager_step kb pl w w' -> authority_only_read w w'.
Proof.
  intros Hw Hs. pose proof (manager_step_placement kb pl w w' Hw Hs) as Hp.
  assert (Hsame : w_tiers w' = w_tiers w -> authority_only_read w w').
  { intros Heq. split; [by rewrite Heq|done|]. rewrite Heq. intros t Ht. by exists t. }
  destruct Hs; try (by apply Hsame); unfold get_at, contains_at, set_at, reclaim_at in *.
  - destruct (on_slot_tiers (as_usize rung) (tier_get now kb) w) as (_ & Hl & Hj).
    split; [done..|]. intros t Ht. rewrite Hj, Ht. destruct (decide _); cbn; [|by exists t].
    eexists; split; [done|]. apply rtc_once. constructor.
  - destruct (on_slot_tiers (as_usize rung) (tier_contains now kb) w) as (_ & Hl & Hj).
    split; [done..|]. intros t Ht. rewrite Hj, Ht. destruct (decide _); cbn; [|by exists t].
    eexists; split; [done|]. apply rtc_once. constructor.
  - destruct (on_slot_tiers (as_usize rung) (tier_set now kb v ttl') w) as (_ & Hl & Hj).
    split; [done..|]. intros t Ht. rewrite Hj, Ht, decide_False by (by destruct rung). by exists t.
  - destruct (on_slot_tiers slot (tier_remove now kb) w) as (_ & Hl & Hj).
    split; [done..|]. intros t Ht. rewrite Hj, Ht, decide_False by done. by exists t.
  - destruct (nominate_tiers rung now w) as (_ & Hl & Hj).
    split; [done..|]. intros t Ht. rewrite Hj, Ht, decide_False by (by destruct rung). by exists t.
  - destruct (on_slot_tiers (as_usize rung) (remove_if_address a) w) as (_ & Hl & Hj).
    split; [done..|]. intros t Ht. rewrite Hj, Ht, decide_False by (by destruct rung). by exists t.
Qed.

(** C8. The authority rung is only ever read: whatever request is performed,
    with whatever policy, among callers that only read the authority, at any
    pace and cancelled at any await, the backend bound on the authority rung
    has seen reads and nothing else -- no write, no removal, no eviction. *)
Theorem authority_is_only_read (self : CacheManager P) (r : request K V T) (env : Env T)
    (n : nat) (w : World T)
    (Hothers : forall m w, authority_only_read w (env_others env m w)) :
  authority_only_read w (snd (run env n (perform self r) w)).
Proof.
  eapply perform_keeps; [apply _|apply names_key_bytes|reflexivity|by destruct 1| |done].
  intros w1 w2. apply authority_step.
Qed.
End authority.

(** ** The world's invariant *)

Section invariant.
Context {K V P T : Type} `{!Key K} `{!CachePolicy P K V} `{HT : !CacheTier V T} `{HL : !TierLaws V T}.

(** The registry keeps one health slot per rung. *)
Definition registry_ok (r : TierRegistry) : Prop :=
  reg_tiers r = TierId_ALL /\ length (reg_health r) = 7.

Record world_ok (w : World T) : Prop := {
  wok_plane : plane_ok (w_ctl w);
  wok_registry : registry_ok (w_reg w);
  wok_tiers : Forall tier_ok (w_tiers w)
}.

(** Everything a request keeps: the invariant, the bound rungs, the placement,
    and every telemetry record already emitted. *)
Record well_kept (w w' : World T) : Prop := {
  wk_ok : world_ok w -> world_ok w';
  wk_rungs : length (w_tiers w') = length (w_tiers w);
  wk_placement : c_placement (w_ctl w') = c_placement (w_ctl w);
  wk_sink : w_sink w `prefix_of` w_sink w'
}.

#[export] Instance well_kept_preorder : PreOrder well_kept.
Proof.
  split; [by intros w|]. intros w1 w2 w3 [H1 H2 H3 H4] [H5 H6 H7 H8].
  split; [auto|congruence|congruence|by etransitivity].
Qed.

Lemma on_slot_ok {B} slot (op : T -> res B * T) (w : World T) :
  (forall t, tier_ok t -> tier_ok (snd (op t))) -> world_ok w -> world_ok (snd (on_slot slot op w)).
Proof.
  intros Hop [Hp Hr Ht]. unfold on_slot. destruct (w_tiers w !! slot) as [t|] eqn:Hs; [|done].
  pose proof (Hop t (Forall_lookup_1 _ _ _ _ Ht Hs)) as Ht'. destruct (op t) as [r t']. cbn in *.
  split; cbn; [done|done|]. by apply Forall_insert.
Qed.

Lemma ctl_ok c (w : World T) : plane_ok c -> world_ok w -> world_ok (set_ctl c w).
Proof. intros Hc [Hp Hr Ht]. by split. Qed.

Lemma reg_ok (f : TierRegistry -> TierRegistry) (w : World T) :
  (forall r, registry_ok r -> registry_ok (f r)) -> world_ok w -> world_ok (set_reg (f (w_reg w)) w).
Proof. intros Hf [Hp Hr Ht]. split; cbn; auto. Qed.

Lemma manager_step_ok kb pl (w w' : World T) : manager_step kb pl w w' -> world_ok w -> world_ok w'.
Proof.
  intros Hs Hw. pose proof (wok_plane w Hw) as Hp. destruct Hs.
  - apply ctl_ok; [by apply plane_exec_spec|done].
  - apply ctl_ok; [|done]. by apply (with_created_entry_view _ _ _ Hp (set_state_ok Stale)).
  - apply ctl_ok; [|done]. by apply (plane_exec_spec (w_ctl w) (PoReserve a)).
  - apply (reg_ok (fun r => registry_recover r rung)); [|done]. intros r [Ha Hl].
    unfold registry_recover, registry_ok. destruct (lock _); [|done]. cbn. by rewrite length_insert.
  - apply (reg_ok (fun r => registry_fail now r rung)); [|done]. intros r [Ha Hl].
    unfold registry_fail, registry_ok. destruct (lock _); [|done]. cbn. by rewrite length_insert.
  - by destruct Hw.
  - apply on_slot_ok; [|done]. intros t Ht. by apply law_get_ok.
  - apply on_slot_ok; [|done]. intros t Ht. by apply law_contains_ok.
  - apply on_slot_ok; [|done]. intros t Ht. by apply law_set_ok.
  - apply on_slot_ok; [|done]. intros t Ht. by apply law_remove_ok.
  - destruct Hw as [Hpl Hr Ht]. unfold nominate_at.
    destruct (w_tiers w !! as_usize rung) as [t|] eqn:Hs; [|done].
    pose proof (law_evict_ok now (w_cursor w) t (Forall_lookup_1 _ _ _ _ Ht Hs)) as Ht'.
    destruct (eviction_candidate _ _ _) as [[a c] t']. cbn in *.
    split; cbn; [done|done|]. by apply Forall_insert.
  - apply on_slot_ok; [|done]. intros t Ht. by apply law_reclaim_ok.
Qed.

Lemma on_slot_sink {B} slot (op : T -> res B * T) (w : World T) :
  w_sink (snd (on_slot slot op w)) = w_sink w.
Proof. unfold on_slot. branches; done. Qed.

Lemma well_kept_step kb pl (w w' : World T) :
  placed pl w -> manager_step kb pl w w' -> well_kept w w'.
Proof.
  intros Hw Hs. split.
  - by apply manager_step_ok with kb pl.
  - by eapply aor_rungs, authority_step.
  - by eapply manager_step_placement.
  - destruct Hs; try done.
    + by apply prefix_app_r.
    + unfold get_at. by rewrite on_slot_sink.
    + unfold contains_at. by rewrite on_slot_sink.
    + unfold set_at. by rewrite on_slot_sink.
    + by rewrite on_slot_sink.
    + unfold nominate_at. by branches.
    + unfold reclaim_at. by rewrite on_slot_sink.
Qed.

(** The world's invariant survives everything: a request among callers that
    keep it, at any pace and cancelled at any await, leaves the control plane,
    the registry and every tier well-formed, the same rungs bound, and every
    telemetry record emitted so far in place. *)
Theorem requests_keep_the_invariant (self : CacheManager P) (r : request K V T) (env : Env T)
    (n : nat) (w : World T) (Hw : world_ok w)
    (Hothers : forall m w, well_kept w (env_others env m w)) :
  let w' := snd (run env n (perform self r) w) in
  world_ok w' /\ length (w_tiers w') = length (w_tiers w) /\ w_sink w `prefix_of` w_sink w'.
Proof.
  assert (H : well_kept w (snd (run env n (perform self r) w))).
  { eapply perform_keeps; [apply _|apply names_key_bytes|reflexivity|by destruct 1| |done].
    intros w1 w2. apply well_kept_step. }
  destruct H as [Hok Hr Hpl Hs]. split_and!; auto.
Qed.
End invariant.

(** ** Other keys *)

Section frame.
Context {K V P T : Type} `{!Key K} `{!CachePolicy P K V} `{!CacheTier V T}.

(** An entry is as it was, or was committed, unclaimed and free of an intent,
    and has been evicted. *)
Definition kept_or_evicted (o o' : option ControlEntry) : Prop :=
  o' = o \/ exists e, o = Some e /\ state e = Ready /\ is_population_owner e = false /\
    intent e = None /\ o' = Some (notify (set_state Stale (increment_generation e))).

Record others_undisturbed (own : KeyAddress) (w w' : World T) : Prop := {
  ou_ok : plane_ok (w_ctl w) -> plane_ok (w_ctl w');
  ou_placement : c_placement (w_ctl w') = c_placement (w_ctl w);
  ou_others : plane_ok (w_ctl w) -> forall a, a <> own ->
    kept_or_evicted (view (w_ctl w) a) (view (w_ctl w') a)
}.

Lemma kept_or_evicted_trans o1 o2 o3 :
  kept_or_evicted o1 o2 -> kept_or_evicted o2 o3 -> kept_or_evicted o1 o3.
Proof.
  intros H1 [->|(e & -> & Hs & Ho & Hi & ->)]; [done|].
  destruct H1 as [Heq|(e' & -> & _ & _ & _ & [= ->])]; [right; by exists e|].
  exfalso. destruct e'; cbn in Hs. discriminate Hs.
Qed.

#[local] Instance others_undisturbed_preorder own : PreOrder (others_undisturbed own).
Proof.
  split; [intros w; split; [done|done|intros _ a _; by left]|].
  intros w1 w2 w3 [H1 H2 H3] [H4 H5 H6]. split; [auto|congruence|].
  intros Hok a Ha. eapply kept_or_evicted_trans; [by apply H3|]. by apply H6; auto.
Qed.

Lemma undisturbed_same own (w w' : World T) : w_ctl w' = w_ctl w -> others_undisturbed own w w'.
Proof. intros Heq. split; rewrite Heq; [done|done|]. intros _ a _. by left. Qed.

Lemma undisturbed_step kb pl (w w' : World T) :
  placed pl w -> manager_step kb pl w w' -> others_undisturbed (own_address kb pl) w w'.
Proof.
  intros Hw Hs. pose proof (manager_step_placement kb pl w w' Hw Hs) as Hp.
  destruct Hs as [w op Hown|w|w a| | | | | | | | |]; try (by apply undisturbed_same).
  - split; [intros Hok; by apply plane_exec_spec|done|]. intros Hok b Hb.
    left. destruct (plane_exec_spec (w_ctl w) op Hok) as (_ & _ & Hv). cbn. rewrite Hv.
    unfold spec_exec. by rewrite Hown, decide_False.
  - split; [|done|]; intros Hok;
      destruct (with_created_entry_view (w_ctl w) (address_of (w_ctl w) kb) _ Hok (set_state_ok Stale))
        as (Hok' & Hsb & _); [done|].
    intros b Hb. left. apply (sb_other _ _ _ Hsb). by rewrite (own_address_of kb pl w Hw).
  - split; [intros Hok; by apply (plane_exec_spec (w_ctl w) (PoReserve a))|done|]. intros Hok b Hb.
    destruct (plane_exec_spec (w_ctl w) (PoReserve a) Hok) as (_ & _ & Hv). cbn in *. rewrite Hv.
    unfold spec_exec. cbn. destruct (decide (b = a)) as [->|]; [|by left].
    destruct (view (w_ctl w) a) as [e|]; [|by left].
    unfold reserve_entry. destruct (bool_decide_reflect (state e = Ready)) as [Hst|]; [|by left].
    destruct (is_population_owner e) eqn:Ho; [by left|]. destruct (intent e) eqn:Hi; [by left|].
    right. by exists e.
  - apply undisturbed_same. by apply on_slot_tiers.
  - apply undisturbed_same. by apply on_slot_tiers.
  - apply undisturbed_same. by apply on_slot_tiers.
  - apply undisturbed_same. by apply on_slot_tiers.
  - apply undisturbed_same. by apply nominate_tiers.
  - apply undisturbed_same. by apply on_slot_tiers.
Qed.

(** C14. A request disturbs no other key: whatever it does, at any pace, among
    callers on the same key and cancelled at any await, the control entry of
    every other address is exactly as it was -- unless it was committed,
    unclaimed and without an intent, and then it may have been evicted, its
    generation advanced so that no outstanding token commits. An entry being
    populated or prepared is never touched. *)
Theorem requests_disturb_no_other_key (self : CacheManager P) (r : request K V T) (env : Env T)
    (n : nat) (w : World T) (kb : bytes)
    (Hkey : encode_key (request_key r) (request_ctx r) = Ok kb)
    (Hok : plane_ok (w_ctl w))
    (Hothers : forall m w,
       others_undisturbed (own_address kb (c_placement (w_ctl w))) w (env_others env m w)) :
  let w' := snd (run env n (perform self r) w) in
  forall a, a <> address_of (w_ctl w) kb -> kept_or_evicted (view (w_ctl w) a) (view (w_ctl w') a).
Proof.
  intros w' a Ha. set (pl := c_placement (w_ctl w)).
  set (G := fun w w' : World T => placed pl w -> others_undisturbed (own_address kb pl) w w').
  assert (HG : PreOrder G).
  { split; [intros w1 _; reflexivity|]. intros w1 w2 w3 H1 H2 Hw1. etransitivity; [by apply H1|].
    apply H2. unfold placed in *. by rewrite (ou_placement _ _ _ (H1 Hw1)). }
  assert (Hrun : G w w').
  { apply (run_respects (placed pl) G).
    - intros w1 w2 Hw1 Hg. unfold placed in *. by rewrite (ou_placement _ _ _ (Hg Hw1)).
    - apply (respects_weaken (placed pl) (rtc (manager_step kb pl))).
      + intros w1 w2 Hw1 Hr. apply (rtc_weaken G (placed pl) (manager_step kb pl)); [| |done|done].
        * intros w3 w4 Hw3 Hs. by eapply manager_step_placed, rtc_once.
        * intros w3 w4 Hw3 Hs _. by apply undisturbed_step.
      + apply perform_respects. intros b Hb. congruence.
    - intros m w1 Hw1 _. specialize (Hothers m w1). unfold placed in Hw1. by rewrite Hw1 in Hothers.
    - done. }
  by apply (ou_others _ _ _ (Hrun eq_refl)).
Qed.
End frame.

(** ** Unauthenticated callers *)

Section authentication.
Context {K V P T : Type} `{!Key K} `{!CachePolicy P K V} `{!CacheTier V T}.

(** The response carries this error. *)
Definition refused (e : CacheError) (r : response V) : Prop :=
  match r with
  | AValue r => r = Err e
  | AFetched r => r = Err e
  | ADone r => r = Err e
  | AExists r => r = Err e
  | ALookup r => r = Err e
  end.

(** A caller without a principal learns nothing and changes nothing: every
    request returns an error before it reads the control plane or a tier, at
    whatever pace and time; at most a telemetry record is emitted; and the error is
    [Unauthenticated] whenever the key can be encoded. *)
Theorem unauthenticated_requests_change_nothing (self : CacheManager P) (r : request K V T)
    (env : Env T) (n : nat) (w : World T) (kb : bytes)
    (Hanon : is_authenticated (request_ctx r) = false)
    (Hkey : encode_key (request_key r) (request_ctx r) = Ok kb)
    (Halone : forall m w, env_others env m w = w) :
  exists resp s, run env n (perform self r) w = (Some resp, set_sink s w) /\
    refused Unauthenticated resp /\ w_sink w `prefix_of` s.
Proof.
  assert (Hsame : w = set_sink (w_sink w) w) by (by destruct w).
  destruct r; cbn in Hanon, Hkey; cbn [perform];
    unfold get, get_or_fetch, set, invalidate, remove, exists_, refresh_detailed, promote, demote,
      allowed, check_auth; rewrite Hanon; cbn [negb bind];
    try (eexists; exists (w_sink w); rewrite Hsame at 1; by split_and!).
  cbn. rewrite Hkey. cbn. rewrite !Halone. eexists; eexists. split_and!; [done|done|].
  by apply prefix_app_r.
Qed.
End authentication.

(** ** Witnesses *)

(** Seven bound rungs of two slots each, over a plane of two small shards. *)
Section demo.
#[local] Instance demo_hasher : DefaultHasher := fun _ => 0%Z.

Definition demo_tier : L1Stub bytes := mkL1 (mkSharded [new_mutex wit_new] 0).

Definition demo_world (c : Cachelito) : World (L1Stub bytes) :=
  mkWorld c TierRegistry_new (replicate 7 demo_tier) 0 [].

Definition demo_manager : CacheManager DefaultPolicy := CacheManager_new mkDefaultPolicy.

Definition demo_ctx : CacheContext := CacheContext_new (mkIdentity [1%Z] [] []).

Definition demo_set : request bytes bytes (L1Stub bytes) := RSet [107%Z] [1%Z; 2%Z] demo_ctx.

(** Nobody else, and every await done in time. *)
Definition demo_env : Env (L1Stub bytes) := alone (fun n => Z.of_nat n) (fun _ => OnTime).

Lemma demo_world_ok c : plane_ok c -> world_ok (HT := CacheTier_L1) (demo_world c).
Proof.
  intros Hc. split; [done|done|]. apply Forall_replicate.
  change (sh_ok (mkSharded [new_mutex wit_new] 0)).
  apply (sh_new_wf 1 2); [lia|]. vm_compute. reflexivity.
Qed.

Lemma authority_is_only_read_witness :
  authority_only_read (V := bytes) (demo_world demo_plane)
    (snd (run demo_env 0 (perform demo_manager demo_set) (demo_world demo_plane))).
Proof.
  apply (authority_is_only_read demo_manager demo_set demo_env 0 (demo_world demo_plane)).
  intros m w. split; [reflexivity|reflexivity|]. intros t Ht. exists t. split; [exact Ht|constructor].
Defined.

Lemma requests_keep_the_invariant_witness :
  world_ok (V := bytes)
    (snd (run demo_env 0 (perform demo_manager demo_set) (demo_world demo_plane))).
Proof.
  refine (proj1 (requests_keep_the_invariant demo_manager demo_set demo_env 0 (demo_world demo_plane)
    (demo_world_ok demo_plane (with_placement_ok 2 2 PlaceDefault)) _)).
  intros m w. split; [intros Hw; exact Hw|reflexivity|reflexivity|reflexivity].
Defined.

Lemma requests_disturb_no_other_key_witness :
  kept_or_evicted (view (w_ctl (demo_world demo_ready)) (address_of demo_ready demo_key))
    (view (w_ctl (snd (run demo_env 0 (perform demo_manager demo_set) (demo_world demo_ready))))
       (address_of demo_ready demo_key)).
Proof.
  refine (requests_disturb_no_other_key demo_manager demo_set demo_env 0 (demo_world demo_ready)
            [0%Z; 107%Z] _ _ _ (address_of demo_ready demo_key) _).
  - vm_compute. reflexivity.
  - eapply proj1, plane_reachable_ok, demo_ready_reachable.
  - intros m w. split; [intros H; exact H|reflexivity|intros _ a _; left; reflexivity].
  - intros Heq. vm_compute in Heq. discriminate Heq.
Defined.

Lemma unauthenticated_requests_change_nothing_witness :
  exists resp s, run demo_env 0
    (perform demo_manager (RSet (V := bytes) (T := L1Stub bytes) [107%Z] [1%Z] CacheContext_anonymous))
    (demo_world demo_ready) = (Some resp, set_sink s (demo_world demo_ready)) /\
    refused Unauthenticated resp.
Proof.
  destruct (unauthenticated_requests_change_nothing demo_manager
    (RSet (V := bytes) (T := L1Stub bytes) [107%Z] [1%Z] CacheContext_anonymous) demo_env 0
    (demo_world demo_ready) [0%Z; 107%Z]) as (resp & s & Hr & He & _).
  - reflexivity.
  - vm_compute. reflexivity.
  - reflexivity.
  - exact (ex_intro _ resp (ex_intro _ s (conj Hr He))).
Defined.
End demo.
