(* ===== verification/Claims.v ===== *)
(** * No request strands a claim

    Run alone -- at any pace, cancelled at any await -- a request leaves no
    entry claimed: nothing [InFlight], nothing [Prepared], no population owner.
    The proofs are about the control plane alone: a program is given as a
    triple over assertions on it. *)

From S2P Require Import Prelude Entry Integrity Key Tier Continuity Policy TierTrait Telemetry.
From S2P Require Import Pool FixedTier ShardedTier Stubs ControlEntry Shard Cachelito Plane Protocol.
From S2P Require Import Commit Prog Manager Steps Guarantee.

(** ** Assertions *)

Definition unclaimed (e : ControlEntry) : Prop :=
  is_population_owner e = false /\ state e <> InFlight /\ state e <> Prepared.

#[export] Instance unclaimed_dec e : Decision (unclaimed e).
Proof. unfold unclaimed. apply _. Defined.

(** Every entry is unclaimed. *)
Definition settled (c : Cachelito) : Prop :=
  plane_ok c /\ forall a e, view c a = Some e -> unclaimed e.

(** Every entry but the one at [a]. *)
Definition claimed (a : KeyAddress) (c : Cachelito) : Prop :=
  plane_ok c /\ forall b e, b <> a -> view c b = Some e -> unclaimed e.

(** The entry at [a] is unclaimed, or prepared over an unclaimed state. *)
Definition prepared (a : KeyAddress) (c : Cachelito) : Prop :=
  claimed a c /\ forall e, view c a = Some e ->
    unclaimed e \/
    (state e = Prepared /\ intent_prev_state e <> InFlight /\ intent_prev_state e <> Prepared).

Lemma settled_claimed a c : settled c -> claimed a c.
Proof. intros [Hok Hu]. split; eauto. Qed.

Lemma prepared_claimed a c : prepared a c -> claimed a c.
Proof. by intros []. Qed.

(** An operation on [a] that leaves the entry there unclaimed. *)
Lemma exec_settles c op :
  claimed (op_address c op) c ->
  (forall e, view c (op_address c op) = Some e -> unclaimed (op_step (op_address c op) op e)) ->
  (op_creates op = true ->
   unclaimed (op_step (op_address c op) op (ControlEntry_new (op_address c op)))) ->
  settled (plane_exec c op).
Proof.
  intros [Hok Hu] Hs Hc. destruct (plane_exec_spec c op Hok) as (Hok' & _ & Hv). split; [done|].
  intros a e. rewrite Hv. unfold spec_exec. destruct (decide (a = op_address c op)) as [->|Hne].
  - destruct (view c (op_address c op)) as [e0|] eqn:He; [intros [= <-]; by apply Hs|].
    destruct (op_creates op); cbn; [|done]. destruct (room_for _ _); [|done]. intros [= <-]. by apply Hc.
  - by apply Hu.
Qed.

Lemma exec_claimed c op :
  claimed (op_address c op) c -> claimed (op_address c op) (plane_exec c op).
Proof.
  intros [Hok Hu]. destruct (plane_exec_spec c op Hok) as (Hok' & _ & Hv). split; [done|].
  intros b e Hb. rewrite Hv. unfold spec_exec. rewrite decide_False by done. by apply Hu.
Qed.

Lemma fail_settles key err c : claimed (address_of c key) c -> settled (snd (fail_with_error key err c)).
Proof.
  intros Hc. apply (exec_settles c (PoFail key err)); [done| |done]. by intros e _.
Qed.

Lemma invalidate_settles key c : settled c -> settled (snd (Cachelito.invalidate key c)).
Proof.
  intros Hc. apply (exec_settles c (PoInvalidate key)); [by apply settled_claimed| |done].
  by intros e _.
Qed.

Lemma release_settles key c : settled c -> settled (snd (release key c)).
Proof. apply invalidate_settles. Qed.

Lemma reserve_settles a c : settled c -> settled (snd (reserve_eviction a c)).
Proof.
  intros Hc. apply (exec_settles c (PoReserve a)); [by apply settled_claimed| |done].
  intros e He. apply Hc in He. cbn. unfold reserve_entry.
  destruct (_ || _); [done|]. destruct (intent e); [done|]. by destruct He as (Ho & _ & _).
Qed.

Lemma abort_settles token err clean c :
  prepared (tok_address token) c -> settled (snd (abort_inner token err clean c)).
Proof.
  intros [Hc Hp].
  assert (He : forall e, view c (tok_address token) = Some e ->
                 unclaimed (snd (abort_entry err clean e))).
  { intros e He. unfold abort_entry. destruct (bool_decide_reflect (state e = Prepared)) as [Hs|Hs]; cbn.
    - destruct (Hp e He) as [(_ & _ & Hn)|(_ & H1 & H2)]; [done|]. destruct clean; cbn; [|done].
      split_and!; [done|by destruct (intent_prev_state e)..].
    - destruct (Hp e He) as [Hu|(Hs' & _)]; [exact Hu|done]. }
  destruct clean;
    [apply (exec_settles c (PoAbortClean token err))|apply (exec_settles c (PoAbort token err))]; done.
Qed.

Lemma mark_stale_settles key c : settled c -> settled (snd (plane_set_state key Stale c)).
Proof.
  intros [Hok Hu].
  destruct (with_created_entry_view c (address_of c key) _ Hok (set_state_ok Stale)) as (Hok' & Hsb & Hv).
  split; [done|]. intros a e. destruct (decide (a = address_of c key)) as [->|Hne].
  - intros He. unfold plane_set_state in He. rewrite Hv in He.
    destruct (view c (address_of c key)) as [e0|] eqn:He0.
    + injection He as <-. destruct (Hu _ _ He0) as (Ho & _ & _). by split_and!.
    + destruct (room_for _ _); [|done]. injection He as <-. by split_and!.
  - unfold plane_set_state. rewrite (sb_other _ _ _ Hsb a Hne). by apply Hu.
Qed.

Lemma prepare_prepares now key t kind c :
  settled c ->
  match fst (prepare now key None t kind c) with
  | Ok token => tok_address token = address_of c key /\
      prepared (address_of c key) (snd (prepare now key None t kind c))
  | Err _ => settled (snd (prepare now key None t kind c))
  end.
Proof.
  intros Hs. set (a := address_of c key). pose proof (proj1 Hs) as Hok.
  pose proof (exec_claimed c (PoPrepare now key None t kind) (settled_claimed _ c Hs)) as Hc.
  cbn in Hc. fold a in Hc. unfold prepare in *. fold a in Hc |- *.
  assert (Hnew : forall e, unclaimed e ->
            let r := prepare_entry now a None t kind e in
            exists token, fst r = Ok token /\ tok_address token = a /\ state (snd r) = Prepared /\
              intent_prev_state (snd r) = state e).
  { intros e He. rewrite prepare_entry_eq by done. eexists. split_and!; try done. cbn.
    apply (prev_set_prev (state e) e). }
  pose proof (with_created_entry_spec c a (prepare_entry now a None t kind) Hok
                ltac:(auto with thesix)) as Hspec.
  destruct (view c a) as [e|] eqn:He.
  - destruct Hspec as (c' & Heq & _ & _ & Hv). rewrite Heq in Hc |- *. cbn [fst snd] in *.
    pose proof (proj2 Hs a e He) as Hu. destruct (Hnew e Hu) as (token & Hr & Ha & Hst & Hprev).
    rewrite Hr. split; [done|]. split; [done|]. rewrite Hv. intros e' Heq'. right.
    apply (inj Some) in Heq' as <-. rewrite Hprev. split; [done|]. apply Hu.
  - destruct (room_for c a).
    + destruct Hspec as (c' & Heq & _ & _ & Hv). rewrite Heq in Hc |- *. cbn [fst snd] in *.
      destruct (Hnew (ControlEntry_new a)) as (token & Hr & Ha & Hst & Hprev); [by split_and!|].
      rewrite Hr. split; [done|]. split; [done|]. rewrite Hv. intros e' Heq'. right.
      apply (inj Some) in Heq' as <-. by rewrite Hprev.
    + destruct Hspec as [-> _]. done.
Qed.

Lemma commit_settles now token d c :
  prepared (tok_address token) c ->
  match fst (commit now token d c) with
  | Ok _ => settled (snd (commit now token d c))
  | Err _ => prepared (tok_address token) (snd (commit now token d c))
  end.
Proof.
  intros [Hc Hp]. pose proof (proj1 Hc) as Hok.
  pose proof (with_entry_spec c (tok_address token) (Err Miss) (commit_entry now token d) Hok
                ltac:(auto with thesix)) as Hspec.
  unfold commit. destruct (view c (tok_address token)) as [e|] eqn:He.
  - destruct Hspec as (c' & -> & Hok' & Hsb & Hv). cbn [fst snd].
    destruct (fst (commit_entry now token d e)) as [[]|err] eqn:Hr.
    + split; [done|]. intros b e' Hb. destruct (decide (b = tok_address token)) as [->|Hne].
      * rewrite Hv in Hb. injection Hb as <-. unfold commit_entry in *. destruct (_ || _); [done|].
        by destruct (from_index _).
      * rewrite (sb_other _ _ _ Hsb b Hne) in Hb. by apply (proj2 Hc b).
    + assert (Hsame : snd (commit_entry now token d e) = e)
        by (unfold commit_entry in *; by destruct (_ || _)).
      rewrite Hsame in Hv. split; [split; [done|]|].
      * intros b e' Hne Hb. rewrite (sb_other _ _ _ Hsb b Hne) in Hb. by apply (proj2 Hc b).
      * rewrite Hv. intros e' [= <-]. by apply Hp.
  - rewrite Hspec. cbn. split; [done|]. by rewrite He.
Qed.

Lemma publish_settles now key g t d c :
  claimed (address_of c key) c ->
  match fst (publish now key g t d c) with
  | Ok _ => settled (snd (publish now key g t d c))
  | Err _ => claimed (address_of c key) (snd (publish now key g t d c))
  end.
Proof.
  intros Hc. pose proof (proj1 Hc) as Hok.
  pose proof (with_entry_spec c (address_of c key) (Err Miss) (publish_entry now g t d) Hok
                ltac:(auto with thesix)) as Hspec.
  unfold publish. destruct (view c (address_of c key)) as [e|] eqn:He.
  - destruct Hspec as (c' & -> & Hok' & Hsb & Hv). cbn [fst snd].
    assert (Hother : claimed (address_of c key) c').
    { split; [done|]. intros b e' Hne Hb. rewrite (sb_other _ _ _ Hsb b Hne) in Hb.
      by apply (proj2 Hc b). }
    destruct (fst (publish_entry now g t d e)) as [[]|err] eqn:Hr; [|done].
    split; [done|]. intros b e' Hb. destruct (decide (b = address_of c key)) as [->|Hne].
    + rewrite Hv in Hb. injection Hb as <-. unfold publish_entry in *. by destruct (_ || _).
    + by apply (proj2 Hother b).
  - by rewrite Hspec.
Qed.

Lemma acquire_entry_unclaimed now t e :
  entry_wf e -> unclaimed e ->
  exists s, fst (acquire_entry now t e) = Ok s /\
    ((snap_state s = InFlight /\ snap_population_owner s = true) \/
     (snap_state s = Ready /\ snap_population_owner s = false /\ snd (acquire_entry now t e) = e)).
Proof.
  intros Hwf (Ho & H1 & H2). unfold acquire_entry, state_compare_exchange.
  rewrite (state_raw e Hwf), Z.eqb_refl. destruct (state e) eqn:Hs; try done; eexists; (split; [done|]);
    by ((left; split; reflexivity) || (right; split_and!; reflexivity)).
Qed.

Lemma acquire_claims now key t c :
  settled c ->
  match fst (acquire now key t c) with
  | Ok s =>
      (snap_state s = InFlight /\ snap_population_owner s = true /\
       claimed (address_of c key) (snd (acquire now key t c))) \/
      (snap_state s = Ready /\ snap_population_owner s = false /\
       settled (snd (acquire now key t c)))
  | Err _ => settled (snd (acquire now key t c))
  end.
Proof.
  intros Hs. set (a := address_of c key). pose proof (proj1 Hs) as Hok.
  pose proof (exec_claimed c (PoAcquire now key t) (settled_claimed _ c Hs)) as Hc.
  cbn in Hc. unfold acquire in *. fold a in Hc |- *.
  pose proof (with_created_entry_spec c a (acquire_entry now t) Hok ltac:(auto with thesix)) as Hspec.
  destruct (view c a) as [e|] eqn:He.
  - destruct Hspec as (c' & Heq & Hok' & Hsb & Hv). rewrite Heq in Hc |- *. cbn [fst snd] in *.
    destruct (acquire_entry_unclaimed now t e) as (s & Hr & Hcase);
      [apply (view_wf c a e Hok He)|by eapply (proj2 Hs)|].
    rewrite Hr. destruct Hcase as [[? ?]|(? & ? & Hsame)]; [left|right]; split_and!; try done.
    rewrite Hsame in Hv. split; [done|]. intros b e' Hb. destruct (decide (b = a)) as [->|Hne].
    + rewrite Hv in Hb. injection Hb as <-. by eapply (proj2 Hs).
    + rewrite (sb_other _ _ _ Hsb b Hne) in Hb. by eapply (proj2 Hs).
  - destruct (room_for c a).
    + destruct Hspec as (c' & Heq & Hok' & Hsb & Hv). rewrite Heq in Hc |- *. cbn [fst snd] in *.
      destruct (acquire_entry_unclaimed now t (ControlEntry_new a)) as (s & Hr & Hcase);
        [apply entry_new_wf|by split_and!|].
      rewrite Hr. destruct Hcase as [[? ?]|(? & ? & Hsame)]; [by left|]. exfalso.
      apply (f_equal state) in Hsame. by cbn in Hsame.
    + destruct Hspec as [-> _]. done.
Qed.

(** ** Triples on the control plane *)

Section triples.
Context {V T : Type} `{!CacheTier V T}.
Context (kb : bytes) (pl : Placement).

Abbreviation own := (own_address kb pl).

(** From [pre], the program run alone returns in [post], or is cancelled with
    everything settled. *)
Definition triple {A} (pre : Cachelito -> Prop) (p : prog T A) (post : A -> Cachelito -> Prop) : Prop :=
  forall t w, pre (w_ctl w) -> placed pl w ->
    wp p (fun o _ w' => placed pl w' /\
            match o with Some a => post a (w_ctl w') | None => settled (w_ctl w') end) t w.

(** Cancelling with these guards armed settles the plane. *)
Definition covers (pre : Cachelito -> Prop) (armed : list guard) : Prop :=
  forall w : World T, pre (w_ctl w) -> placed pl w ->
    settled (w_ctl (drop_guards armed w)) /\ placed pl (drop_guards armed w).

Lemma t_ret {A} (pre : Cachelito -> Prop) (a : A) (post : A -> Cachelito -> Prop) :
  (forall c, pre c -> post a c) -> triple pre (Ret a) post.
Proof. intros H t w Hw Hp. by split; [|apply H]. Qed.

Lemma t_bind {A B} pre (p : prog T A) mid (f : A -> prog T B) post :
  triple pre p mid -> (forall a, triple (mid a) (f a) post) -> triple pre (bind p f) post.
Proof.
  intros Hp Hf t w Hw Hpl. apply wp_bind. eapply wp_mono; [|by apply Hp].
  intros [a|] m w' _ [Hp' H']; [by apply Hf|done].
Qed.

Lemma t_conseq {A} (pre pre' : Cachelito -> Prop) (p : prog T A) (post post' : A -> Cachelito -> Prop) :
  (forall c, pre c -> pre' c) -> (forall a c, post' a c -> post a c) ->
  triple pre' p post' -> triple pre p post.
Proof.
  intros H1 H2 H t w Hw Hpl. eapply wp_mono; [|by apply H; [apply H1|]].
  intros [a|] m w' _ [Hp' H']; [by split; [|apply H2]|done].
Qed.

Lemma t_ask {B} pre (f : Instant -> World T -> B) : triple pre (ask f) (fun _ => pre).
Proof. intros t w Hw Hpl now Hn. by split. Qed.

Lemma t_ctl {B} (pre : Cachelito -> Prop) (op : Instant -> Cachelito -> B * Cachelito)
    (post : B -> Cachelito -> Prop) :
  (forall now c, pre c -> c_placement c = pl ->
     post (fst (op now c)) (snd (op now c)) /\ c_placement (snd (op now c)) = c_placement c) ->
  triple pre (ctl op) post.
Proof.
  intros Hop t w Hw Hpl now Hn. destruct (Hop now (w_ctl w) Hw Hpl) as [Hpost Hp]. cbn.
  destruct (op now (w_ctl w)) as [b c]. cbn in *. split; [|done]. unfold placed in *. cbn. congruence.
Qed.

(** A step of a tier, the registry or the sink. *)
Lemma t_elsewhere {B} pre (f : Instant -> World T -> B * World T) :
  (forall now w, w_ctl (snd (f now w)) = w_ctl w) -> triple pre (atomically f) (fun _ => pre).
Proof. intros Hf t w Hw Hpl now Hn. cbn. unfold placed. by rewrite Hf. Qed.

Lemma t_await {B} pre armed bounded (op : Instant -> World T -> res B * World T) :
  covers pre armed -> (forall now w, w_ctl (snd (op now w)) = w_ctl w) ->
  triple pre (await armed bounded op) (fun _ => pre).
Proof.
  intros Hc Hop t w Hw Hpl now Hn. cbn.
  assert (H1 : placed pl (snd (op now w)) /\ pre (w_ctl (snd (op now w))))
    by (unfold placed; by rewrite Hop).
  destruct H1 as [Hp1 Hw1].
  split_and!; [done|done|intros _; by split_and!|apply Hc..]; done.
Qed.

Lemma t_pause pre armed : covers pre armed -> triple pre (pause armed) (fun _ => pre).
Proof. intros Hc t w Hw Hpl now Hn. split; [by split|]. destruct (Hc w Hw Hpl). by split. Qed.

Lemma t_notified a seen : triple settled (notified [] a seen) (fun _ => settled).
Proof. intros t w Hw Hpl now Hn. split; [intros r; by split|by split]. Qed.

Lemma covers_nothing : covers settled [].
Proof. by intros w Hw Hpl. Qed.

Lemma covers_population : covers (claimed own) [GPopulation kb].
Proof.
  intros w Hw Hpl. cbn. rewrite <- (own_address_of kb pl w Hpl) in Hw. split.
  - by apply fail_settles.
  - unfold placed, fail_with_error in *. cbn [w_ctl set_ctl]. by rewrite with_entry_placement.
Qed.

Lemma covers_intent token : tok_address token = own -> covers (prepared own) [GIntent token].
Proof.
  intros Ht w Hw Hpl. cbn. rewrite <- Ht in Hw. split.
  - by apply abort_settles.
  - unfold placed, abort, abort_inner in *. cbn [w_ctl set_ctl]. by rewrite with_entry_placement.
Qed.

Lemma t_if_bound {A} pre rung (absent k : prog T A) post :
  triple pre absent post -> triple pre k post -> triple pre (if_bound rung absent k) post.
Proof. intros Ha Hk. eapply t_bind; [apply t_ask|]. by intros []. Qed.

Lemma t_emit pre record : triple pre (emit record) (fun _ => pre).
Proof. by apply t_elsewhere. Qed.

Lemma t_record_outcome {A} pre rung (r : res A) : triple pre (record_outcome rung r) (fun _ => pre).
Proof. apply t_elsewhere. intros now w. by destruct r as [|[]]. Qed.

Lemma t_mark_stale : triple settled (mark_stale kb) (fun _ => settled).
Proof.
  apply (t_bind _ _ (fun _ => settled)); [|intros; by apply t_ret]. apply t_ctl. intros now c Hc Hp. split.
  - by apply mark_stale_settles.
  - apply with_created_entry_placement.
Qed.

(** The await of a call on one slot. *)
Lemma t_slot {B} pre armed bounded slot (op : Instant -> T -> res B * T) :
  covers pre armed ->
  triple pre (await armed bounded (fun now => on_slot slot (op now))) (fun _ => pre).
Proof.
  intros Hc. apply t_await; [done|]. intros now w. unfold on_slot. branches; done.
Qed.
End triples.

(** A program that keeps an assertion, cancelled or not. *)
Abbreviation keeps pl pre p := (triple pl pre%function p (fun _ => pre%function)).

Create HintDb tri.
#[export] Hint Resolve t_ask t_emit t_record_outcome t_mark_stale t_notified covers_nothing
  covers_population : tri.

(** Walk through a program that keeps an assertion. *)
Ltac tri1 :=
  match goal with
  | |- triple _ _ (bind (Ret _) _) _ => cbn [bind]
  | |- triple ?pl ?pre (bind _ _) _ => apply (t_bind pl pre _ (fun _ => pre))
  | |- triple _ _ (if_bound _ _ _) _ => apply t_if_bound
  | |- triple _ _ (Ret _) _ => apply t_ret; solve [auto]
  | |- triple _ _ (match ?x with _ => _ end) _ => destruct x eqn:?
  | |- triple _ _ (let _ := _ in _) _ => cbn zeta
  | |- triple _ _ _ _ => solve [eauto with tri]
  | |- forall _, _ => intros ?
  end.
Ltac tri := repeat tri1.

Section operations.
Context {K V P T : Type} `{!Key K} `{!CachePolicy P K V} `{!CacheTier V T}.
Variable self : CacheManager P.
Context (kb : bytes) (pl : Placement).

Abbreviation own := (own_address kb pl).
Abbreviation covers := (covers (T := T) pl).
Abbreviation triple := (triple (T := T) pl).
Abbreviation keeps pre p := (triple pre p (fun _ => pre)).

Lemma k_read_clock pre : keeps pre read_clock.
Proof. apply t_ask. Qed.

Lemma k_peek pre key : keeps pre (peek_at key).
Proof. apply t_ask. Qed.

Hint Resolve k_read_clock k_peek : tri.

Lemma k_observed_read pre op key rung armed : covers pre armed -> keeps pre (observed_read op key rung armed).
Proof. intros Hc. unfold observed_read. tri. by apply t_slot. Qed.

Lemma k_observed_write pre op key rung armed v ttl' :
  covers pre armed -> keeps pre (observed_write op key rung armed v ttl').
Proof. intros Hc. unfold observed_write. tri. by apply t_slot. Qed.

Lemma k_get_at pre rung key armed bounded :
  covers pre armed -> keeps pre (await armed bounded (get_at rung key)).
Proof. intros Hc. by apply t_slot. Qed.

Lemma k_contains_at pre rung key armed bounded :
  covers pre armed -> keeps pre (await armed bounded (contains_at rung key)).
Proof. intros Hc. by apply t_slot. Qed.

Lemma k_remove_at pre rung key armed bounded :
  covers pre armed -> keeps pre (await armed bounded (remove_at rung key)).
Proof. intros Hc. by apply t_slot. Qed.

Lemma k_wait key : keeps settled (wait_for_population key).
Proof. unfold wait_for_population. tri. Qed.

Hint Resolve k_observed_read k_observed_write k_get_at k_contains_at k_remove_at k_wait : tri.

Lemma k_control_only_then {A} pre key rung started outcome e :
  keeps pre (control_only_then (A := A) key rung started outcome e).
Proof. unfold control_only_then, observed_control_only. tri. Qed.

Hint Resolve k_control_only_then : tri.

Variables (key : K) (ctx : CacheContext).
Hypothesis Hkey : forall b, encode_key key ctx = Ok b -> b = kb.

Lemma t_with_key {A} pre (k : bytes -> prog T (res A)) post :
  triple pre (k kb) post -> (forall e c, pre c -> post (Err e) c) ->
  triple pre (let!? b := Ret (encode_key key ctx) in k b) post.
Proof.
  intros Hk He. cbn [bind]. destruct (encode_key key ctx) as [b|e] eqn:Hb.
  - by rewrite (Hkey b).
  - apply t_ret. auto.
Qed.

Lemma k_wait_and_get : keeps settled (wait_and_get (V := V) key ctx).
Proof. apply t_with_key; [|done]. tri. Qed.

Lemma k_get : keeps settled (get (V := V) self key ctx).
Proof.
  unfold get. apply (t_bind _ _ _ (fun _ => settled)); [auto with tri|]. intros started.
  apply t_with_key; [|done]. unfold get_from, get_ready, get_waiting. tri.
Qed.

(** ** Population *)

Variable fetch : Instant -> World T -> res V.

Lemma k_fallback cause rungs : keeps settled (try_fallback_rungs (V := V) kb cause rungs).
Proof.
  induction rungs as [|rung rest IH]; cbn [try_fallback_rungs]; [by apply t_ret|].
  unfold record_fallback. tri.
Qed.

Lemma k_try_fallback cause : keeps settled (try_fallback_tier (V := V) key ctx cause).
Proof. apply t_with_key; [apply k_fallback|done]. Qed.

Lemma k_fetch pre armed : covers pre armed -> keeps pre (await_fetch armed fetch).
Proof. intros Hc. by apply t_await. Qed.

(** Published, or still claimed. *)
Definition populated_or_claimed (r : res V) (c : Cachelito) : Prop :=
  match r with Ok _ => settled c | Err _ => claimed own c end.

Lemma t_publish g rung ttl' :
  triple (claimed own) (ctl (fun now => publish now kb g rung ttl'))
    (fun r c => match r with Ok _ => settled c | Err _ => claimed own c end).
Proof.
  apply t_ctl. intros now c Hc Hp. split; [|apply with_entry_placement].
  assert (Ha : own = address_of c kb) by (unfold address_of; by rewrite Hp).
  rewrite Ha in *. by apply publish_settles.
Qed.

Lemma t_fail e : triple (claimed own) (ctl (fun _ => fail_with_error kb e)) (fun _ => settled).
Proof.
  apply t_ctl. intros now c Hc Hp. split; [|apply with_entry_placement].
  apply fail_settles. unfold address_of. by rewrite Hp.
Qed.

Lemma t_populate_once g decision :
  triple (claimed own) (populate_once key kb g ctx fetch decision) populated_or_claimed.
Proof.
  unfold populate_once.
  apply (t_bind _ _ _ (fun _ => claimed own)); [apply k_fetch; auto with tri|].
  intros [value|e]; [|by apply t_ret].
  apply (t_bind _ _ _ (fun _ => claimed own)); [apply t_ask|]. intros [rung|]; [|by apply t_ret].
  apply t_if_bound; [by apply t_ret|]. apply t_with_key; [|done].
  apply (t_bind _ _ _ (fun _ => claimed own)); [auto with tri|]. intros set_result.
  apply (t_bind _ _ _ (fun _ => claimed own)); [auto with tri|]. intros _.
  destruct set_result; [|by apply t_ret].
  eapply t_bind; [apply t_publish|]. intros []; by apply t_ret.
Qed.

Lemma t_population_failed decision e :
  triple (claimed own) (population_failed (V := V) key kb ctx decision e) (fun _ => settled).
Proof.
  unfold population_failed.
  apply (t_bind _ _ _ (fun _ => claimed own)); [auto with tri|]. intros started.
  apply (t_bind _ _ _ (fun _ => claimed own)); [auto with tri|]. intros _.
  eapply t_bind; [apply t_fail|]. intros r. cbn beta.
  destruct (bool_decide _); [by apply t_ret|]. destruct (bool_decide _); [|by apply t_ret].
  apply k_try_fallback.
Qed.

Lemma t_population_loop left g decision :
  triple (claimed own) (population_loop (S left) key kb g ctx decision fetch) (fun _ => settled).
Proof.
  induction left as [|left IH]; cbn [population_loop];
    (eapply t_bind; [apply t_populate_once|]; intros [value|e]; [by apply t_ret|]);
    cbn [populated_or_claimed].
  - destruct (_ && _) eqn:Hb; [by cbn in Hb|]. apply t_population_failed.
  - destruct (_ && _); [|apply t_population_failed].
    apply (t_bind _ _ _ (fun _ => claimed own)); [apply t_pause; auto with tri|]. intros _. apply IH.
Qed.

Lemma t_become_owner g decision :
  triple (claimed own) (become_population_owner key kb g ctx decision fetch) (fun _ => settled).
Proof. apply t_population_loop. Qed.

Lemma t_acquire t :
  triple settled (ctl (fun now => acquire now kb t))
    (fun r c => match r with
                | Ok s => (snap_state s = InFlight /\ snap_population_owner s = true /\ claimed own c)
                          \/ (snap_state s = Ready /\ snap_population_owner s = false /\ settled c)
                | Err _ => settled c
                end).
Proof.
  apply t_ctl. intros now c Hc Hp. split; [|apply with_created_entry_placement].
  assert (Ha : own = address_of c kb) by (unfold address_of; by rewrite Hp).
  rewrite Ha. by apply acquire_claims.
Qed.

(** After an [acquire] from a settled plane: claimed by this caller, or
    committed. *)
Definition acquired (s : ControlSnapshot) (c : Cachelito) : Prop :=
  (snap_state s = InFlight /\ snap_population_owner s = true /\ claimed own c) \/
  (snap_state s = Ready /\ snap_population_owner s = false /\ settled c).

Lemma triple_or {A} (pre1 pre2 : Cachelito -> Prop) (p : prog T A) post :
  triple pre1 p post -> triple pre2 p post -> triple (fun c => pre1 c \/ pre2 c) p post.
Proof. intros H1 H2 t w [Hw|Hw] Hp; [by apply H1|by apply H2]. Qed.

(** A precondition's pure part, assumed. *)
Lemma triple_pure {A} (phi : Prop) (pre : Cachelito -> Prop) (p : prog T A) post :
  (phi -> triple pre p post) -> triple (fun c => phi /\ pre c) p post.
Proof. intros H t w [Hphi Hw] Hp. by apply H. Qed.

Lemma t_acquired {A} (s : ControlSnapshot) (p : prog T A) post :
  (snap_state s = InFlight -> snap_population_owner s = true -> triple (claimed own) p post) ->
  (snap_state s = Ready -> snap_population_owner s = false -> triple settled p post) ->
  triple (acquired s) p post.
Proof.
  intros H1 H2 t w [(Hs & Ho & Hw)|(Hs & Ho & Hw)] Hp; [by apply H1|by apply H2].
Qed.

Lemma t_become_owner_settled g decision :
  triple settled (become_population_owner key kb g ctx decision fetch) (fun _ => settled).
Proof.
  eapply t_conseq; [intros c Hc; exact (settled_claimed own c Hc)| |apply t_become_owner]. done.
Qed.

Lemma t_dispatch decision again s :
  triple (acquired s) (dispatch_acquired key kb ctx decision fetch again s) (fun _ => settled).
Proof.
  unfold dispatch_acquired. apply t_acquired; intros Hs Ho; rewrite Hs, ?Ho; cbn [negb].
  - apply t_become_owner.
  - apply t_become_owner_settled.
Qed.

Lemma t_population_attempts left decision :
  triple settled (population_attempts left key kb ctx decision fetch) (fun _ => settled).
Proof.
  destruct left as [|left]; cbn [population_attempts]; [by apply t_ret|].
  eapply t_bind; [apply t_acquire|]. intros [first|e]; [|by apply t_ret]. cbn beta.
  apply (t_bind _ _ _ (fun r c => match r with Ok s => acquired s c | Err _ => settled c end)).
  { apply (t_acquired first); intros Hs Ho; rewrite Hs.
    - rewrite bool_decide_false by done. cbn [andb]. apply t_ret. intros c Hc. by left.
    - rewrite bool_decide_true by done. cbn [andb]. destruct (snap_expired first).
      + apply (t_bind _ _ _ (fun _ => settled)); [apply t_mark_stale|]. intros _. apply t_acquire.
      + apply t_ret. intros c Hc. by right. }
  intros [s|e]; [|by apply t_ret]. destruct (_ && _) eqn:Hready; [|apply t_dispatch].
  apply (t_acquired s); intros Hs Ho; [by rewrite Hs in Hready|].
  apply t_if_bound; [by apply t_ret|].
  apply (t_bind _ _ _ (fun _ => settled)); [auto with tri|]. intros [[v|]|e]; try (by apply t_ret).
  eapply t_conseq; [|by intros r c Hc; exact Hc|apply (t_dispatch _ _ s)]. intros c Hc. by right.
Qed.

Lemma t_get_or_fetch : keeps settled (get_or_fetch self key ctx fetch).
Proof.
  unfold get_or_fetch. destruct (check_auth ctx); [|by apply t_ret]. apply t_with_key; [|done].
  destruct (authorize _); [|by apply t_ret]. apply t_population_attempts.
Qed.

Lemma t_refresh_detailed : keeps settled (refresh_detailed self key ctx fetch).
Proof.
  unfold refresh_detailed. destruct (check_auth ctx); [|by apply t_ret]. apply t_with_key; [|done].
  destruct (authorize _); [|by apply t_ret].
  apply (t_bind _ _ _ (fun _ => settled)); [auto with tri|]. intros [before|e]; [|by apply t_ret].
  apply (t_bind _ _ _ (fun _ => settled)); [unfold refresh_current; tri|]. intros current.
  apply (t_bind _ _ _ (fun _ => settled)); [tri|]. intros _.
  eapply t_bind; [apply t_acquire|]. intros [s|e]; [|by apply t_ret]. cbn beta.
  apply (t_acquired s); intros Hs Ho; rewrite Ho; cbn [negb]; [|by apply t_ret].
  eapply t_bind; [apply t_become_owner|]. intros r. cbn beta.
  unfold record_telemetry_refresh_failure. tri.
Qed.

(** ** Eviction *)

Lemma k_reserve a : keeps settled (ctl (fun _ => reserve_eviction a)).
Proof.
  apply t_ctl. intros now c Hc Hp. split; [by apply reserve_settles|apply with_entry_placement].
Qed.

Lemma k_evict_rung left rung : keeps settled (try_evict_at_rung (T := T) left rung).
Proof.
  induction left as [|left IH]; cbn [try_evict_at_rung]; [by apply t_ret|].
  apply (t_bind _ _ _ (fun _ => settled)).
  { apply t_elsewhere. intros now w. apply nominate_tiers. }
  intros [a|]; [|by apply t_ret].
  apply (t_bind _ _ _ (fun _ => settled)); [apply k_reserve|]. intros [[]|e]; [|exact IH|by apply t_ret].
  apply (t_bind _ _ _ (fun _ => settled)); [|intros; by apply t_ret].
  apply t_elsewhere. intros now w. apply on_slot_tiers.
Qed.

Lemma k_try_free_rungs left rungs : keeps settled (try_free_rungs (T := T) left rungs).
Proof.
  revert left. induction rungs as [|rung rest IH]; intros left; cbn [try_free_rungs]; [by apply t_ret|].
  apply t_if_bound; [done|].
  apply (t_bind _ _ _ (fun _ => settled)); [apply k_evict_rung|]. intros [[] n]; [by apply t_ret|apply IH].
Qed.

(** ** [set], [promote] and [demote] *)

Lemma t_prepare rung kind :
  triple settled (ctl (fun now => prepare now kb None rung kind))
    (fun r c => match r with
                | Ok token => tok_address token = own /\ prepared own c
                | Err _ => settled c
                end).
Proof.
  apply t_ctl. intros now c Hc Hp. split; [|apply with_created_entry_placement].
  assert (Ha : own = address_of c kb) by (unfold address_of; by rewrite Hp).
  rewrite Ha. by apply prepare_prepares.
Qed.

Lemma t_commit token ttl' :
  tok_address token = own ->
  triple (prepared own) (ctl (fun now => commit now token ttl'))
    (fun r c => match r with Ok _ => settled c | Err _ => prepared own c end).
Proof.
  intros Ht. apply t_ctl. intros now c Hc Hp. split; [|apply with_entry_placement].
  rewrite <- Ht in *. by apply commit_settles.
Qed.

Lemma t_abort_here token e :
  tok_address token = own -> triple (prepared own) (abort_here (T := T) token e) (fun _ => settled).
Proof.
  intros Ht. apply (t_bind _ _ _ (fun _ => settled)); [|intros; by apply t_ret].
  apply t_ctl. intros now c Hc Hp. split; [|apply with_entry_placement].
  rewrite <- Ht in Hc. by apply abort_settles.
Qed.

Lemma t_abort_clean_here token e :
  tok_address token = own ->
  triple (prepared own) (abort_clean_here (T := T) token e) (fun _ => settled).
Proof.
  intros Ht. apply (t_bind _ _ _ (fun _ => settled)); [|intros; by apply t_ret].
  apply t_ctl. intros now c Hc Hp. split; [|apply with_entry_placement].
  rewrite <- Ht in Hc. by apply abort_settles.
Qed.

Lemma t_drop_intent token :
  tok_address token = own ->
  triple (prepared own) (drop_here (T := T) (GIntent token)) (fun _ => settled).
Proof.
  intros Ht t w Hw Hp now Hn. cbn. destruct (covers_intent kb pl token Ht w Hw Hp). by split.
Qed.

Lemma t_set_races left value rung :
  triple settled (set_races left kb value ctx rung) (fun _ => settled).
Proof.
  induction left as [|left IH]; cbn [set_races]; [by apply t_ret|].
  eapply t_bind; [apply t_prepare|]. intros [token|e]; [|by apply t_ret]. cbn beta.
  apply triple_pure. intros Ht. pose proof (covers_intent (T := T) kb pl token Ht) as Hcov.
  apply (t_bind _ _ _ (fun _ => prepared own)); [auto with tri|]. intros set_result.
  apply (t_bind _ _ _ (fun _ => prepared own)); [auto with tri|]. intros _.
  apply (t_bind _ _ _ (fun _ => prepared own)); [tri|]. intros _.
  destruct set_result as [[]|e].
  - eapply t_bind; [by apply t_commit|]. intros [[]|e]; [by apply t_ret|]. cbn beta.
    assert (Hother : triple (prepared own)
      (let! _ := await [GIntent token] false (remove_at rung kb) in
       let! _ := abort_here token e in Ret (Return_ (Err e))) (fun _ => settled)).
    { apply (t_bind _ _ _ (fun _ => prepared own)); [auto with tri|]. intros _.
      apply (t_bind _ _ _ (fun _ => settled)); [by apply t_abort_here|]. intros _. by apply t_ret. }
    destruct e; try exact Hother. destruct (left =? 0).
    + apply (t_bind _ _ _ (fun _ => settled)); [by apply t_drop_intent|]. intros _. by apply t_ret.
    + apply (t_bind _ _ _ (fun _ => prepared own)); [by apply t_pause|]. intros _.
      apply (t_bind _ _ _ (fun _ => settled)); [by apply t_drop_intent|]. intros _. done.
  - apply (t_bind _ _ _ (fun _ => settled)); [|intros; by apply t_ret].
    destruct (write_provably_stored_nothing e); [by apply t_abort_clean_here|by apply t_abort_here].
Qed.

Lemma t_set_walk n value rung last : keeps settled (set_walk n kb value ctx rung last).
Proof.
  revert rung last. induction n as [|n IH]; intros rung last; cbn [set_walk]; [by apply t_ret|].
  destruct (negb _); [by apply t_ret|]. apply t_if_bound; [done|].
  apply (t_bind _ _ _ (fun _ => settled)); [apply t_set_races|]. intros []; [by apply t_ret|done].
Qed.

Lemma t_set_passes n value start last : keeps settled (set_passes n kb value ctx start last).
Proof.
  revert last. induction n as [|n IH]; intros last; cbn [set_passes]; [by apply t_ret|].
  apply (t_bind _ _ _ (fun _ => settled)); [apply t_set_walk|]. intros [r|e]; [by apply t_ret|].
  destruct (bool_decide _); [|by apply t_ret].
  apply (t_bind _ _ _ (fun _ => settled)); [apply k_try_free_rungs|]. intros []; [done|by apply t_ret].
Qed.

Lemma t_set value : keeps settled (set self key value ctx).
Proof.
  unfold set. destruct (check_auth ctx); [|by apply t_ret]. apply t_with_key; [|done].
  apply (t_bind _ _ _ (fun _ => settled)); [auto with tri|]. intros [s|e]; [|by apply t_ret].
  apply (t_bind _ _ _ (fun _ => settled)); [apply t_ask|]. intros decision.
  destruct (authorize _); [|by apply t_ret]. destruct (bool_decide _); [by apply t_ret|].
  apply t_set_passes.
Qed.

Lemma t_abort_with {A} token e :
  tok_address token = own -> triple (prepared own) (abort_with (T := T) (A := A) token e) (fun _ => settled).
Proof.
  intros Ht. apply (t_bind _ _ _ (fun _ => settled)); [by apply t_abort_here|]. intros _. by apply t_ret.
Qed.

Lemma t_move_value from to token value :
  tok_address token = own ->
  triple (prepared own) (move_value key kb from to token value ctx) (fun _ => settled).
Proof.
  intros Ht. pose proof (covers_intent (T := T) kb pl token Ht) as Hcov. unfold move_value.
  destruct (encode_key key ctx) as [kb2|e]; [|by apply t_abort_with]. cbn zeta.
  apply (t_bind _ _ _ (fun _ => prepared own)); [auto with tri|]. intros set_result.
  apply (t_bind _ _ _ (fun _ => prepared own)); [auto with tri|]. intros _.
  destruct set_result as [u|e]; [|by apply t_abort_with].
  apply (t_bind _ _ _ (fun _ => prepared own)); [auto with tri|]. intros remove_result.
  apply (t_bind _ _ _ (fun _ => prepared own)); [auto with tri|]. intros _.
  eapply t_bind; [by apply t_commit|]. intros [v|e]; [by apply t_ret|]. cbn beta.
  apply (t_bind _ _ _ (fun _ => prepared own)); [auto with tri|]. intros _. by apply t_abort_with.
Qed.

Lemma t_move_entry s to : keeps settled (move_entry (V := V) key kb s to ctx).
Proof.
  unfold move_entry. eapply t_bind; [apply t_prepare|]. intros [token|e]; [|by apply t_ret].
  cbn beta zeta. apply triple_pure. intros Ht.
  pose proof (covers_intent (T := T) kb pl token Ht) as Hcov.
  assert (Hun : triple (prepared own)
    (let! _ := drop_here (GIntent token) in Ret (A := res unit) (Err TierUnavailable)) (fun _ => settled)).
  { apply (t_bind _ _ _ (fun _ => settled)); [by apply t_drop_intent|]. intros _. by apply t_ret. }
  apply t_if_bound; [done|]. apply t_if_bound; [done|].
  apply (t_bind _ _ _ (fun _ => prepared own)); [auto with tri|].
  intros [[v|]|e]; [by apply t_move_value|by apply t_abort_with..].
Qed.

Lemma t_promote : keeps settled (promote self key ctx).
Proof.
  unfold promote. cbn [bind]. destruct (allowed self OpPromote key ctx); [|by apply t_ret].
  apply t_with_key; [|done]. apply (t_bind _ _ _ (fun _ => settled)); [auto with tri|].
  intros [s|e]; [|by apply t_ret]. destruct (negb (bool_decide _)); [by apply t_ret|].
  destruct (_ || _); [by apply t_ret|]. destruct (from_usize _); [apply t_move_entry|by apply t_ret].
Qed.

Lemma t_demote : keeps settled (demote self key ctx).
Proof.
  unfold demote. cbn [bind]. destruct (allowed self OpDemote key ctx); [|by apply t_ret].
  apply t_with_key; [|done]. apply (t_bind _ _ _ (fun _ => settled)); [auto with tri|].
  intros [s|e]; [|by apply t_ret]. destruct (negb (bool_decide _)); [by apply t_ret|].
  destruct (_ || _); [by apply t_ret|]. destruct (from_usize _); [apply t_move_entry|by apply t_ret].
Qed.

(** ** [invalidate], [remove] and [exists] *)

Lemma t_invalidate : keeps settled (invalidate self key ctx).
Proof.
  unfold invalidate. cbn [bind]. destruct (allowed self OpInvalidate key ctx); [|by apply t_ret].
  apply t_with_key; [|done]. apply (t_bind _ _ _ (fun _ => settled)); [|intros []; by apply t_ret].
  apply t_ctl. intros now c Hc Hp. split; [by apply invalidate_settles|apply with_entry_placement].
Qed.

Lemma k_remove_from slots : keeps settled (remove_from slots kb).
Proof.
  induction slots as [|idx slots IH]; cbn [remove_from]; [by apply t_ret|].
  destruct (idx =? as_usize L6); [done|].
  apply (t_bind _ _ _ (fun _ => settled)); [apply t_slot, covers_nothing|]. intros _. apply IH.
Qed.

Lemma t_remove : keeps settled (remove self key ctx).
Proof.
  unfold remove. cbn [bind]. destruct (allowed self OpRemove key ctx); [|by apply t_ret].
  apply t_with_key; [|done]. apply (t_bind _ _ _ (fun _ => settled)); [apply t_ask|]. intros n.
  apply (t_bind _ _ _ (fun _ => settled)); [apply k_remove_from|]. intros _.
  apply (t_bind _ _ _ (fun _ => settled)); [|intros []; by apply t_ret].
  apply t_ctl. intros now c Hc Hp. split; [by apply release_settles|apply with_entry_placement].
Qed.

Lemma t_exists : keeps settled (exists_ self key ctx).
Proof.
  unfold exists_. cbn [bind]. destruct (allowed self OpExists key ctx); [|by apply t_ret].
  apply t_with_key; [|done]. apply (t_bind _ _ _ (fun _ => settled)); [auto with tri|].
  intros [s|e]; [|by apply t_ret]. destruct (negb _); [by apply t_ret|].
  apply t_if_bound; [by apply t_ret|]. apply k_contains_at, covers_nothing.
Qed.
End operations.

(** ** The theorem *)

Section perform.
Context {K V P T : Type} `{!Key K} `{!CachePolicy P K V} `{!CacheTier V T}.

(** C13. No request strands a claim. From a plane where nothing is being
    populated or prepared, any request performed with nobody else running --
    at any pace, with any outcome of every backend call, and dropped at any
    await -- leaves the plane that way: no entry is [InFlight] or [Prepared],
    none has a population owner, so no later caller waits for work nobody is
    doing. *)
Theorem no_request_strands_a_claim (self : CacheManager P) (r : request K V T)
    (clock : nat -> Instant) (pc : nat -> pace) (n : nat) (w : World T)
    (Hclock : forall m, (clock m <= clock (S m))%Z)
    (Hsettled : settled (w_ctl w)) :
  settled (w_ctl (snd (run (alone clock pc) n (perform self r) w))).
Proof.
  assert (H : triple (T := T) (c_placement (w_ctl w)) settled (perform self r) (fun _ => settled)).
  { pose proof (names_key_bytes r) as Hk.
    destruct r; cbn [perform];
      (apply (t_bind _ _ _ (fun _ => settled)); [|intros; by apply t_ret]);
      [eapply k_get|eapply t_get_or_fetch|eapply t_set|eapply t_invalidate|eapply t_remove|eapply t_exists
      |eapply t_refresh_detailed|eapply t_promote|eapply t_demote]; exact Hk. }
  destruct (wp_run (perform self r) _ clock pc n (clock n) w Hclock ltac:(lia)
              (H (clock n) w Hsettled eq_refl)) as (m & _ & _ & Hpost).
  by destruct (fst (run (alone clock pc) n (perform self r) w)).
Qed.
End perform.

Lemma settled_new n cap p : settled (Cachelito_with_placement (cachelito_sized n cap) p).
Proof.
  pose proof (with_placement_ok n cap p) as Hok. split; [done|]. intros a e. unfold view.
  destruct (c_shards _ !! shard_for _ a) as [m|] eqn:Hm; [|done].
  destruct (find_entry (mx_data m) a) as [[i x]|] eqn:Hf; [|done]. exfalso.
  pose proof (sok_wf _ _ _ (proj2 (pok_shards _ Hok _ _ Hm))) as Hwf.
  apply find_entry_spec in Hf as [Hi _]; [|done].
  cbn in Hm. apply lookup_replicate in Hm as [-> _]. cbn in Hi.
  by apply lookup_replicate in Hi as [? _].
Qed.

(** The write reaches the rung and its caller goes away. *)
Lemma no_request_strands_a_claim_witness :
  let _ : DefaultHasher := fun _ => 0%Z in
  settled (w_ctl (snd (run (alone (fun _ => 0%Z) (fun _ => DroppedApplied)) 0
                         (perform demo_manager demo_set) (demo_world demo_plane)))).
Proof.
  intros hasher. apply (no_request_strands_a_claim demo_manager demo_set).
  - intros m. lia.
  - apply settled_new.
Defined.
