(* ===== verification/ReadYourWrite.v ===== *)
(** * A committed write is read back

    The functional contract of [set] and [get], end to end: through policy,
    two-phase commit, eviction, the ladder walk and the tier interface. *)

From stdpp Require Import relations.
From S2P Require Import Prelude Entry Integrity Key Tier Continuity Policy TierTrait Telemetry.
From S2P Require Import Pool FixedTier ShardedTier Stubs ControlEntry Shard Cachelito Plane Protocol.
From S2P Require Import Commit Prog Manager Steps Guarantee.

(** ** Timed triples *)

Section triples.
Context {T : Type}.

(** From [pre], the program run alone returns, if it is not dropped, in [post]. *)
Definition htriple {A} (pre : Instant -> World T -> Prop) (p : prog T A)
    (post : A -> Instant -> World T -> Prop) : Prop :=
  forall t w, pre t w -> wp p (fun o m w' => match o with Some a => post a m w' | None => True end) t w.

Lemma h_ret {A} (pre : Instant -> World T -> Prop) (a : A) (post : A -> Instant -> World T -> Prop) :
  (forall t w, pre t w -> post a t w) -> htriple pre (Ret a) post.
Proof. intros H t w Hw. by apply H. Qed.

Lemma h_bind {A B} pre (p : prog T A) mid (f : A -> prog T B) post :
  htriple pre p mid -> (forall a, htriple (mid a) (f a) post) -> htriple pre (bind p f) post.
Proof.
  intros Hp Hf t w Hw. apply wp_bind. eapply wp_mono; [|by apply Hp].
  intros [a|] m w' _ H'; [by apply Hf|done].
Qed.

Lemma h_step {B} pre (f : Instant -> World T -> B * World T) post :
  (forall t now w, pre t w -> (t <= now)%Z -> post (fst (f now w)) now (snd (f now w))) ->
  htriple pre (atomically f) post.
Proof. intros H t w Hw now Hn. cbn. by apply (H t). Qed.

Lemma h_await {B} pre armed bounded (op : Instant -> World T -> res B * World T) post :
  (forall t now w, pre t w -> (t <= now)%Z ->
     post (fst (op now w)) now (snd (op now w)) /\
     post (Err Timeout) now (snd (op now w)) /\ post (Err Timeout) now w) ->
  htriple pre (await armed bounded op) post.
Proof. intros H t w Hw now Hn. destruct (H t now w Hw Hn) as (H1 & H2 & H3). by split_and!. Qed.

Lemma h_conseq {A} pre (p : prog T A) (post post' : A -> Instant -> World T -> Prop) :
  (forall a t w, post' a t w -> post a t w) -> htriple pre p post' -> htriple pre p post.
Proof. intros H Hp t w Hw. eapply wp_mono; [|by apply Hp]. intros [a|] m w' _ H'; [by apply H|done]. Qed.

Lemma h_pre {A} (pre pre' : Instant -> World T -> Prop) (p : prog T A) post :
  (forall t w, pre' t w -> pre t w) -> htriple pre p post -> htriple pre' p post.
Proof. intros H Hp t w Hw. by apply Hp, H. Qed.

Lemma h_pure {A} (phi : Prop) pre (p : prog T A) post :
  (phi -> htriple pre p post) -> htriple (fun t w => phi /\ pre t w) p post.
Proof. intros H t w [Hp Hw]. by apply H. Qed.

Lemma h_trivial {A} pre (p : prog T A) (post : A -> Instant -> World T -> Prop) :
  (forall a t w, post a t w) -> htriple pre p post.
Proof. intros H t w _. apply wp_always. by intros [a|] m w' _. Qed.

(** Two postconditions of one program. *)
Lemma h_and {A} (pre pre' : Instant -> World T -> Prop) (p : prog T A) post post' :
  htriple pre p post -> htriple pre' p post' ->
  htriple (fun t w => pre t w /\ pre' t w) p (fun a t w => post a t w /\ post' a t w).
Proof.
  intros H H' t w [Hw Hw']. specialize (H t w Hw). specialize (H' t w Hw'). clear Hw Hw'.
  revert t w H H'.
  induction p as [a|B f k IH|B armed b op k IH|armed k IH|armed a s k IH]; intros t w; cbn.
  - by split.
  - intros H H' now Hn. apply IH; [by apply H|by apply H'].
  - intros H H' now Hn. destruct (H now Hn) as (Hk & Ht & _), (H' now Hn) as (Hk' & Ht' & _).
    split_and!; [by apply IH| |done|done].
    intros Hb. destruct (Ht Hb), (Ht' Hb). split; by apply IH.
  - intros H H' now Hn. destruct (H now Hn), (H' now Hn). split; [by apply IH|done].
  - intros H H' now Hn. destruct (H now Hn) as [Hk _], (H' now Hn) as [Hk' _]. split; [|done].
    intros r. by apply IH.
Qed.

(** Two facts about one program hold together. *)
Lemma wp_and {A} (p : prog T A) (Q Q' : option A -> Instant -> World T -> Prop) t w :
  wp p Q t w -> wp p Q' t w -> wp p (fun o m w => Q o m w /\ Q' o m w) t w.
Proof.
  revert t w. induction p as [a|B f k IH|B armed b op k IH|armed k IH|armed a s k IH]; intros t w; cbn.
  - done.
  - intros H H' now Hn. apply IH; auto.
  - intros H H' now Hn. destruct (H now Hn) as (Ha & Hb & Hc & Hd), (H' now Hn) as (Ha' & Hb' & Hc' & Hd').
    split_and!; try done; [by apply IH|]. intros Hbd. destruct (Hb Hbd), (Hb' Hbd). split; by apply IH.
  - intros H H' now Hn. destruct (H now Hn), (H' now Hn). split; [by apply IH|done].
  - intros H H' now Hn. destruct (H now Hn), (H' now Hn). split; [intros r; by apply IH|done].
Qed.

(** An invariant of the guarantee is an invariant of the run. *)
Lemma wp_respects {A} (I : World T -> Prop) (G : World T -> World T -> Prop) (p : prog T A) t w :
  (forall w w', I w -> G w w' -> I w') -> respects I G p -> I w ->
  wp p (fun _ m w' => (t <= m)%Z /\ I w') t w.
Proof.
  intros HI. revert t w.
  assert (Hlater : forall A (p : prog T A) t now w, (t <= now)%Z ->
    wp p (fun _ m w' => (now <= m)%Z /\ I w') now w -> wp p (fun _ m w' => (t <= m)%Z /\ I w') now w).
  { intros B q t now w Hn. apply wp_mono. intros o m w' _ [? ?]. split; [lia|done]. }
  induction p as [a|B f k IH|B armed b op k IH|armed k IH|armed a s k IH]; intros t w Hp Hw; cbn in *.
  - split; [lia|done].
  - intros now Hn. destruct (Hp now w Hw) as [Hg Hk]. apply Hlater; [done|]. apply IH; [done|].
    by eapply HI.
  - destruct Hp as (Hop & Hd & Ht). intros now Hn. destruct (Hop now w Hw) as [Hg Hk].
    pose proof (HI _ _ Hw Hg) as Hw'. split_and!.
    + apply Hlater; [done|]. by apply IH.
    + intros Hb. split; (apply Hlater; [done|]; apply IH; [by apply Ht|done]).
    + done.
    + by eapply HI, Hd.
    + done.
    + by eapply HI, Hd.
  - destruct Hp as [Hd Hk]. intros now Hn. split_and!; [|done|by eapply HI, Hd].
    apply Hlater; [done|]. by apply IH.
  - destruct Hp as [Hd Hk]. intros now Hn. split_and!; [|done|by eapply HI, Hd].
    intros r. apply Hlater; [done|]. by apply IH.
Qed.

Lemma respects_stronger {A} (I I' : World T -> Prop) (G : World T -> World T -> Prop) (p : prog T A) :
  (forall w, I' w -> I w) -> respects I G p -> respects I' G p.
Proof.
  intros HI. induction p as [a|B f k IH|B armed b op k IH|armed k IH|armed a s k IH]; cbn.
  - done.
  - intros Hp now w Hw. destruct (Hp now w (HI w Hw)). auto.
  - intros (Hop & Hd & Ht). split_and!; [|auto|auto]. intros now w Hw.
    destruct (Hop now w (HI w Hw)). auto.
  - intros [Hd Hk]. auto.
  - intros [Hd Hk]. auto.
Qed.
End triples.

Section read_your_write.
Context {K V P T : Type} `{!Key K} `{!CachePolicy P K V} `{HT : !CacheTier V T} `{HL : !TierLaws V T}.
Variable self : CacheManager P.
Context (kb : bytes) (pl : Placement) (v : V) (ctx : CacheContext) (t0 : Instant).

Abbreviation own := (own_address kb pl).

(** The world's invariant, from [t0] on. *)
Definition kept (t : Instant) (w : World T) : Prop := (t0 <= t)%Z /\ world_ok w /\ placed pl w.

(** The rung stores the value: a [set] of it was accepted since [t0]. *)
Definition written (rung : TierId) (t : Instant) (w : World T) : Prop :=
  exists tr0 tr at_, (t0 <= at_ <= t)%Z /\ tier_ok tr0 /\
    tier_set at_ kb v (ctx_ttl ctx) tr0 = (Ok tt, tr) /\ w_tiers w !! as_usize rung = Some tr.

(** The clock stays in the range of a [u64] of nanoseconds and the TTL has not
    run out since [t0]. *)
Definition still_live (t : Instant) : Prop :=
  (0 <= t0)%Z /\ (t <= U64_MAX)%Z /\ ttl_live (ctx_ttl ctx) t0 t.

(** The control plane points at a rung that stores the value. *)
Definition committed (t : Instant) (w : World T) : Prop :=
  exists rung e, written rung t w /\ view (w_ctl w) own = Some e /\ state e = Ready /\
    tier e = rung /\ forall t', (t <= t')%Z -> still_live t' -> is_expired t' e = false.

Lemma still_live_earlier t t' : (t0 <= t <= t')%Z -> still_live t' -> still_live t.
Proof.
  intros Ht (H0 & Hm & Hl). split_and!; [done|lia|]. destruct (ctx_ttl ctx); [|done].
  cbn in *. unfold elapsed in *. lia.
Qed.

Lemma written_later rung t t' w w' :
  (t <= t')%Z -> w_tiers w' = w_tiers w -> written rung t w -> written rung t' w'.
Proof.
  intros Ht Hw (tr0 & tr & at_ & Hat & Hok & Hset & Hi). exists tr0, tr, at_.
  rewrite Hw. split_and!; try done; lia.
Qed.

Lemma kept_step kb' t now (w w' : World T) :
  (t <= now)%Z -> kept t w -> manager_step kb' pl w w' -> kept now w'.
Proof.
  intros Hn (Ht & Hok & Hp) Hs. split_and!; [lia|by eapply manager_step_ok|].
  by eapply manager_step_placed, rtc_once.
Qed.

Lemma kept_later t now w : (t <= now)%Z -> kept t w -> kept now w.
Proof. intros Hn (Ht & Hok & Hp). split_and!; [lia|done|done]. Qed.

(** What only respects the guarantee keeps the invariant. *)
Lemma h_kept {A} (p : prog T A) :
  respects (placed pl) (rtc (manager_step kb pl)) p -> htriple kept p (fun _ => kept).
Proof.
  intros Hp t w (Ht & Hok & Hpl).
  apply (respects_stronger _ (fun w => world_ok w /\ placed pl w)) in Hp; [|by intros ? []].
  eapply wp_mono; [|apply (wp_respects (fun w => world_ok w /\ placed pl w)
                            (rtc (manager_step kb pl)) p t w); [|exact Hp|done]].
  - intros [a|] m w' Hm [_ [? ?]]; [|done]. split_and!; [lia|done|done].
  - clear. intros w w' [Hok Hpl] Hr. induction Hr as [w|w w1 w' Hs _ IH]; [done|].
    apply IH; [by eapply manager_step_ok|by eapply manager_step_placed, rtc_once].
Qed.

(** ** Storing *)

(** A write that reports success has stored the value. *)
Lemma h_observed_write op rung armed :
  is_cache_rung rung = true ->
  htriple kept (observed_write op kb rung armed v (ctx_ttl ctx))
    (fun r t w => kept t w /\ (r = Ok tt -> written rung t w)).
Proof.
  intros Hr. unfold observed_write.
  apply (h_bind _ _ (fun _ => kept)).
  { apply h_step. intros t now w Hw Hn. by eapply kept_later. }
  intros started.
  apply (h_bind _ _ (fun r t w => kept t w /\ (r = Ok tt -> written rung t w))).
  { apply h_await. intros t now w Hw Hn.
    pose proof (kept_step kb t now w _ Hn Hw (ms_set kb pl w now rung v (ctx_ttl ctx) Hr)) as Hw'.
    split_and!; [done| |done|done|by eapply kept_later|done]. intros Hok.
    unfold set_at, on_slot in *. destruct (w_tiers w !! as_usize rung) as [tr0|] eqn:Htr; [|done].
    destruct (tier_set now kb v (ctx_ttl ctx) tr0) as [r tr] eqn:Hset. cbn in Hok. subst r.
    destruct Hw as (Ht & [_ _ Hts] & _). exists tr0, tr, now. split_and!; [lia|lia| |done|].
    - by eapply Forall_lookup_1.
    - cbn. apply list_lookup_insert_eq. by apply lookup_lt_Some in Htr. }
  intros r. cbn zeta. apply (h_bind _ _ (fun _ t w => kept t w /\ (r = Ok tt -> written rung t w))).
  { apply h_step. intros t now w [Hw Hwr] Hn. cbn [fst snd]. split.
    - by apply (kept_step kb t now w _ Hn Hw (ms_emit kb pl w _)).
    - intros Hok. by apply (written_later rung t now w); [|done|apply Hwr]. }
  intros u. apply h_ret. done.
Qed.

Lemma h_record_outcome {A} rung rung' (r : res A) :
  htriple (fun t w => kept t w /\ written rung t w) (record_outcome rung' r)
    (fun _ t w => kept t w /\ written rung t w).
Proof.
  apply h_step. intros t now w [Hw Hwr] Hn. destruct r as [a|[]]; cbn [fst snd];
    (split; [|by apply (written_later rung t now w)]); try (by eapply kept_later);
    apply (kept_step kb t now w); try done; constructor.
Qed.

(** ** Committing *)

(** The control plane's clock does not expire an entry stamped [now] before its
    TTL. *)
Lemma stamped_not_expired now e e' t' :
  (forall d, ctx_ttl ctx = Some d -> (0 <= d < W64)%Z) -> (t0 <= now)%Z -> (now <= t')%Z ->
  ttl e' = ttl (set_ttl (ctx_ttl ctx) e) ->
  population_timestamp e' = nanos_to_instant (instant_to_nanos now) ->
  still_live t' -> is_expired t' e' = false.
Proof.
  intros Hd Ht0 Ht Httl Hts (H0 & Hmax & Hlive). unfold is_expired. rewrite Httl, Hts.
  unfold ttl, nanos_to_instant, instant_to_nanos.
  cbn -[Z.leb Z.min Z.eqb wrap64 elapsed].
  rewrite (proj2 (Z.leb_le 0 now)) by lia. rewrite Z.min_l by lia.
  destruct (ctx_ttl ctx) as [d|]; [|done]. specialize (Hd d eq_refl). cbn in Hlive.
  unfold wrap64. rewrite Z.mod_small by done. destruct (d =? 0)%Z; [done|].
  destruct (now =? 0)%Z; [done|]. apply Z.leb_gt. unfold elapsed in *. lia.
Qed.

Lemma h_commit rung token :
  (forall d, ctx_ttl ctx = Some d -> (0 <= d < W64)%Z) ->
  tok_address token = own -> tok_target_tier token = as_u8 rung ->
  htriple (fun t w => kept t w /\ written rung t w) (ctl (fun now => commit now token (ctx_ttl ctx)))
    (fun r t w => kept t w /\ (r = Ok tt -> committed t w)).
Proof.
  intros Hd Ha Ht. apply h_step. intros t now w [Hw Hwr] Hn.
  pose proof (ms_ctl kb pl w (PoCommit now token (ctx_ttl ctx)) Ha) as Hs.
  pose proof (kept_step kb t now w _ Hn Hw Hs) as Hk. cbn in Hk.
  pose proof (wok_plane w (proj1 (proj2 Hw))) as Hok.
  pose proof (with_entry_spec (w_ctl w) (tok_address token) (Err Miss)
                (commit_entry now token (ctx_ttl ctx)) Hok ltac:(auto with thesix)) as Hspec.
  unfold commit in *. destruct (view (w_ctl w) (tok_address token)) as [e|].
  2: { rewrite Hspec in *. cbn [fst snd] in *. by split. }
  destruct Hspec as (c' & Heq & _ & _ & Hv). rewrite Heq in *. cbn [fst snd] in *.
  split; [done|]. intros Hr.
  destruct (commit_entry_spec now token rung (ctx_ttl ctx) e Ht Hr)
    as (Hst & Htier & _ & _ & _ & _ & Hd' & Hts & _).
  exists rung, (snd (commit_entry now token (ctx_ttl ctx) e)). rewrite <- Ha.
  split_and!; [by apply (written_later rung t now w)|done|done|done|].
  intros t' Ht' Hl. destruct Hw as (Ht0 & _). apply (stamped_not_expired now e); try done; lia.
Qed.

(** ** [set] *)

Lemma h_prepare rung kind :
  htriple kept (ctl (fun now => prepare now kb None rung kind))
    (fun r t w => match r with
                  | Ok token => (tok_address token = own /\ tok_target_tier token = as_u8 rung) /\ kept t w
                  | Err _ => kept t w
                  end).
Proof.
  apply h_step. intros t now w Hw Hn.
  pose proof (own_address_of kb pl w (proj2 (proj2 Hw))) as Ha.
  pose proof (ms_ctl kb pl w (PoPrepare now kb None rung kind) Ha) as Hs.
  pose proof (kept_step kb t now w _ Hn Hw Hs) as Hk. cbn in Hk.
  assert (Htok : forall token, fst (prepare now kb None rung kind (w_ctl w)) = Ok token ->
            tok_address token = own /\ tok_target_tier token = as_u8 rung).
  { intros token Ht. split; [rewrite (prepare_token _ _ _ _ _ _ _ Ht); exact Ha|].
    unfold prepare, with_created_entry, prepare_entry in Ht. by branches_in Ht. }
  destruct (prepare now kb None rung kind (w_ctl w)) as [[token|e] c]; cbn in *; [|done].
  split; [by apply Htok|done].
Qed.

(** The walk's verdict, and the value committed if it is success. *)
Definition stored_if (ok : Prop) (t : Instant) (w : World T) : Prop :=
  kept t w /\ (ok -> committed t w).

Hypothesis Httl : forall d, ctx_ttl ctx = Some d -> (0 <= d < W64)%Z.

Lemma h_set_races left rung :
  is_cache_rung rung = true ->
  htriple kept (set_races left kb v ctx rung) (fun r => stored_if (r = Return_ (Ok tt))).
Proof.
  intros Hr. induction left as [|left IH]; cbn [set_races]; [by apply h_ret|].
  eapply h_bind; [apply h_prepare|]. intros [token|e]; [|by apply h_ret]. cbn beta.
  apply h_pure. intros [Ha Htier]. pose proof (own_guard_intent kb pl token Ha) as Hg.
  eapply h_bind; [by apply h_observed_write|]. intros r. cbn beta.
  destruct r as [[]|e].
  - apply (h_bind _ _ (fun _ t w => kept t w /\ written rung t w)).
    { intros t w [Hw Hwr]. apply h_record_outcome. split; [done|by apply Hwr]. }
    intros _. apply (h_bind _ _ (fun _ t w => kept t w /\ written rung t w)); [by apply h_ret|].
    intros _. eapply h_bind; [by apply h_commit|]. intros [[]|e]; cbn beta.
    + apply h_ret. intros t w [Hw Hc]. split; [done|]. intros _. by apply Hc.
    + intros t w [Hw _]. revert t w Hw.
      change (htriple kept (match e with
        | StaleGeneration =>
            if left =? 0 then let! _ := drop_here (GIntent token) in Ret (Return_ (Err WriteContended))
            else let! _ := pause [GIntent token] in let! _ := drop_here (GIntent token) in
                 set_races left kb v ctx rung
        | _ => let! _ := await [GIntent token] false (remove_at rung kb) in
               let! _ := abort_here token e in Ret (Return_ (Err e))
        end) (fun r => stored_if (r = Return_ (Ok tt)))).
      assert (Hother : htriple kept
        (let! _ := await [GIntent token] false (remove_at rung kb) in
         let! _ := abort_here token e in Ret (Return_ (Err e))) (fun r => stored_if (r = Return_ (Ok tt)))).
      { apply (h_bind _ _ (fun _ => kept)); [apply h_kept; by apply r_remove_at|]. intros _.
        apply (h_bind _ _ (fun _ => kept)); [apply h_kept; by apply r_abort_here|]. intros _.
        by apply h_ret. }
      destruct e; try exact Hother. destruct (left =? 0).
      * apply (h_bind _ _ (fun _ => kept)); [apply h_kept; by apply r_drop_intent|]. intros _.
        by apply h_ret.
      * apply (h_bind _ _ (fun _ => kept)); [apply h_kept; by apply r_pause|]. intros _.
        apply (h_bind _ _ (fun _ => kept)); [apply h_kept; by apply r_drop_intent|]. intros _. apply IH.
  - intros t w [Hw _]. revert t w Hw.
    match goal with |- forall t w, kept t w -> wp ?p _ t w =>
      change (htriple kept p (fun r => stored_if (r = Return_ (Ok tt)))) end.
    apply (h_bind _ _ (fun _ => kept)); [apply h_kept, r_record_outcome|]. intros _.
    apply (h_bind _ _ (fun _ => kept)).
    { apply h_kept. destruct e; try done. by apply r_remove_at. }
    intros _. apply (h_bind _ _ (fun _ => kept)).
    { apply h_kept. destruct (write_provably_stored_nothing e);
        [by apply r_abort_clean_here|by apply r_abort_here]. }
    intros _. apply h_ret. intros t w Hw. split; [done|]. by destruct (moves_to_next_rung e).
Qed.

Lemma h_if_bound {A} pre rung (absent k : prog T A) post :
  (forall t t' w, (t <= t')%Z -> pre t w -> pre t' w) ->
  htriple pre absent post -> htriple pre k post -> htriple pre (if_bound rung absent k) post.
Proof.
  intros Hpre Ha Hk. apply (h_bind _ _ (fun _ => pre)); [|by intros []].
  apply h_step. intros t now w Hw Hn. by eapply Hpre.
Qed.

Lemma h_set_walk n rung last :
  htriple kept (set_walk n kb v ctx rung last) (fun r => stored_if (r = Return_ (Ok tt))).
Proof.
  revert rung last. induction n as [|n IH]; intros rung last; cbn [set_walk]; [by apply h_ret|].
  destruct (is_cache_rung rung) eqn:Hr; cbn [negb]; [|by apply h_ret].
  apply h_if_bound; [intros t t' w; apply kept_later|apply IH|].
  eapply h_bind; [by apply h_set_races|]. intros [r|e]; cbn beta.
  - by apply h_ret.
  - intros t w [Hw _]. by apply IH.
Qed.

Lemma h_set_passes n start last :
  htriple kept (set_passes n kb v ctx start last) (fun r => stored_if (r = Ok tt)).
Proof.
  revert last. induction n as [|n IH]; intros last; cbn [set_passes]; [by apply h_ret|].
  eapply h_bind; [by apply h_set_walk|]. intros [r|e]; cbn beta.
  - apply h_ret. intros t w [Hw Hc]. split; [done|]. intros ->. by apply Hc.
  - intros t w [Hw _]. destruct (bool_decide _); [|by split].
    apply (h_bind kept _ (fun _ => kept)); [apply h_kept, r_try_free| |done].
    intros []; [apply IH|by apply h_ret].
Qed.

Variable key : K.
Hypothesis Hkey : encode_key key ctx = Ok kb.

Lemma h_set : htriple kept (set self key v ctx) (fun r => stored_if (r = Ok tt)).
Proof.
  unfold set. destruct (check_auth ctx); [|by apply h_ret]. cbn [bind]. rewrite Hkey.
  apply (h_bind _ _ (fun _ => kept)); [apply h_kept, r_peek|]. intros [s|e]; [|by apply h_ret].
  apply (h_bind _ _ (fun _ => kept)); [apply h_kept, r_ask|]. intros decision.
  destruct (authorize _); [|by apply h_ret]. destruct (bool_decide _); [by apply h_ret|].
  apply h_set_passes.
Qed.

(** ** [get] *)

Lemma committed_later t t' w : (t <= t')%Z -> committed t w -> committed t' w.
Proof.
  intros Ht (rung & e & Hwr & Hv & Hs & Htier & Hexp). exists rung, e.
  split_and!; [by apply (written_later rung t t' w w)|done..|]. intros t'' Ht''. apply Hexp. lia.
Qed.

(** A read of a rung that stores the value returns it. *)
Lemma written_read rung t now w :
  written rung t w -> (t <= now)%Z -> still_live now ->
  fst (get_at rung kb now w) = Ok (Some v).
Proof.
  intros (tr0 & tr & at_ & Hat & Hok & Hset & Hi) Hn (H0 & Hmax & Hlive).
  unfold get_at, on_slot. rewrite Hi.
  assert (Hread : fst (tier_get now kb tr) = Ok (Some v)).
  { apply (law_set_get at_ now kb v (ctx_ttl ctx) tr0 tr Hok Hset); [lia|].
    destruct (ctx_ttl ctx); [|done]. cbn in *. unfold elapsed in *. lia. }
  destruct (tier_get now kb tr). cbn in *. done.
Qed.

(** The entry stays committed, and while the TTL lasts the read has returned
    the value, unless it was too late. *)
Definition was_read (r : res (option V)) (t : Instant) (w : World T) : Prop :=
  plane_ok (w_ctl w) /\ placed pl w /\ (exists e, view (w_ctl w) own = Some e /\ state e = Ready) /\
  (still_live t -> r = Ok (Some v) \/ r = Err Timeout).

Lemma was_read_later r t now w w' :
  (t0 <= t <= now)%Z -> w_ctl w' = w_ctl w -> was_read r t w -> was_read r now w'.
Proof.
  intros Ht Hc (Hok & Hp & He & Hr). unfold was_read, placed. rewrite Hc. split_and!; try done.
  intros Hl. apply Hr. by eapply still_live_earlier.
Qed.

Lemma h_observed_read op rung :
  htriple (fun t w => kept t w /\ committed t w /\
             exists e, view (w_ctl w) own = Some e /\ tier e = rung)
    (observed_read op kb rung []) (fun r t w => (t0 <= t)%Z /\ was_read r t w).
Proof.
  unfold observed_read.
  apply (h_bind _ _ (fun _ t w => kept t w /\ committed t w /\
                       exists e, view (w_ctl w) own = Some e /\ tier e = rung)).
  { apply h_step. intros t now w (Hk & Hc & He) Hn.
    split_and!; [by eapply kept_later|by eapply committed_later|done]. }
  intros started. apply (h_bind _ _ (fun r t w => (t0 <= t)%Z /\ was_read r t w)).
  - apply h_await. intros t now w (Hk & Hc & He) Hn.
    destruct Hk as (Ht0 & Hok & Hpl), Hc as (rung' & e & Hwr & Hv & Hst & Htier & _).
    destruct He as (e' & Hv' & <-). rewrite Hv in Hv'. injection Hv' as <-. subst rung'.
    assert (Hctl : w_ctl (snd (get_at (tier e) kb now w)) = w_ctl w) by apply on_slot_tiers.
    assert (Hbase : forall w', w_ctl w' = w_ctl w -> was_read (Err Timeout) now w').
    { intros w' Hw'. unfold was_read, placed. rewrite Hw'. split_and!; [by apply Hok|done| |by right].
      by exists e. }
    split_and!; [lia| |lia|by apply Hbase|lia|by apply Hbase].
    destruct (Hbase _ Hctl) as (H1 & H2 & H3 & _). split_and!; try done.
    intros Hl. left. by eapply written_read.
  - intros r. cbn zeta. apply (h_bind _ _ (fun _ t w => (t0 <= t)%Z /\ was_read r t w)).
    + apply h_step. intros t now w [Ht Hr] Hn. split; [lia|]. by apply (was_read_later r t now w); [lia| |].
    + intros u. by apply h_ret.
Qed.

Lemma h_vacuous {A} now (w : World T) (p : prog T A) (Q : option A -> Instant -> World T -> Prop) :
  (t0 <= now)%Z -> ~ still_live now -> (forall o m w', ~ still_live m -> Q o m w') -> wp p Q now w.
Proof.
  intros Ht Hn HQ. apply wp_always. intros o m w' Hm. apply HQ. intros Hl. apply Hn.
  by apply (still_live_earlier now m).
Qed.

(** The reader's own context, which names the same key. *)
Variable rctx : CacheContext.
Hypothesis Hread : encode_key key rctx = Ok kb.
Hypothesis Hauth : is_authenticated rctx = true.
Hypothesis Hallowed : pd_authorized (resolve (V := V) self (request_for OpGet key rctx) rctx) = true.

#[local] Instance still_live_dec t : Decision (still_live t).
Proof. unfold still_live. apply _. Defined.

Lemma h_get :
  htriple (fun t w => kept t w /\ committed t w) (get self key rctx)
    (fun r t _ => still_live t -> r = Ok (Some v) \/ r = Err Timeout).
Proof.
  unfold get, check_auth, authorize.
  apply (h_bind _ _ (fun _ t w => kept t w /\ committed t w)).
  { apply h_step. intros t now w [Hk Hc] Hn. split; [by eapply kept_later|by eapply committed_later]. }
  intros started. cbn [bind]. rewrite Hread, Hauth, Hallowed. cbn [negb].
  apply (h_bind _ _ (fun r t w => (kept t w /\ committed t w) /\
    exists now e, (t0 <= now <= t)%Z /\ r = Ok (peek_entry now e) /\ view (w_ctl w) own = Some e /\
      state e = Ready /\ (still_live now -> is_expired now e = false))).
  { apply h_step. intros t now w [Hk Hc] Hn. split; [split; [by eapply kept_later|by eapply committed_later]|].
    destruct Hk as (Ht0 & Hok & Hpl), Hc as (rung & e & _ & Hv & Hst & _ & Hexp).
    exists now, e. cbn [fst snd]. rewrite peek_view by apply Hok.
    rewrite (own_address_of kb pl w Hpl), Hv. split_and!; try done; [lia|]. by apply Hexp. }
  intros [s|e]; [|by intros t w (_ & now & e' & _ & Heq & _)].
  intros t w ((Hk & Hc) & now & e & Hnow & Heq & Hv & Hst & Hexp). injection Heq as ->.
  unfold get_from. cbn [snap_state peek_entry snapshot_of snap_expired]. rewrite Hst.
  destruct (decide (still_live now)) as [Hl|Hl].
  2: { apply h_vacuous; [by destruct Hk| |by intros [] m w' Hm].
       intros Hl'. apply Hl. by apply (still_live_earlier now t). }
  rewrite (Hexp Hl). cbn [negb].
  assert (Hready : htriple (fun t w => kept t w /\ committed t w /\
            exists e', view (w_ctl w) own = Some e' /\ tier e' = tier e)
          (get_ready kb started (peek_entry now e))
          (fun r t _ => still_live t -> r = Ok (Some v) \/ r = Err Timeout)); [|by apply Hready; eauto].
  unfold get_ready. cbn [snap_tier peek_entry snapshot_of].
  intros t1 w1 (Hk1 & Hc1 & He1). apply wp_bind. intros now1 Hn1. cbn [wp fst snd].
  assert (Hbound : has_tier w1 (tier e) = true).
  { destruct Hc1 as (rung & e' & (? & ? & ? & _ & _ & _ & Hi) & Hv' & _ & <- & _).
    destruct He1 as (e'' & Hv'' & <-). rewrite Hv' in Hv''. injection Hv'' as <-.
    apply Nat.ltb_lt. by apply lookup_lt_Some in Hi. }
  rewrite Hbound. revert now1 Hn1.
  assert (Hrest : htriple (fun t w => kept t w /\ committed t w /\
            exists e', view (w_ctl w) own = Some e' /\ tier e' = tier e)
    (let! result := observed_read TGet kb (tier e) [] in
     let! _ := record_outcome (tier e) result in
     if is_ok result then
       let! after := peek_at kb in
       match after with
       | Ok a => if bool_decide (snap_state a = Ready) then Ret result else Ret (Err Miss)
       | Err _ => Ret result
       end
     else Ret result) (fun r t _ => still_live t -> r = Ok (Some v) \/ r = Err Timeout)).
  { eapply h_bind; [apply h_observed_read|]. intros r. cbn beta.
    apply (h_bind _ _ (fun _ t w => (t0 <= t)%Z /\ was_read r t w)).
    { apply h_step. intros t2 now2 w2 [Ht2 Hr2] Hn2. split; [lia|].
      apply (was_read_later r t2 now2 w2); [lia| |done]. by destruct r as [|[]]. }
    intros u. destruct (is_ok r); [|by apply h_ret; intros t2 w2 (_ & _ & _ & _ & Hr)].
    apply (h_bind _ _ (fun a t w => (was_read r t w) /\
             exists s, a = Ok s /\ snap_state s = Ready)).
    { apply h_step. intros t2 now2 w2 [Ht2 Hr2] Hn2. split; [by apply (was_read_later r t2 now2 w2); [lia| |]|].
      destruct Hr2 as (Hok & Hpl & (e2 & Hv2 & Hs2) & _). eexists. split; [cbn; by rewrite peek_view|].
      by rewrite (own_address_of kb pl w2 Hpl), Hv2. }
    intros after t2 w2 ((_ & _ & _ & Hr) & s & -> & Hs). by rewrite bool_decide_true. }
  intros now1 Hn1. apply Hrest. split_and!; [by eapply kept_later|by eapply committed_later|done].
Qed.
End read_your_write.

Section theorem.
Context {K V P T : Type} `{!Key K} `{!CachePolicy P K V} `{HT : !CacheTier V T} `{HL : !TierLaws V T}.

(** What a program run alone returns, and the world it leaves, while nothing
    written under the contexts has outlived its TTL, which the clock decides. *)
Lemma run_live {A} (p : prog T A) (Q : A -> World T -> Prop) (pre : Instant -> World T -> Prop)
    (ctxs : list CacheContext) (clock : nat -> Instant) (pc : nat -> pace) (n : nat) (w w' : World T) (a : A) :
  (forall m, (clock m <= clock (S m))%Z) -> (forall m, (0 <= clock m <= U64_MAX)%Z) ->
  (forall ctx d, ctx ∈ ctxs -> ctx_ttl ctx = Some d ->
     (0 <= d < W64)%Z /\ forall m, n <= m -> (clock m - clock n < d)%Z) ->
  htriple pre p (fun r t w => (forall ctx, ctx ∈ ctxs -> still_live ctx (clock n) t) -> Q r w) ->
  pre (clock n) w -> run (alone clock pc) n p w = (Some a, w') -> Q a w'.
Proof.
  intros Hclock Hrange Httl H Hpre Hrun.
  assert (Hwp : wp _ _ _ _) by exact (H (clock n) w Hpre).
  destruct (wp_run _ _ clock pc n (clock n) w Hclock (Z.le_refl _) Hwp) as (m & Hm & HQ).
  rewrite Hrun in HQ. apply HQ. clear HQ Hrun H Hwp. intros ctx Hctx.
  assert (Hj : exists j, n <= j /\ m = clock j) by (destruct Hm as [->|Hj]; [by exists n|done]).
  destruct Hj as (j & Hnj & ->). split_and!; [apply Hrange|apply Hrange|].
  unfold ttl_live. destruct (ctx_ttl ctx) as [d|] eqn:Hd; [|done].
  destruct (Httl ctx d Hctx Hd) as [Hd' Hlive].
  assert (clock n <= clock j)%Z.
  { clear - Hclock Hnj. induction Hnj as [|j _ IH]; [lia|]. specialize (Hclock j). lia. }
  specialize (Hlive j Hnj). unfold elapsed. lia.
Qed.

(** One TTL that outlasts the run, as a list of contexts. *)
Lemma one_context (ctx : CacheContext) (phi : Duration -> Prop) :
  (forall d, ctx_ttl ctx = Some d -> phi d) ->
  forall c d, c ∈ [ctx] -> ctx_ttl c = Some d -> phi d.
Proof. intros H c d ->%list_elem_of_singleton. apply H. Qed.

(** C4. A committed write is read back. Run with nobody else, from any
    well-formed world: when [set] returns [Ok] -- at whatever rung the policy
    chose, after however many rungs that refused it, evictions and timeouts --
    a [get] of the same key that follows within the TTL returns exactly the
    value written, or reports that the rung did not answer in time. It is
    never a miss, another value or another error. *)
Theorem committed_write_is_read_back (self : CacheManager P) (key : K) (v : V) (ctx : CacheContext)
    (clock : nat -> Instant) (pc : nat -> pace) (n : nat) (w : World T) (kb : bytes)
    (g : res (option V))
    (Hclock : forall m, (clock m <= clock (S m))%Z)
    (Hrange : forall m, (0 <= clock m <= U64_MAX)%Z)
    (Httl : forall d, ctx_ttl ctx = Some d ->
       (0 <= d < W64)%Z /\ forall m, n <= m -> (clock m - clock n < d)%Z)
    (Hok : world_ok w)
    (Hkey : encode_key key ctx = Ok kb)
    (Hauth : is_authenticated ctx = true)
    (Hallowed : pd_authorized (resolve (V := V) self (request_for OpGet key ctx) ctx) = true)
    (Hrun : fst (run (alone clock pc) n
                   (let! s := set self key v ctx in let! r := get self key ctx in Ret (s, r)) w)
            = Some (Ok tt, g)) :
  g = Ok (Some v) \/ g = Err Timeout.
Proof.
  set (pl := c_placement (w_ctl w)).
  assert (Hd : forall d, ctx_ttl ctx = Some d -> (0 <= d < W64)%Z) by (intros d Hd; by apply Httl).
  destruct (run (alone clock pc) n _ w) as [r w'] eqn:Hr. cbn in Hrun. subst r.
  refine (run_live _ (fun r _ => fst r = Ok tt -> snd r = Ok (Some v) \/ snd r = Err Timeout)
           (kept pl (clock n)) [ctx] clock pc n w w' _ Hclock Hrange (one_context _ _ Httl) _
           (conj (Z.le_refl _) (conj Hok eq_refl)) Hr eq_refl).
  eapply h_bind; [by apply (h_set self kb pl v ctx (clock n) Hd)|].
  intros [[]|e]; cbn beta.
  - intros t1 w1 [Hk Hc].
    apply (h_bind _ _ (fun r t _ => still_live ctx (clock n) t -> r = Ok (Some v) \/ r = Err Timeout)
             _ (fun r t _ => (forall c, c ∈ [ctx] -> still_live c (clock n) t) -> fst r = Ok tt ->
                             snd r = Ok (Some v) \/ snd r = Err Timeout)
             (h_get self kb pl v ctx (clock n) Hd key ctx Hkey Hauth Hallowed)); [|by split; [|apply Hc]].
    intros r. apply h_ret. intros t w0 Hl Hall _. apply Hl, Hall. by left.
  - apply (h_bind _ _ (fun _ _ _ => True)); [by apply h_trivial|]. intros r. by apply h_ret.
Qed.
End theorem.

Lemma committed_write_is_read_back_witness :
  let _ : DefaultHasher := fun _ => 0%Z in
  let read : res (option bytes) := Ok (Some [1%Z; 2%Z]) in
  read = Ok (Some [1%Z; 2%Z]) \/ read = Err Timeout.
Proof.
  intros hasher read.
  apply (committed_write_is_read_back demo_manager [107%Z] [1%Z; 2%Z] demo_ctx
           (fun _ => 5%Z) (fun _ => OnTime) 0 (demo_world demo_plane) [0%Z; 107%Z]).
  - intros m. lia.
  - intros m. unfold U64_MAX, W64. lia.
  - discriminate.
  - apply demo_world_ok, with_placement_ok.
  - vm_compute. reflexivity.
  - reflexivity.
  - reflexivity.
  - vm_compute. reflexivity.
Defined.
