(* ===== verification/Reads.v ===== *)
(** * What a read answers, on every path

    A reference definition of [CacheManager::get] of [src/manager.rs], one
    straight line, and its equivalence with the program: what is returned, what
    is left of the world, and what is recorded. *)

From S2P Require Import Prelude Entry Integrity Key Tier Continuity Policy TierTrait Telemetry.
From S2P Require Import Pool FixedTier ShardedTier Stubs ControlEntry Shard Cachelito Plane Protocol Commit.
From S2P Require Import Prog Manager Steps Guarantee.

(** What the circuit breaker makes of a rung's answer. *)
Definition breaker {A} (now : Instant) (rung : TierId) (r : res A) (reg : TierRegistry) : TierRegistry :=
  match r with
  | Ok _ => registry_recover reg rung
  | Err TierUnavailable => registry_fail now reg rung
  | Err _ => reg
  end.

(** A bounded call: an answer that is late is a timeout, whether or not the call
    had its effect. *)
Definition answered {T B} (p : pace) (call : World T -> res B * World T) (w : World T) : res B * World T :=
  match p with
  | OnTime => call w
  | LateApplied | DroppedApplied => (Err Timeout, snd (call w))
  | LateLost | DroppedLost => (Err Timeout, w)
  end.

(** What is recorded of an answer. *)
Definition outcome_of {A} (r : res (option A)) : Outcome :=
  match r with Ok (Some _) => OutServed | Ok None => OutMiss | Err e => Outcome_from_error e end.

Section reference.
Context {K V P T : Type} `{!Key K} `{!CachePolicy P K V} `{!CacheTier V T}.
Context (self : CacheManager P) (clock : nat -> Instant) (pc : nat -> pace).

(** The result, the world (the telemetry sink aside), the outcome recorded. *)
Record read_report : Type := mkRead {
  rd_result : res (option V);
  rd_world : World T;
  rd_outcome : option Outcome
}.

Definition refused_read (e : CacheError) (w : World T) : read_report := mkRead (Err e) w (Some (Outcome_from_error e)).
Definition missed_read (w : World T) : read_report := mkRead (Err Miss) w (Some OutMiss).

(** A read of framed bytes: the entry decides. *)
Definition framed_read (n : nat) (kb : bytes) (w : World T) : read_report :=
  match view (w_ctl w) (address_of (w_ctl w) kb) with
  | None => missed_read w
  | Some e =>
      match state e with
      | Ready =>
          if is_expired (clock (S n)) e
          then missed_read (set_ctl (snd (plane_set_state kb Stale (w_ctl w))) w)
          else if has_tier w (tier e) then
            let '(r, w') := answered (pc (4 + n)) (get_at (tier e) kb (clock (4 + n))) w in
            mkRead r (set_reg (breaker (clock (6 + n)) (tier e) r (w_reg w')) w') (Some (outcome_of r))
          else refused_read TierUnavailable w
      | InFlight | Prepared => if is_population_owner e then missed_read w else mkRead (Err Timeout) w None
      | Absent | Stale | Failed => missed_read w
      end
  end.

Definition reference_get (n : nat) (key : K) (ctx : CacheContext) (w : World T) : read_report :=
  match encode_key key ctx with
  | Err e => mkRead (Err e) w None
  | Ok kb =>
      if negb (is_authenticated ctx) then refused_read Unauthenticated w
      else if negb (pd_authorized (resolve (V := V) self (request_for OpGet key ctx) ctx))
      then refused_read Unauthorized w
      else framed_read n kb w
  end.

(** A run that came to its end with this report. *)
Definition reported (rd : read_report) (w : World T) (out : option (res (option V)) * World T) : Prop :=
  fst out = Some (rd_result rd) /\
  set_sink [] (snd out) = set_sink [] (rd_world rd) /\
  match rd_outcome rd with
  | None => w_sink (snd out) = w_sink w
  | Some o => exists record, w_sink (snd out) = w_sink w ++ [record] /\ or_outcome record = o
  end.

Lemma reported_control_only n kb rung started o e w w0 :
  w_sink w = w_sink w0 ->
  reported (mkRead (Err e) w (Some o)) w0
    (run (alone clock pc) n (control_only_then (A := option V) kb rung started o e) w).
Proof.
  intros Hs. split_and!; [done|done|]. cbn. rewrite Hs. by eexists.
Qed.

Lemma not_dropped n m : ~ dropped (T := T) (alone clock pc) n -> (n <= m)%nat -> pc m <> DroppedLost /\ pc m <> DroppedApplied.
Proof. intros Hd Hm. split; intros Hp; apply Hd; exists m; auto. Qed.

Lemma bounded_answer {A B} n m armed (call : Instant -> World T -> res A * World T) (k : res A -> prog T B) w :
  ~ dropped (T := T) (alone clock pc) n -> (n <= m)%nat ->
  run (alone clock pc) m (Await armed true call k) w =
  run (alone clock pc) (S m) (k (fst (answered (pc m) (call (clock m)) w))) (snd (answered (pc m) (call (clock m)) w)).
Proof.
  intros Hd Hm. destruct (not_dropped n m Hd Hm). cbn.
  destruct (call (clock m) w) as [r w'] eqn:Hc. by destruct (pc m); cbn; rewrite ?Hc.
Qed.

(** Somebody has the claim but not the owner's flag: alone, nobody wakes the
    reader up. *)
Lemma run_waiting n kb e w :
  plane_ok (w_ctl w) -> ~ dropped (T := T) (alone clock pc) n ->
  view (w_ctl w) (address_of (w_ctl w) kb) = Some e -> state e = InFlight \/ state e = Prepared ->
  run (alone clock pc) n (get_waiting (V := V) kb) w = (Some (Err Timeout), w).
Proof.
  intros Hok Hd Hv Hst. unfold get_waiting, wait_for_population. cbn -[wakeups]. rewrite peek_view, Hv by done.
  cbn [snap_state peek_entry snapshot_of].
  destruct (not_dropped n (S (S n)) Hd ltac:(lia)).
  destruct Hst as [-> | ->]; cbn -[wakeups Nat.ltb]; rewrite Nat.ltb_irrefl; by destruct (pc (S (S n))).
Qed.

Lemma run_step {B C} n (f : Instant -> World T -> B * World T) (k : B -> prog T C) w :
  run (alone clock pc) n (Step f k) w =
  run (alone clock pc) (S n) (k (fst (f (clock n) w))) (snd (f (clock n) w)).
Proof. cbn. by destruct (f (clock n) w). Qed.

(** Take the next step. *)
Ltac step := unfold peek_at, emit, if_bound, ask; unfold atomically; cbn [bind]; rewrite run_step; cbn [fst snd].

(** A rung is asked: whatever it answers is what the reader is told. *)
Lemma run_asked n kb rung e w :
  plane_ok (w_ctl w) -> ~ dropped (T := T) (alone clock pc) n ->
  view (w_ctl w) (address_of (w_ctl w) kb) = Some e -> state e = Ready ->
  let '(r, w') := answered (pc (S n)) (get_at (V := V) rung kb (clock (S n))) w in
  reported (mkRead r (set_reg (breaker (clock (3 + n)) rung r (w_reg w')) w') (Some (outcome_of r))) w
    (run (alone clock pc) n
       (let! result := observed_read TGet kb rung [] in
        let! _ := record_outcome rung result in
        if is_ok result then
          let! after := peek_at kb in
          match after with
          | Ok a => if bool_decide (snap_state a = Ready) then Ret result else Ret (Err Miss)
          | Err _ => Ret result
          end
        else Ret result) w).
Proof.
  intros Hok Hd Hv Hst. unfold observed_read, read_clock, await. step. rewrite (bounded_answer n) by (done || lia).
  assert (Hctl : w_ctl (snd (answered (pc (S n)) (get_at (V := V) rung kb (clock (S n))) w)) = w_ctl w).
  { destruct (pc (S n)); cbn; try done; apply on_slot_tiers. }
  assert (Hsink : w_sink (snd (answered (pc (S n)) (get_at (V := V) rung kb (clock (S n))) w)) = w_sink w).
  { destruct (pc (S n)); cbn; try done; apply on_slot_sink. }
  destruct (answered _ _ _) as [r w']. cbn [fst snd] in *. step.
  match goal with |- context [set_sink (?s ++ [?x]) w'] => set (record := x) end.
  unfold record_outcome. step.
  match goal with |- context [run _ (S (S (S (S n)))) _ (snd ?x)] => set (w2 := snd x) end.
  assert (Hw2 : w2 = set_reg (breaker (clock (3 + n)) rung r (w_reg w')) (set_sink (w_sink w' ++ [record]) w')).
  { subst w2. destruct r as [v|[]]; by destruct w'. }
  clearbody w2. subst w2.
  match goal with |- context [run _ _ _ ?x] => set (w2 := x) end.
  assert (Hend : reported (mkRead r (set_reg (breaker (clock (3 + n)) rung r (w_reg w')) w') (Some (outcome_of r))) w
    (Some r, w2)).
  { split_and!; [done|done|]. exists record. rewrite <- Hsink. split; [done|]. subst record. by destruct r as [[]|]. }
  destruct (is_ok r); [|exact Hend]. step. rewrite peek_view by (by cbn; rewrite Hctl).
  cbn [w_ctl w2 set_reg set_sink]. rewrite Hctl, Hv. cbn [snap_state peek_entry snapshot_of].
  by rewrite Hst, bool_decide_true.
Qed.

(** From the peek on. *)
Lemma run_framed n kb started w :
  plane_ok (w_ctl w) -> ~ dropped (T := T) (alone clock pc) (S n) ->
  reported (framed_read n kb w) w
    (run (alone clock pc) (S n) (let!? s := peek_at kb in get_from (V := V) kb started s) w).
Proof.
  intros Hok Hd. unfold framed_read. step. rewrite peek_view by done.
  set (a := address_of (w_ctl w) kb).
  destruct (view (w_ctl w) a) as [e|] eqn:Hv.
  2:{ by apply reported_control_only. }
  unfold get_from. cbn [snap_state snap_expired snap_population_owner snap_tier peek_entry snapshot_of].
  destruct (state e) eqn:Hst; try (by apply reported_control_only).
  - destruct (is_expired (clock (S n)) e); cbn [negb].
    + cbn. destruct (plane_set_state kb Stale (w_ctl w)). by apply reported_control_only.
    + unfold get_ready. step. cbn [snap_tier peek_entry snapshot_of]. destruct (has_tier w (tier e)).
      * pose proof (run_asked (3 + n) kb (tier e) e w Hok) as H. cbn [Nat.add] in H |- *.
        destruct (answered _ _ w). apply H; [|done|done]. intros Hdr. by do 2 apply dropped_later in Hdr.
      * by apply reported_control_only.
  - destruct (is_population_owner e); cbn [negb]; [by apply reported_control_only|].
    by erewrite run_waiting; eauto using dropped_later.
  - destruct (is_population_owner e); cbn [negb]; [by apply reported_control_only|].
    by erewrite run_waiting; eauto using dropped_later.
Qed.

(** C5. A read answers what its reference definition answers. Run with nobody
    else, from any well-formed plane and at any pace that does not drop it,
    [get] is [reference_get] on every path: an unframable key, an
    unauthenticated or unauthorised caller, an absent, failed, stale or claimed
    entry, an expired one -- which is marked stale -- and one on an unbound rung
    each have their own error and leave everything else as it was; of a fresh
    committed entry the reader is told exactly what the rung said, a value as
    that value, damage as [Corrupted] and absence as absence, or [Timeout] when
    it said it too late; the rung's circuit breaker sees that answer, and one
    record with the matching outcome is emitted. *)
Theorem get_equals_its_reference (n : nat) (key : K) (ctx : CacheContext) (w : World T)
    (Hok : plane_ok (w_ctl w)) (Hd : ~ dropped (T := T) (alone clock pc) n) :
  reported (reference_get n key ctx w) w (run (alone clock pc) n (get self key ctx) w).
Proof.
  unfold get, reference_get, check_auth, authorize, read_clock. step.
  destruct (encode_key key ctx) as [kb|e]; [|done].
  destruct (is_authenticated ctx); cbn [negb]; [|by apply reported_control_only].
  destruct (pd_authorized _); cbn [negb]; [|by apply reported_control_only].
  apply run_framed; [done|]. intros Hdr. by apply dropped_later in Hdr.
Qed.
End reference.

(** A committed entry with its value on its rung: read in time, and too late. *)
Section demo.
#[local] Existing Instance demo_hasher.

Definition demo_committed_plane : Cachelito :=
  plane_exec (plane_exec demo_plane (PoAcquire 0 [0%Z; 107%Z] L1)) (PoPublish 0 [0%Z; 107%Z] 1 L1 (Some 50%Z)).

Definition demo_stored : World (L1Stub bytes) :=
  snd (set_at L1 [0%Z; 107%Z] [1%Z; 2%Z] None 0%Z (demo_world demo_committed_plane)).

Lemma get_equals_its_reference_witness :
  fst (run demo_env 0 (get demo_manager [107%Z] demo_ctx) demo_stored) = Some (Ok (Some [1%Z; 2%Z])) /\
  fst (run (alone (fun n => Z.of_nat n) (fun _ => LateLost)) 0 (get (V := bytes) demo_manager [107%Z] demo_ctx)
         demo_stored) = Some (Err Timeout).
Proof.
  assert (Hok : plane_ok (w_ctl demo_stored)) by (do 2 apply plane_exec_spec; apply with_placement_ok).
  split.
  - destruct (get_equals_its_reference demo_manager (fun n => Z.of_nat n) (fun _ => OnTime) 0
      [107%Z] demo_ctx demo_stored Hok) as [H _].
    + intros (m & _ & [Hp|Hp]); discriminate Hp.
    + etransitivity; [exact H|]. vm_compute. reflexivity.
  - destruct (get_equals_its_reference demo_manager (fun n => Z.of_nat n) (fun _ => LateLost) 0
      [107%Z] demo_ctx demo_stored Hok) as [H _].
    + intros (m & _ & [Hp|Hp]); discriminate Hp.
    + etransitivity; [exact H|]. vm_compute. reflexivity.
Defined.
End demo.
