(* ===== verification/Moves.v ===== *)
(** * Moving an entry between rungs

    [promote] and [demote] of [src/manager.rs] end to end: the value survives
    every successful move, and what a move does to its time to live. *)

From stdpp Require Import relations.
From S2P Require Import Prelude Entry Integrity Key Tier Continuity Policy TierTrait Telemetry.
From S2P Require Import Pool FixedTier ShardedTier Stubs ControlEntry Shard Cachelito Plane Protocol.
From S2P Require Import Commit Prog Manager Steps Guarantee ReadYourWrite.

(** ** Sequences of moves *)

Inductive direction : Type := Up | Down.

Section program.
Context {K V P T : Type} `{!Key K} `{!CachePolicy P K V} `{!CacheTier V T}.
Variable self : CacheManager P.

Definition move (d : direction) (key : K) (ctx : CacheContext) : prog T (res unit) :=
  match d with Up => promote self key ctx | Down => demote self key ctx end.

(** Every move in turn, each under the context it is requested with; [Ok] when
    all of them succeed. *)
Fixpoint moves (ms : list (direction * CacheContext)) (key : K) : prog T (res unit) :=
  match ms with
  | [] => Ret (Ok tt)
  | (d, ctx) :: ms => let!? _u := move d key ctx in moves ms key
  end.
End program.

Section keep.
Context {K V P T : Type} `{!Key K} `{!CachePolicy P K V} `{HT : !CacheTier V T} `{HL : !TierLaws V T}.
Variable self : CacheManager P.
Context (kb : bytes) (pl : Placement) (v : V) (t0 : Instant) (key : K).

(** The contexts of the write and of the moves; they name the same key. *)
Variable ctxs : list CacheContext.
Hypothesis Httl : forall ctx d, ctx ∈ ctxs -> ctx_ttl ctx = Some d -> (0 <= d < W64)%Z.
Hypothesis Hkey : forall ctx, ctx ∈ ctxs -> encode_key key ctx = Ok kb.

Abbreviation kept := (kept pl t0).
Abbreviation written ctx := (written kb v ctx t0).

(** No TTL among theirs has run out. *)
Definition live (t : Instant) : Prop := forall ctx, ctx ∈ ctxs -> still_live ctx t0 t.

(** The value is committed under the TTL of one of them. *)
Definition committed (t : Instant) (w : World T) : Prop :=
  exists ctx, ctx ∈ ctxs /\ ReadYourWrite.committed kb pl v ctx t0 t w.

#[local] Instance live_dec t : Decision (live t).
Proof.
  refine (cast_if (decide (Forall (fun ctx => still_live ctx t0 t) ctxs))); unfold live;
    by rewrite <- Forall_forall.
Defined.

Lemma live_vacuous {A} now (w : World T) (p : prog T A) (Q : option A -> Instant -> World T -> Prop) :
  (t0 <= now)%Z -> ~ live now -> (forall o m w', ~ live m -> Q o m w') -> wp p Q now w.
Proof.
  intros Ht Hn HQ. apply wp_always. intros o m w' Hm. apply HQ. intros Hl. apply Hn.
  intros ctx Hctx. by apply (still_live_earlier ctx t0 now m), Hl.
Qed.

(** Success leaves the value committed, for as long as it lives. *)
Definition moved (r : res unit) (t : Instant) (w : World T) : Prop :=
  kept t w /\ (r = Ok tt -> live t -> committed t w).

Lemma moved_failed e t w : kept t w -> moved (Err e) t w.
Proof. by split. Qed.

(** The guarantee's steps on another rung leave the stored value alone. *)
Lemma written_elsewhere ctx rung slot t now (w : World T) {B} (op : T -> res B * T) :
  (t <= now)%Z -> slot <> as_usize rung -> written ctx rung t w ->
  written ctx rung now (snd (on_slot slot op w)).
Proof.
  intros Hn Hne (tr0 & tr & at_ & Hat & Hok & Hset & Hi). exists tr0, tr, at_.
  split_and!; try done; [lia..|]. unfold on_slot.
  destruct (w_tiers w !! slot); [|done]. destruct (op _). cbn.
  by rewrite list_lookup_insert_ne.
Qed.

(** A step of the control plane leaves the tiers alone. *)
Lemma h_ctl_written {B} ctx rung (op : Instant -> Cachelito -> B * Cachelito) :
  htriple (written ctx rung) (ctl op) (fun _ => written ctx rung).
Proof.
  apply h_step. intros t now w Hw Hn. destruct (op now (w_ctl w)) as [b c].
  by apply (written_later kb v ctx t0 rung t now w).
Qed.

Lemma h_remove_elsewhere ctx armed bounded from to :
  from <> to ->
  htriple (written ctx to) (await armed bounded (remove_at from kb)) (fun _ => written ctx to).
Proof.
  intros Hne. apply h_await. intros t now w Hw Hn.
  assert (Hslot : as_usize from <> as_usize to) by (by destruct from, to).
  assert (written ctx to now w) by (by apply (written_later kb v ctx t0 to t now w w)).
  assert (written ctx to now (snd (remove_at from kb now w))) by (by apply (written_elsewhere ctx to _ t)).
  by split_and!.
Qed.
(** ** One move *)

Lemma h_abort_with token e :
  tok_address token = own_address kb pl -> htriple kept (abort_with token e) moved.
Proof.
  intros Ha. apply (h_bind _ _ (fun _ => kept)); [apply (h_kept kb pl t0); by apply r_abort_here|]. intros _.
  apply h_ret. intros t w. apply moved_failed.
Qed.

Hint Resolve own_guard_intent : steps.

Lemma h_move_value ctx from to token :
  ctx ∈ ctxs -> tok_address token = own_address kb pl -> tok_target_tier token = as_u8 to ->
  is_cache_rung from = true -> is_cache_rung to = true -> from <> to ->
  htriple kept (move_value key kb from to token v ctx) moved.
Proof.
  intros Hctx Ha Ht Hf Hto Hne. unfold move_value. rewrite (Hkey ctx Hctx).
  eapply h_bind; [by apply h_observed_write|]. intros [[]|e]; cbn beta.
  - apply (h_bind _ _ (fun _ t w => kept t w /\ written ctx to t w)).
    { intros t w [Hw Hwr]. apply h_record_outcome. split; [done|by apply Hwr]. }
    intros _. apply (h_bind _ _ (fun _ t w => kept t w /\ written ctx to t w)).
    { apply h_and; [apply (h_kept kb pl t0); apply r_remove_at; auto with steps|by apply h_remove_elsewhere]. }
    intros r. apply (h_bind _ _ (fun _ t w => kept t w /\ written ctx to t w)); [apply h_record_outcome|].
    intros _. eapply h_bind; [apply h_commit; [by intros d; apply Httl|done|done]|].
    intros [[]|e]; cbn beta.
    + apply h_ret. intros t w [Hw Hc]. split; [done|]. intros _ _. exists ctx. split; [done|by apply Hc].
    + intros t w [Hw _]. revert t w Hw.
      match goal with |- forall t w, _ -> wp ?p _ t w => change (htriple kept p moved) end.
      apply (h_bind _ _ (fun _ => kept)); [apply (h_kept kb pl t0); apply r_remove_at; auto with steps|].
      intros _. by apply h_abort_with.
  - apply (h_pre kept); [by intros t w []|].
    apply (h_bind _ _ (fun _ => kept)); [apply (h_kept kb pl t0), r_record_outcome|]. intros _. by apply h_abort_with.
Qed.

(** The read at the source returns the value, or nothing that lives any more. *)
Lemma h_read_source ctx from token :
  ctx ∈ ctxs -> Forall (own_guard kb pl) [GIntent token] ->
  htriple (fun t w => kept t w /\ written ctx from t w)
    (await [GIntent token] true (get_at from kb))
    (fun r t w => kept t w /\ (live t -> r = Ok (Some v) \/ r = Err Timeout)).
Proof.
  intros Hctx Hg. apply h_await. intros t now w [Hk Hw] Hn.
  pose proof (kept_step pl t0 kb t now w _ Hn Hk (ms_get kb pl w now from)).
  pose proof (kept_later pl t0 t now w Hn Hk).
  split_and!; try done; [|by right..]. intros Hl. left.
  apply (written_read kb v ctx t0 (fun d => Httl ctx d Hctx) from t now w Hw Hn). by apply Hl.
Qed.

(** Once the value has outlived its TTL there is nothing left to keep. *)
Lemma h_dead (p : prog T (res unit)) :
  respects (placed pl) (rtc (manager_step kb pl)) p ->
  htriple (fun t w => kept t w /\ ~ live t) p moved.
Proof.
  intros Hp t w [Hk Hd].
  apply (h_and kept (fun t _ => (t0 <= t)%Z /\ ~ live t) p (fun _ => kept)
           (fun r t w => r = Ok tt -> live t -> committed t w)); [by apply (h_kept kb pl t0)| |].
  - clear t w Hk Hd. intros t w [Ht Hd]. apply live_vacuous; [done|done|]. by intros [r|].
  - split; [done|]. split; [by destruct Hk|done].
Qed.

Lemma h_move_entry ctx0 ctx s to :
  ctx0 ∈ ctxs -> ctx ∈ ctxs -> is_cache_rung (snap_tier s) = true -> is_cache_rung to = true -> snap_tier s <> to ->
  htriple (fun t w => kept t w /\ written ctx0 (snap_tier s) t w) (move_entry key kb s to ctx) moved.
Proof.
  intros Hctx0 Hctx Hf Hto Hne. unfold move_entry.
  apply (h_bind _ _ (fun r t w => match r with
    | Ok token => (tok_address token = own_address kb pl /\ tok_target_tier token = as_u8 to) /\
                  kept t w /\ written ctx0 (snap_tier s) t w
    | Err _ => kept t w
    end)).
  { eapply h_conseq; [|apply h_and; [apply (h_prepare kb pl t0 to Move)|apply h_ctl_written]].
    intros [token|e] t w [H Hw]; [by destruct H|done]. }
  intros [token|e]; [|apply h_ret; intros t w; apply moved_failed]. cbn beta.
  apply h_pure. intros [Ha Ht]. cbn zeta.
  assert (Hun : htriple (fun t w => kept t w /\ written ctx0 (snap_tier s) t w)
    (let! _ := drop_here (GIntent token) in Ret (Err TierUnavailable)) moved).
  { apply (h_pre kept); [by intros t w []|].
    apply (h_bind _ _ (fun _ => kept)); [apply (h_kept kb pl t0); by apply r_drop_intent|]. intros _.
    apply h_ret. intros t w. apply moved_failed. }
  assert (Hmono : forall t t' w, (t <= t')%Z -> kept t w /\ written ctx0 (snap_tier s) t w ->
                                kept t' w /\ written ctx0 (snap_tier s) t' w).
  { intros t t' w Hn [Hk Hw]. split; [by eapply kept_later|].
    by apply (written_later kb v ctx0 t0 _ t t' w w). }
  apply h_if_bound; [done|done|]. apply h_if_bound; [done|done|].
  eapply h_bind; [apply (h_read_source ctx0); [done|by repeat constructor]|]. intros r t w [Hk Hr]. cbn beta.
  destruct (decide (live t)) as [Hl|Hl].
  - destruct (Hr Hl) as [-> | ->]; [by apply (h_move_value ctx)|by apply h_abort_with].
  - apply h_dead; [|done]. destruct r as [[v'|]|e]; [apply r_move_value|apply r_abort_with..]; try done.
    intros b. by rewrite (Hkey ctx Hctx); intros [= ->].
Qed.

Lemma h_peek_committed :
  htriple (fun t w => kept t w /\ committed t w) (peek_at kb)
    (fun r t w => (kept t w /\ committed t w) /\
       exists s ctx, ctx ∈ ctxs /\ r = Ok s /\ written ctx (snap_tier s) t w).
Proof.
  apply h_step. intros t now w [Hk (ctx & Hctx & Hc)] Hn.
  apply (committed_later kb pl v ctx t0 t now w Hn) in Hc.
  apply (kept_later pl t0 t now w Hn) in Hk. split; [split; [done|by exists ctx]|].
  destruct Hk as (_ & Hok & Hpl), Hc as (rung & e & Hw & Hv & _ & <- & _).
  exists (peek_entry now e), ctx. cbn [fst snd]. rewrite peek_view by apply Hok.
  by rewrite (own_address_of kb pl w Hpl), Hv.
Qed.

Lemma h_try_move ctx op (stay : TierId -> bool) (target : TierId -> option TierId) :
  ctx ∈ ctxs ->
  (forall from to, is_cache_rung from = true -> stay from = false -> target from = Some to ->
     is_cache_rung to = true /\ from <> to) ->
  htriple (fun t w => kept t w /\ committed t w)
    (let!? _d := Ret (allowed (V := V) self op key ctx) in
     let!? kb := Ret (encode_key key ctx) in
     let!? s := peek_at kb in
     if negb (bool_decide (snap_state s = Ready)) then Ret (Err Miss)
     else if negb (is_cache_rung (snap_tier s)) || stay (snap_tier s) then Ret (Ok tt)
     else match target (snap_tier s) with
          | None => Ret (Err ConfigurationError)
          | Some to => move_entry (V := V) key kb s to ctx
          end) moved.
Proof.
  intros Hctx Hto. cbn [bind]. destruct (allowed self op key ctx); [|by apply h_ret; intros t w []].
  rewrite (Hkey ctx Hctx). eapply h_bind; [apply h_peek_committed|].
  intros [s|e]; [|by intros t w (_ & s & ? & _ & ? & _)].
  intros t w ((Hk & Hc) & s' & ctx0 & Hctx0 & [= <-] & Hw). revert t w Hk Hc Hw.
  destruct (negb (bool_decide _)); [by intros t w Hk _ _|].
  destruct (is_cache_rung (snap_tier s)) eqn:Hf; cbn [negb orb]; [|by intros t w Hk Hc _].
  destruct (stay (snap_tier s)) eqn:Hs; [by intros t w Hk Hc _|].
  destruct (target (snap_tier s)) as [to|] eqn:Ht; [|by intros t w Hk _ _].
  destruct (Hto _ _ Hf Hs Ht). intros t w Hk _ Hw. by apply (h_move_entry ctx0).
Qed.

Lemma h_move d ctx :
  ctx ∈ ctxs -> htriple (fun t w => kept t w /\ committed t w) (move self d key ctx) moved.
Proof.
  intros Hctx. destruct d; cbn [move].
  - apply (h_try_move ctx OpPromote (fun t => as_usize t =? 0) (fun t => from_usize (as_usize t - 1)));
      [done|].
    intros from to Hf Hs Ht. by destruct from; simplify_eq/=; split.
  - apply (h_try_move ctx OpDemote (fun t => as_usize LAST_CACHE_TIER <=? as_usize t)
             (fun t => from_usize (as_usize t + 1))); [done|].
    intros from to Hf Hs Ht. by destruct from; simplify_eq/=; split.
Qed.

Lemma h_moves ms :
  (forall m, m ∈ ms -> snd m ∈ ctxs) ->
  htriple (fun t w => kept t w /\ committed t w) (moves self ms key) moved.
Proof.
  induction ms as [|[d ctx] ms IH]; intros Hms; cbn [moves].
  - apply h_ret. by intros t w [Hk Hc].
  - pose proof (Hms _ (list_elem_of_here _ _)) as Hctx. cbn in Hctx.
    assert (Hrest : forall m, m ∈ ms -> snd m ∈ ctxs) by (intros m Hm; apply Hms; by right).
    eapply h_bind; [by apply h_move|]. intros [[]|e]; cbn beta.
    + intros t w [Hk Hc]. destruct (decide (live t)) as [Hl|Hl]; [apply IH; auto|].
      apply h_dead; [|done]. clear - Hkey Hrest. induction ms as [|[d ctx] ms IH]; cbn [moves]; [done|].
      apply respects_bind; [|intros [[]|e]; [apply IH; intros m Hm; apply Hrest; by right|done]].
      pose proof (Hkey ctx (Hrest _ (list_elem_of_here _ _))) as Hk.
      destruct d; [apply r_promote|apply r_demote]; intros b; rewrite Hk; by intros [= ->].
    + apply h_ret. by intros t w [Hk _].
Qed.

(** The reader's own context, which names the same key. *)
Variable rctx : CacheContext.
Hypothesis Hread : encode_key key rctx = Ok kb.
Hypothesis Hauth : is_authenticated rctx = true.
Hypothesis Hallowed : pd_authorized (resolve (V := V) self (request_for OpGet key rctx) rctx) = true.

Lemma h_moves_get {A} ms (k : res unit -> res (option V) -> A) (Q : A -> Prop) :
  (forall m, m ∈ ms -> snd m ∈ ctxs) ->
  (forall m r, (m = Ok tt -> r = Ok (Some v) \/ r = Err Timeout) -> Q (k m r)) ->
  htriple (fun t w => kept t w /\ committed t w)
    (let! m := moves self ms key in let! r := get self key rctx in Ret (k m r))
    (fun a t _ => live t -> Q a).
Proof.
  intros Hms HQ. eapply h_bind; [by apply h_moves|]. intros m t w [Hk Hc].
  assert (Hdone : (m = Ok tt -> committed t w) \/ ~ live t).
  { destruct (decide (live t)) as [Hl|Hl]; [left; auto|by right]. }
  destruct Hdone as [Hcm|Hl].
  2: { apply live_vacuous; [by destruct Hk|done|]. by intros [a|]. }
  destruct m as [[]|e].
  - destruct (Hcm eq_refl) as (ctx & Hctx & Hcv).
    assert (H : htriple (fun t w => kept t w /\ ReadYourWrite.committed kb pl v ctx t0 t w)
      (let! r := get self key rctx in Ret (k (Ok tt) r)) (fun a t _ => live t -> Q a)); [|by apply H].
    eapply h_bind; [apply (h_get self kb pl v ctx t0 (fun d => Httl ctx d Hctx) key rctx Hread Hauth Hallowed)|].
    intros r. apply h_ret. intros t2 w2 Hr Hl. apply HQ. intros _. by apply Hr, Hl.
  - assert (H : htriple (fun _ _ => True)
      (let! r := get self key rctx in Ret (k (Err e) r)) (fun a t _ => live t -> Q a)); [|by apply H].
    apply (h_bind _ _ (fun _ _ _ => True)); [by apply h_trivial|]. intros r. apply h_ret. intros t2 w2 _ _. by apply HQ.
Qed.
End keep.

Section theorem.
Context {K V P T : Type} `{!Key K} `{!CachePolicy P K V} `{HT : !CacheTier V T} `{HL : !TierLaws V T}.

(** C7. Moving an entry keeps its value. Run with nobody else, from any
    well-formed world, at any pace: after a [set] that returned [Ok] and any
    sequence of promotions and demotions that all returned [Ok], up and down
    the ladder, each requested under its own context and so with its own TTL,
    a [get] under any context that may read the key returns exactly the value
    written, or reports that the rung did not answer in time -- as long as no
    TTL given by the write or by one of the moves has run out since the run
    began. *)
Theorem moves_keep_the_value (self : CacheManager P) (key : K) (v : V) (ctx rctx : CacheContext)
    (ms : list (direction * CacheContext)) (clock : nat -> Instant) (pc : nat -> pace) (n : nat)
    (w : World T) (kb : bytes) (g : res (option V))
    (Hclock : forall m, (clock m <= clock (S m))%Z)
    (Hrange : forall m, (0 <= clock m <= U64_MAX)%Z)
    (Httl : forall c d, c ∈ ctx :: map snd ms -> ctx_ttl c = Some d ->
       (0 <= d < W64)%Z /\ forall m, n <= m -> (clock m - clock n < d)%Z)
    (Hok : world_ok w)
    (Hkey : forall c, c ∈ rctx :: ctx :: map snd ms -> encode_key key c = Ok kb)
    (Hauth : is_authenticated rctx = true)
    (Hallowed : pd_authorized (resolve (V := V) self (request_for OpGet key rctx) rctx) = true)
    (Hrun : fst (run (alone clock pc) n
                   (let! s := set self key v ctx in let! m := moves (V := V) self ms key in
                    let! r := get self key rctx in Ret (s, m, r)) w)
            = Some (Ok tt, Ok tt, g)) :
  g = Ok (Some v) \/ g = Err Timeout.
Proof.
  set (pl := c_placement (w_ctl w)). set (ctxs := ctx :: map snd ms) in *.
  assert (Hctx : ctx ∈ ctxs) by left.
  assert (Hd : forall c d, c ∈ ctxs -> ctx_ttl c = Some d -> (0 <= d < W64)%Z)
    by (intros c d Hc Hd; by apply (Httl c d)).
  assert (Hkeys : forall c, c ∈ ctxs -> encode_key key c = Ok kb) by (intros c Hc; apply Hkey; by right).
  assert (Hms : forall m, m ∈ ms -> snd m ∈ ctxs)
    by (intros m Hm; right; apply list_elem_of_fmap; by exists m).
  destruct (run (alone clock pc) n _ w) as [r w'] eqn:Hr. cbn in Hrun. subst r.
  refine (run_live _ (fun r _ => r.1.1 = Ok tt -> r.1.2 = Ok tt -> r.2 = Ok (Some v) \/ r.2 = Err Timeout)
           (kept pl (clock n)) ctxs clock pc n w w' _ Hclock Hrange Httl _
           (conj (Z.le_refl _) (conj Hok eq_refl)) Hr eq_refl eq_refl).
  eapply h_bind; [by apply (h_set self kb pl v ctx (clock n) (fun d => Hd ctx d Hctx) key (Hkeys ctx Hctx))|].
  intros [[]|e]; cbn beta.
  - intros t1 w1 [Hk Hc].
    apply (h_moves_get self kb pl v (clock n) key ctxs Hd Hkeys rctx
             (Hkey rctx (list_elem_of_here _ _)) Hauth Hallowed ms (fun m r => (Ok tt, m, r))
             (fun r => r.1.1 = Ok tt -> r.1.2 = Ok tt -> r.2 = Ok (Some v) \/ r.2 = Err Timeout) Hms);
      [cbn; auto|]. split; [done|]. exists ctx. split; [done|by apply Hc].
  - repeat (apply (h_bind _ _ (fun _ _ _ => True)); [by apply h_trivial|]; intros ?). by apply h_ret.
Qed.
End theorem.

(** Committed at [L1] for a hundred units, demoted twice under other TTLs,
    promoted three times under none, read at [L0]. *)
Lemma moves_keep_the_value_witness :
  let _ : DefaultHasher := fun _ => 0%Z in
  let read : res (option bytes) := Ok (Some [1%Z; 2%Z]) in
  read = Ok (Some [1%Z; 2%Z]) \/ read = Err Timeout.
Proof.
  intros hasher read.
  apply (moves_keep_the_value demo_manager [107%Z] [1%Z; 2%Z] (with_ttl demo_ctx 100) demo_ctx
           [(Down, with_ttl demo_ctx 50); (Down, with_ttl demo_ctx 200); (Up, demo_ctx); (Up, demo_ctx);
            (Up, demo_ctx)]
           (fun m => Z.min (Z.of_nat m) 40) (fun _ => OnTime) 0 (demo_world demo_plane) [0%Z; 107%Z]).
  - intros m. lia.
  - intros m. unfold U64_MAX, W64. lia.
  - intros c d Hc Hd. cut ((50 <= d < W64)%Z); [intros Hb; split; [lia|intros m _; lia]|].
    revert d Hd. unfold W64. cbn [map snd] in Hc. rewrite !elem_of_cons, elem_of_nil in Hc.
    destruct Hc as [->|[->|[->|[->|[->|[->|[]]]]]]]; cbn; by intros d [= <-].
  - apply demo_world_ok, with_placement_ok.
  - intros c Hc. cbn [map snd] in Hc. rewrite !elem_of_cons, elem_of_nil in Hc.
    destruct Hc as [->|[->|[->|[->|[->|[->|[->|[]]]]]]]]; vm_compute; reflexivity.
  - reflexivity.
  - reflexivity.
  - vm_compute. reflexivity.
Defined.

(** ** The time to live of a moved entry *)

#[local] Instance moves_hasher : DefaultHasher := fun _ => 0%Z.

(** The demo key is requested at one instant, with nobody else running. *)
Definition at_instant {A} (t : Instant) (p : prog (L1Stub bytes) A) (w : World (L1Stub bytes)) :
    option A * World (L1Stub bytes) :=
  run (alone (fun _ => t) (fun _ => OnTime)) 0 p w.

Definition ctx_for (d : Duration) : CacheContext := with_ttl demo_ctx d.

(** A move replaces the time to live. [move_entry] stores and commits the
    value under the TTL of the context the move was requested with, not under
    the one it was written with. An entry written to live ten units is gone
    after a thousand; demoted in between by a context without a TTL -- as the
    census context of an autonomous governor usually is -- it never expires;
    promoted by one with a TTL of three it is gone after five. *)
Theorem moves_replace_the_time_to_live :
  let key := [107%Z] in let v := [1%Z; 2%Z] in
  let written := snd (at_instant 5 (set demo_manager key v (ctx_for 10)) (demo_world demo_plane)) in
  let read t w := fst (at_instant t (get (V := bytes) demo_manager key demo_ctx) w) in
  let '(d, demoted) := at_instant 6 (demote (V := bytes) demo_manager key demo_ctx) written in
  let '(p, promoted) := at_instant 6 (promote (V := bytes) demo_manager key (ctx_for 3)) written in
  d = Some (Ok tt) /\ p = Some (Ok tt) /\
  read 14%Z written = Some (Ok (Some v)) /\ read 1000%Z written = Some (Err Miss) /\
  read 1000%Z demoted = Some (Ok (Some v)) /\
  read 11%Z written = Some (Ok (Some v)) /\ read 11%Z promoted = Some (Err Miss).
Proof. vm_compute. repeat split. Qed.
