(* ===== verification/Populate.v ===== *)
(** * A populated value is read back

    The functional contract of [get_or_fetch] of [src/manager.rs], end to end:
    what the caller's fetch produced, or the fallback served, and what a [get]
    that follows finds. *)

From stdpp Require Import relations.
From S2P Require Import Prelude Entry Integrity Key Tier Continuity Policy TierTrait Telemetry.
From S2P Require Import Pool FixedTier ShardedTier Stubs ControlEntry Shard Cachelito Plane Protocol.
From S2P Require Import Commit Prog Manager Steps Guarantee ReadYourWrite.

(** ** What a fallback that served something leaves *)

(** Right after the read: a cache rung with a closed breaker was asked for the
    key, held the value, and nothing but the telemetry changed since. *)
Definition just_read {V T} `{HT : !CacheTier V T} `{HL : !TierLaws V T} (kb : bytes) (t0 : Instant) (rung : TierId) (v : V)
    (w : World T) : Prop :=
  exists t1 w1, is_cache_rung rung = true /\ (t0 <= t1)%Z /\ world_ok w1 /\
    is_circuit_open (w_reg w1) rung = false /\ fst (get_at rung kb t1 w1) = Ok (Some v) /\
    w_ctl w = w_ctl w1 /\ w_tiers w = w_tiers (snd (get_at rung kb t1 w1)).

(** ... and the record that says so has been emitted. *)
Definition fell_back {V T} `{HT : !CacheTier V T} `{HL : !TierLaws V T} (kb : bytes) (t0 : Instant) (cause : CacheError) (v : V)
    (w : World T) : Prop :=
  exists rung r, just_read kb t0 rung v w /\ r ∈ w_sink w /\ or_key r = KeyIdentity_of kb /\
    or_fallback r = true /\ or_source_tier r = Some rung /\ or_failure_class r = Some cause.

(** The entry says that the population failed, for that cause, and that nobody
    owns it. *)
Definition failed_for (cause : CacheError) (e : ControlEntry) : Prop :=
  state e = Failed /\ is_population_owner e = false /\
  last_error e = decode_error (encode_error (Some cause)).

Definition failed_with (a : KeyAddress) (cause : CacheError) (c : Cachelito) : Prop :=
  exists e, view c a = Some e /\ failed_for cause e.

Section populate.
Context {K V P T : Type} `{!Key K} `{!CachePolicy P K V} `{HT : !CacheTier V T} `{HL : !TierLaws V T}.
Variable self : CacheManager P.
Context (kb : bytes) (pl : Placement) (ctx : CacheContext) (t0 : Instant) (key : K).
Variable fetch : Instant -> World T -> res V.
Hypothesis Httl : forall d, ctx_ttl ctx = Some d -> (0 <= d < W64)%Z.
Hypothesis Hkey : encode_key key ctx = Ok kb.

Abbreviation own := (own_address kb pl).
Abbreviation kept := (kept pl t0).
Abbreviation written := (fun v => written kb v ctx t0).
Abbreviation committed := (fun v => committed kb pl v ctx t0).

(** The fetch produced the value. *)
Definition fetched (v : V) : Prop := exists now w, fetch now w = Ok v.

Abbreviation just_read := (just_read kb t0).
Abbreviation fell_back := (fell_back kb t0).

(** What [fail_with_error] does: nothing, where there is no entry. *)
Definition failed_if_there (cause : CacheError) (c : Cachelito) : Prop :=
  match view c own with Some e => failed_for cause e | None => True end.

Definition present (w : World T) : Prop := is_Some (view (w_ctl w) own).

Lemma failed_present cause w : present w -> failed_if_there cause (w_ctl w) -> failed_with own cause (w_ctl w).
Proof. intros [e He]. unfold failed_if_there. rewrite He. intros Hf. by exists e. Qed.

(** An entry is never removed. *)
Lemma present_step (w w' : World T) :
  placed pl w -> plane_ok (w_ctl w) -> manager_step kb pl w w' -> present w -> present w'.
Proof.
  intros Hpl Hok Hs [e He]. unfold present.
  assert (Hexec : forall op, is_Some (view (plane_exec (w_ctl w) op) own)).
  { intros op. destruct (plane_exec_spec (w_ctl w) op Hok) as (_ & _ & ->). unfold spec_exec.
    cbn zeta. destruct (decide _) as [<-|_]; by rewrite He. }
  destruct Hs as [w op| |w a|w rung|w now rung|w r|w now rung|w now rung|w now rung v d _|w now slot _
    |w now rung _|w rung a _]; try (by exists e).
  - exact (Hexec op).
  - destruct (with_created_entry_view (w_ctl w) (address_of (w_ctl w) kb) _ Hok (set_state_ok Stale))
      as (_ & Hsb & Hv).
    rewrite (own_address_of kb pl w Hpl) in Hsb, Hv. rewrite He in Hv.
    cbn. unfold plane_set_state. by rewrite (own_address_of kb pl w Hpl), Hv.
  - exact (Hexec (PoReserve a)).
  - unfold get_at. by rewrite (proj1 (on_slot_tiers _ _ w)), He.
  - unfold contains_at. by rewrite (proj1 (on_slot_tiers _ _ w)), He.
  - unfold set_at. by rewrite (proj1 (on_slot_tiers _ _ w)), He.
  - by rewrite (proj1 (on_slot_tiers _ _ w)), He.
  - by rewrite (proj1 (nominate_tiers _ _ w)), He.
  - unfold reclaim_at. by rewrite (proj1 (on_slot_tiers _ _ w)), He.
Qed.

Lemma h_present {A} pre (p : prog T A) post :
  respects (placed pl) (rtc (manager_step kb pl)) p -> (forall t w, pre t w -> kept t w) ->
  htriple pre p post ->
  htriple (fun t w => pre t w /\ present w) p (fun a t w => post a t w /\ present w).
Proof.
  intros Hp Hk H t w [Hw Hpr]. destruct (Hk t w Hw) as (_ & Hok & Hpl).
  set (I := fun w : World T => (world_ok w /\ placed pl w) /\ present w).
  apply (respects_stronger _ I) in Hp; [|by intros ? [[]]].
  eapply wp_mono; [|apply wp_and; [by apply H|apply (wp_respects I (rtc (manager_step kb pl)) p t w);
    [|exact Hp|done]]].
  - intros [a|] m w' _ [Ha [_ [_ Hpr']]]; done.
  - clear. intros w w' HI Hr. induction Hr as [w|w w1 w' Hs _ IH]; [done|]. apply IH.
    destruct HI as [[Hok Hpl] Hpr]. split; [split|].
    + by eapply manager_step_ok.
    + by eapply manager_step_placed, rtc_once.
    + by eapply present_step, Hpr; [|apply wok_plane|].
Qed.

(** What a success means: the fetched value, committed, or -- where the policy
    fails open -- a value that a fallback rung served and that is not cached. *)
Definition populated (d : PolicyDecision) (r : res V) (t : Instant) (w : World T) : Prop :=
  kept t w /\ forall v, r = Ok v ->
    (fetched v /\ committed v t w) \/
    (pd_fail_mode d = FailOpen /\ exists cause, failed_if_there cause (w_ctl w) /\ fell_back cause v w).

Lemma populated_failed d e t w : kept t w -> populated d (Err e) t w.
Proof. by split. Qed.

(** ** One attempt *)

Lemma publish_entry_spec now g rung d e :
  fst (publish_entry now g rung d e) = Ok tt ->
  let e' := snd (publish_entry now g rung d e) in
  state e' = Ready /\ tier e' = rung /\ ttl e' = ttl (set_ttl d e) /\
  population_timestamp e' = nanos_to_instant (instant_to_nanos now).
Proof.
  intros Hp. unfold publish_entry in *. destruct (_ || _); [done|]. cbn zeta.
  split_and!; try reflexivity. exact (tier_set_tier rung e).
Qed.

Lemma h_publish v g rung :
  htriple (fun t w => kept t w /\ written v rung t w)
    (ctl (fun now => publish now kb g rung (ctx_ttl ctx)))
    (fun r t w => kept t w /\ (r = Ok tt -> committed v t w)).
Proof.
  apply h_step. intros t now w [Hw Hwr] Hn.
  pose proof (own_address_of kb pl w (proj2 (proj2 Hw))) as Ha.
  pose proof (ms_ctl kb pl w (PoPublish now kb g rung (ctx_ttl ctx)) Ha) as Hs.
  pose proof (kept_step pl t0 kb t now w _ Hn Hw Hs) as Hk. cbn in Hk.
  pose proof (wok_plane w (proj1 (proj2 Hw))) as Hok.
  pose proof (with_entry_spec (w_ctl w) (address_of (w_ctl w) kb) (Err Miss)
                (publish_entry now g rung (ctx_ttl ctx)) Hok ltac:(auto with thesix)) as Hspec.
  unfold publish in *. destruct (view (w_ctl w) (address_of (w_ctl w) kb)) as [e|].
  2: { rewrite Hspec in *. cbn [fst snd] in *. by split. }
  destruct Hspec as (c' & Heq & _ & _ & Hv). rewrite Heq in *. cbn [fst snd] in *.
  split; [done|]. intros Hr.
  destruct (publish_entry_spec now g rung (ctx_ttl ctx) e Hr) as (Hst & Htier & Hd & Hts).
  exists rung, (snd (publish_entry now g rung (ctx_ttl ctx) e)). rewrite <- Ha.
  split_and!; [by apply (written_later kb v ctx t0 rung t now w)|done|done|done|].
  intros t' Ht' Hl. destruct Hw as (Ht0 & _). apply (stamped_not_expired ctx t0 now e); try done; lia.
Qed.

Lemma h_await_fetch :
  htriple kept (await_fetch [GPopulation kb] fetch)
    (fun r t w => kept t w /\ forall v, r = Ok v -> fetched v).
Proof.
  apply h_await. intros t now w Hw Hn. cbn [fst snd].
  pose proof (kept_later pl t0 t now w Hn Hw). split_and!; try done. by exists now, w.
Qed.

Lemma h_found decision :
  htriple kept (ask (fun _ w => nearest_bound_rung w (pd_tier decision)))
    (fun found t w => (forall rung, found = Some rung -> is_cache_rung rung = true) /\ kept t w).
Proof.
  apply h_step. intros t now w Hw Hn. cbn [fst snd].
  split; [intros rung; apply nearest_bound_rung_cache|by eapply kept_later].
Qed.

Lemma h_populate_once g decision :
  htriple kept (populate_once key kb g ctx fetch decision)
    (fun r t w => kept t w /\ forall v, r = Ok v -> fetched v /\ committed v t w).
Proof.
  unfold populate_once. eapply h_bind; [apply h_await_fetch|].
  intros [v|e]; [|by apply h_ret; intros t w [Hw _]].
  apply (h_pre (fun t w => fetched v /\ kept t w)); [intros t w [Hw Hf]; split; [by apply Hf|done]|].
  apply h_pure. intros Hf. eapply h_bind; [apply h_found|].
  intros [rung|]; [|by apply h_ret; intros t w [_ Hw]].
  apply h_pure. intros Hr. specialize (Hr rung eq_refl).
  apply h_if_bound; [intros t t' w; apply kept_later|by apply h_ret|]. cbn [bind]. rewrite Hkey.
  eapply h_bind; [apply (h_observed_write kb pl v ctx t0); done|]. intros [[]|e]; cbn beta.
  - apply (h_bind _ _ (fun _ t w => kept t w /\ written v rung t w)).
    { intros t w [Hw Hwr]. apply h_record_outcome. split; [done|by apply Hwr]. }
    intros _. eapply h_bind; [apply h_publish|]. intros [[]|e]; apply h_ret; intros t w [Hw Hc].
    + split; [done|]. intros v' [= <-]. split; [done|by apply Hc].
    + by split.
  - apply (h_pre kept); [by intros t w []|].
    apply (h_bind _ _ (fun _ => kept)); [apply (h_kept kb pl t0), r_record_outcome|]. intros _. by apply h_ret.
Qed.

(** ** When every attempt failed *)

Lemma h_fail e :
  htriple kept (ctl (fun _ => fail_with_error kb e)) (fun _ t w => kept t w /\ failed_if_there e (w_ctl w)).
Proof.
  apply h_step. intros t now w Hw Hn.
  pose proof (own_address_of kb pl w (proj2 (proj2 Hw))) as Ha.
  pose proof (kept_step pl t0 kb t now w _ Hn Hw (ms_ctl kb pl w (PoFail kb e) Ha)) as Hk.
  destruct (with_entry_view (w_ctl w) (address_of (w_ctl w) kb) (Err Miss) (fail_entry e)
              (wok_plane w (proj1 (proj2 Hw))) ltac:(auto with thesix)) as (_ & _ & Hv).
  cbn in Hk. unfold fail_with_error in *. unfold failed_if_there. rewrite <- Ha.
  destruct (with_entry _ _ _ _) as [r c]. cbn [fst snd w_ctl set_ctl] in *. split; [done|].
  rewrite Hv. by destruct (view (w_ctl w) _).
Qed.

(** What only telemetry may change around. *)
Lemma just_read_emit rung v w w' :
  w_ctl w' = w_ctl w -> w_tiers w' = w_tiers w -> just_read rung v w -> just_read rung v w'.
Proof.
  intros Hc Ht (t1 & w1 & H). exists t1, w1. by rewrite Hc, Ht.
Qed.

Lemma h_record_fallback cause rung v :
  htriple (fun t w => (kept t w /\ failed_if_there cause (w_ctl w)) /\ just_read rung v w)
    (let! _ := record_fallback kb rung cause in Ret (Ok v : res V))
    (fun r t w => (kept t w /\ failed_if_there cause (w_ctl w)) /\ forall u, r = Ok u -> fell_back cause u w).
Proof.
  apply (h_bind _ _ (fun _ t w => (kept t w /\ failed_if_there cause (w_ctl w)) /\ fell_back cause v w)).
  - apply (h_bind _ _ (fun _ t w => (kept t w /\ failed_if_there cause (w_ctl w)) /\ just_read rung v w)).
    { apply h_step. intros t now w [[Hk Hf] Hj] Hn. split_and!; [by eapply kept_later|done|done]. }
    intros started. apply h_step. intros t now w [[Hk Hf] Hj] Hn. cbn [fst snd]. split_and!.
    + by apply (kept_step pl t0 kb t now w _ Hn Hk (ms_emit kb pl w _)).
    + done.
    + eexists rung, _. split; [by apply (just_read_emit rung v w)|].
      split; [cbn; apply elem_of_app; right; by left|done].
  - intros u. apply h_ret. intros t w [H Hj]. split; [done|]. by intros u' [= <-].
Qed.

Lemma h_fallback_rungs cause rungs :
  Forall (fun rung => is_cache_rung rung = true) rungs ->
  htriple (fun t w => kept t w /\ failed_if_there cause (w_ctl w)) (try_fallback_rungs (V := V) kb cause rungs)
    (fun r t w => (kept t w /\ failed_if_there cause (w_ctl w)) /\ forall v, r = Ok v -> fell_back cause v w).
Proof.
  induction 1 as [|rung rest Hr _ IH]; cbn [try_fallback_rungs]; [by apply h_ret|].
  assert (Hlater : forall t t' w, (t <= t')%Z -> kept t w /\ failed_if_there cause (w_ctl w) ->
            kept t' w /\ failed_if_there cause (w_ctl w)).
  { intros t t' w Hn [Hk Hf]. split; [by eapply kept_later|done]. }
  apply h_if_bound; [done|done|].
  apply (h_bind _ _ (fun b t w => (kept t w /\ failed_if_there cause (w_ctl w)) /\
                                  b = is_circuit_open (w_reg w) rung)).
  { apply h_step. intros t now w Hw Hn. split; [by eapply Hlater|done]. }
  intros [|]; [by intros t w [Hw _]; apply IH|].
  eapply (h_bind _ _ (fun r t w => (kept t w /\ failed_if_there cause (w_ctl w)) /\
                                   forall v, r = Ok (Some v) -> just_read rung v w)).
  - apply h_await. intros t now w [[Hk Hf] Hc] Hn.
    pose proof (kept_step pl t0 kb t now w _ Hn Hk (ms_get kb pl w now rung)) as Hk'.
    assert (Hctl : w_ctl (snd (get_at rung kb now w)) = w_ctl w) by apply on_slot_tiers.
    pose proof (kept_later pl t0 t now w Hn Hk) as Hk''.
    split_and!; try done; rewrite ?Hctl; try done.
    intros v Hv. exists now, w. destruct Hk'' as (Ht & Hok & _). by split_and!.
  - intros [[v|]|e]; try (intros t w [Hw _]; by apply IH).
    eapply h_pre; [|apply h_record_fallback]. intros t w [Hw Hj]. split; [done|by apply Hj].
Qed.

Lemma h_fallback cause :
  htriple (fun t w => kept t w /\ failed_if_there cause (w_ctl w)) (try_fallback_tier (V := V) key ctx cause)
    (fun r t w => (kept t w /\ failed_if_there cause (w_ctl w)) /\ forall v, r = Ok v -> fell_back cause v w).
Proof.
  unfold try_fallback_tier. cbn [bind]. rewrite Hkey. apply h_fallback_rungs. by repeat constructor.
Qed.

Lemma h_population_failed decision e :
  htriple kept (population_failed (V := V) key kb ctx decision e) (populated decision).
Proof.
  unfold population_failed.
  apply (h_bind _ _ (fun _ => kept)); [apply (h_kept kb pl t0), r_ask|]. intros started.
  apply (h_bind _ _ (fun _ => kept)); [apply (h_kept kb pl t0), r_emit|]. intros _.
  eapply h_bind; [apply h_fail|]. intros u. cbn beta.
  destruct (bool_decide (e = _)); [by apply h_ret; intros t w []|].
  case_bool_decide as Hopen; [|by apply h_ret; intros t w []].
  eapply h_conseq; [|apply h_fallback]. intros r t w [[Hk Hu] Hf]. split; [done|].
  intros v Hv. right. split; [done|]. exists e. split; [done|by apply Hf].
Qed.

Lemma h_population_loop left g decision :
  htriple kept (population_loop left key kb g ctx decision fetch) (populated decision).
Proof.
  induction left as [|left IH]; cbn [population_loop]; [by apply h_ret|].
  eapply h_bind; [apply h_populate_once|]. intros [v|e]; cbn beta.
  - apply h_ret. intros t w [Hk Hv]. split; [done|]. left. by apply Hv.
  - apply (h_pre kept); [by intros t w []|]. destruct (_ && _); [|apply h_population_failed].
    apply (h_bind _ _ (fun _ => kept)); [|intros _; apply IH].
    apply (h_kept kb pl t0), r_pause, own_guard_population.
Qed.

(** ** The claim *)

(** Nobody populates or writes the key and nothing is cached under it. *)
Definition claimable (t : Instant) (w : World T) : Prop :=
  kept t w /\ is_claimable (state (entry_at (w_ctl w) own)) = true.

Lemma h_acquire target :
  htriple claimable (ctl (fun now => acquire now kb target))
    (fun r t w => (forall s, r = Ok s -> snap_state s = InFlight /\ snap_population_owner s = true) /\
                  kept t w /\ (is_ok r = true -> present w)).
Proof.
  apply h_step. intros t now w [Hw Hc] Hn.
  pose proof (own_address_of kb pl w (proj2 (proj2 Hw))) as Ha.
  pose proof (kept_step pl t0 kb t now w _ Hn Hw (ms_ctl kb pl w (PoAcquire now kb target) Ha)) as Hk.
  pose proof (wok_plane w (proj1 (proj2 Hw))) as Hok.
  pose proof (with_created_entry_result (w_ctl w) own (acquire_entry now target) Hok
                ltac:(auto with thesix)) as Hr.
  destruct (entry_at_wf (w_ctl w) own Hok) as [Hwf _].
  destruct (with_created_entry_view (w_ctl w) own (acquire_entry now target) Hok
              ltac:(auto with thesix)) as (_ & _ & Hv).
  cbn [plane_exec] in Hk. unfold acquire in *. rewrite Ha in *.
  destruct (with_created_entry _ _ _) as [r c]. cbn [fst snd] in *. split_and!; [|done|].
  2: { intros Hrok. unfold present. cbn. rewrite Hv. revert Hr. destruct (view (w_ctl w) own); [done|].
       destruct (room_for _ _); [done|]. by intros ->. }
  intros s ->. unfold entry_at in *.
  destruct (view (w_ctl w) own) as [e|]; cbn [default from_option id] in *; [|destruct (room_for _ _); [|done]];
    rewrite acquire_entry_eq, Hc in Hr by done; cbn in Hr; by injection Hr as ->.
Qed.

Hypothesis Hauth : is_authenticated ctx = true.
Hypothesis Hallowed : pd_authorized (resolve (V := V) self (request_for OpGet key ctx) ctx) = true.

Abbreviation decision := (resolve (V := V) self (request_for OpGet key ctx) ctx).

Lemma own_key_bytes b : encode_key key ctx = Ok b -> b = kb.
Proof. rewrite Hkey. by intros [= ->]. Qed.

(** A success leaves an entry. *)
Lemma h_get_or_fetch :
  htriple claimable (get_or_fetch self key ctx fetch)
    (fun r t w => populated decision r t w /\ (is_ok r = true -> present w)).
Proof.
  unfold get_or_fetch, check_auth, authorize. rewrite Hauth. cbn [negb bind]. rewrite Hkey, Hallowed.
  cbn [population_attempts MAX_POPULATION_ATTEMPTS].
  eapply h_bind; [apply h_acquire|]. intros [s|e]; [|by apply h_ret; intros t w (_ & Hk & _)].
  apply h_pure. intros Hs. destruct (Hs s eq_refl) as [Hst Hown].
  rewrite Hst. cbn [bind]. rewrite bool_decide_false by done. cbn [andb bind].
  unfold dispatch_acquired. rewrite Hst, Hown. cbn [negb].
  eapply h_conseq; [|apply (h_pre (fun t w => kept t w /\ present w)); [|apply h_present;
    [by apply r_population_loop, own_key_bytes|done|apply h_population_loop]]].
  - intros r t w [Hp Hpr]. by split.
  - intros t w [Hk Hpr]. split; [done|by apply Hpr].
Qed.

(** ** The read that follows *)

Lemma h_get_nothing cause v :
  htriple (fun t w => kept t w /\ failed_if_there cause (w_ctl w) /\ fell_back cause v w)
    (get (V := V) self key ctx)
    (fun r t w => r = Err Miss /\ failed_if_there cause (w_ctl w) /\ fell_back cause v w).
Proof.
  unfold get, check_auth, authorize.
  apply (h_bind _ _ (fun _ t w => kept t w /\ failed_if_there cause (w_ctl w) /\ fell_back cause v w)).
  { apply h_step. intros t now w [Hk Hu] Hn. split; [by eapply kept_later|done]. }
  intros started. cbn [bind]. rewrite Hkey, Hauth, Hallowed. cbn [negb].
  apply (h_bind _ _ (fun r t w => (exists s, r = Ok s /\ (snap_state s = Failed \/ snap_state s = Absent)) /\
                                  failed_if_there cause (w_ctl w) /\ fell_back cause v w)).
  { apply h_step. intros t now w [(_ & Hok & Hpl) [Hu Hf]] Hn. cbn [fst snd].
    rewrite peek_view by apply Hok. rewrite (own_address_of kb pl w Hpl). split; [|done].
    unfold failed_if_there in Hu.
    eexists. split; [done|]. destruct (view (w_ctl w) own); [left; by destruct Hu|by right]. }
  intros [s|e] t w [(s' & Heq & Hs) Hf]; [|done]. injection Heq as <-. unfold get_from.
  assert (Hmiss : htriple (fun _ w => failed_if_there cause (w_ctl w) /\ fell_back cause v w)
    (control_only_then (A := option V) kb (snap_tier s) started OutMiss Miss)
    (fun r _ w => r = Err Miss /\ failed_if_there cause (w_ctl w) /\ fell_back cause v w)).
  { apply (h_bind _ _ (fun _ _ w => failed_if_there cause (w_ctl w) /\ fell_back cause v w));
      [|intros u; by apply h_ret].
    apply h_step. intros t1 now w1 [Hu (rung & r & Hj & Hin & Hr)] _. cbn [fst snd]. split; [done|].
    exists rung, r. split; [by apply (just_read_emit rung v w1)|]. split; [|done].
    cbn. apply elem_of_app. by left. }
  destruct Hs as [-> | ->]; by apply Hmiss.
Qed.

(** What the two calls return together, and leave. *)
Definition served (a : res V * res (option V)) (w : World T) : Prop :=
  forall v, fst a = Ok v ->
    (fetched v /\ (snd a = Ok (Some v) \/ snd a = Err Timeout)) \/
    (pd_fail_mode decision = FailOpen /\ snd a = Err Miss /\
     exists cause, failed_with own cause (w_ctl w) /\ fell_back cause v w).

Lemma h_get_populated r :
  htriple (fun t w => populated decision r t w /\ (is_ok r = true -> present w))
    (let! g := get self key ctx in Ret (r, g))
    (fun a t w => still_live ctx t0 t -> served a w).
Proof.
  destruct r as [u|e];
    [intros t w [[Hk Hp] Hpr]; destruct (Hp u eq_refl) as [[Hf Hc]|(Ho & cause & Hu)]|].
  - apply (h_bind _ _ _ _ _ (h_get self kb pl u ctx t0 Httl key ctx Hkey Hauth Hallowed)); [|done].
    intros g. apply h_ret. intros t2 w2 Hr Hl v [= <-]. left. split; [done|by apply Hr].
  - apply (h_bind _ _ _ _ _ (h_present _ _ _ (r_get self kb pl key ctx own_key_bytes)
      (fun t w H => proj1 H) (h_get_nothing cause u))); [|by split; [|apply Hpr]].
    intros g. apply h_ret. intros t2 w2 [(-> & Hu2 & Hf2) Hpr2] _ v [= <-].
    right. split_and!; [done|done|]. exists cause. split; [by apply failed_present|done].
  - apply (h_bind _ _ (fun _ _ _ => True)); [by apply h_trivial|]. intros g. by apply h_ret.
Qed.
End populate.

Section theorem.
Context {K V P T : Type} `{!Key K} `{!CachePolicy P K V} `{HT : !CacheTier V T} `{HL : !TierLaws V T}.

(** C6. A populated value is read back, or was served by a rung. Run with nobody
    else, from any well-formed world in which nothing is cached under the key
    and nobody is populating or writing it: when [get_or_fetch] returns a
    value, at any pace and after however many retried attempts, then either the
    fetch produced exactly that value, and a [get] that follows within the TTL
    returns it or reports that the rung did not answer in time; or the policy
    fails open and a fallback rung -- a cache rung whose breaker was closed --
    held exactly that value for the key when it was asked, which a fallback
    record names with the failure that caused it, the key is marked failed for
    that cause, the [get] is a miss, and neither the plane nor a rung changed
    after that read. *)
Theorem populated_value_is_read_back (self : CacheManager P) (key : K) (ctx : CacheContext)
    (fetch : Instant -> World T -> res V) (clock : nat -> Instant) (pc : nat -> pace) (n : nat)
    (w w' : World T) (kb : bytes) (v : V) (g : res (option V))
    (Hclock : forall m, (clock m <= clock (S m))%Z)
    (Hrange : forall m, (0 <= clock m <= U64_MAX)%Z)
    (Httl : forall d, ctx_ttl ctx = Some d ->
       (0 <= d < W64)%Z /\ forall m, n <= m -> (clock m - clock n < d)%Z)
    (Hok : world_ok w)
    (Hkey : encode_key key ctx = Ok kb)
    (Hfree : is_claimable (state (entry_at (w_ctl w) (address_of (w_ctl w) kb))) = true)
    (Hauth : is_authenticated ctx = true)
    (Hallowed : pd_authorized (resolve (V := V) self (request_for OpGet key ctx) ctx) = true)
    (Hrun : run (alone clock pc) n
              (let! p := get_or_fetch self key ctx fetch in let! r := get self key ctx in Ret (p, r)) w
            = (Some (Ok v, g), w')) :
  ((exists now u, fetch now u = Ok v) /\ (g = Ok (Some v) \/ g = Err Timeout)) \/
  (pd_fail_mode (resolve (V := V) self (request_for OpGet key ctx) ctx) = FailOpen /\ g = Err Miss /\
   exists cause, failed_with (address_of (w_ctl w) kb) cause (w_ctl w') /\
     fell_back kb (clock n) cause v w').
Proof.
  set (pl := c_placement (w_ctl w)).
  assert (Hd : forall d, ctx_ttl ctx = Some d -> (0 <= d < W64)%Z) by (intros d Hd; by apply Httl).
  refine (run_live _ (served self kb pl ctx (clock n) key fetch) (claimable kb pl (clock n)) [ctx] clock pc
           n w w' _ Hclock Hrange (one_context _ _ Httl) _ _ Hrun v eq_refl).
  - eapply h_bind; [by apply h_get_or_fetch|]. intros r.
    eapply h_conseq; [|by apply (h_get_populated self kb pl ctx (clock n) key fetch Hd)].
    intros a t w0 H Hl. apply H, Hl. by left.
  - split; [|exact Hfree]. split_and!; [lia|done|done].
Qed.
End theorem.

(** The first fetch fails and is retried; the second produces the value. *)
Definition demo_fetch (now : Instant) (_ : World (L1Stub bytes)) : res bytes :=
  if (now <? 3)%Z then Err TierUnavailable else Ok [1%Z; 2%Z].

Definition demo_populate (hasher : DefaultHasher) : prog (L1Stub bytes) (res bytes * res (option bytes)) :=
  let! p := get_or_fetch demo_manager [107%Z] demo_ctx demo_fetch in
  let! r := get (V := bytes) demo_manager [107%Z] demo_ctx in Ret (p, r).

Definition demo_clock (m : nat) : Instant := Z.min (Z.of_nat m) 1000.

Lemma populated_value_is_read_back_witness :
  let hasher : DefaultHasher := fun _ => 0%Z in
  let after := run (alone demo_clock (fun _ => OnTime)) 0 (demo_populate hasher) (demo_world demo_plane) in
  let read : res (option bytes) := Ok (Some [1%Z; 2%Z]) in
  ((exists now u, demo_fetch now u = Ok [1%Z; 2%Z]) /\
   (read = Ok (Some [1%Z; 2%Z]) \/ read = Err Timeout)) \/
  (pd_fail_mode (resolve (V := bytes) demo_manager (request_for OpGet [107%Z] demo_ctx) demo_ctx)
     = FailOpen /\ read = Err Miss /\
   exists cause, failed_with (address_of demo_plane [0%Z; 107%Z]) cause (w_ctl (snd after)) /\
     fell_back [0%Z; 107%Z] 0 cause [1%Z; 2%Z] (snd after)).
Proof.
  intros hasher after read.
  assert (Hrun : fst after = Some (Ok [1%Z; 2%Z], read)) by (vm_compute; reflexivity).
  refine (populated_value_is_read_back demo_manager [107%Z] demo_ctx demo_fetch demo_clock
           (fun _ => OnTime) 0 (demo_world demo_plane) (snd after) [0%Z; 107%Z] [1%Z; 2%Z] read
           _ _ _ _ _ _ _ _ _).
  - intros m. unfold demo_clock. lia.
  - intros m. unfold demo_clock, U64_MAX, W64. lia.
  - discriminate.
  - apply demo_world_ok, with_placement_ok.
  - vm_compute. reflexivity.
  - vm_compute. reflexivity.
  - reflexivity.
  - reflexivity.
  - rewrite <- Hrun. apply surjective_pairing.
Defined.

(** ** What the fallback serves *)

#[local] Instance populate_hasher : DefaultHasher := fun _ => 0%Z.

(** The fallback scan asks the rungs and not the control plane: under the
    default policy, which fails open, a value that was written, invalidated and
    reported as a miss is served again by a [get_or_fetch] whose fetch fails;
    the key stays a miss, and removing it instead leaves nothing to serve. *)
Theorem fallback_serves_an_invalidated_value :
  let key := [107%Z] in let v := [1%Z; 2%Z] in
  let act {A} (p : prog (L1Stub bytes) A) w := run (alone (fun _ => 5%Z) (fun _ => OnTime)) 0 p w in
  let again := get_or_fetch demo_manager key demo_ctx (fun _ _ => Err PopulationFailed) in
  let read := get (V := bytes) demo_manager key demo_ctx in
  let '(s, written) := act (set demo_manager key v demo_ctx) (demo_world demo_plane) in
  let '(i, invalidated) := act (invalidate (V := bytes) demo_manager key demo_ctx) written in
  let '(r, removed) := act (remove (V := bytes) demo_manager key demo_ctx) written in
  s = Some (Ok tt) /\ i = Some (Ok tt) /\ r = Some (Ok tt) /\
  fst (act read invalidated) = Some (Err Miss) /\
  fst (act again invalidated) = Some (Ok v) /\
  fst (act read (snd (act again invalidated))) = Some (Err Miss) /\
  fst (act again removed) = Some (Err PopulationFailed).
Proof. vm_compute. repeat split. Qed.
