(* ===== verification/Stampede.v ===== *)
(** * Single flight among many callers

    The stampede [get_or_fetch] of [src/manager.rs] exists to prevent, over all
    interleavings of all callers of a key: how far the claim on the entry keeps
    the fetch to one caller at a time, and where it does not. *)

From stdpp Require Import relations.
From S2P Require Import Prelude Entry Integrity Key Tier Continuity Policy TierTrait Telemetry.
From S2P Require Import Pool FixedTier ShardedTier Stubs ControlEntry Shard Cachelito Plane Protocol.
From S2P Require Import Commit Prog Threads Manager Steps Guarantee ReadYourWrite.

(** A future suspended with a guard armed: it runs the work the guard protects. *)
Definition armed_guards {T A} (p : prog T A) : list guard :=
  match p with
  | Await armed _ _ _ | Pause armed _ | Notified armed _ _ _ => armed
  | _ => []
  end.

(** The future is suspended inside a population of the key: in its fetch, in
    the write of what was fetched, or between two attempts. *)
Definition populating {T A} (kb : bytes) (p : prog T A) : Prop := GPopulation kb ∈ armed_guards p.

(** ** Sessions

    A claim on the plane is taken and given back by steps of the program that
    holds it. [I] is what is known of the plane in every state, [C] whether the
    claim is taken; [mine] is the guard armed only by its holder. *)

Section session.
Context {T : Type} (I : Cachelito -> Prop) (C : Cachelito -> bool) (mine : guard).

(** A program that holds the claim before the step iff [b], after it iff [b']. *)
Definition moves (b b' : bool) (c c' : Cachelito) : Prop :=
  match b, b' with
  | false, false => C c' = C c
  | false, true => C c = false /\ C c' = true
  | true, true => C c' = true
  | true, false => C c' = false
  end.

(** Where a step starts. *)
Definition before (b : bool) (c : Cachelito) : Prop := I c /\ (b = true -> C c = true).

Definition suspends (b : bool) (armed : list guard) : Prop :=
  (mine ∈ armed -> b = true) /\
  forall w : World T, before b (w_ctl w) -> moves b false (w_ctl w) (w_ctl (drop_guards armed w)).

Fixpoint session {A} (b : bool) (p : prog T A) (Q : bool -> A -> Prop) : Prop :=
  match p with
  | Ret a => Q b a
  | Step f k => forall now w, before b (w_ctl w) -> I (w_ctl (snd (f now w))) ->
      exists b', moves b b' (w_ctl w) (w_ctl (snd (f now w))) /\ session b' (k (fst (f now w))) Q
  | Await armed bounded op k =>
      suspends b armed /\ (forall now w, w_ctl (snd (op now w)) = w_ctl w) /\
      (forall now w, before b (w_ctl w) -> session b (k (fst (op now w))) Q) /\
      (bounded = true -> session b (k (Err Timeout)) Q)
  | Pause armed k => suspends b armed /\ session b k Q
  | Notified armed a seen k => suspends b armed /\ forall r, session b (k r) Q
  end.

Lemma session_bind {A B} b (p : prog T A) (f : A -> prog T B) Q Q' :
  session b p Q' -> (forall b a, Q' b a -> session b (f a) Q) -> session b (bind p f) Q.
Proof.
  intros Hp Hf. revert b Hp.
  induction p as [a|D g k IH|D armed bd op k IH|armed k IH|armed a s k IH]; intros b Hp; cbn in *.
  - by apply Hf.
  - intros now w Hw HI. destruct (Hp now w Hw HI) as (b' & Hm & Hk). exists b'. split; [done|by apply IH].
  - destruct Hp as (Hs & Hc & Hk & Ht). split_and!; auto.
  - destruct Hp as [Hs Hk]. auto.
  - destruct Hp as [Hs Hk]. auto.
Qed.

Lemma moves_refl b c c' : c' = c -> (b = true -> C c = true) -> moves b b c c'.
Proof. intros -> H. destruct b; cbn; auto. Qed.

Lemma session_mono {A} b (p : prog T A) (Q Q' : bool -> A -> Prop) :
  (forall b a, Q b a -> Q' b a) -> session b p Q -> session b p Q'.
Proof.
  intros HQ. revert b. induction p as [a|D f k IH|D armed bd op k IH|armed k IH|armed a s k IH];
    intros b; cbn.
  - apply HQ.
  - intros Hp now w Hw HI. destruct (Hp now w Hw HI) as (b' & Hm & Hk). eauto.
  - intros (Hs & Hc & Hk & Ht). split_and!; auto.
  - intros [Hs Hk]. auto.
  - intros [Hs Hk]. auto.
Qed.

(** ** Steps and waits that leave the plane alone *)

(** What a read of the world returns may be used later. *)
Lemma session_step {B} b (f : Instant -> World T -> B * World T) (phi : B -> Prop) :
  (forall now w, w_ctl (snd (f now w)) = w_ctl w) ->
  (forall now w, I (w_ctl w) -> phi (fst (f now w))) ->
  session b (atomically f) (fun b' r => b' = b /\ phi r).
Proof.
  intros Hc Hphi now w [Hi Hb] _. exists b. split; [by apply moves_refl|]. cbn. auto.
Qed.

Lemma session_quiet {B} b (f : Instant -> World T -> B * World T) :
  (forall now w, w_ctl (snd (f now w)) = w_ctl w) -> session b (atomically f) (fun b' _ => b' = b).
Proof.
  intros Hc. eapply session_mono; [|by apply (session_step b f (fun _ => True))]. by intros b' a [].
Qed.

Lemma suspends_nothing : suspends false [].
Proof. split; [by intros ?%elem_of_nil|done]. Qed.

(** A program outside the claim that never takes it. *)
Definition idle {A} (p : prog T A) : Prop := session false p (fun b _ => b = false).

Lemma idle_ret {A} (a : A) : idle (Ret a).
Proof. done. Qed.

Lemma idle_bind {A B} (p : prog T A) (f : A -> prog T B) :
  idle p -> (forall a, idle (f a)) -> idle (bind p f).
Proof. intros Hp Hf. eapply session_bind; [exact Hp|]. intros b a ->. apply Hf. Qed.

Lemma idle_step {B} (f : Instant -> World T -> B * World T) :
  (forall now w, w_ctl (snd (f now w)) = w_ctl w) -> idle (atomically f).
Proof. apply session_quiet. Qed.

Lemma idle_await {B} bounded (op : Instant -> World T -> res B * World T) :
  (forall now w, w_ctl (snd (op now w)) = w_ctl w) -> idle (await [] bounded op).
Proof. intros Hc. split_and!; [apply suspends_nothing|done|by intros|by intros]. Qed.

Lemma idle_notified a seen : idle (notified [] a seen).
Proof. split; [apply suspends_nothing|by intros]. Qed.

Lemma idle_if_bound {A} rung (absent k : prog T A) : idle absent -> idle k -> idle (if_bound rung absent k).
Proof. intros Ha Hk. apply idle_bind; [by apply idle_step|]. by intros []. Qed.

(** ** The pool *)

(** A step outside the session: [I] and the claim stay as they are. *)
Definition aside (w w' : World T) : Prop :=
  I (w_ctl w) -> I (w_ctl w') /\ C (w_ctl w') = C (w_ctl w).

#[local] Instance aside_preorder : PreOrder aside.
Proof.
  split; [by intros w|]. intros w1 w2 w3 H1 H2 Hi. destruct (H1 Hi) as [Hi2 <-]. auto.
Qed.

(** [joins]: the thread takes part in the claim. *)
Definition thread_ok {A} (joins b : bool) (o : option (prog T A)) : Prop :=
  match o with
  | None => b = false
  | Some p => if joins then session b p (fun b _ => b = false)
              else b = false /\ respects (fun w => I (w_ctl w)) aside p
  end.

(** At most one thread holds the claim, and then it is taken. *)
Definition one_holder {A} (joins : nat -> bool) (c : Threads T A) : Prop :=
  exists holds : nat -> bool,
    (forall i o, th_progs c !! i = Some o -> thread_ok (joins i) (holds i) o) /\
    (forall i, holds i = true -> C (w_ctl (th_world c)) = true) /\
    (forall i j, holds i = true -> holds j = true -> i = j).

Lemma thread_step_session {A} now pc b (p : prog T A) w Q :
  session b p Q -> before b (w_ctl w) -> I (w_ctl (snd (thread_step now pc p w))) ->
  (match p with Ret a => forall b, Q b a -> b = false | _ => True end) ->
  exists b', moves b b' (w_ctl w) (w_ctl (snd (thread_step now pc p w))) /\
    match fst (thread_step now pc p w) with Some p' => session b' p' Q | None => b' = false end.
Proof.
  intros Hp Hw HI HQ. pose proof (proj2 Hw) as Hb.
  destruct p as [a|B f k|B armed bd op k|armed k|armed a s k]; cbn in *.
  - exists b. split; [by apply moves_refl|done].
  - specialize (Hp now w Hw). destruct (f now w) as [r w']. cbn in *. by apply Hp.
  - destruct Hp as ([_ Hd] & Hc & Hk & Ht). specialize (Hc now w). specialize (Hk now w Hw).
    destruct (op now w) as [r w']. cbn in *.
    assert (Hw' : before b (w_ctl w')) by (by rewrite Hc).
    pose proof (Hd w Hw) as Hdw. pose proof (Hd w' Hw') as Hdw'. rewrite Hc in Hdw'.
    destruct pc, bd; cbn in *; eauto 10 using moves_refl.
  - destruct Hp as [[_ Hd] Hk]. destruct pc; cbn in *; eauto 10 using moves_refl.
  - destruct Hp as [[_ Hd] Hk]. destruct pc; cbn in *; eauto 10 using moves_refl.
Qed.

Lemma thread_step_ok {A} now pc joins b (p : prog T A) w :
  thread_ok joins b (Some p) -> before b (w_ctl w) -> I (w_ctl (snd (thread_step now pc p w))) ->
  exists b', moves b b' (w_ctl w) (w_ctl (snd (thread_step now pc p w))) /\
    thread_ok joins b' (fst (thread_step now pc p w)).
Proof.
  intros Hp Hw HI. destruct joins; cbn in Hp.
  - destruct (thread_step_session now pc b p w _ Hp Hw HI) as (b' & Hm & Hk); [by destruct p|].
    by exists b'.
  - destruct Hp as [-> Hp], Hw as [Hi _]. exists false.
    destruct (thread_step_respects (fun w => I (w_ctl w)) aside (fun w1 w2 H1 H2 => proj1 (H2 H1))
                now pc p w Hi Hp) as [Hg Hk].
    split; [by apply Hg|]. unfold thread_ok. by destruct (fst _).
Qed.

Lemma schedule_one_holder {A} joins i now pc (c : Threads T A) :
  one_holder joins c -> I (w_ctl (th_world c)) -> I (w_ctl (th_world (schedule i now pc c))) ->
  one_holder joins (schedule i now pc c).
Proof.
  intros (holds & Hall & Htaken & Hone) Hi Hi'. unfold schedule in *.
  destruct (th_progs c !! i) as [[p|]|] eqn:Hp; [|by exists holds..].
  assert (Hw : before (holds i) (w_ctl (th_world c))) by (split; [done|apply Htaken]).
  assert (HI' : I (w_ctl (snd (thread_step now pc p (th_world c))))) by (by destruct (thread_step _ _ _ _)).
  destruct (thread_step_ok now pc _ _ p (th_world c) (Hall i _ Hp) Hw HI') as (b' & Hm & Hok').
  destruct (thread_step now pc p (th_world c)) as [o w']. cbn in *.
  assert (Hother : forall j, j <> i -> holds j = true -> holds i = false /\ C (w_ctl (th_world c)) = true).
  { intros j Hj Hbj. split; [|by eapply Htaken]. destruct (holds i) eqn:Hbi; [|done]. destruct Hj. auto. }
  exists (fun k => if decide (k = i) then b' else holds k). cbn. split_and!.
  - intros j o'. destruct (decide (j = i)) as [->|Hne].
    + rewrite list_lookup_insert_eq by (by apply lookup_lt_Some in Hp). by intros [= <-].
    + rewrite list_lookup_insert_ne by done. apply Hall.
  - intros j Hj. destruct (decide (j = i)) as [->|Hne]; [subst b'; by destruct (holds i); apply Hm|].
    destruct (Hother j Hne Hj) as [Hf Ht]. rewrite Hf in Hm. destruct b'; cbn in Hm; [by destruct Hm|congruence].
  - assert (Hnew : forall j, j <> i -> b' = true -> holds j = true -> False).
    { intros j Hj -> Hbj. destruct (Hother j Hj Hbj) as [Hf Ht]. rewrite Hf in Hm. destruct Hm. congruence. }
    intros j1 j2. destruct (decide (j1 = i)), (decide (j2 = i)); subst; intros H1 H2;
      [done|by destruct (Hnew j2)|by destruct (Hnew j1)|auto].
Qed.

(** A thread suspended under the guard is the holder. *)
Lemma session_armed {A} b (p : prog T A) Q : session b p Q -> mine ∈ armed_guards p -> b = true.
Proof.
  destruct p as [a|B f k|B armed bd op k|armed k|armed a s k]; cbn; intros Hp Hm;
    try (by apply elem_of_nil in Hm); by destruct Hp as [[Ha _] _]; auto.
Qed.

Lemma one_holder_armed {A} joins i j (c : Threads T A) p q :
  one_holder joins c -> joins i = true -> joins j = true ->
  th_progs c !! i = Some (Some p) -> th_progs c !! j = Some (Some q) ->
  mine ∈ armed_guards p -> mine ∈ armed_guards q -> i = j.
Proof.
  intros (holds & Hall & _ & Hone) Hi Hj Hp Hq Hmp Hmq.
  apply Hall in Hp, Hq. rewrite Hi in Hp. rewrite Hj in Hq. cbn in Hp, Hq.
  apply Hone; by eapply session_armed.
Qed.
End session.

Create HintDb idle.
#[export] Hint Resolve idle_ret idle_step idle_await idle_notified : idle.

(** Walk through a program that only reads. *)
Ltac idling :=
  repeat first
    [ apply idle_if_bound
    | apply idle_bind; [|intros ?]
    | solve [eauto with idle]
    | apply idle_step; intros; by branches
    | apply idle_await; intros; by apply on_slot_tiers
    | case_match ].

(** ** The callers of one key *)

Section cold.
Context {K V P T : Type} `{!Key K} `{!CachePolicy P K V} `{!CacheTier V T}.
Variable self : CacheManager P.
Context (kb : bytes) (pl : Placement).

Abbreviation own := (own_address kb pl).

(** Nothing is committed under the key. *)
Definition unready (c : Cachelito) : Prop :=
  match view c own with Some e => state e <> Ready | None => True end.

Definition cold (c : Cachelito) : Prop := plane_ok c /\ c_placement c = pl /\ unready c.

(** Somebody populates the key. *)
Definition in_flight (c : Cachelito) : bool :=
  match view c own with Some e => bool_decide (state e = InFlight) | None => false end.

Abbreviation session := (session (T := T) cold in_flight (GPopulation kb)).
Abbreviation idle := (idle (T := T) cold in_flight (GPopulation kb)).

Lemma cold_address c : cold c -> address_of c kb = own.
Proof. intros (_ & Hp & _). unfold address_of, own_address. by rewrite Hp. Qed.

(** *** The steps of a population *)

(** The claim is granted, or somebody else has it. *)
Definition granted (b : bool) (r : res ControlSnapshot) : Prop :=
  match r with
  | Ok s => (snap_state s = InFlight \/ snap_state s = Prepared /\ b = false) /\ snap_population_owner s = b
  | Err _ => b = false
  end.

Lemma acquire_view now t c :
  cold c ->
  (acquire now kb t c).1 = Err ConfigurationError /\ (acquire now kb t c).2 = c \/
  (acquire now kb t c).1 = fst (acquire_entry now t (entry_at c own)) /\
  view (acquire now kb t c).2 own = Some (snd (acquire_entry now t (entry_at c own))).
Proof.
  intros Hc. pose proof (cold_address c Hc) as Ha. destruct Hc as (Hok & _).
  pose proof (with_created_entry_spec c own (acquire_entry now t) Hok ltac:(auto with thesix)) as H.
  unfold acquire. rewrite Ha. unfold entry_at.
  destruct (view c own) as [e|]; [by destruct H as (c' & -> & _ & _ & Hv'); right; cbn; rewrite Hv'|].
  destruct (room_for c own); [by destruct H as (c' & -> & _ & _ & Hv'); right; cbn; rewrite Hv'|].
  destruct H as [-> _]. by left.
Qed.

Lemma session_acquire t : session false (ctl (fun now => acquire now kb t)) granted.
Proof.
  intros now w [Hc _] Hc'. pose proof (acquire_view now t (w_ctl w) Hc) as Hv.
  pose proof (proj1 Hc) as Hok. destruct (entry_at_wf (w_ctl w) own Hok) as [Hwf _].
  destruct (acquire now kb t (w_ctl w)) as [r c']. cbn [fst snd w_ctl set_ctl] in *.
  destruct Hv as [[-> ->]|[-> Hv]]; [by exists false|].
  assert (Hf' : in_flight c' = bool_decide (state (snd (acquire_entry now t (entry_at (w_ctl w) own))) = InFlight))
    by (unfold in_flight; by rewrite Hv).
  rewrite acquire_entry_eq in * by done.
  destruct (is_claimable (state (entry_at (w_ctl w) own))) eqn:Hcl; cbn [fst snd] in *.
  - exists true. split; [|by split; [left|]]. split; [|by rewrite Hf', bool_decide_true].
    unfold in_flight, entry_at in *. destruct (view (w_ctl w) own) as [e|]; [|done]. cbn in Hcl.
    apply bool_decide_false. intros Hs. by rewrite Hs in Hcl.
  - exists false. unfold entry_at in *. destruct (view (w_ctl w) own) as [e|] eqn:Hv0; [|done].
    cbn [default from_option id] in *. cbn [moves]. split; [rewrite Hf'; unfold in_flight; by rewrite Hv0|].
    split; [|done].
    assert (state e <> Ready) by (destruct Hc as (_ & _ & Hu); unfold unready in Hu; by rewrite Hv0 in Hu).
    cbn [snap_state snapshot_of]. destruct (state e); try done; auto.
Qed.

Lemma fail_view err c :
  cold c -> in_flight c = true -> in_flight (snd (fail_with_error kb err c)) = false.
Proof.
  intros Hc Hf. pose proof (cold_address c Hc) as Ha. destruct Hc as (Hok & _).
  destruct (with_entry_view c own (Err Miss) (fail_entry err) Hok ltac:(auto with thesix)) as (_ & _ & Hv).
  unfold fail_with_error. rewrite Ha. unfold in_flight in *. rewrite Hv. by destruct (view c own).
Qed.

Lemma suspends_population : suspends (T := T) cold in_flight (GPopulation kb) true [GPopulation kb].
Proof.
  split; [done|]. intros w [Hc Hf]. specialize (Hf eq_refl). by apply fail_view.
Qed.

Lemma session_fail err : session true (ctl (fun _ => fail_with_error kb err)) (fun b _ => b = false).
Proof.
  intros now w [Hc Hf] _. specialize (Hf eq_refl). exists false. split; [|done].
  pose proof (fail_view err (w_ctl w) Hc Hf) as H. by destruct (fail_with_error kb err (w_ctl w)).
Qed.

(** A publication that succeeds ends the cold phase; one that fails changes
    nothing. *)
Lemma session_publish g rung d :
  session true (ctl (fun now => publish now kb g rung d)) (fun b r => b = true /\ exists e, r = Err e).
Proof.
  intros now w [Hc Hf] Hc'. specialize (Hf eq_refl). pose proof (cold_address (w_ctl w) Hc) as Ha.
  pose proof (with_entry_spec (w_ctl w) own (Err Miss) (publish_entry now g rung d) (proj1 Hc)
                ltac:(auto with thesix)) as H.
  unfold publish in *. rewrite Ha in *. unfold in_flight in Hf.
  destruct (view (w_ctl w) own) as [e|] eqn:Hv; [|done].
  destruct H as (c' & Heq & _ & _ & Hv'). rewrite Heq in *. cbn [fst snd w_ctl set_ctl] in *.
  exists true. unfold publish_entry in *. destruct (_ || _).
  - split; [|by split; [|eexists]]. cbn. unfold in_flight. by rewrite Hv'.
  - exfalso. destruct Hc' as (_ & _ & Hu). unfold unready in Hu. by rewrite Hv' in Hu.
Qed.

(** *** Reading *)

Lemma idle_emit record : idle (emit record).
Proof. by apply idle_step. Qed.

Lemma idle_record_outcome {A} rung (r : res A) : idle (record_outcome rung r).
Proof. apply idle_step. intros now w. by destruct r as [|[]]. Qed.

Lemma idle_get_at rung bounded : idle (await [] bounded (get_at rung kb)).
Proof. apply idle_await. intros now w. apply on_slot_tiers. Qed.

Hint Resolve idle_emit idle_record_outcome idle_get_at : idle.

Lemma idle_observed_read op rung : idle (observed_read op kb rung []).
Proof. unfold observed_read, read_clock, ask. idling. Qed.

Lemma idle_wait : idle (wait_for_population kb).
Proof. unfold wait_for_population, peek_at, ask. idling. Qed.

Lemma idle_control_only {A} rung started outcome e :
  idle (control_only_then (A := A) kb rung started outcome e).
Proof. unfold control_only_then, observed_control_only. idling. Qed.

Lemma idle_fallback cause rungs : idle (try_fallback_rungs (V := V) kb cause rungs).
Proof.
  induction rungs as [|rung rest IH]; cbn [try_fallback_rungs]; [done|].
  unfold record_fallback, read_clock, ask. idling.
Qed.

Hint Resolve idle_observed_read idle_wait idle_control_only idle_fallback : idle.

(** *** The requests *)

Section requests.
Variables (key : K) (ctx : CacheContext).
Hypothesis Hkey : encode_key key ctx = Ok kb.

Lemma idle_wait_and_get : idle (wait_and_get (V := V) key ctx).
Proof. unfold wait_and_get, peek_at, ask. cbn [bind]. rewrite Hkey. idling. Qed.

(** What [peek] reports is not committed. *)
Lemma session_peek :
  session false (peek_at kb) (fun b r => b = false /\ forall s, r = Ok s -> snap_state s <> Ready).
Proof.
  apply session_step; [done|]. intros now w Hc s. cbn [fst].
  rewrite peek_view by apply Hc. rewrite (cold_address _ Hc). intros [= <-].
  destruct Hc as (_ & _ & Hu). unfold unready in Hu. by destruct (view (w_ctl w) own).
Qed.

Variable fetch : Instant -> World T -> res V.

(** An attempt that comes back without an end to the cold phase has failed and
    still holds the claim. *)
Lemma session_populate_once g decision :
  session true (populate_once key kb g ctx fetch decision)
    (fun b r => b = true /\ exists e, r = Err e).
Proof.
  unfold populate_once.
  apply (session_bind _ _ _ _ _ _ _ (fun b _ => b = true)).
  { split; [apply suspends_population|]. split_and!; [done|by intros|by intros]. }
  intros b [v|e] ->; [|by split; [|eexists]].
  eapply session_bind; [by apply session_quiet|]. intros b found ->. cbn beta.
  destruct found as [rung|]; [|by split; [|eexists]]. unfold if_bound.
  eapply session_bind; [by apply session_quiet|]. intros b bound ->. cbn beta.
  destruct bound; [|by split; [|eexists]]. cbn [bind]. rewrite Hkey.
  apply (session_bind _ _ _ _ _ _ _ (fun b _ => b = true)).
  { unfold observed_write. eapply session_bind; [by apply session_quiet|]. intros b started ->.
    apply (session_bind _ _ _ _ _ _ _ (fun b _ => b = true)).
    - split; [apply suspends_population|]. split_and!; [|by intros|by intros].
      intros now w. apply on_slot_tiers.
    - intros b r ->. cbn zeta. eapply session_bind; [by apply session_quiet|]. by intros b u ->. }
  intros b r ->. apply (session_bind _ _ _ _ _ _ _ (fun b _ => b = true)).
  { apply session_quiet. intros now w. by destruct r as [|[]]. }
  intros b u ->. destruct r as [u'|e]; [|by split; [|eexists]].
  eapply session_bind; [apply session_publish|]. intros b r (-> & e & ->). by split; [|eexists].
Qed.

Lemma session_population_failed decision e :
  session true (population_failed (V := V) key kb ctx decision e) (fun b _ => b = false).
Proof.
  unfold population_failed. eapply session_bind; [by apply session_quiet|]. intros b started ->.
  eapply session_bind; [by apply session_quiet|]. intros b u ->.
  eapply session_bind; [apply session_fail|]. intros b r ->.
  destruct (bool_decide _); [done|]. destruct (bool_decide _); [|done].
  unfold try_fallback_tier. cbn [bind]. rewrite Hkey. apply idle_fallback.
Qed.

(** The claim is given back however the population ends. *)
Lemma session_population_loop left g decision :
  session true (population_loop (S left) key kb g ctx decision fetch) (fun b _ => b = false).
Proof.
  induction left as [|left IH]; cbn [population_loop];
    (eapply session_bind; [apply session_populate_once|]; intros b r (-> & e & ->); cbn beta).
  - apply session_population_failed.
  - destruct (_ && _); [|apply session_population_failed]. split; [apply suspends_population|exact IH].
Qed.

Lemma session_become_owner g decision :
  session true (become_population_owner key kb g ctx decision fetch) (fun b _ => b = false).
Proof. apply session_population_loop. Qed.

Lemma session_get_or_fetch : session false (get_or_fetch self key ctx fetch) (fun b _ => b = false).
Proof.
  unfold get_or_fetch. destruct (check_auth ctx); [|done]. cbn [bind]. rewrite Hkey.
  destruct (authorize _); [|done]. cbn [population_attempts MAX_POPULATION_ATTEMPTS].
  eapply session_bind; [apply session_acquire|]. intros b [s|e] Hs; [|done]. cbn [granted] in Hs.
  destruct Hs as [Hs Ho]. rewrite bool_decide_false by (by destruct Hs as [-> |[-> _]]).
  cbn [andb bind]. rewrite bool_decide_false by (by destruct Hs as [-> |[-> _]]). cbn [andb].
  unfold dispatch_acquired. rewrite Ho.
  destruct Hs as [-> |[-> ->]]; [destruct b; cbn [negb]|cbn].
  - apply session_become_owner.
  - apply idle_wait_and_get.
  - apply idle_wait_and_get.
Qed.

Lemma session_get : session false (get (V := V) self key ctx) (fun b _ => b = false).
Proof.
  unfold get. eapply session_bind; [by apply session_quiet|]. intros b started ->. cbn [bind].
  rewrite Hkey. destruct (check_auth ctx); [|apply idle_control_only].
  destruct (authorize _); [|apply idle_control_only].
  eapply session_bind; [apply session_peek|]. intros b [s|e] [-> Hs]; [|done].
  specialize (Hs s eq_refl). unfold get_from. cbn zeta.
  assert (Hw : idle (get_waiting (V := V) kb)) by (unfold get_waiting, peek_at, ask; idling).
  destruct (snap_state s); try done; try apply idle_control_only;
    (destruct (negb _); [exact Hw|apply idle_control_only]).
Qed.

Lemma session_exists : session false (exists_ self key ctx) (fun b _ => b = false).
Proof.
  unfold exists_. cbn [bind]. destruct (allowed self OpExists key ctx); [|done]. rewrite Hkey.
  unfold peek_at, ask. idling.
Qed.

Lemma session_refresh : session false (refresh_detailed self key ctx fetch) (fun b _ => b = false).
Proof.
  unfold refresh_detailed. destruct (check_auth ctx); [|done]. cbn [bind]. rewrite Hkey.
  destruct (authorize _); [|done]. cbn zeta.
  eapply session_bind; [apply session_peek|]. intros b [s|e] [-> Hs]; [|done].
  specialize (Hs s eq_refl).
  assert (Hcur : idle (refresh_current (V := V) kb s)) by (unfold refresh_current; idling).
  eapply session_bind; [exact Hcur|].
  intros b current ->. rewrite bool_decide_false by done. cbn [andb bind].
  eapply session_bind; [apply session_acquire|]. intros b [s'|e] Hs'; [|done]. destruct Hs' as [_ Ho].
  rewrite Ho. destruct b; cbn [negb]; [|done].
  eapply session_bind; [apply session_become_owner|]. intros b r ->.
  destruct r as [v|e]; [done|]. destruct current; [|done].
  unfold record_telemetry_refresh_failure, read_clock, ask. idling.
Qed.
End requests.

(** A request that reads or populates its key. *)
Definition reads (r : request K V T) : Prop :=
  match r with RGet _ _ | RGetOrFetch _ _ _ | RExists _ _ | RRefresh _ _ _ => True | _ => False end.

Lemma session_request (r : request K V T) :
  encode_key (request_key r) (request_ctx r) = Ok kb -> reads r ->
  session false (perform self r) (fun b _ => b = false).
Proof.
  intros Hk Hr. destruct r; try done; cbn [perform request_key request_ctx] in *;
    (apply (session_bind _ _ _ _ _ _ _ (fun b _ => b = false)); [|by intros b a ->]).
  - by apply session_get.
  - by apply session_get_or_fetch.
  - by apply session_exists.
  - by apply session_refresh.
Qed.

(** A request for another key neither takes the claim nor ends the cold phase:
    it evicts committed entries only. *)
Lemma aside_step kb' (w w' : World T) :
  own_address kb' pl <> own -> manager_step kb' pl w w' -> aside cold in_flight w w'.
Proof.
  intros Hne Hs Hc. destruct (undisturbed_step kb' pl w w' (proj1 (proj2 Hc)) Hs) as [Hok Hp Ho].
  assert (Hv : view (w_ctl w') own = view (w_ctl w) own).
  { destruct (Ho (proj1 Hc) own) as [Heq|(e & He & Hst & _)]; [done|exact Heq|].
    destruct Hc as (_ & _ & Hu). unfold unready in Hu. by rewrite He in Hu. }
  unfold cold, unready, in_flight in *. rewrite Hv, Hp. split; [|done].
  destruct Hc as (Hc & ? & ?). auto.
Qed.

#[local] Instance aside_cold : PreOrder (aside (T := T) cold in_flight) := aside_preorder cold in_flight.

Lemma aside_request kb' (r : request K V T) :
  names_key r kb' -> own_address kb' pl <> own ->
  respects (fun w => cold (w_ctl w)) (aside cold in_flight) (perform self r).
Proof.
  intros Hk Hne. apply (respects_stronger (placed pl)); [by intros w (_ & ? & _)|].
  eapply respects_weaken; [|by apply perform_respects]. intros w w' _ Hr Hc. revert Hr.
  intros Hr. apply (rtc_weaken (aside cold in_flight) (fun w => cold (w_ctl w)) (manager_step kb' pl) w w');
    [|by intros w1 w2 _; apply aside_step|done|done|done].
  intros w1 w2 Hc1 Hs. by apply (aside_step kb' w1 w2 Hne Hs).
Qed.
End cold.

Section theorem.
Context {K V P T : Type} `{!Key K} `{!CachePolicy P K V} `{!CacheTier V T}.

(** One step of the whole after which still nothing is committed. *)
Definition cold_step {A} (kb : bytes) (pl : Placement) (c c' : Threads T A) : Prop :=
  threads_step c c' /\ unready kb pl (w_ctl (th_world c')).

(** A schedule in which nothing is committed after any step. *)
Fixpoint cold_along {A} (kb : bytes) (pl : Placement) (choices : list (nat * Instant * pace))
    (c : Threads T A) : Prop :=
  match choices with
  | [] => True
  | (i, now, pc) :: choices =>
      (th_now c <= now)%Z /\ unready kb pl (w_ctl (th_world (schedule i now pc c))) /\
      cold_along kb pl choices (schedule i now pc c)
  end.

Lemma cold_along_run {A} kb pl choices (c : Threads T A) :
  cold_along kb pl choices c -> rtc (cold_step kb pl) c (follow choices c).
Proof.
  revert c. induction choices as [|[[i now] pc] choices IH]; intros c; [done|]. intros (Hn & Hu & Hc).
  eapply rtc_l; [split; [by apply threads_sched|exact Hu]|]. by apply IH.
Qed.

(** The request reads or populates the key, or is about another key. *)
Definition takes_part (kb : bytes) (pl : Placement) (r : request K V T) : Prop :=
  exists kb', encode_key (request_key r) (request_ctx r) = Ok kb' /\
    (kb' = kb /\ reads r \/ own_address kb' pl <> own_address kb pl).

Definition about (kb : bytes) (r : request K V T) : Prop :=
  encode_key (request_key r) (request_ctx r) = Ok kb.

#[export] Instance about_dec kb r : Decision (about kb r).
Proof.
  unfold about. destruct (encode_key _ _) as [b|e]; [|by right].
  destruct (decide (b = kb)) as [->|Hne]; [by left|right; by intros [= ->]].
Defined.

(** The control plane alone. *)
Definition plane_kept (w w' : World T) : Prop :=
  (plane_ok (w_ctl w) -> plane_ok (w_ctl w')) /\ c_placement (w_ctl w') = c_placement (w_ctl w).

#[export] Instance plane_kept_preorder : PreOrder plane_kept.
Proof. split; [by intros w|]. intros w1 w2 w3 [H1 H2] [H3 H4]. split; [auto|congruence]. Qed.

Lemma perform_plane_kept (self : CacheManager P) pl (r : request K V T) :
  respects (placed pl) plane_kept (perform self r).
Proof.
  eapply respects_weaken; [|apply perform_respects, names_key_bytes]. intros w w' Hw Hr.
  apply (rtc_weaken plane_kept (placed pl) (manager_step (key_bytes r) pl)); [| |done|done].
  - intros w1 w2 Hw1 Hs. by eapply manager_step_placed, rtc_once.
  - intros w1 w2 Hw1 Hs. by destruct (undisturbed_step _ _ _ _ Hw1 Hs).
Qed.

Lemma cold_run_holder (self : CacheManager P) (kb : bytes) (pl : Placement)
    (requests : list (request K V T)) (joins : nat -> bool) (c c' : Threads T (response V)) :
  rtc (cold_step kb pl) c c' -> cold kb pl (w_ctl (th_world c)) ->
  all_respect (placed pl) plane_kept c ->
  one_holder (cold kb pl) (in_flight kb pl) (GPopulation kb) joins c ->
  one_holder (cold kb pl) (in_flight kb pl) (GPopulation kb) joins c'.
Proof.
  intros Hr. induction Hr as [c|c c1 c' [Hs Hu] _ IH]; [done|]. intros Hc Hall Hone.
  destruct Hs as [c i now pc _]. pose proof Hc as (Hok & Hp & _).
  assert (Hpl : forall w1 w2 : World T, placed pl w1 -> plane_kept w1 w2 -> placed pl w2).
  { intros w1 w2 H1 [_ H2]. unfold placed in *. congruence. }
  destruct (schedule_respects (placed pl) plane_kept Hpl i now pc c Hp Hall) as [[Hok' Hp'] Hall'].
  assert (Hc' : cold kb pl (w_ctl (th_world (schedule i now pc c)))) by (split_and!; [auto|congruence|done]).
  apply IH; [done..|]. by apply schedule_one_holder.
Qed.

(** C3. A cold stampede is single flight. However many callers read, refresh or
    get-or-fetch a key at the same time, among any requests for other keys,
    whatever the scheduler does, however many fetches fail, time out or are
    dropped: as long as nothing has been committed under the key, at most one
    of them is ever inside a population -- its fetch, the write of what was
    fetched, the pause before the next attempt -- and while it is, the entry
    is [InFlight]. *)
Theorem cold_stampede_is_single_flight (self : CacheManager P) (kb : bytes)
    (requests : list (request K V T)) (w : World T) (t : Instant) (c : Threads T (response V))
    (Hok : plane_ok (w_ctl w))
    (Hcold : unready kb (c_placement (w_ctl w)) (w_ctl w))
    (Hreq : Forall (takes_part kb (c_placement (w_ctl w))) requests)
    (Hrun : rtc (cold_step kb (c_placement (w_ctl w))) (spawn (map (perform self) requests) w t) c) :
  let inside i := exists r p, requests !! i = Some r /\ about kb r /\
    th_progs c !! i = Some (Some p) /\ populating kb p in
  (forall i j, inside i -> inside j -> i = j) /\
  (forall i, inside i -> in_flight kb (c_placement (w_ctl w)) (w_ctl (th_world c)) = true).
Proof.
  set (pl := c_placement (w_ctl w)) in *. intros inside.
  set (joins := fun i => match requests !! i with Some r => bool_decide (about kb r) | None => false end).
  assert (Hone : one_holder (cold kb pl) (in_flight kb pl) (GPopulation kb) joins c).
  { eapply cold_run_holder; [exact self|exact requests|exact Hrun|done| |].
    - unfold all_respect, spawn. cbn. rewrite map_map. apply Forall_map, Forall_true. intros r.
      apply perform_plane_kept.
    - exists (fun _ => false). split_and!; [|done|done]. intros i o Hi. cbn in Hi.
      rewrite map_map, list_lookup_fmap in Hi.
      destruct (requests !! i) as [r|] eqn:Hr; [|done]. injection Hi as <-.
      destruct (Forall_lookup_1 _ _ _ _ Hreq Hr) as (kb' & Hk & Hcase).
      unfold thread_ok, joins. rewrite Hr.
      destruct Hcase as [[-> Hreads]|Hne].
      + rewrite bool_decide_true by done. by apply session_request.
      + rewrite bool_decide_false by (unfold about; rewrite Hk; by intros [= ->]). split; [done|].
        apply (aside_request self kb pl kb'); [|done]. intros b Hb. congruence. }
  assert (Hjoins : forall i, inside i -> joins i = true /\
    exists p, th_progs c !! i = Some (Some p) /\ GPopulation kb ∈ armed_guards p).
  { intros i (r & p & Hr & Ha & Hp & Hg). split; [|by exists p]. unfold joins. rewrite Hr.
    by apply bool_decide_true. }
  split.
  - intros i j Hi Hj. destruct (Hjoins i Hi) as (Hji & p & Hp & Hgp), (Hjoins j Hj) as (Hjj & q & Hq & Hgq).
    by apply (one_holder_armed (cold kb pl) (in_flight kb pl) (GPopulation kb) joins i j c p q).
  - intros i Hi. destruct (Hjoins i Hi) as (Hji & p & Hp & Hgp).
    destruct Hone as (holds & Hall & Htaken & _). apply Hall in Hp. rewrite Hji in Hp. cbn in Hp.
    apply (Htaken i). by apply (session_armed (cold kb pl) (in_flight kb pl) (GPopulation kb) _ p _ Hp).
Qed.
End theorem.

(** ** Executions *)

#[local] Instance stampede_hasher : DefaultHasher := fun _ => 0%Z.

(** The demo key, its framed bytes, and a fetch that returns when it ran. *)
Definition hot_key : bytes := [107%Z].
Definition hot_bytes : bytes := [0%Z; 107%Z].
Definition timed_fetch : Instant -> World (L1Stub bytes) -> res bytes := fun now _ => Ok [now].

Definition calls (requests : list (request bytes bytes (L1Stub bytes))) (w : World (L1Stub bytes)) :
    Threads (L1Stub bytes) (response bytes) :=
  spawn (map (perform demo_manager) requests) w 0.

(** [n] steps of thread [i] at [now], none of them late. *)
Definition turns (n i : nat) (now : Instant) : list (nat * Instant * pace) := replicate n (i, now, OnTime).

(** The guards under which the threads are suspended, and what those that are
    done returned. *)
Definition suspended (c : Threads (L1Stub bytes) (response bytes)) : list (list guard) :=
  map (fun o => match o with Some p => armed_guards p | None => [] end) (th_progs c).
Definition answers (c : Threads (L1Stub bytes) (response bytes)) : list (option (response bytes)) :=
  map (fun o => match o with Some (Ret a) => Some a | _ => None end) (th_progs c).

Lemma suspended_populating c i gs kb :
  suspended c !! i = Some gs -> GPopulation kb ∈ gs ->
  exists p, th_progs c !! i = Some (Some p) /\ populating kb p.
Proof.
  unfold suspended. rewrite list_lookup_fmap. destruct (th_progs c !! i) as [[p|]|]; cbn.
  - intros [= <-] Hg. by exists p.
  - intros [= <-] Hg. by apply elem_of_nil in Hg.
  - done.
Qed.

(** Three callers of one key and a writer of another; one caller populates. *)
Lemma cold_stampede_is_single_flight_witness :
  let requests := [RGetOrFetch hot_key demo_ctx timed_fetch; RGetOrFetch hot_key demo_ctx timed_fetch;
                   RGet hot_key demo_ctx; RSet [108%Z] [1%Z] demo_ctx] in
  let c := follow [(1, 5%Z, OnTime); (0, 5%Z, OnTime); (3, 5%Z, OnTime)] (calls requests (demo_world demo_plane)) in
  suspended c = [[]; [GPopulation hot_bytes]; []; []] /\
  in_flight hot_bytes PlaceDefault (w_ctl (th_world c)) = true.
Proof.
  intros requests c. split; [vm_compute; reflexivity|].
  destruct (cold_stampede_is_single_flight demo_manager hot_bytes requests (demo_world demo_plane) 0%Z c)
    as [_ H].
  - apply with_placement_ok.
  - vm_compute. exact Logic.I.
  - do 3 (apply Forall_cons; split;
      [exists hot_bytes; split; [vm_compute; reflexivity|left; split; [reflexivity|exact Logic.I]]|]).
    apply Forall_singleton. exists [0%Z; 108%Z]. split; [vm_compute; reflexivity|right].
    vm_compute. intros H'. discriminate H'.
  - apply cold_along_run. vm_compute. repeat split; discriminate.
  - destruct (suspended_populating c 1 [GPopulation hot_bytes] hot_bytes) as (p & Hp & Hg).
    + vm_compute. reflexivity.
    + apply list_elem_of_singleton. reflexivity.
    + apply (H 1). exists (RGetOrFetch hot_key demo_ctx timed_fetch), p.
      split; [reflexivity|]. split; [vm_compute; reflexivity|]. split; [exact Hp|exact Hg].
Defined.

(** An emptied entry is fetched by every caller. An entry that is still
    [Ready] but whose value is gone from its rung -- here because a [remove]
    has cleared the rungs and not yet released the entry -- is granted to
    nobody and populated by everybody: three callers are inside their fetch at
    the same time and the entry is not even [InFlight]. The comment in
    [get_or_fetch] says the re-acquire keeps single flight for exactly this
    entry; the code re-acquires expired entries only. *)
Theorem emptied_entry_is_fetched_by_every_caller :
  let written := snd (run (alone (fun _ => 1%Z) (fun _ => OnTime)) 0
                        (set demo_manager hot_key [7%Z] demo_ctx) (demo_world demo_plane)) in
  let caller := RGetOrFetch hot_key demo_ctx timed_fetch in
  let start := calls [RRemove hot_key demo_ctx; caller; caller; caller] written in
  let c := follow (turns 7 0 5 ++ turns 5 1 5 ++ turns 5 2 5 ++ turns 5 3 5) start in
  suspended c = [[]; [GPopulation hot_bytes]; [GPopulation hot_bytes]; [GPopulation hot_bytes]] /\
  in_flight hot_bytes PlaceDefault (w_ctl (th_world c)) = false.
Proof. vm_compute. by split. Qed.

(** Marking an expired entry stale is not atomic with noticing that it
    expired. Two callers that both saw the expiry both own a population of the
    key -- the second one's mark undoes the first one's claim -- and the first
    to publish is told [StaleGeneration] although its fetch succeeded. And a
    [get] that saw the expiry marks whatever is there by then: a value that a
    [set] has committed in between, and reported as [Ok], is a miss from then
    on, where without that [get] it is read back. *)
Theorem expiry_mark_is_not_atomic :
  let short := with_ttl demo_ctx 10 in
  let written := snd (run (alone (fun _ => 1%Z) (fun _ => OnTime)) 0
                        (set demo_manager hot_key [7%Z] short) (demo_world demo_plane)) in
  let caller := RGetOrFetch hot_key demo_ctx timed_fetch in
  let start := calls [caller; caller; RGet hot_key demo_ctx; RSet hot_key [8%Z] demo_ctx] written in
  let both := turns 1 0 50 ++ turns 1 1 50 ++ turns 2 0 50 ++ turns 2 1 50 in
  let read c := fst (run (alone (fun _ => 60%Z) (fun _ => OnTime)) 0
                       (get (V := bytes) demo_manager hot_key demo_ctx) (th_world c)) in
  suspended (follow both start) = [[GPopulation hot_bytes]; [GPopulation hot_bytes]; []; []] /\
  answers (follow (both ++ turns 12 0 51 ++ turns 12 1 52) start) =
    [Some (AFetched (Err StaleGeneration)); Some (AFetched (Ok [52%Z])); None; None] /\
  answers (follow (turns 2 2 50 ++ turns 12 3 51 ++ turns 4 2 52) start) =
    [None; None; Some (AValue (Err Miss)); Some (ADone (Ok tt))] /\
  read (follow (turns 2 2 50 ++ turns 12 3 51 ++ turns 4 2 52) start) = Some (Err Miss) /\
  read (follow (turns 12 3 51) start) = Some (Ok (Some [8%Z])).
Proof. vm_compute. by repeat split. Qed.
