(* ===== verification/Bounded.v ===== *)
(** * How often a request may wait

    Every loop of the manager has a budget. Here the budgets add up: the number
    of awaits, pauses and waits for a wake-up of each request has an explicit
    bound, whatever other callers do and whatever the backends answer. *)

From stdpp Require Import relations.
From S2P Require Import Prelude Entry Integrity Key Tier Continuity Policy TierTrait Telemetry.
From S2P Require Import Pool FixedTier ShardedTier Stubs ControlEntry Shard Cachelito Plane Protocol.
From S2P Require Import Commit Prog Manager Steps Guarantee ReadYourWrite.

Section awaits.
Context {T : Type}.

(** The awaits an execution goes through, the one it is dropped at included. *)
Fixpoint awaited {A} (env : Env T) (n : nat) (p : prog T A) (w : World T) : nat :=
  match p with
  | Ret _ => 0
  | Step f k =>
      let '(b, w) := f (env_clock env n) (env_others env n w) in awaited env (S n) (k b) w
  | Await armed bounded op k =>
      let w := env_others env n w in
      let '(r, w') := op (env_clock env n) w in
      S match env_pace env n with
        | OnTime => awaited env (S n) (k r) w'
        | LateLost => if bounded then awaited env (S n) (k (Err Timeout)) w else awaited env (S n) (k r) w'
        | LateApplied =>
            if bounded then awaited env (S n) (k (Err Timeout)) w' else awaited env (S n) (k r) w'
        | DroppedLost | DroppedApplied => 0
        end
  | Pause armed k =>
      let w := env_others env n w in
      S match env_pace env n with
        | DroppedLost | DroppedApplied => 0
        | _ => awaited env (S n) k w
        end
  | Notified armed a seen k =>
      let w := env_others env n w in
      S match env_pace env n with
        | DroppedLost | DroppedApplied => 0
        | OnTime => awaited env (S n) (k (if seen <? wakeups a w then Ok tt else Err Timeout)) w
        | _ => awaited env (S n) (k (Err Timeout)) w
        end
  end.

(** At most [n] awaits on every path, in the worlds that satisfy [I]. *)
Context (I : World T -> Prop).

Fixpoint aw {A} (n : nat) (p : prog T A) : Prop :=
  match p with
  | Ret _ => True
  | Step f k => forall now w, I w -> aw n (k (fst (f now w)))
  | Await armed bounded op k =>
      match n with
      | O => False
      | S n => (forall now w, I w -> aw n (k (fst (op now w)))) /\ (bounded = true -> aw n (k (Err Timeout)))
      end
  | Pause armed k => match n with O => False | S n => aw n k end
  | Notified armed a seen k => match n with O => False | S n => forall r, aw n (k r) end
  end.

Lemma aw_mono {A} (p : prog T A) m n : m <= n -> aw m p -> aw n p.
Proof.
  revert m n. induction p as [a|B f k IH|B armed b op k IH|armed k IH|armed a s k IH];
    intros m n Hmn; cbn; [done|by eauto|..]; (destruct m as [|m]; [done|]);
    (destruct n as [|n]; [lia|]); apply le_S_n in Hmn.
  - intros [Hk Ht]. split; eauto.
  - by apply IH.
  - eauto.
Qed.

Lemma aw_bind {A B} m n total (p : prog T A) (f : A -> prog T B) :
  aw m p -> (forall a, aw n (f a)) -> m + n <= total -> aw total (bind p f).
Proof.
  intros Hp Hf Ht. apply (aw_mono _ (m + n)); [done|]. clear Ht. revert m Hp.
  induction p as [a|C g k IH|C armed b op k IH|armed k IH|armed a s k IH]; intros m Hp; cbn in *.
  - eapply aw_mono; [|apply Hf]. lia.
  - intros now w Hw. by apply IH, Hp.
  - destruct m as [|m]; [done|]. cbn. destruct Hp as [Hk Hb]. split; intros; apply IH; auto.
  - destruct m as [|m]; [done|]. cbn. by apply IH.
  - destruct m as [|m]; [done|]. cbn. intros r. by apply IH.
Qed.

(** The same, with what the first part returns. *)
Lemma aw_bind_returns {A B} m n total (p : prog T A) (f : A -> prog T B) (phi : A -> Prop) :
  aw m p -> returns p phi -> (forall a, phi a -> aw n (f a)) -> m + n <= total -> aw total (bind p f).
Proof.
  intros Hp Hphi Hf Ht. apply (aw_mono _ (m + n)); [done|]. clear Ht. revert m Hp Hphi.
  induction p as [a|C g k IH|C armed b op k IH|armed k IH|armed a s k IH]; intros m Hp Hphi; cbn in *.
  - eapply aw_mono; [|by apply Hf]. lia.
  - intros now w Hw. apply IH; auto.
  - destruct m as [|m]; [done|]. cbn. destruct Hp as [Hk Hb], Hphi as [Hk' Hb'].
    split; intros; apply IH; auto.
  - destruct m as [|m]; [done|]. cbn. by apply IH.
  - destruct m as [|m]; [done|]. cbn. intros r. by apply IH.
Qed.

(** The counted run stays within the bound. *)
Lemma awaited_bound {A} (G : World T -> World T -> Prop) (env : Env T) n (p : prog T A) w bound :
  (forall w w', I w -> G w w' -> I w') -> (forall m w, I w -> I (env_others env m w)) ->
  respects I G p -> aw bound p -> I w -> awaited env n p w <= bound.
Proof.
  intros HI He. revert n w bound.
  induction p as [a|B f k IH|B armed b op k IH|armed k IH|armed a s k IH];
    intros n w bound Hr Ha Hw; cbn in *; [lia|..].
  - pose proof (He n w Hw) as Hw1. destruct (Hr (env_clock env n) _ Hw1) as [Hg Hk].
    specialize (Ha (env_clock env n) _ Hw1). destruct (f _ _) as [x w']. cbn in *. eauto.
  - destruct bound as [|bound]; [done|]. pose proof (He n w Hw) as Hw1. destruct Hr as (Hop & _ & Ht).
    destruct Ha as [Hk Hto], (Hop (env_clock env n) _ Hw1) as [Hg Hrk].
    specialize (Hk (env_clock env n) _ Hw1). destruct (op _ _) as [r w']. cbn in *.
    apply le_n_S. destruct (env_pace env n); try destruct b; eauto; lia.
  - destruct bound as [|bound]; [done|]. pose proof (He n w Hw) as Hw1. destruct Hr as [_ Hr].
    apply le_n_S. destruct (env_pace env n); eauto; lia.
  - destruct bound as [|bound]; [done|]. pose proof (He n w Hw) as Hw1. destruct Hr as [_ Hr].
    apply le_n_S. destruct (env_pace env n); eauto; lia.
Qed.
End awaits.

Lemma aw_stronger {T A} (I I' : World T -> Prop) n (p : prog T A) :
  (forall w, I' w -> I w) -> aw I n p -> aw I' n p.
Proof.
  intros HI. revert n. induction p as [a|B f k IH|B armed b op k IH|armed k IH|armed a s k IH];
    intros n; cbn; [done|by eauto|..]; (destruct n as [|n]; [done|]).
  - intros [Hk Ht]. split; eauto.
  - apply IH.
  - eauto.
Qed.

Create HintDb awaits.

(** Programs that never wait. *)
Section free.
Context {T : Type} (I : World T -> Prop).

Lemma aw_ret {A} n (a : A) : aw I n (Ret a).
Proof. done. Qed.

Lemma aw_step {B} n (f : Instant -> World T -> B * World T) : aw I n (atomically f).
Proof. by intros now w Hw. Qed.

Lemma aw_ctl {B} n (op : Instant -> Cachelito -> B * Cachelito) : aw I n (ctl op).
Proof. apply aw_step. Qed.

Lemma aw_ask {B} n (f : Instant -> World T -> B) : aw I n (ask f).
Proof. apply aw_step. Qed.

Lemma aw_await {B} n armed bounded (op : Instant -> World T -> res B * World T) :
  aw I (S n) (await armed bounded op).
Proof. by split. Qed.

Lemma aw_pause n armed : aw I (S n) (pause armed).
Proof. done. Qed.

Lemma aw_notified n armed a seen : aw I (S n) (notified armed a seen).
Proof. done. Qed.

Lemma aw_free {A B} n (p : prog T A) (k : A -> prog T B) :
  aw I 0 p -> (forall a, aw I n (k a)) -> aw I n (bind p k).
Proof. intros Hp Hk. by apply (aw_bind I 0 n). Qed.

Lemma aw_one {A B} n (p : prog T A) (k : A -> prog T B) :
  aw I 1 p -> (forall a, aw I n (k a)) -> aw I (S n) (bind p k).
Proof. intros Hp Hk. by apply (aw_bind I 1 n). Qed.

Lemma aw_if_bound {A} n rung (absent k : prog T A) :
  aw I n absent -> aw I n k -> aw I n (if_bound rung absent k).
Proof. intros Ha Hk. apply aw_free; [apply aw_ask|]. by intros []. Qed.
End free.
#[export] Hint Resolve aw_ret aw_step aw_ctl aw_ask aw_await aw_pause aw_notified : awaits.

(** Walk through a program: what is free, what waits once, case analysis. *)
Ltac aw1 :=
  match goal with
  | |- aw _ _ (bind (Ret _) _) => cbn [bind]
  | |- aw _ _ (if_bound _ _ _) => apply aw_if_bound
  | |- aw _ _ (match ?x with _ => _ end) => destruct x
  | |- aw _ _ (let _ := _ in _) => cbn zeta
  | |- aw _ _ _ => solve [auto with awaits]
  | |- aw _ _ (bind _ _) => first [apply aw_free; [solve [auto with awaits]|]|apply aw_one; [solve [auto with awaits]|]]
  | |- forall _, _ => intros ?
  end.
Ltac aws := repeat aw1.

Section operations.
Context {K V P T : Type} `{!Key K} `{!CachePolicy P K V} `{!CacheTier V T}.
Context (self : CacheManager P) (rungs : nat).

Abbreviation AW := (aw (fun w : World T => length (w_tiers w) = rungs)).

Lemma aw_emit n r : AW n (emit r).
Proof. apply aw_step. Qed.
Lemma aw_read_clock n : AW n read_clock.
Proof. apply aw_ask. Qed.
Lemma aw_peek n kb : AW n (peek_at kb).
Proof. apply aw_ask. Qed.
Lemma aw_record_outcome {A} n rung (r : res A) : AW n (record_outcome rung r).
Proof. apply aw_step. Qed.
Lemma aw_drop_here n g : AW n (drop_here g).
Proof. apply aw_step. Qed.
Hint Resolve aw_emit aw_read_clock aw_peek aw_record_outcome aw_drop_here : awaits.

Lemma aw_mark_stale n kb : AW n (mark_stale kb).
Proof. unfold mark_stale. aws. Qed.
Lemma aw_abort_here n token e : AW n (abort_here token e).
Proof. unfold abort_here. aws. Qed.
Lemma aw_abort_clean_here n token e : AW n (abort_clean_here token e).
Proof. unfold abort_clean_here. aws. Qed.
Lemma aw_record_fallback n kb rung cause : AW n (record_fallback kb rung cause).
Proof. unfold record_fallback. aws. Qed.
Lemma aw_refresh_failure n kb s cause : AW n (record_telemetry_refresh_failure kb s cause).
Proof. unfold record_telemetry_refresh_failure. aws. Qed.
Lemma aw_control_only {A} n kb rung started o e : AW n (control_only_then (A := A) kb rung started o e).
Proof. unfold control_only_then, observed_control_only. aws. Qed.
Hint Resolve aw_mark_stale aw_abort_here aw_abort_clean_here aw_record_fallback aw_refresh_failure
  aw_control_only : awaits.

Lemma aw_observed_read n op kb rung armed : AW (S n) (observed_read op kb rung armed).
Proof. unfold observed_read. aws. Qed.
Lemma aw_observed_write n op kb rung armed v ttl' : AW (S n) (observed_write op kb rung armed v ttl').
Proof. unfold observed_write. aws. Qed.
Lemma aw_wait n kb : AW (S n) (wait_for_population kb).
Proof. unfold wait_for_population. aws. Qed.
Hint Resolve aw_observed_read aw_observed_write aw_wait : awaits.

Lemma aw_wait_and_get n key ctx : AW (S (S n)) (wait_and_get (V := V) key ctx).
Proof. unfold wait_and_get. aws. Qed.
Hint Resolve aw_wait_and_get : awaits.

Lemma aw_get key ctx : AW 2 (get (V := V) self key ctx).
Proof. unfold get, get_from, get_ready, get_waiting. aws. Qed.

(** ** Population *)

Lemma aw_fallback_rungs n kb cause l : AW (length l + n) (try_fallback_rungs (V := V) kb cause l).
Proof.
  induction l as [|rung l IH]; cbn [try_fallback_rungs length]; [done|]. cbn zeta.
  assert (AW (S (length l + n)) (try_fallback_rungs (V := V) kb cause l)) by (eapply aw_mono; [|exact IH]; lia).
  cbn [plus]. aws.
Qed.

Lemma aw_try_fallback key ctx cause : AW 6 (try_fallback_tier (V := V) key ctx cause).
Proof.
  unfold try_fallback_tier. cbn [bind]. destruct (encode_key key ctx); [|done].
  change 6 with (length cache_ladder + 0). apply aw_fallback_rungs.
Qed.
Hint Resolve aw_try_fallback : awaits.

Lemma aw_population_failed key kb ctx decision e : AW 6 (population_failed (V := V) key kb ctx decision e).
Proof. unfold population_failed. aws. Qed.

Lemma aw_populate_once n key kb g ctx fetch decision :
  AW (S (S n)) (populate_once (V := V) key kb g ctx fetch decision).
Proof. unfold populate_once, await_fetch. aws. Qed.

(** Two awaits and a pause an attempt, and the fallback at the end. *)
Lemma aw_population_loop left key kb g ctx decision fetch :
  AW (3 * left + 5) (population_loop (V := V) left key kb g ctx decision fetch).
Proof.
  induction left as [|left IH]; cbn [population_loop]; [done|].
  apply (aw_bind _ 2 (3 * left + 6)); [apply aw_populate_once| |lia]. intros [v|e]; [done|].
  destruct (_ && _).
  - apply (aw_bind _ 1 (3 * left + 5)); [auto with awaits|by intros _|lia].
  - eapply aw_mono; [|apply aw_population_failed]. lia.
Qed.

Definition POPULATION_AWAITS : nat := 3 * MAX_POPULATE_ATTEMPTS + 5.

Lemma aw_become_owner key kb g ctx decision fetch :
  AW POPULATION_AWAITS (become_population_owner (V := V) key kb g ctx decision fetch).
Proof. apply aw_population_loop. Qed.

Lemma aw_population_attempts left key kb ctx decision fetch :
  AW (2 * left + POPULATION_AWAITS) (population_attempts (V := V) left key kb ctx decision fetch).
Proof.
  induction left as [|left IH]; cbn [population_attempts]; [done|]. cbn zeta.
  assert (Hd : forall s, AW (S (2 * left + POPULATION_AWAITS))
    (dispatch_acquired (V := V) key kb ctx decision fetch
       (population_attempts left key kb ctx decision fetch) s)).
  { intros s. assert (Hown : AW (S (2 * left + POPULATION_AWAITS))
      (become_population_owner (V := V) key kb (snap_generation s) ctx decision fetch))
      by (eapply aw_mono; [|apply aw_become_owner]; lia).
    assert (Hwait : AW (S (2 * left + POPULATION_AWAITS)) (wait_and_get (V := V) key ctx)).
    { eapply aw_mono; [|apply (aw_wait_and_get 0)]. unfold POPULATION_AWAITS. lia. }
    unfold dispatch_acquired. aws. }
  replace (2 * S left + POPULATION_AWAITS) with (S (S (2 * left + POPULATION_AWAITS))) by lia.
  assert (Hd' : forall s, AW (S (S (2 * left + POPULATION_AWAITS)))
    (dispatch_acquired (V := V) key kb ctx decision fetch
       (population_attempts left key kb ctx decision fetch) s))
    by (intros s; eapply aw_mono; [|apply Hd]; lia).
  apply aw_free; [auto with awaits|]. intros [first|e]; [|done].
  apply aw_free; [destruct (_ && _); aws|]. intros [s|e]; [|done].
  destruct (_ && _); [|apply Hd']. apply aw_if_bound; [done|].
  apply aw_one; [auto with awaits|]. intros [[v|]|e]; [done|apply Hd|done].
Qed.

Definition FETCH_AWAITS : nat := 2 * MAX_POPULATION_ATTEMPTS + POPULATION_AWAITS.

Lemma aw_get_or_fetch key ctx fetch : AW FETCH_AWAITS (get_or_fetch (V := V) self key ctx fetch).
Proof.
  unfold get_or_fetch. destruct (check_auth ctx); [|done]. cbn [bind].
  destruct (encode_key key ctx); [|done]. destruct (authorize _); [|done]. apply aw_population_attempts.
Qed.

(** ** Writing *)

Lemma aw_set_races left kb value ctx rung : AW (2 * left) (set_races (V := V) left kb value ctx rung).
Proof.
  induction left as [|left IH]; cbn [set_races]; [done|].
  replace (2 * S left) with (S (S (2 * left))) by lia.
  apply aw_free; [auto with awaits|]. intros [token|e]; [|done]. cbn zeta.
  apply aw_one; [auto with awaits|]. intros r. apply aw_free; [auto with awaits|]. intros _.
  destruct r as [[]|e].
  - apply aw_free; [done|]. intros _. apply aw_free; [auto with awaits|]. intros [[]|e]; [done|].
    destruct e; aws.
  - apply (aw_bind _ 1 0); [destruct e; auto with awaits| |lia]. intros _.
    apply aw_free; [destruct (write_provably_stored_nothing e); auto with awaits|done].
Qed.

(** No await at all: eviction is synchronous. *)
Lemma aw_evict_rung left rung : AW 0 (try_evict_at_rung (V := V) left rung).
Proof. induction left as [|left IH]; cbn [try_evict_at_rung]; aws. Qed.

Lemma aw_free_rungs left l : AW 0 (try_free_rungs (V := V) left l).
Proof.
  revert left. induction l as [|rung l IH]; intros left; cbn [try_free_rungs]; [done|].
  apply aw_if_bound; [apply IH|]. apply aw_free; [apply aw_evict_rung|]. intros [[] ?]; [done|apply IH].
Qed.

Definition RUNG_AWAITS : nat := 2 * MAX_COMMIT_ATTEMPTS.

Lemma aw_set_walk n kb value ctx rung last : AW (n * RUNG_AWAITS) (set_walk (V := V) n kb value ctx rung last).
Proof.
  revert rung last. induction n as [|n IH]; intros rung last; cbn [set_walk]; [done|].
  destruct (negb _); [done|]. apply aw_if_bound; [eapply aw_mono; [|apply IH]; lia|].
  apply (aw_bind _ RUNG_AWAITS (n * RUNG_AWAITS)); [apply aw_set_races| |lia]. intros [r|e]; [done|apply IH].
Qed.

Definition WALK_AWAITS : nat := WALK_BOUND * RUNG_AWAITS.

Lemma aw_set_passes n kb value ctx start last :
  AW (n * WALK_AWAITS) (set_passes (V := V) n kb value ctx start last).
Proof.
  revert last. induction n as [|n IH]; intros last; cbn [set_passes]; [done|].
  apply (aw_bind _ WALK_AWAITS (n * WALK_AWAITS)); [apply aw_set_walk| |lia]. intros [r|e]; [done|].
  destruct (bool_decide _); [|done]. apply aw_free; [apply aw_free_rungs|]. intros []; [apply IH|done].
Qed.

Definition SET_AWAITS : nat := S MAX_EVICTION_PASSES * WALK_AWAITS.

Lemma aw_set key value ctx : AW SET_AWAITS (set self key value ctx).
Proof.
  unfold set. destruct (check_auth ctx); [|done]. cbn [bind]. destruct (encode_key key ctx) as [kb|]; [|done].
  apply aw_free; [auto with awaits|]. intros [s|e]; [|done]. apply aw_free; [auto with awaits|].
  intros d. destruct (authorize d); [|done]. destruct (bool_decide _); [done|]. apply aw_set_passes.
Qed.

(** ** The other requests *)

Lemma aw_invalidate key ctx : AW 0 (invalidate (V := V) self key ctx).
Proof. unfold invalidate. aws. Qed.

Lemma aw_remove_from n slots kb : AW (length slots + n) (remove_from (V := V) slots kb).
Proof.
  induction slots as [|slot slots IH]; cbn [remove_from length plus]; [done|].
  destruct (_ =? _); [eapply aw_mono; [|exact IH]; lia|]. by apply aw_one; [auto with awaits|].
Qed.

(** One await for each bound rung. *)
Lemma aw_remove key ctx : AW rungs (remove (V := V) self key ctx).
Proof.
  unfold remove. cbn [bind]. destruct (allowed _ _ _ _); [|done].
  destruct (encode_key key ctx) as [kb|]; [|done]. intros now w Hw. cbn [fst bind].
  apply (aw_bind _ rungs 0); [|intros _; aws|lia].
  eapply aw_mono; [|apply (aw_remove_from 0)]. rewrite length_seq. lia.
Qed.

Lemma aw_exists key ctx : AW 1 (exists_ (V := V) self key ctx).
Proof. unfold exists_. aws. Qed.

Lemma aw_refresh key ctx fetch :
  AW (S POPULATION_AWAITS) (refresh_detailed (V := V) self key ctx fetch).
Proof.
  unfold refresh_detailed. destruct (check_auth ctx); [|done]. cbn [bind].
  destruct (encode_key key ctx) as [kb|]; [|done]. destruct (authorize _); [|done]. cbn zeta.
  apply aw_free; [auto with awaits|]. intros [before|e]; [|done].
  apply aw_one; [unfold refresh_current; aws|]. intros current.
  apply aw_free; [destruct (_ && _); auto with awaits|]. intros _.
  apply aw_free; [auto with awaits|]. intros [s|e]; [|done]. destruct (negb _); [done|].
  apply (aw_bind _ POPULATION_AWAITS 0); [apply aw_become_owner| |lia].
  intros [v|e]; [done|]. destruct current; aws.
Qed.

(** Reading the source, writing the destination, cleaning up either. *)
Lemma aw_move_entry key kb s to ctx : AW 4 (move_entry (V := V) key kb s to ctx).
Proof. unfold move_entry, move_value, abort_with. aws. Qed.
Hint Resolve aw_move_entry : awaits.

Lemma aw_promote key ctx : AW 4 (promote (V := V) self key ctx).
Proof. unfold promote. aws. Qed.

Lemma aw_demote key ctx : AW 4 (demote (V := V) self key ctx).
Proof. unfold demote. aws. Qed.
End operations.

Section requests.
Context {K V P T : Type} `{!Key K} `{!CachePolicy P K V} `{!CacheTier V T}.

(** The awaits a request may go through, with so many rungs bound. *)
Definition request_awaits (rungs : nat) (r : request K V T) : nat :=
  match r with
  | RGet _ _ => 2
  | RGetOrFetch _ _ _ => FETCH_AWAITS
  | RSet _ _ _ => SET_AWAITS
  | RInvalidate _ _ => 0
  | RRemove _ _ => rungs
  | RExists _ _ => 1
  | RRefresh _ _ _ => S POPULATION_AWAITS
  | RPromote _ _ | RDemote _ _ => 4
  end.

Lemma aw_perform self rungs (r : request K V T) :
  aw (fun w : World T => length (w_tiers w) = rungs) (request_awaits rungs r) (perform (P := P) self r).
Proof.
  destruct r; cbn [perform request_awaits];
    (eapply aw_bind; [first [apply aw_get|apply aw_get_or_fetch|apply aw_set|apply aw_invalidate|apply aw_remove
      |apply aw_exists|apply aw_refresh|apply aw_promote|apply aw_demote]|intros a; apply (aw_ret _ 0)|lia]).
Qed.

(** C15. Every request ends, after a number of awaits fixed in advance. Whatever
    other callers do -- as long as no rung is bound or unbound meanwhile --
    whatever the backends answer, at any pace: [get] waits at most twice,
    [get_or_fetch] 30 times, [refresh] 15 times, a move 4 times, [set] 15232
    times, [exists] once, [remove] once a rung and [invalidate] never; and
    unless the caller drops it, the request returns. *)
Theorem requests_wait_boundedly (self : CacheManager P) (r : request K V T) (env : Env T) (n : nat)
    (w : World T)
    (Hothers : forall m w, length (w_tiers (env_others env m w)) = length (w_tiers w) /\
                           c_placement (w_ctl (env_others env m w)) = c_placement (w_ctl w)) :
  awaited env n (perform self r) w <= request_awaits (length (w_tiers w)) r /\
  (fst (run env n (perform self r) w) = None -> dropped env n) /\
  (FETCH_AWAITS, S POPULATION_AWAITS, SET_AWAITS) = (30, 15, 15232).
Proof.
  split; [|split; [apply run_finishes|reflexivity]].
  set (rungs := length (w_tiers w)). set (pl := c_placement (w_ctl w)).
  apply (awaited_bound (fun w => length (w_tiers w) = rungs /\ placed pl w)
           (rtc (manager_step (key_bytes r) pl))).
  - intros w1 w2 [Hl Hp] Hr. split; [|by eapply manager_step_placed].
    assert (H : authority_only_read (V := V) w1 w2).
    { apply (rtc_weaken authority_only_read (placed pl) (manager_step (key_bytes r) pl)); [| |done|done].
      - intros w3 w4 Hw Hs. by eapply manager_step_placed, rtc_once.
      - intros w3 w4. apply authority_step. }
    by rewrite (aor_rungs _ _ H).
  - intros m w1 [Hl Hp]. unfold placed in *. destruct (Hothers m w1) as [-> ->]. done.
  - eapply respects_stronger; [|apply perform_respects, names_key_bytes]. by intros w1 [_ ?].
  - eapply aw_stronger; [|apply aw_perform]. by intros w1 [? _].
  - done.
Qed.
End requests.

Lemma requests_wait_boundedly_witness :
  let _ : DefaultHasher := fun _ => 0%Z in
  awaited demo_env 0 (perform demo_manager demo_set) (demo_world demo_plane) <= 15232.
Proof.
  intros hasher.
  exact (proj1 (requests_wait_boundedly demo_manager demo_set demo_env 0 (demo_world demo_plane)
    (fun m w => conj eq_refl eq_refl))).
Defined.
