(* ===== verification/Recovery.v ===== *)
(** * Recovery of stranded intents, and what [refresh] does with expiry

    What a recovery pass of [src/manager.rs] does to each entry and what it
    reports: a stale write that is still prepared is failed and its intent
    dropped; of a stale move only the claim is released, which fails the entry
    as well but keeps the intent; everything else stays, stale intents on
    entries that are not prepared included. *)

From S2P Require Import Prelude Entry Integrity Key Tier Continuity Policy TierTrait Telemetry.
From S2P Require Import Pool FixedTier ShardedTier Stubs ControlEntry Shard Cachelito Plane Protocol.
From S2P Require Import Commit Sweeps Prog Manager Steps Guarantee.

Section recovery.
Context {T : Type}.

(** What recovery does to one entry by the kind of its stranded intent. *)
Definition recover_kind (k : IntentKind) (e : ControlEntry) : ControlEntry :=
  match k with
  | Write => snd (abort_intent_entry UncommittedIntent e)
  | Move => snd (release_claim_entry e)
  end.

(** Whether the transition changes the entry: only a prepared one, and for a move
    only if it is claimed. *)
Definition recovery_acts (k : IntentKind) (e : ControlEntry) : bool :=
  bool_decide (state e = Prepared) &&
  match k with Write => bool_decide (is_Some (intent e)) | Move => is_population_owner e end.

Lemma recover_kind_idle k e : recovery_acts k e = false -> recover_kind k e = e.
Proof.
  unfold recovery_acts. destruct k; cbn [recover_kind].
  - unfold abort_intent_entry. destruct (intent e) as [i|]; [|done].
    rewrite (bool_decide_true (is_Some _)), andb_true_r by done. by intros ->.
  - unfold release_claim_entry. destruct (bool_decide (state e = Prepared)); [|done].
    cbn. by intros ->.
Qed.

(** An entry it changes is failed, one generation later, unclaimed and with its
    waiters woken; a write's intent is gone, a move's is kept. *)
Lemma recover_kind_acts k e i :
  intent e = Some i -> recovery_acts k e = true ->
  let e' := recover_kind k e in
  state e' = Failed /\ generation e' = add64 (generation e) 1 /\ is_population_owner e' = false /\
  tier e' = tier e /\ ttl e' = ttl e /\ ce_notified e' = S (ce_notified e) /\
  match k with
  | Write => intent e' = None /\ last_error e' = decode_error (encode_error (Some UncommittedIntent))
  | Move => intent e' = Some i /\ last_error e' = last_error e
  end.
Proof.
  intros Hi (Hs & Hk)%andb_true_iff. destruct k; cbn [recover_kind] in *; cbn zeta.
  - unfold abort_intent_entry. rewrite Hi, Hs. cbn [negb snd]. by split_and!.
  - unfold release_claim_entry. rewrite Hs, Hk. cbn [negb orb snd]. rewrite <- Hi. by split_and!.
Qed.

Lemma recover_kind_settles k e : recovery_acts k e = true -> forall k', recovery_acts k' (recover_kind k e) = false.
Proof.
  intros (Hs & Hk)%andb_true_iff k'. unfold recovery_acts. apply andb_false_iff. left.
  destruct k; cbn [recover_kind] in *.
  - apply bool_decide_eq_true in Hk as [i Hi]. unfold abort_intent_entry. by rewrite Hi, Hs.
  - unfold release_claim_entry. by rewrite Hs, Hk.
Qed.

Definition stranded (now : Instant) (age : Duration) (e : ControlEntry) : option CommitIntent :=
  match intent e with
  | Some i =>
      if (ci_started_nanos i <=? sat_sub64 (instant_to_nanos now) (wrap64 age))%Z then Some i else None
  | None => None
  end.

(** ... and to any entry of the plane. *)
Definition recovered (now : Instant) (age : Duration) (e : ControlEntry) : ControlEntry :=
  match stranded now age e with Some i => recover_kind (ci_kind i) e | None => e end.

(** Each address is worked on by the transition of its own kind. *)
Lemma recover_step k a c :
  plane_ok c ->
  let r := match k with
           | Write => abort_intent_by_address a UncommittedIntent c
           | Move => release_population_claim a c
           end in
  fst r = Ok (match view c a with Some e => recovery_acts k e | None => false end) /\
  plane_ok (snd r) /\
  forall b, view (snd r) b = if decide (b = a) then recover_kind k <$> view c b else view c b.
Proof.
  intros Hok. cbn zeta.
  set (po := match k with Write => PoAbortIntent a UncommittedIntent | Move => PoReleaseClaim a end).
  destruct (plane_exec_spec c po Hok) as (Hok' & _ & Hv).
  assert (Heq : snd (match k with
                     | Write => abort_intent_by_address a UncommittedIntent c
                     | Move => release_population_claim a c
                     end) = plane_exec c po) by (by destruct k).
  rewrite Heq. split_and!; [|done|].
  - unfold abort_intent_by_address, release_population_claim. destruct k;
      rewrite with_entry_result by auto with thesix; destruct (view c a) as [e|]; try done; cbn;
      unfold recovery_acts.
    + unfold abort_intent_entry. destruct (intent e); [|by rewrite andb_false_r].
      rewrite (bool_decide_true (is_Some _)), andb_true_r by done. by destruct (bool_decide _).
    + unfold release_claim_entry. destruct (bool_decide _); [|done]. by destruct (is_population_owner e).
  - intros b. rewrite Hv. unfold spec_exec.
    assert (Ha : op_address c po = a) by (by destruct k). rewrite Ha.
    assert (Hc : op_creates po = false) by (by destruct k).
    destruct (decide (b = a)) as [->|]; [|done].
    destruct (view c a); cbn; [|by rewrite Hc]. by destruct k.
Qed.

(** One report after one more intent. *)
Definition report_intent (k : IntentKind) (acts : bool) (r : RecoveryReport) : RecoveryReport :=
  match k with
  | Write => mkRecoveryReport (rr_recovered r + (if acts then 1 else 0)) (rr_failed r)
               (rr_needs_reconciliation r) (rr_released_for_reconciliation r)
  | Move => mkRecoveryReport (rr_recovered r) (rr_failed r) (S (rr_needs_reconciliation r))
              (rr_released_for_reconciliation r + (if acts then 1 else 0))
  end.

Lemma fold_left_report (items : list (KeyAddress * CommitIntent)) acts acts' r :
  (forall p, p ∈ items -> acts p = acts' p) ->
  fold_left (fun r p => report_intent (ci_kind (snd p)) (acts p) r) items r =
  fold_left (fun r p => report_intent (ci_kind (snd p)) (acts' p) r) items r.
Proof.
  revert r. induction items as [|p items IH]; intros r Heq; [done|]. cbn [fold_left].
  rewrite (Heq p) by left. apply IH. intros q Hq. apply Heq. by right.
Qed.

Definition of_kind (k : IntentKind) (p : KeyAddress * CommitIntent) : bool :=
  bool_decide (ci_kind (snd p) = k).

(** What the loop adds up to. *)
Lemma fold_report_counts items acts r :
  let r' := fold_left (fun r p => report_intent (ci_kind (snd p)) (acts p) r) items r in
  rr_failed r' = rr_failed r /\
  rr_recovered r' = rr_recovered r + count_if (fun p => of_kind Write p && acts p) items /\
  rr_needs_reconciliation r' = rr_needs_reconciliation r + count_if (of_kind Move) items /\
  rr_released_for_reconciliation r' =
    rr_released_for_reconciliation r + count_if (fun p => of_kind Move p && acts p) items.
Proof.
  revert r. induction items as [|p items IH]; intros r; cbn zeta.
  { unfold count_if. cbn. split_and!; lia. }
  cbn [fold_left]. destruct (IH (report_intent (ci_kind (snd p)) (acts p) r)) as (H1 & H2 & H3 & H4).
  assert (Hw : of_kind Write p = match ci_kind (snd p) with Write => true | Move => false end)
    by (unfold of_kind; by destruct (ci_kind (snd p))).
  assert (Hm : of_kind Move p = match ci_kind (snd p) with Write => false | Move => true end)
    by (unfold of_kind; by destruct (ci_kind (snd p))).
  rewrite H1, H2, H3, H4, !count_if_cons, Hw, Hm.
  destruct (ci_kind (snd p)), (acts p); cbn -[count_if]; split_and!; lia.
Qed.

(** The loop over stale intents of distinct addresses: each is worked on once,
    as the plane was when the pass began. *)
Lemma recover_each_spec items report clock pc n (w : World T) :
  NoDup (items.*1) -> plane_ok (w_ctl w) ->
  let acts p := match view (w_ctl w) (fst p) with
                | Some e => recovery_acts (ci_kind (snd p)) e | None => false end in
  exists w', run (alone clock pc) n (recover_each items report) w =
      (Some (fold_left (fun r p => report_intent (ci_kind (snd p)) (acts p) r) items report), w') /\
    plane_ok (w_ctl w') /\
    (forall a i, (a, i) ∈ items -> view (w_ctl w') a = recover_kind (ci_kind i) <$> view (w_ctl w) a) /\
    (forall a, ~ a ∈ items.*1 -> view (w_ctl w') a = view (w_ctl w) a).
Proof.
  revert report n w. induction items as [|[a i] items IH]; intros report n w Hnd Hok acts.
  - exists w. cbn. split_and!; try done. by intros a i ?%elem_of_nil.
  - cbn [fmap list_fmap fst] in Hnd. apply NoDup_cons in Hnd as [Hnew Hnd].
    destruct (recover_step (ci_kind i) a (w_ctl w) Hok) as (Hr & Hok1 & Hv1).
    set (r := match ci_kind i with
              | Write => abort_intent_by_address a UncommittedIntent (w_ctl w)
              | Move => release_population_claim a (w_ctl w)
              end) in *.
    assert (Hother : forall b, b <> a -> view (snd r) b = view (w_ctl w) b)
      by (intros b Hb; by rewrite Hv1, decide_False).
    destruct (IH (report_intent (ci_kind i) (acts (a, i)) report) (S n) (set_ctl (snd r) w) Hnd Hok1)
      as (w' & Hrun & Hok' & Hin & Hout). cbn [w_ctl set_ctl] in Hin, Hout, Hrun.
    exists w'. split; [|split_and!; [done| |]].
    + cbn [fold_left fst snd]. rewrite <- (fold_left_report items acts _ (report_intent _ _ _)) in Hrun.
      2: { intros [b j] Hb. cbn [fst snd]. unfold acts. cbn [fst snd]. rewrite Hother; [done|].
           intros ->. apply Hnew, list_elem_of_fmap. by exists (a, j). }
      rewrite <- Hrun. unfold acts. cbn [fst snd]. cbn [recover_each]. subst r.
      destruct (ci_kind i); cbn -[recovery_acts];
        [destruct (abort_intent_by_address a UncommittedIntent (w_ctl w)) as [r c]
        |destruct (release_population_claim a (w_ctl w)) as [r c]]; cbn [fst snd] in *; subst r;
        cbn -[recovery_acts]; (destruct (match view (w_ctl w) a with Some _ => _ | None => _ end));
        rewrite ?Nat.add_0_r, ?Nat.add_1_r; by destruct report.
    + intros b j [[= -> ->]|Hb]%elem_of_cons.
      * rewrite Hout by done. by rewrite Hv1, decide_True.
      * rewrite (Hin b j Hb), Hother; [done|]. intros ->. apply Hnew, list_elem_of_fmap. by exists (a, j).
    + intros b [Hne Hb]%not_elem_of_cons. by rewrite Hout, Hother.
Qed.

(** *** A whole pass *)

(** The intent a pass finds on an entry, and whether it acts on it. *)
Definition stranded_as (now : Instant) (age : Duration) (k : IntentKind) (e : ControlEntry) : bool :=
  match stranded now age e with Some i => bool_decide (ci_kind i = k) | None => false end.

Definition acted_on (now : Instant) (age : Duration) (k : IntentKind) (e : ControlEntry) : bool :=
  stranded_as now age k e && recovery_acts k e.

Lemma stale_intents_eq now age c :
  stale_intents now (wrap64 age) c =
  omap (fun e => pair (ce_address e) <$> stranded now age e) (sweep_entries c).
Proof.
  unfold stale_intents, stranded. apply list_omap_ext, Forall_Forall2_diag, Forall_forall. intros e _.
  destruct (intent e) as [i|]; [|done]. by destruct (_ <=? _)%Z.
Qed.

Lemma stale_intents_NoDup now age c : plane_ok c -> NoDup ((stale_intents now (wrap64 age) c).*1).
Proof.
  intros Hok. rewrite stale_intents_eq, list_fmap_omap.
  apply (sublist_NoDup _ (map ce_address (sweep_entries c))); [by apply sweep_entries_NoDup|].
  induction (sweep_entries c) as [|e l IH]; [constructor|]. cbn.
  destruct (stranded now age e); cbn; by constructor.
Qed.

Lemma elem_of_stale_intents now age c a i :
  plane_ok c ->
  (a, i) ∈ stale_intents now (wrap64 age) c <->
  exists e, view c a = Some e /\ stranded now age e = Some i.
Proof.
  intros Hok. rewrite (stale_intents_spec _ _ _ _ _ Hok). unfold stranded.
  split; intros (e & Hv & He); exists e; (split; [done|]).
  - destruct He as [-> He]. by rewrite (proj2 (Z.leb_le _ _) He).
  - destruct (intent e) as [j|]; [|done]. destruct (Z.leb_spec (ci_started_nanos j)
      (sat_sub64 (instant_to_nanos now) (wrap64 age))); [|done]. by injection He as ->.
Qed.

Lemma recovery_pass age clock pc n (w : World T) :
  plane_ok (w_ctl w) ->
  exists rep w', run (alone clock pc) n (recover_older_than age) w = (Some rep, w') /\
    plane_ok (w_ctl w') /\
    (forall a, view (w_ctl w') a = recovered (clock n) age <$> view (w_ctl w) a) /\
    rr_failed rep = 0 /\
    rr_recovered rep = count_if (acted_on (clock n) age Write) (sweep_entries (w_ctl w)) /\
    rr_needs_reconciliation rep = count_if (stranded_as (clock n) age Move) (sweep_entries (w_ctl w)) /\
    rr_released_for_reconciliation rep =
      count_if (acted_on (clock n) age Move) (sweep_entries (w_ctl w)).
Proof.
  intros Hok. set (now := clock n). set (items := stale_intents now (wrap64 age) (w_ctl w)).
  destruct (recover_each_spec items RecoveryReport_default clock pc (S n) w
    (stale_intents_NoDup now age _ Hok) Hok) as (w' & Hrun & Hok' & Hin & Hout).
  eexists _, w'. split; [exact Hrun|]. split; [done|].
  set (acts := fun p => match view (w_ctl w) (fst p) with
                        | Some e => recovery_acts (ci_kind (snd p)) e | None => false end) in *.
  assert (Hcount : forall k (b : bool),
    count_if (fun p => of_kind k p && (b || acts p)) items =
    count_if (fun e => stranded_as now age k e && (b || recovery_acts k e)) (sweep_entries (w_ctl w))).
  { intros k b. unfold items. rewrite stale_intents_eq, count_if_omap. apply count_if_ext.
    intros e He%sweep_entries_view; [|done]. unfold stranded_as, of_kind, acts.
    destruct (stranded now age e) as [i|]; cbn [fst snd fmap option_fmap option_map]; [|done].
    rewrite He. by destruct (bool_decide_reflect (ci_kind i = k)) as [->|]. }
  destruct (fold_report_counts items acts RecoveryReport_default) as (H1 & H2 & H3 & H4).
  split_and!; [|done| | |].
  - intros a. destruct (view (w_ctl w) a) as [e|] eqn:He; cbn.
    + unfold recovered. fold now. destruct (stranded now age e) as [i|] eqn:Hs.
      * rewrite (Hin a i), He; [done|]. apply elem_of_stale_intents; eauto.
      * rewrite Hout, He; [done|]. intros ([a' i] & -> & Hi)%list_elem_of_fmap.
        apply elem_of_stale_intents in Hi as (e' & He' & Hs'); [|done]. cbn in He. congruence.
    + rewrite Hout, He; [done|]. intros ([a' i] & -> & Hi)%list_elem_of_fmap.
      apply elem_of_stale_intents in Hi as (e' & He' & Hs'); [|done]. cbn in He. congruence.
  - etransitivity; [exact H2|]. exact (Hcount Write false).
  - etransitivity; [exact H3|]. cbn. etransitivity; [|etransitivity; [exact (Hcount Move true)|]];
      apply count_if_ext; intros; cbn; by rewrite andb_true_r.
  - etransitivity; [exact H4|]. exact (Hcount Move false).
Qed.

(** What the pass leaves of a stranded entry. *)
Lemma recovered_stranded now age e :
  match stranded now age (recovered now age e) with
  | Some i => stranded now age e = Some i /\ recovery_acts (ci_kind i) (recovered now age e) = false
  | None => stranded now age e = None \/ acted_on now age Write e = true
  end.
Proof.
  unfold recovered. destruct (stranded now age e) as [i|] eqn:Hs; [|rewrite Hs; by left].
  assert (Hi : intent e = Some i).
  { unfold stranded in Hs. destruct (intent e); [|done]. by destruct (_ <=? _)%Z. }
  destruct (recovery_acts (ci_kind i) e) eqn:Hacts.
  - destruct (recover_kind_acts (ci_kind i) e i Hi Hacts) as (_&_&_&_&_&_&Hk).
    pose proof (recover_kind_settles _ _ Hacts (ci_kind i)) as Hset.
    unfold stranded in Hs |- *. rewrite Hi in Hs. destruct (ci_kind i) eqn:Hkind.
    + destruct Hk as [-> _]. right. unfold acted_on, stranded_as, stranded. rewrite Hi.
      destruct (_ <=? _)%Z; [|done]. by rewrite bool_decide_true.
    + destruct Hk as [-> _]. destruct (_ <=? _)%Z; [|done]. by rewrite Hkind.
  - rewrite recover_kind_idle by done. by rewrite Hs.
Qed.

Lemma recovered_idem now age e : recovered now age (recovered now age e) = recovered now age e.
Proof.
  pose proof (recovered_stranded now age e) as H. unfold recovered at 1.
  destruct (stranded now age (recovered now age e)) as [i|]; [|done].
  destruct H as [_ H]. by apply recover_kind_idle.
Qed.

(** The entries after a pass are the recovered entries. *)
Lemma sweep_entries_recovered now age (c c' : Cachelito) :
  plane_ok c -> plane_ok c' -> (forall a, view c' a = recovered now age <$> view c a) ->
  sweep_entries c' ≡ₚ map (recovered now age) (sweep_entries c).
Proof.
  intros Hok Hok' Hv.
  assert (Haddr : forall e, ce_address (recovered now age e) = ce_address e).
  { intros e. unfold recovered. destruct (stranded now age e) as [i|]; [|done].
    destruct (ci_kind i); cbn.
    - unfold abort_intent_entry. destruct (intent e); [|done]. by destruct (negb _).
    - unfold release_claim_entry. by destruct (_ || _). }
  apply NoDup_Permutation.
  - by eapply NoDup_fmap_1, (sweep_entries_NoDup c' Hok').
  - apply (NoDup_fmap_1 ce_address). change (@fmap list _) with (@map).
    rewrite map_map, (map_ext _ _ Haddr). by apply sweep_entries_NoDup.
  - intros e'. rewrite sweep_entries_view, Hv by done. split.
    + intros (e & He & ->)%fmap_Some. apply list_elem_of_fmap. exists e. split; [done|].
      apply sweep_entries_view; [done|]. by rewrite Haddr in He.
    + intros (e & -> & He)%list_elem_of_fmap. apply sweep_entries_view in He; [|done].
      by rewrite Haddr, He.
Qed.

(** C20. What a recovery pass does, exactly. An entry with no intent as old as the
    age asked for stays as it is. A stranded write that is still [Prepared] is
    failed one generation later, its claim and its intent dropped, its error
    recorded and its waiters woken. Of a stranded move that is [Prepared] and
    claimed, the claim is released -- which fails the entry one generation
    later too -- but the intent is kept: the move is not resolved. A stranded
    intent on any other entry stays, with the entry. The report counts the
    writes failed, the moves found, and the claims released; no step fails. A
    second pass at the same instant changes nothing, recovers and releases
    nothing, and finds the same moves to reconcile. *)
Theorem recovery_is_exact (age : Duration) (clock : nat -> Instant) (pc : nat -> pace) (n : nat)
    (w : World T) (Hok : plane_ok (w_ctl w)) :
  let now := clock n in
  exists rep w', run (alone clock pc) n (recover_older_than age) w = (Some rep, w') /\
    (forall a, view (w_ctl w) a = None -> view (w_ctl w') a = None) /\
    (forall a e, view (w_ctl w) a = Some e -> exists e', view (w_ctl w') a = Some e' /\
       match stranded now age e with
       | Some i =>
           if recovery_acts (ci_kind i) e then
             state e' = Failed /\ generation e' = add64 (generation e) 1 /\
             is_population_owner e' = false /\ tier e' = tier e /\ ttl e' = ttl e /\
             ce_notified e' = S (ce_notified e) /\
             match ci_kind i with
             | Write => intent e' = None /\
                        last_error e' = decode_error (encode_error (Some UncommittedIntent))
             | Move => intent e' = Some i /\ last_error e' = last_error e
             end
           else e' = e
       | None => e' = e
       end) /\
    rr_failed rep = 0 /\
    rr_recovered rep = count_if (acted_on now age Write) (sweep_entries (w_ctl w)) /\
    rr_needs_reconciliation rep = count_if (stranded_as now age Move) (sweep_entries (w_ctl w)) /\
    rr_released_for_reconciliation rep = count_if (acted_on now age Move) (sweep_entries (w_ctl w)) /\
    exists rep2 w2, run (alone (fun _ => now) pc) 0 (recover_older_than age) w' = (Some rep2, w2) /\
      (forall a, view (w_ctl w2) a = view (w_ctl w') a) /\
      rep2 = mkRecoveryReport 0 0 (rr_needs_reconciliation rep) 0.
Proof.
  intros now. destruct (recovery_pass age clock pc n w Hok)
    as (rep & w' & Hrun & Hok' & Hv & Hf & Hr & Hn & Hl). fold now in Hv, Hr, Hn, Hl.
  exists rep, w'. split; [done|]. split; [intros a Ha; by rewrite Hv, Ha|]. split.
  { intros a e He. rewrite Hv, He. eexists. split; [done|]. unfold recovered.
    destruct (stranded now age e) as [i|] eqn:Hs; [|done].
    destruct (recovery_acts (ci_kind i) e) eqn:Hacts; [|by apply recover_kind_idle].
    apply recover_kind_acts; [|done].
    unfold stranded in Hs. destruct (intent e); [|done]. by destruct (_ <=? _)%Z. }
  do 4 (split; [done|]).
  destruct (recovery_pass age (fun _ => now) pc 0 w' Hok')
    as (rep2 & w2 & Hrun2 & _ & Hv2 & Hf2 & Hr2 & Hn2 & Hl2). cbn beta in *.
  exists rep2, w2. split; [done|]. split.
  { intros a. rewrite Hv2, Hv. destruct (view (w_ctl w) a); [|done]. cbn. by rewrite recovered_idem. }
  pose proof (sweep_entries_recovered now age _ _ Hok Hok' Hv) as Hperm.
  rewrite (count_if_permutation _ _ _ Hperm), count_if_map in Hr2.
  rewrite (count_if_permutation _ _ _ Hperm), count_if_map in Hn2.
  rewrite (count_if_permutation _ _ _ Hperm), count_if_map in Hl2.
  assert (Hzero : forall k e, acted_on now age k (recovered now age e) = false).
  { intros k e. pose proof (recovered_stranded now age e) as H. unfold acted_on, stranded_as.
    destruct (stranded now age (recovered now age e)) as [i|]; [|done]. destruct H as [_ H].
    destruct (bool_decide_reflect (ci_kind i = k)) as [<-|]; [exact H|done]. }
  rewrite count_if_none in Hr2 by done. rewrite count_if_none in Hl2 by done.
  assert (Hkeep : forall e, stranded_as now age Move (recovered now age e) = stranded_as now age Move e).
  { intros e. pose proof (recovered_stranded now age e) as H. unfold stranded_as.
    destruct (stranded now age (recovered now age e)) as [i|]; [by destruct H as [-> _]|].
    destruct H as [->|H]; [done|]. unfold acted_on, stranded_as in H.
    destruct (stranded now age e) as [i|]; [|done]. by destruct (ci_kind i). }
  rewrite (count_if_ext _ (stranded_as now age Move)), <- Hn in Hn2 by done.
  destruct rep2; cbn in *; congruence.
Qed.
End recovery.

(** A prepared write seven nanoseconds into its life, recovered at once. *)
Lemma recovery_is_exact_witness :
  exists rep w', run (alone (T := L1Stub bytes) (fun _ => 19%Z) (fun _ => OnTime)) 0
                   (recover_older_than 7) (demo_world demo_prepared) = (Some rep, w') /\
    rr_recovered rep = 1 /\ rr_failed rep = 0.
Proof.
  destruct (recovery_is_exact 7 (fun _ => 19%Z) (fun _ => OnTime) 0 (demo_world demo_prepared)
    (proj1 (plane_reachable_ok 2 2 PlaceDefault demo_prepared demo_prepared_reachable)))
    as (rep & w' & Hrun & _ & _ & Hf & Hr & _).
  exists rep, w'. split; [exact Hrun|]. split; [|exact Hf]. rewrite Hr. vm_compute. reflexivity.
Defined.
