(* ===== verification/Governor.v ===== *)
(** * The governor

    Models [src/governor/mod.rs] and [src/governor/census.rs]: what a tick
    observes, the pure planner [plan_tick], and the execution of a plan through
    the manager's public operations. The rungs are bound through hot-swappable
    handles; the governor holds the handles of the rungs it may rebind. The
    background task of [task.rs] repeats [tick]. *)

From S2P Require Import Prelude Entry Integrity Key Tier Capability Continuity Policy TierTrait.
From S2P Require Import Stubs Telemetry ControlEntry Shard Cachelito Prog Manager.
From Stdlib Require Import Floats.SpecFloat.
From stdpp Require Import sorting gmap.

(** ** Settings *)

Inductive GovernorMode : Type := Manual | SemiAutonomous | FullyAutonomous.

#[export] Instance GovernorMode_eq_dec : EqDecision GovernorMode.
Proof. solve_decision. Defined.

Definition executes_maintenance (m : GovernorMode) : bool :=
  match m with SemiAutonomous | FullyAutonomous => true | Manual => false end.

Definition executes_moves (m : GovernorMode) : bool :=
  match m with FullyAutonomous => true | _ => false end.

Record GovernorSettings : Type := mkSettings {
  gs_mode : GovernorMode;
  gs_interval : Duration;
  gs_max_moves_per_tick : nat;
  gs_max_rebinds_per_tick : nat;
  gs_pressure_threshold : f64;
  gs_hot_heat : Z;
  gs_recover_after : option Duration
}.

(** The double nearest to 0.85, and [f64::EPSILON]. *)
Definition f64_085 : f64 := S754_finite false 7656119366529843 (-53).
Definition f64_epsilon : f64 := S754_finite false 4503599627370496 (-104).

Definition GovernorSettings_default : GovernorSettings :=
  mkSettings Manual 30000000000 8 2 f64_085 8 None.

(** ** Plans and reports *)

Inductive Skip : Type := NoHeatSource | NoCensus.

Record GovernorPlan : Type := mkPlan {
  gp_recovery_sweep : bool;
  gp_expire_sweep : bool;
  gp_rebind : list TierId;
  gp_promote : list nat;
  gp_demote : list nat;
  gp_skipped : list Skip
}.

Record GovernorReport : Type := mkReport {
  gr_plan : GovernorPlan;
  gr_recovered_intents : nat;
  gr_needs_reconciliation : nat;
  gr_expired_demoted : nat;
  gr_rebinds_done : nat;
  gr_rebind_failures : nat;
  gr_rebinding_not_configured : bool;
  gr_promoted : nat;
  gr_demoted : nat;
  gr_move_failures : nat
}.

(** A report of nothing done yet. *)
Definition report_of (p : GovernorPlan) : GovernorReport := mkReport p 0 0 0 0 0 false 0 0 0.

Definition report_recovery (r : RecoveryReport) (g : GovernorReport) : GovernorReport :=
  mkReport (gr_plan g) (rr_recovered r) (rr_needs_reconciliation r) (gr_expired_demoted g)
    (gr_rebinds_done g) (gr_rebind_failures g) (gr_rebinding_not_configured g) (gr_promoted g)
    (gr_demoted g) (gr_move_failures g).

Definition report_expired (n : nat) (g : GovernorReport) : GovernorReport :=
  mkReport (gr_plan g) (gr_recovered_intents g) (gr_needs_reconciliation g) n
    (gr_rebinds_done g) (gr_rebind_failures g) (gr_rebinding_not_configured g) (gr_promoted g)
    (gr_demoted g) (gr_move_failures g).

Definition report_rebind (done failed : nat) (unconfigured : bool) (g : GovernorReport) :
    GovernorReport :=
  mkReport (gr_plan g) (gr_recovered_intents g) (gr_needs_reconciliation g) (gr_expired_demoted g)
    (gr_rebinds_done g + done) (gr_rebind_failures g + failed)
    (gr_rebinding_not_configured g || unconfigured) (gr_promoted g) (gr_demoted g)
    (gr_move_failures g).

Definition report_moves (promoted demoted failed : nat) (g : GovernorReport) : GovernorReport :=
  mkReport (gr_plan g) (gr_recovered_intents g) (gr_needs_reconciliation g) (gr_expired_demoted g)
    (gr_rebinds_done g) (gr_rebind_failures g) (gr_rebinding_not_configured g)
    (gr_promoted g + promoted) (gr_demoted g + demoted) (gr_move_failures g + failed).

(** ** Observations *)

Record CensusEntryView : Type := mkView {
  cv_index : nat;
  cv_identity : KeyIdentity;
  cv_tier : TierId;
  cv_state : EntryState
}.

Record Observation : Type := mkObservation {
  ob_stats : PlaneStats;
  ob_rung_capacity : list (option nat);
  ob_rung_state : list ContinuityState;
  ob_census : list CensusEntryView
}.

#[export] Instance KeyIdentity_countable : Countable KeyIdentity :=
  inj_countable' (fun k => (kid_digest k, kid_len k)) (fun p => mkKeyIdentity (fst p) (snd p))
    ltac:(by intros []).

(** [HashMap<KeyIdentity, u64>] *)
Abbreviation Heat := (gmap KeyIdentity Z).

Definition heat_of (h : Heat) (k : KeyIdentity) : Z := default 0%Z (h !! k).

(** ** The planner *)

Definition rung_occupancy (o : Observation) (rung : TierId) : option f64 :=
  match ob_rung_capacity o !! as_usize rung with
  | Some (Some cap) =>
      if cap =? 0 then None
      else Some (f64_div (f64_of_usize (default 0 (ps_by_tier (ob_stats o) !! as_usize rung)))
                   (f64_of_usize cap))
  | _ => None
  end.

Definition is_degraded (o : Observation) (t : TierId) : bool :=
  match ob_rung_state o !! as_usize t with
  | Some CsDegraded | Some CsUnavailable => true
  | _ => false
  end.

(** [sort_by_key(Reverse(as_usize))] *)
Definition deeper (a b : TierId) : Prop := as_usize b <= as_usize a.
#[export] Instance deeper_dec : RelDecision deeper.
Proof. intros a b. unfold deeper. apply _. Defined.

(** [sort_by_key(Reverse((heat, index)))] *)
Definition hotter (h : Heat) (a b : CensusEntryView) : Prop :=
  (heat_of h (cv_identity b) < heat_of h (cv_identity a))%Z \/
  (heat_of h (cv_identity b) = heat_of h (cv_identity a) /\ cv_index b <= cv_index a).
#[export] Instance hotter_dec h : RelDecision (hotter h).
Proof. intros a b. unfold hotter. apply _. Defined.

Definition promotable (h : Heat) (s : GovernorSettings) (v : CensusEntryView) : bool :=
  bool_decide (cv_state v = Ready) && is_cache_rung (cv_tier v) && (0 <? as_usize (cv_tier v))
  && (gs_hot_heat s <=? heat_of h (cv_identity v))%Z.

Definition under_pressure (o : Observation) (s : GovernorSettings) (t : TierId) : bool :=
  is_cache_rung t
  && match rung_occupancy o t with
     | Some ratio => f64_leb (gs_pressure_threshold s) (f64_add ratio f64_epsilon)
     | None => false
     end.

Definition coolable (o : Observation) (h : Heat) (s : GovernorSettings) (v : CensusEntryView) : bool :=
  bool_decide (cv_state v = Ready) && is_cache_rung (cv_tier v)
  && (as_usize (cv_tier v) <? as_usize LAST_CACHE_TIER) && under_pressure o s (cv_tier v)
  && (heat_of h (cv_identity v) =? 0)%Z.

Definition plan_rebind (o : Observation) (s : GovernorSettings) : list TierId :=
  take (gs_max_rebinds_per_tick s)
    (merge_sort deeper (List.filter (fun t => is_cache_rung t && is_degraded o t) TierId_ALL)).

Definition plan_promote (o : Observation) (h : Heat) (s : GovernorSettings) : list nat :=
  map cv_index (take (gs_max_moves_per_tick s)
    (merge_sort (hotter h) (List.filter (promotable h s) (ob_census o)))).

(** The demotions are planned only if the promotions left some budget, and then
    without counting against it. *)
Definition plan_demote (o : Observation) (h : Heat) (s : GovernorSettings) (promoted : nat) :
    list nat :=
  if 0 <? gs_max_moves_per_tick s - promoted
  then map cv_index (List.filter (coolable o h s) (ob_census o)) else [].

Definition plan_tick (o : Observation) (h : Heat) (s : GovernorSettings) : GovernorPlan :=
  let rebind := plan_rebind o s in
  match ob_census o with
  | [] => mkPlan true true rebind [] [] [NoCensus]
  | _ =>
      if bool_decide (h = ∅) then mkPlan true true rebind [] [] [NoHeatSource]
      else
        let promote := plan_promote o h s in
        mkPlan true true rebind promote (plan_demote o h s (length promote)) []
  end.

(** ** The census *)

Definition MANAGER_KEY_BUDGET : nat := 256.

Record CensusKey (K : Type) : Type := mkCensusKey {
  ck_key : K;
  ck_framed : bytes;
  ck_identity : KeyIdentity
}.
Arguments mkCensusKey {K}.
Arguments ck_key {K} _.
Arguments ck_framed {K} _.
Arguments ck_identity {K} _.

Record KeyCensus (K : Type) : Type := mkCensus {
  kc_context : CacheContext;
  kc_entries : Mutex (list (CensusKey K))
}.
Arguments mkCensus {K}.
Arguments kc_context {K} _.
Arguments kc_entries {K} _.

Definition KeyCensus_new {K} (c : CacheContext) : KeyCensus K := mkCensus c (new_mutex []).

Definition census_entries {K} (self : KeyCensus K) : list (CensusKey K) :=
  default [] (lock (kc_entries self)).

Definition census_len {K} (self : KeyCensus K) : nat := length (census_entries self).

Definition register {K} `{Key K} (key : K) (self : KeyCensus K) : res (CensusKey K) * KeyCensus K :=
  match Key.encode key (replicate MANAGER_KEY_BUDGET 0%Z) with
  | (Err e, _) => (Err e, self)
  | (Ok encoded, raw) =>
      match frame_tenant_key (tenant (identity (kc_context self))) (take (Z.to_nat encoded) raw)
              (replicate MANAGER_KEY_BUDGET 0%Z) with
      | (Err e, _) => (Err e, self)
      | (Ok len, buf) =>
          let framed := take (Z.to_nat len) buf in
          let entry := mkCensusKey key framed (KeyIdentity_of framed) in
          match lock (kc_entries self) with
          | Some entries =>
              (Ok entry, mkCensus (kc_context self) (store (kc_entries self) (entries ++ [entry])))
          | None => (Err ConfigurationError, self)
          end
      end
  end.

(** ** The governor *)

Section governor.
Context {K V P T0 : Type} `{!Key K} `{!CachePolicy P K V} `{!CacheTier V T0}.

(** The rungs of the world are hot-swappable. *)
Abbreviation T := (HotRungTier T0).

(** A handle of a hot-swappable rung: the object that sits in the manager's slot
    of that rung, or one that sits in no slot, as [bootstrap] leaves it when
    the server does not answer. *)
Inductive HotRef : Type := Seated (rung : TierId) | Unseated (rung : TierId).

Definition ref_rung (h : HotRef) : TierId := match h with Seated t | Unseated t => t end.

(** [g_heat] is the capacity of the ring the manager's telemetry also feeds,
    [g_hot_rungs] the handles the governor holds, and the rebinder
    a callback of the caller. *)
Record Governor : Type := mkGovernor {
  g_manager : CacheManager P;
  g_settings : GovernorSettings;
  g_census : option (KeyCensus K);
  g_heat : option nat;
  g_hot_rungs : list HotRef;
  g_rebinder : option (TierId -> Instant -> res (option T0))
}.

Definition Governor_new (m : CacheManager P) (s : GovernorSettings) : Governor :=
  mkGovernor m s None None [] None.

Definition with_census (c : KeyCensus K) (g : Governor) : Governor :=
  mkGovernor (g_manager g) (g_settings g) (Some c) (g_heat g) (g_hot_rungs g) (g_rebinder g).

Definition with_heat (cap : nat) (g : Governor) : Governor :=
  mkGovernor (g_manager g) (g_settings g) (g_census g) (Some cap) (g_hot_rungs g) (g_rebinder g).

Definition with_hot_rung (t : HotRef) (g : Governor) : Governor :=
  mkGovernor (g_manager g) (g_settings g) (g_census g) (g_heat g) (g_hot_rungs g ++ [t])
    (g_rebinder g).

Definition with_rebinder (r : TierId -> Instant -> res (option T0)) (g : Governor) : Governor :=
  mkGovernor (g_manager g) (g_settings g) (g_census g) (g_heat g) (g_hot_rungs g) (Some r).

Variable self : Governor.

(** *** Observing *)

(** A served read. *)
Definition counts_as_heat (r : OperationRecord) : bool :=
  bool_decide (or_outcome r = OutServed)
  && match or_operation r with TGet | TGetOrFetch | TRefresh => true | _ => false end.

Definition heat_from (records : list OperationRecord) : Heat :=
  fold_left (fun h r => if counts_as_heat r then <[or_key r := (heat_of h (or_key r) + 1)%Z]> h else h)
    records ∅.

(** The ring holds the newest records the sink was given. *)
Definition measure_heat (w : World T) : Heat :=
  match g_heat self with
  | None => ∅
  | Some cap => heat_from (ring_records (fold_left ring_record (w_sink w) (RingTelemetry_new cap)))
  end.

Fixpoint observe_census (idx : nat) (entries : list (CensusKey K)) : prog T (list CensusEntryView) :=
  match entries with
  | [] => Ret []
  | entry :: rest =>
      let! s := peek_at (ck_framed entry) in
      let! views := observe_census (S idx) rest in
      Ret (match s with
           | Ok s => mkView idx (ck_identity entry) (snap_tier s) (snap_state s)
           | Err _ => mkView idx (ck_identity entry) L0 Absent
           end :: views)
  end.

Definition observe : prog T Observation :=
  let! stats := manager_plane_stats in
  let! states := ask (fun _ w => continuity w) in
  let! caps := ask (fun _ w => map (fun t => match bound_tier w t with
                                             | Some b => capacity b
                                             | None => None
                                             end) TierId_ALL) in
  let! census := match g_census self with
                 | Some c => observe_census 0 (census_entries c)
                 | None => Ret []
                 end in
  Ret (mkObservation stats caps (map (fun t => default CsHealthy (report_get states t)) TierId_ALL)
         census).

Definition plan : prog T GovernorPlan :=
  let! o := observe in
  let! h := ask (fun _ w => measure_heat w) in
  Ret (plan_tick o h (g_settings self)).

(** *** Executing *)

(** [hot.hot_swap(replacement)] through a handle. An object of the governor's own
    takes a replacement for its rung; nobody else sees it. *)
Definition swap_through (h : HotRef) (replacement : T0) : prog T bool :=
  match h with
  | Seated rung =>
      let! r := atomically (fun _ => on_slot (as_usize rung) (hot_swap (V := V) replacement)) in
      Ret (is_ok r)
  | Unseated rung => Ret (bool_decide (tier_id (V := V) replacement = rung))
  end.

Fixpoint apply_rebinds (rebinder : TierId -> Instant -> res (option T0)) (rungs : list TierId)
    (report : GovernorReport) : prog T GovernorReport :=
  match rungs with
  | [] => Ret report
  | rung :: rest =>
      match List.find (fun h => bool_decide (ref_rung h = rung)) (g_hot_rungs self) with
      | None => apply_rebinds rebinder rest report
      | Some hot =>
          let! outcome := await [] false (fun now w => (rebinder rung now, w)) in
          match outcome with
          | Ok (Some replacement) =>
              let! swapped := swap_through hot replacement in
              apply_rebinds rebinder rest
                (if swapped : bool then report_rebind 1 0 false report
                 else report_rebind 0 1 false report)
          | Ok None => apply_rebinds rebinder rest (report_rebind 0 0 true report)
          | Err _ => apply_rebinds rebinder rest (report_rebind 0 1 false report)
          end
      end
  end.

(** The demotions; the budget left is returned with the report. *)
Fixpoint apply_demotes (entries : list (CensusKey K)) (ctx : CacheContext) (idxs : list nat)
    (budget : nat) (report : GovernorReport) : prog T (nat * GovernorReport) :=
  match idxs with
  | [] => Ret (budget, report)
  | idx :: rest =>
      match budget with
      | O => Ret (O, report)
      | S budget' =>
          match entries !! idx with
          | None => apply_demotes entries ctx rest budget report
          | Some entry =>
              let! r := demote (V := V) (g_manager self) (ck_key entry) ctx in
              match r with
              | Ok _ => apply_demotes entries ctx rest budget' (report_moves 0 1 0 report)
              | Err CapacityExhausted => Ret (budget, report_moves 0 0 1 report)
              | Err _ => apply_demotes entries ctx rest budget' (report_moves 0 0 1 report)
              end
          end
      end
  end.

(** A promotion that fails is counted but costs no budget. *)
Fixpoint apply_promotes (entries : list (CensusKey K)) (ctx : CacheContext) (idxs : list nat)
    (budget : nat) (report : GovernorReport) : prog T GovernorReport :=
  match idxs with
  | [] => Ret report
  | idx :: rest =>
      match budget with
      | O => Ret report
      | S budget' =>
          match entries !! idx with
          | None => apply_promotes entries ctx rest budget report
          | Some entry =>
              let! r := promote (V := V) (g_manager self) (ck_key entry) ctx in
              match r with
              | Ok _ => apply_promotes entries ctx rest budget' (report_moves 1 0 0 report)
              | Err _ => apply_promotes entries ctx rest budget (report_moves 0 0 1 report)
              end
          end
      end
  end.

Definition apply_plan (p : GovernorPlan) : prog T GovernorReport :=
  let report := report_of p in
  if negb (executes_maintenance (gs_mode (g_settings self))) then Ret report
  else
    let! report :=
      (if gp_recovery_sweep p then
         let! r := recover_older_than (default INTENT_RECOVERY_AGE (gs_recover_after (g_settings self))) in
         Ret (report_recovery r report)
       else Ret report) in
    let! report :=
      (if gp_expire_sweep p then let! n := manager_sweep_expired in Ret (report_expired n report)
       else Ret report) in
    let! report :=
      match g_rebinder self with
      | None => Ret (report_rebind 0 0 (negb (bool_decide (gp_rebind p = []))) report)
      | Some rebinder => apply_rebinds rebinder (gp_rebind p) report
      end in
    if negb (executes_moves (gs_mode (g_settings self))) then Ret report
    else
      match g_census self with
      | None => Ret report
      | Some census =>
          let entries := census_entries census in
          let ctx := kc_context census in
          let! moved := apply_demotes entries ctx (gp_demote p)
                          (gs_max_moves_per_tick (g_settings self)) report in
          apply_promotes entries ctx (gp_promote p) (fst moved) (snd moved)
      end.

Definition tick : prog T (res GovernorReport) :=
  let! p := plan in
  if executes_maintenance (gs_mode (g_settings self)) then
    let! r := apply_plan p in Ret (Ok r)
  else Ret (Ok (report_of p)).

(** *** The background task of [src/governor/task.rs] *)

(** [spawn]: the interval the task sleeps for, or a refusal. *)
Definition spawn_interval : res Duration :=
  if bool_decide (gs_mode (g_settings self) = FullyAutonomous)
  then Ok (Z.max (gs_interval (g_settings self)) 1000000)
  else Err ConfigurationError.

(** One round of the task's loop: sleep, tick, ignore the error. *)
Definition task_round : prog T unit := let! _ := pause [] in let! _ := tick in Ret tt.

(** The task loops for ever; this is its first so many rounds. [Progress] runs
    the loop itself and shows that any finite part of it is a part of this.
    Aborting the task drops it at its next await. *)
Fixpoint task_loop (rounds : nat) : prog T unit :=
  match rounds with
  | O => Ret tt
  | S rounds => let! _ := pause [] in let! _ := tick in task_loop rounds
  end.
End governor.

(** ** The plan is sound *)

Section planner.

Lemma merge_sort_members {A} (R : relation A) `{!RelDecision R} (l : list A) x :
  x ∈ merge_sort R l <-> x ∈ l.
Proof. by rewrite (merge_sort_Permutation R l). Qed.

(** In a sorted list what is taken precedes what is left. *)
Lemma sorted_take_drop {A} (R : relation A) (l : list A) n x y :
  StronglySorted R l -> x ∈ take n l -> y ∈ drop n l -> R x y.
Proof.
  intros Hs Hx Hy. rewrite <- (take_drop n l) in Hs. apply StronglySorted_app in Hs as (H & _ & _).
  by apply H.
Qed.

Lemma taken_members {A} (R : relation A) `{!RelDecision R} n (l : list A) x :
  x ∈ take n (merge_sort R l) -> x ∈ l.
Proof.
  intros Hx. apply (merge_sort_members R). rewrite <- (take_drop n (merge_sort R l)).
  apply elem_of_app. by left.
Qed.

(** What sorting and taking leaves out comes after what it takes, and is left
    out only because the budget is used up. *)
Lemma left_out {A} (R : relation A) `{!RelDecision R, !Transitive R, !Total R} n (l : list A) y :
  y ∈ l -> ~ y ∈ take n (merge_sort R l) ->
  n <= length (take n (merge_sort R l)) /\ forall x, x ∈ take n (merge_sort R l) -> R x y.
Proof.
  intros Hy Hn. apply (merge_sort_members R) in Hy.
  assert (Hd : y ∈ drop n (merge_sort R l)).
  { rewrite <- (take_drop n (merge_sort R l)) in Hy. by apply elem_of_app in Hy as [?|?]. }
  split.
  - rewrite length_take. apply list_elem_of_lookup in Hd as [i Hi]. apply lookup_lt_Some in Hi.
    rewrite length_drop in Hi. lia.
  - intros x Hx. eapply sorted_take_drop; [|exact Hx|exact Hd]. by apply StronglySorted_merge_sort.
Qed.

#[export] Instance deeper_trans : Transitive deeper.
Proof. intros a b c. unfold deeper. lia. Qed.
#[export] Instance deeper_total : Total deeper.
Proof. intros a b. unfold deeper. lia. Qed.
#[export] Instance hotter_trans h : Transitive (hotter h).
Proof. intros a b c. unfold hotter. lia. Qed.
#[export] Instance hotter_total h : Total (hotter h).
Proof. intros a b. unfold hotter. lia. Qed.

Lemma filter_members {A} (f : A -> bool) l (x : A) : x ∈ List.filter f l <-> x ∈ l /\ f x = true.
Proof. by rewrite list_elem_of_In, filter_In, <- list_elem_of_In. Qed.

Lemma in_ladder t : t ∈ TierId_ALL.
Proof. destruct t; by_decision. Qed.

Lemma promotable_spec h s v :
  promotable h s v = true <->
  cv_state v = Ready /\ is_cache_rung (cv_tier v) = true /\ 0 < as_usize (cv_tier v) /\
  (gs_hot_heat s <= heat_of h (cv_identity v))%Z.
Proof.
  unfold promotable. rewrite !andb_true_iff, bool_decide_eq_true, Nat.ltb_lt, Z.leb_le. tauto.
Qed.

Lemma coolable_spec o h s v :
  coolable o h s v = true <->
  cv_state v = Ready /\ is_cache_rung (cv_tier v) = true /\ as_usize (cv_tier v) < as_usize L5 /\
  under_pressure o s (cv_tier v) = true /\ heat_of h (cv_identity v) = 0%Z.
Proof.
  unfold coolable, LAST_CACHE_TIER.
  rewrite !andb_true_iff, bool_decide_eq_true, Nat.ltb_lt, Z.eqb_eq. tauto.
Qed.

(** The views the plan promotes, in order. *)
Definition promoted_views (o : Observation) (h : Heat) (s : GovernorSettings) : list CensusEntryView :=
  take (gs_max_moves_per_tick s) (merge_sort (hotter h) (List.filter (promotable h s) (ob_census o))).

(** The views the plan cools down, as long as the promotions leave any budget. *)
Definition cooled_views (o : Observation) (h : Heat) (s : GovernorSettings) : list CensusEntryView :=
  if length (promoted_views o h s) <? gs_max_moves_per_tick s
  then List.filter (coolable o h s) (ob_census o) else [].

Lemma plan_tick_moves o h s :
  ob_census o <> [] -> h <> ∅ ->
  gp_promote (plan_tick o h s) = map cv_index (promoted_views o h s) /\
  gp_demote (plan_tick o h s) = map cv_index (cooled_views o h s).
Proof.
  intros Hc Hh. unfold plan_tick. destruct (ob_census o) as [|v vs] eqn:Ho; [done|].
  rewrite bool_decide_false by done. cbn [gp_promote gp_demote].
  unfold plan_promote, promoted_views. split; [done|].
  unfold plan_demote, cooled_views, promoted_views. rewrite length_map. set (n := length _).
  destruct (Nat.ltb_spec n (gs_max_moves_per_tick s)), (Nat.ltb_spec 0 (gs_max_moves_per_tick s - n));
    done || lia.
Qed.

(** The plan stays within the two budgets it is cut to. *)
Lemma plan_tick_within o h s :
  length (gp_rebind (plan_tick o h s)) <= gs_max_rebinds_per_tick s /\
  length (gp_promote (plan_tick o h s)) <= gs_max_moves_per_tick s.
Proof.
  assert (Hr : length (plan_rebind o s) <= gs_max_rebinds_per_tick s)
    by (unfold plan_rebind; rewrite length_take; lia).
  assert (Hp : length (plan_promote o h s) <= gs_max_moves_per_tick s)
    by (unfold plan_promote; rewrite length_map, length_take; lia).
  unfold plan_tick. destruct (ob_census o); [cbn; split; [done|lia]|].
  destruct (bool_decide (h = ∅)); cbn; split; done || lia.
Qed.

(** C35. What a plan asks for, exactly. Given a census and a heat source, the
    promotions are the hottest of the committed entries on a rung below the
    top that are at least as hot as the threshold, as many as the move budget
    allows, the hottest first; the demotions are every committed entry nobody
    reads, above the last cache rung and on a rung under pressure, as soon as
    the promotions leave one move of the budget, and none otherwise -- they are
    not cut to what is left of it, which the executor does. Without a census or
    a heat source nothing is moved. With a positive threshold no entry is both
    promoted and demoted. Rebinding goes to degraded cache rungs, deepest
    first, within its own budget. Neither the authority nor an entry in
    progress is ever moved. *)
Theorem governor_plan_is_sound (o : Observation) (h : Heat) (s : GovernorSettings) :
  let p := plan_tick o h s in
  (ob_census o <> [] -> h <> ∅ ->
   gp_promote p = map cv_index (promoted_views o h s) /\
   gp_demote p = map cv_index (cooled_views o h s)) /\
  (ob_census o = [] \/ h = ∅ -> gp_promote p = [] /\ gp_demote p = []) /\
  length (gp_promote p) <= gs_max_moves_per_tick s /\
  (forall v, v ∈ promoted_views o h s ->
     v ∈ ob_census o /\ cv_state v = Ready /\ is_cache_rung (cv_tier v) = true /\
     cv_tier v <> L0 /\ (gs_hot_heat s <= heat_of h (cv_identity v))%Z) /\
  (forall v v', v ∈ ob_census o -> promotable h s v = true -> ~ v ∈ promoted_views o h s ->
     v' ∈ promoted_views o h s -> (heat_of h (cv_identity v) <= heat_of h (cv_identity v'))%Z) /\
  (forall v, v ∈ cooled_views o h s <->
     length (promoted_views o h s) < gs_max_moves_per_tick s /\
     v ∈ ob_census o /\ cv_state v = Ready /\ as_usize (cv_tier v) < as_usize L5 /\
     under_pressure o s (cv_tier v) = true /\ heat_of h (cv_identity v) = 0%Z) /\
  (forall v, (0 < gs_hot_heat s)%Z -> v ∈ cooled_views o h s -> ~ v ∈ promoted_views o h s) /\
  length (gp_rebind p) <= gs_max_rebinds_per_tick s /\
  (forall t, t ∈ gp_rebind p -> is_cache_rung t = true /\ is_degraded o t = true) /\
  (forall t t', is_cache_rung t = true -> is_degraded o t = true -> ~ t ∈ gp_rebind p ->
     t' ∈ gp_rebind p -> as_usize t <= as_usize t').
Proof.
  intros p.
  assert (Hprom : forall v, v ∈ promoted_views o h s -> v ∈ ob_census o /\ promotable h s v = true).
  { intros v Hv. apply taken_members, filter_members in Hv. done. }
  assert (Hcool : forall v, v ∈ cooled_views o h s <->
            length (promoted_views o h s) < gs_max_moves_per_tick s /\
            v ∈ ob_census o /\ coolable o h s v = true).
  { intros v. unfold cooled_views. destruct (Nat.ltb_spec (length (promoted_views o h s))
      (gs_max_moves_per_tick s)); [rewrite filter_members; naive_solver|].
    rewrite elem_of_nil. naive_solver lia. }
  assert (Hrb : gp_rebind p = plan_rebind o s).
  { subst p. unfold plan_tick. destruct (ob_census o); [done|]. by destruct (bool_decide (h = ∅)). }
  assert (Hlen : length (promoted_views o h s) <= gs_max_moves_per_tick s)
    by (unfold promoted_views; rewrite length_take; lia).
  assert (Hnone : ob_census o = [] \/ h = ∅ -> gp_promote p = [] /\ gp_demote p = []).
  { subst p. unfold plan_tick. destruct (ob_census o); [done|]. intros [?| ->]; [done|].
    by rewrite bool_decide_true. }
  assert (Hsome : ob_census o <> [] -> h <> ∅ ->
            gp_promote p = map cv_index (promoted_views o h s) /\
            gp_demote p = map cv_index (cooled_views o h s)) by (apply plan_tick_moves).
  split_and!; try done.
  - apply plan_tick_within.
  - intros v Hv. apply Hprom in Hv as [Hc Hpr]. apply promotable_spec in Hpr as (Hs & Hr & H0 & Hh).
    split_and!; try done. intros Heq. rewrite Heq in H0. cbn in H0. lia.
  - intros v v' Hc Hpr Hn Hv'.
    destruct (left_out (hotter h) (gs_max_moves_per_tick s) (List.filter (promotable h s) (ob_census o)) v)
      as [_ Hall]; [by apply filter_members|done|]. specialize (Hall v' Hv'). unfold hotter in Hall. lia.
  - intros v. rewrite Hcool, coolable_spec. split; [naive_solver|].
    intros (Hb & Hc & Hs & Hlt & Hpre & Hh). split_and!; try done.
    revert Hlt. by destruct (cv_tier v); cbn; lia || done.
  - intros v Hpos (_ & _ & Hco)%Hcool Hv. apply Hprom in Hv as [_ Hpr].
    apply coolable_spec in Hco as (_ & _ & _ & _ & Hh).
    apply promotable_spec in Hpr as (_ & _ & _ & Hhot). lia.
  - rewrite Hrb. unfold plan_rebind. rewrite length_take. lia.
  - intros t Ht. rewrite Hrb in Ht. apply taken_members, filter_members in Ht as [_ Ht].
    by apply andb_true_iff in Ht.
  - intros t t' Hc Hd Hn Ht'. rewrite Hrb in *.
    destruct (left_out deeper (gs_max_rebinds_per_tick s)
                (List.filter (fun t => is_cache_rung t && is_degraded o t) TierId_ALL) t) as [_ Hall].
    + apply filter_members. split; [apply in_ladder|]. by rewrite Hc, Hd.
    + done.
    + by apply (Hall t').
Qed.

(** The plan itself has no bound on demotions: with the default budget of eight
    moves, nine entries nobody reads on a full rung are nine planned moves. *)
Definition crowded_rung : Observation :=
  mkObservation (mkStats 64 9 [] [0; 0; 9] 0 0 0) [None; None; Some 9] []
    (map (fun i => mkView i (mkKeyIdentity (Z.of_nat i) 1) L2 Ready) (seq 0 9)).

Lemma planned_moves_exceed_the_budget :
  let p := plan_tick crowded_rung {[mkKeyIdentity 99 2 := 1%Z]} GovernorSettings_default in
  gs_max_moves_per_tick GovernorSettings_default = 8 /\
  length (gp_promote p) + length (gp_demote p) = 9.
Proof. vm_compute. done. Qed.
End planner.

(** ** A tick is bounded *)

Section tick.
Context {K V P T0 : Type} `{!Key K} `{!CachePolicy P K V} `{!CacheTier V T0}.
Variable self : Governor (K := K) (P := P) (T0 := T0).

Abbreviation moves r := (gr_promoted r + gr_demoted r).
Abbreviation rebinds r := (gr_rebinds_done r + gr_rebind_failures r).

(** Both reports count the same moves, or the same rebinds. *)
Definition same_moves (r r' : GovernorReport) : Prop :=
  gr_plan r' = gr_plan r /\ gr_promoted r' = gr_promoted r /\ gr_demoted r' = gr_demoted r /\
  gr_move_failures r' = gr_move_failures r.

Lemma rebinds_bounded rebinder rungs report :
  returns (apply_rebinds (V := V) self rebinder rungs report)
    (fun r => same_moves report r /\ rebinds r <= rebinds report + length rungs).
Proof.
  revert report. induction rungs as [|rung rungs IH]; intros report; cbn [apply_rebinds length].
  - cbn. split; [done|lia].
  - destruct (List.find _ _) as [t|].
    2: { eapply returns_mono; [|apply IH]. cbn. intros r [? ?]. split; [done|lia]. }
    apply (returns_bind _ _ _ (fun _ => True)); [apply returns_any|]. intros [[replacement|]|e] _.
    + apply (returns_bind _ _ _ (fun _ => True)); [apply returns_any|]. intros swapped _.
      destruct swapped; (eapply returns_mono; [|apply IH]); cbn; intros r [? ?]; (split; [done|lia]).
    + eapply returns_mono; [|apply IH]. cbn. intros r [? ?]. split; [done|lia].
    + eapply returns_mono; [|apply IH]. cbn. intros r [? ?]. split; [done|lia].
Qed.

Definition same_rebinds (r r' : GovernorReport) : Prop :=
  gr_plan r' = gr_plan r /\ gr_rebinds_done r' = gr_rebinds_done r /\
  gr_rebind_failures r' = gr_rebind_failures r.

Lemma demotes_bounded entries ctx idxs budget report :
  returns (apply_demotes (V := V) self entries ctx idxs budget report)
    (fun br => same_rebinds report (snd br) /\ moves (snd br) + fst br <= moves report + budget).
Proof.
  revert budget report. induction idxs as [|idx idxs IH]; intros budget report; cbn [apply_demotes].
  - cbn. split; [done|lia].
  - destruct budget as [|budget]; [cbn; split; [done|lia]|].
    destruct (entries !! idx) as [entry|]; [|apply IH].
    apply (returns_bind _ _ _ (fun _ => True)); [apply returns_any|]. intros r _.
    assert (Hstep : forall d f, d <= 1 ->
      returns (apply_demotes (V := V) self entries ctx idxs budget (report_moves 0 d f report))
        (fun br => same_rebinds report (snd br) /\
                   moves (snd br) + fst br <= moves report + S budget)).
    { intros d f Hd. eapply returns_mono; [|apply IH]. cbn. intros br [? ?]. split; [done|lia]. }
    destruct r as [u|[]]; try (by apply Hstep; lia). cbn. split; [done|lia].
Qed.

Lemma promotes_bounded entries ctx idxs budget report :
  returns (apply_promotes (V := V) self entries ctx idxs budget report)
    (fun r => same_rebinds report r /\ moves r <= moves report + budget).
Proof.
  revert budget report. induction idxs as [|idx idxs IH]; intros budget report; cbn [apply_promotes].
  - cbn. split; [done|lia].
  - destruct budget as [|budget]; [cbn; split; [done|lia]|].
    destruct (entries !! idx) as [entry|]; [|apply IH].
    apply (returns_bind _ _ _ (fun _ => True)); [apply returns_any|]. intros r _.
    destruct r; (eapply returns_mono; [|apply IH]); cbn; intros r' [? ?]; (split; [done|lia]).
Qed.

(** The report of a plan carried out. *)
Definition within_budget (p : GovernorPlan) (r : GovernorReport) : Prop :=
  gr_plan r = p /\ moves r <= gs_max_moves_per_tick (g_settings self) /\
  rebinds r <= length (gp_rebind p) /\
  (executes_moves (gs_mode (g_settings self)) = false -> moves r = 0 /\ gr_move_failures r = 0).

Lemma apply_plan_bounded p : returns (apply_plan (V := V) self p) (within_budget p).
Proof.
  unfold apply_plan. cbn zeta. unfold within_budget.
  destruct (executes_maintenance _); cbn [negb]; [|by cbn; split_and!; try lia].
  apply (returns_bind _ _ _ (fun r => same_moves (report_of p) r /\ rebinds r = 0)).
  { destruct (gp_recovery_sweep p); [|done].
    apply (returns_bind _ _ _ (fun _ => True)); [apply returns_any|done]. }
  intros r1 [H1 Hr1]. apply (returns_bind _ _ _ (fun r => same_moves (report_of p) r /\ rebinds r = 0)).
  { destruct (gp_expire_sweep p); [|done].
    apply (returns_bind _ _ _ (fun _ => True)); [apply returns_any|done]. }
  intros r2 [H2 Hr2].
  apply (returns_bind _ _ _ (fun r => same_moves (report_of p) r /\ rebinds r <= length (gp_rebind p))).
  { destruct (g_rebinder self) as [rebinder|].
    - eapply returns_mono; [|apply rebinds_bounded]. cbn. unfold same_moves in *. cbn in *.
      intros r [? ?]. split; [|lia]. intuition congruence.
    - cbn. split; [done|lia]. }
  intros r3 [(Hp & Hpr & Hde & Hmf) Hr3]. cbn in Hp, Hpr, Hde, Hmf.
  destruct (executes_moves _); cbn [negb]; [|cbn; split_and!; try done; lia].
  destruct (g_census self) as [census|]; [|cbn; split_and!; try done; lia].
  eapply returns_bind; [apply demotes_bounded|]. intros [left_ r4] [(Hp4 & Hd4 & Hf4) H4].
  cbn [fst snd] in *. eapply returns_mono; [|apply promotes_bounded]. cbn.
  intros r [(? & ? & ?) ?]. split_and!; [congruence|lia|lia|done].
Qed.

Lemma observe_census_silent idx (entries : list (CensusKey K)) :
  respects (fun _ : World (HotRungTier T0) => True) eq (observe_census idx entries).
Proof.
  revert idx. induction entries as [|entry rest IH]; intros idx; cbn [observe_census]; [done|].
  apply respects_bind; [by intros now w _|]. intros s.
  apply respects_bind; [apply IH|done].
Qed.

Lemma plan_silent : respects (fun _ => True) eq (plan (V := V) self).
Proof.
  unfold plan, observe. apply respects_bind; [|intros o; apply respects_bind; [by intros now w _|done]].
  apply respects_bind; [by intros now w _|]. intros stats.
  apply respects_bind; [by intros now w _|]. intros states.
  apply respects_bind; [by intros now w _|]. intros caps.
  apply respects_bind; [|done]. destruct (g_census self); [apply observe_census_silent|done].
Qed.

Lemma plan_rebinds_bounded :
  returns (plan (V := V) self) (fun p => length (gp_rebind p) <= gs_max_rebinds_per_tick (g_settings self)).
Proof.
  unfold plan. apply (returns_bind _ _ _ (fun _ => True)); [apply returns_any|]. intros o _.
  apply (returns_bind _ _ _ (fun _ => True)); [apply returns_any|]. intros h _. cbn.
  assert (Hle : length (plan_rebind o (g_settings self)) <= gs_max_rebinds_per_tick (g_settings self))
    by (unfold plan_rebind; rewrite length_take; lia).
  unfold plan_tick. destruct (ob_census o); [done|]. by destruct (bool_decide (h = ∅)).
Qed.

(** C36. A tick is bounded, whatever happens meanwhile: unless its caller drops
    it, it comes to an end with a report that promotes and demotes at most the
    moves it was budgeted, swaps or fails to swap at most the rungs it was
    budgeted, and moves no entry unless fully autonomous; in manual mode the
    report carries a plan and nothing of it done, and no step of the tick
    changes anything. *)
Theorem governor_tick_is_bounded (env : Env (HotRungTier T0)) (n : nat) (w : World (HotRungTier T0)) :
  match fst (run env n (tick (V := V) self) w) with
  | Some r => exists rep, r = Ok rep /\
      moves rep <= gs_max_moves_per_tick (g_settings self) /\
      rebinds rep <= gs_max_rebinds_per_tick (g_settings self) /\
      (executes_moves (gs_mode (g_settings self)) = false ->
         moves rep = 0 /\ gr_move_failures rep = 0) /\
      (gs_mode (g_settings self) = Manual ->
         rep = report_of (gr_plan rep) /\ respects (fun _ => True) eq (tick (V := V) self))
  | None => dropped env n
  end.
Proof.
  apply (run_ends env n (tick (V := V) self) w (fun r => exists rep, r = Ok rep /\ _)).
  assert (Hsil : gs_mode (g_settings self) = Manual ->
    respects (fun _ => True) eq (tick (V := V) self)).
  { intros Hman. unfold tick. rewrite Hman. cbn [executes_maintenance].
    apply respects_bind; [apply plan_silent|done]. }
  unfold tick at 1. eapply returns_bind; [apply plan_rebinds_bounded|].
  intros p Hp. cbn beta in Hp. destruct (executes_maintenance _) eqn:Hm.
  - eapply returns_bind; [apply apply_plan_bounded|]. intros rep (Hpl & Hmv & Hrb & Hno).
    exists rep. split_and!; [done|done|lia|done|]. intros Hman. by rewrite Hman in Hm.
  - exists (report_of p). split_and!; [done|cbn; lia|cbn; lia|done|by split; auto].
Qed.
End tick.
