(* ===== verification/Autonomy.v ===== *)
(** * What an autonomous tick may do to the shared world

    The safety of [Governor::tick] and of the background task among other callers: the invariants of the
    world survive it, and it never touches the authority. *)

From stdpp Require Import relations.
From S2P Require Import Prelude Entry Integrity Key Tier Continuity Policy TierTrait Telemetry.
From S2P Require Import Pool FixedTier ShardedTier Stubs ControlEntry Shard Cachelito Plane Protocol.
From S2P Require Import Commit Prog Manager Steps Guarantee.
From S2P Require Import ReadYourWrite Governor.

Section autonomy.
Context {K V P T0 : Type} `{!Key K} `{!CachePolicy P K V} `{HT : !CacheTier V T0} `{HL : !TierLaws V T0}.
Context (self : Governor (K := K) (P := P) (T0 := T0)).

Abbreviation W := (World (HotRungTier T0)).

(** The world's invariant survives and the authority is read at most. *)
Record tick_safe (w w' : W) : Prop := {
  ts_kept : well_kept (V := V) w w';
  ts_authority : authority_only_read (V := V) w w'
}.

#[export] Instance tick_safe_preorder : PreOrder tick_safe.
Proof.
  split; [by intros w|]. intros w1 w2 w3 [H1 H2] [H3 H4]. split; by etransitivity.
Qed.

Lemma tick_safe_step kb pl (w w' : W) : placed pl w -> manager_step kb pl w w' -> tick_safe w w'.
Proof. intros Hw Hs. split; [by eapply well_kept_step|by eapply authority_step]. Qed.

(** A program of the manager is safe. *)
Lemma safe_request {A} kb pl (p : prog (HotRungTier T0) A) :
  respects (placed pl) (rtc (manager_step kb pl)) p -> respects (placed pl) tick_safe p.
Proof.
  apply respects_weaken. intros w w' Hw Hr.
  apply (rtc_weaken tick_safe (placed pl) (manager_step kb pl)); [| |done|done].
  - intros w1 w2 Hw1 Hs. by eapply manager_step_placed, rtc_once.
  - intros w1 w2. apply tick_safe_step.
Qed.

(** A step that changes the control plane only. *)
Lemma safe_ctl pl {B} (op : Instant -> Cachelito -> B * Cachelito) :
  (forall now c, plane_ok c -> plane_ok (snd (op now c))) ->
  (forall now c, c_placement (snd (op now c)) = c_placement c) ->
  respects (placed pl) tick_safe (ctl op).
Proof.
  intros Hok Hpl now w Hw. split; [|done]. specialize (Hok now (w_ctl w)). specialize (Hpl now (w_ctl w)).
  destruct (op now (w_ctl w)) as [b c]. cbn in *. split.
  - split; [|done|done|done]. intros [Hp Hr Ht]. split; cbn; auto.
  - split; [done|done|]. intros t Ht. by exists t.
Qed.

(** Recovery and expiry are steps of the control plane. *)
Lemma plane_exec_placement c op : c_placement (plane_exec c op) = c_placement c.
Proof. destruct op; cbn; first [apply with_entry_placement|apply with_created_entry_placement]. Qed.

Lemma safe_plane_op pl {B} (op : Cachelito -> B * Cachelito) po :
  (forall c, snd (op c) = plane_exec c po) -> respects (placed pl) tick_safe (ctl (fun _ => op)).
Proof.
  intros Hop. apply safe_ctl; intros _ c; rewrite Hop.
  - intros Hc. by apply plane_exec_spec.
  - apply plane_exec_placement.
Qed.

Lemma safe_recover_each pl items report : respects (placed pl) tick_safe (recover_each items report).
Proof.
  revert report. induction items as [|[a i] items IH]; intros report; cbn [recover_each]; [done|].
  destruct (ci_kind i); (apply respects_bind; [|by intros r; apply IH]).
  - by apply (safe_plane_op pl _ (PoAbortIntent a UncommittedIntent)).
  - by apply (safe_plane_op pl _ (PoReleaseClaim a)).
Qed.

Lemma safe_recover pl age : respects (placed pl) tick_safe (recover_older_than age).
Proof.
  apply respects_bind; [|intros items; apply safe_recover_each].
  intros now w Hw. split; [reflexivity|done].
Qed.

Lemma safe_sweep pl : respects (placed pl) tick_safe manager_sweep_expired.
Proof. apply safe_ctl; [|done]. intros now c Hc. by apply sweep_spec. Qed.

(** ** Rebinding *)

Hypothesis Hrebinder : forall rebinder t now r,
  g_rebinder self = Some rebinder -> rebinder t now = Ok (Some r) -> tier_ok (V := V) r.

Lemma safe_swap pl rung (r : T0) :
  is_cache_rung rung = true -> tier_ok (V := V) r ->
  respects (placed pl) tick_safe
    (atomically (fun _ => on_slot (as_usize rung) (hot_swap (V := V) r))).
Proof.
  intros Hc Hr now w Hw. split; [|done].
  destruct (on_slot_tiers (as_usize rung) (hot_swap (V := V) r) w) as (Hctl & Hlen & Hj). split.
  - split; [|done|by rewrite Hctl|by rewrite on_slot_sink].
    intros Hok. apply on_slot_ok; [|done]. intros h. by apply hot_swap_ok.
  - split; [done|by rewrite Hctl|]. intros t Ht. rewrite Hj, Ht, decide_False by (by destruct rung).
    by exists t.
Qed.

Lemma safe_rebinds pl rebinder rungs report :
  g_rebinder self = Some rebinder -> Forall (fun t => is_cache_rung t = true) rungs ->
  respects (placed pl) tick_safe (apply_rebinds (V := V) self rebinder rungs report).
Proof.
  intros Hrb Hall. revert report. induction Hall as [|rung rungs Hc _ IH]; intros report;
    cbn [apply_rebinds]; [done|].
  destruct (List.find _ _) as [h|] eqn:Hf; [|apply IH].
  apply List.find_some in Hf as [_ Hf%bool_decide_eq_true].
  apply (respects_bind_returns _ _ _ _ (fun o => forall r, o = Ok (Some r) -> tier_ok (V := V) r)).
  - split_and!; [|by intros w Hw|done]. intros now w Hw. by split.
  - split; [|done]. intros now w r Hr. by eapply Hrebinder.
  - intros [[r|]|e] Hr; [|apply IH..]. apply respects_bind; [|intros []; apply IH].
    destruct h as [rung'|rung']; cbn in Hf; subst rung'; [|done].
    apply respects_bind; [by apply safe_swap; [|apply Hr]|done].
Qed.

(** ** Moving *)

Definition census_key (key : K) (ctx : CacheContext) : bytes :=
  match encode_key key ctx with Ok b => b | Err _ => [] end.

Lemma census_key_spec key ctx b : encode_key key ctx = Ok b -> b = census_key key ctx.
Proof. unfold census_key. by intros ->. Qed.

Lemma safe_demotes pl (entries : list (CensusKey K)) ctx idxs budget report :
  respects (placed pl) tick_safe (apply_demotes (V := V) self entries ctx idxs budget report).
Proof.
  revert budget report. induction idxs as [|idx idxs IH]; intros budget report; cbn [apply_demotes]; [done|].
  destruct budget; [done|]. destruct (entries !! idx) as [entry|]; [|apply IH].
  apply respects_bind.
  - apply (safe_request (census_key (ck_key entry) ctx)), r_demote. intros b. apply census_key_spec.
  - intros [u|e]; [apply IH|]. destruct e; first [apply IH|done].
Qed.

Lemma safe_promotes pl (entries : list (CensusKey K)) ctx idxs budget report :
  respects (placed pl) tick_safe (apply_promotes (V := V) self entries ctx idxs budget report).
Proof.
  revert budget report. induction idxs as [|idx idxs IH]; intros budget report; cbn [apply_promotes]; [done|].
  destruct budget; [done|]. destruct (entries !! idx) as [entry|]; [|apply IH].
  apply respects_bind.
  - apply (safe_request (census_key (ck_key entry) ctx)), r_promote. intros b. apply census_key_spec.
  - intros [u|e]; apply IH.
Qed.

(** ** The tick *)

Lemma plan_rebind_cache (o : Observation) (s : GovernorSettings) :
  Forall (fun t => is_cache_rung t = true) (plan_rebind o s).
Proof.
  apply Forall_forall. intros t Ht. unfold plan_rebind in Ht.
  apply (taken_members deeper), filter_members in Ht as [_ Ht]. by apply andb_true_iff in Ht as [? _].
Qed.

Lemma plan_tick_rebind o h s : gp_rebind (plan_tick o h s) = plan_rebind o s.
Proof. unfold plan_tick. destruct (ob_census o); [done|]. by destruct (bool_decide (h = ∅)). Qed.

Lemma safe_apply_plan pl (p : GovernorPlan) :
  Forall (fun t => is_cache_rung t = true) (gp_rebind p) ->
  respects (placed pl) tick_safe (apply_plan (V := V) self p).
Proof.
  intros Hp. unfold apply_plan. cbn zeta. destruct (negb _); [done|].
  apply respects_bind; [destruct (gp_recovery_sweep p); [|done]; by apply respects_bind; [apply safe_recover|]|].
  intros r1. apply respects_bind;
    [destruct (gp_expire_sweep p); [|done]; by apply respects_bind; [apply safe_sweep|]|].
  intros r2. apply respects_bind.
  { case_eq (g_rebinder self); [intros rebinder Hrb; by apply safe_rebinds|done]. }
  intros r3. destruct (negb _); [done|]. destruct (g_census self) as [c|]; [|done].
  apply respects_bind; [apply safe_demotes|]. intros [b r4]. apply safe_promotes.
Qed.

Lemma safe_tick pl : respects (placed pl) tick_safe (tick (V := V) self).
Proof.
  unfold tick. apply (respects_bind_returns _ _ _ _ (fun p => Forall (fun t => is_cache_rung t = true) (gp_rebind p))).
  - eapply respects_weaken; [|eapply respects_stronger; [|apply plan_silent]]; [|done].
    by intros w w' _ <-.
  - unfold plan. apply (returns_bind _ _ _ (fun _ => True)); [apply returns_any|]. intros o _.
    apply (returns_bind _ _ _ (fun _ => True)); [apply returns_any|]. intros h _.
    cbn. rewrite plan_tick_rebind. apply plan_rebind_cache.
  - intros p Hp. destruct (executes_maintenance _); [|done].
    by apply respects_bind; [apply safe_apply_plan|].
Qed.

Lemma safe_loop pl rounds : respects (placed pl) tick_safe (task_loop (V := V) self rounds).
Proof.
  induction rounds as [|rounds IH]; cbn [task_loop]; [done|].
  apply respects_bind; [by split|]. intros _. apply respects_bind; [apply safe_tick|]. by intros _.
Qed.

(** Autonomy is safe. Whatever the ticks of a governor observe and plan, in
    however many rounds of its background task, among callers that keep the
    world's invariant and only read the authority, at any pace and aborted at
    any await: the control plane, the registry and every tier stay well-formed,
    the same rungs are bound, no telemetry record is lost, and the backend on
    the authority rung has seen reads and nothing else -- not a demotion, not
    an eviction, not a rebinding. All that is asked of the caller's rebinder is
    that what it offers is a well-formed tier. *)
Theorem autonomous_task_is_safe (env : Env (HotRungTier T0)) (n rounds : nat) (w : W)
    (Hw : world_ok (V := V) w) (Hothers : forall m w, tick_safe w (env_others env m w)) :
  let safe w' := world_ok (V := V) w' /\ length (w_tiers w') = length (w_tiers w) /\
    w_sink w `prefix_of` w_sink w' /\ authority_only_read (V := V) w w' in
  safe (snd (run env n (tick (V := V) self) w)) /\
  safe (snd (run env n (task_loop (V := V) self rounds) w)).
Proof.
  cbn zeta.
  assert (Hkept : forall w', tick_safe w w' -> world_ok (V := V) w' /\ length (w_tiers w') = length (w_tiers w) /\
    w_sink w `prefix_of` w_sink w' /\ authority_only_read (V := V) w w').
  { intros w' [[Hok Hl Hpl Hs] Ha]. split_and!; auto. }
  assert (HI : forall w1 w2, placed (c_placement (w_ctl w)) w1 -> tick_safe w1 w2 -> placed (c_placement (w_ctl w)) w2).
  { intros w1 w2 Hw1 [Hk _]. unfold placed in *. by rewrite (wk_placement _ _ Hk). }
  split; apply Hkept, (run_respects (placed (c_placement (w_ctl w))) tick_safe HI); try done.
  - apply safe_tick.
  - apply safe_loop.
Qed.
End autonomy.

Lemma autonomous_task_is_safe_witness :
  let _ : DefaultHasher := fun _ => 0%Z in
  let world := mkWorld demo_ready TierRegistry_new (replicate 7 (mkHot L1 (new_mutex demo_tier))) 0 [] in
  let census := snd (register (K := bytes) [107%Z] (KeyCensus_new demo_ctx)) in
  let settings := mkSettings FullyAutonomous 1 8 2 f64_085 8 None in
  let governor := with_census census (with_hot_rung (Seated L1) (with_rebinder (fun _ _ => Ok (Some demo_tier))
    (Governor_new (T0 := L1Stub bytes) demo_manager settings))) in
  let env := alone (fun n => Z.of_nat n) (fun _ => OnTime) in
  world_ok (V := bytes) (snd (run env 0 (task_loop (V := bytes) governor 2) world)).
Proof.
  intros hasher world census settings governor env.
  assert (Htier : sh_ok (mkSharded [new_mutex wit_new] 0)) by (apply (sh_new_wf 1 2); [lia|]; vm_compute; reflexivity).
  refine (proj1 (proj2 (autonomous_task_is_safe (V := bytes) governor _ env 0 2 world _ _))).
  - intros rebinder t now r Hr Hs. injection Hr as <-. cbv beta in Hs. injection Hs as <-. exact Htier.
  - split; [eapply proj1, plane_reachable_ok, demo_ready_reachable|split; reflexivity|].
    apply Forall_replicate. exact Htier.
  - intros m w. reflexivity.
Defined.
