(* ===== verification/System.v ===== *)
(** * The whole system at work

    Any number of requests and the governor's background tasks, interleaved
    step by step over one ladder of rebindable rungs. The single-program
    theorems of [Guarantee] and [Autonomy] suppose callers that keep the same
    guarantee; here that supposition is discharged. *)

From stdpp Require Import relations.
From S2P Require Import Prelude Entry Integrity Key Tier Continuity Policy TierTrait Telemetry.
From S2P Require Import Pool FixedTier ShardedTier Stubs ControlEntry Shard Cachelito Plane Protocol.
From S2P Require Import Commit Prog Threads Manager Steps Guarantee ReadYourWrite Governor Autonomy.

Section system.
Context {K V P T0 : Type} `{!Key K} `{!CachePolicy P K V} `{HT : !CacheTier V T0} `{HL : !TierLaws V T0}.
Context (manager : CacheManager P).

Abbreviation W := (World (HotRungTier T0)).

(** What runs at the same time: a request, or a governor's task. The task loops
    for ever; what it did in any finite execution, so many rounds did. *)
Inductive activity : Type :=
| Serve (r : request K V (HotRungTier T0))
| Govern (g : Governor (K := K) (P := P) (T0 := T0)) (rounds : nat).

Definition activity_prog (a : activity) : prog (HotRungTier T0) (option (response V)) :=
  match a with
  | Serve r => let! x := perform manager r in Ret (Some x)
  | Govern g rounds => let! _ := task_loop (V := V) g rounds in Ret None
  end.

(** A rebinder offers well-formed tiers only. *)
Definition sound_rebinder (a : activity) : Prop :=
  match a with
  | Serve _ => True
  | Govern g _ => forall rebinder t now r,
      g_rebinder g = Some rebinder -> rebinder t now = Ok (Some r) -> tier_ok (V := V) r
  end.

Lemma activity_safe pl (a : activity) :
  sound_rebinder a -> respects (placed pl) (tick_safe (V := V)) (activity_prog a).
Proof.
  intros Ha. destruct a as [r|g rounds]; cbn [activity_prog]; (apply respects_bind; [|done]).
  - apply (safe_request (key_bytes r)), perform_respects, names_key_bytes.
  - apply (safe_loop (V := V)). exact Ha.
Qed.

(** C9. The whole system is safe. However many requests -- reads, populations,
    writes, removals, refreshes and moves, of any keys and callers -- and
    however many governors run at the same time, whatever the scheduler makes
    of them step by step, with timeouts, lost effects and dropped futures
    anywhere: in every state they reach together the control plane, the
    registry and every tier are well-formed, the same rungs are bound, no
    telemetry record is lost, and the backend on the authority rung has seen
    reads and nothing else. Nothing is assumed of any of them but that a
    rebinder offers well-formed tiers. *)
Theorem concurrent_system_is_safe (activities : list activity) (w : W) (t : Instant)
    (c : Threads (HotRungTier T0) (option (response V)))
    (Hw : world_ok (V := V) w) (Hsound : Forall sound_rebinder activities)
    (Hrun : rtc threads_step (spawn (map activity_prog activities) w t) c) :
  world_ok (V := V) (th_world c) /\ length (w_tiers (th_world c)) = length (w_tiers w) /\
  w_sink w `prefix_of` w_sink (th_world c) /\
  authority_only_read (V := V) w (th_world c).
Proof.
  set (pl := c_placement (w_ctl w)).
  assert (HI : forall w1 w2 : W, placed pl w1 -> tick_safe (V := V) w1 w2 -> placed pl w2).
  { intros w1 w2 Hw1 [Hk _]. unfold placed in *. by rewrite (wk_placement _ _ Hk). }
  assert (Hall : all_respect (placed pl) (tick_safe (V := V)) (spawn (map activity_prog activities) w t)).
  { unfold all_respect, spawn. cbn [th_progs]. rewrite map_map. apply Forall_map.
    apply (Forall_impl _ _ _ Hsound). intros a. apply activity_safe. }
  assert (Hw0 : placed pl w) by done.
  destruct (threads_respect _ _ HI (spawn _ w t) c Hw0 Hall Hrun) as [[Hk Ha] _].
  cbn [th_world spawn] in *. destruct Hk as [Hok Hl Hp Hs]. split_and!; auto.
Qed.
End system.

(** ** An example: two writers of one key, a reader, and a governor *)

#[local] Instance system_hasher : DefaultHasher := fun _ => 0%Z.

Definition demo_rungs : World (HotRungTier (L1Stub bytes)) :=
  mkWorld demo_ready TierRegistry_new (replicate 7 (mkHot L1 (new_mutex demo_tier))) 0 [].

Definition demo_governor : Governor (K := bytes) (P := DefaultPolicy) (T0 := L1Stub bytes) :=
  with_census (snd (register [107%Z] (KeyCensus_new demo_ctx)))
    (with_hot_rung (Seated L1) (with_rebinder (fun _ _ => Ok (Some demo_tier))
       (Governor_new demo_manager (mkSettings FullyAutonomous 1 8 2 f64_085 8 None)))).

Definition demo_activities : list (activity (K := bytes) (V := bytes) (P := DefaultPolicy) (T0 := L1Stub bytes)) :=
  [Serve (RSet [107%Z] [1%Z] demo_ctx); Serve (RSet [107%Z] [2%Z] demo_ctx);
   Serve (RGet [107%Z] demo_ctx); Govern demo_governor 1].

Lemma demo_rungs_ok : world_ok (V := bytes) demo_rungs.
Proof.
  split; [eapply proj1, plane_reachable_ok, demo_ready_reachable|split; reflexivity|].
  apply Forall_replicate. apply (sh_new_wf 1 2 (mkSharded [new_mutex wit_new] 0)); [lia|]. by vm_compute.
Qed.

Lemma demo_activities_sound : Forall sound_rebinder demo_activities.
Proof.
  apply Forall_cons; split; [done|]. do 2 (apply Forall_cons; split; [done|]).
  apply Forall_singleton. intros rebinder t now r Hr Hs. injection Hr as <-. cbv beta in Hs.
  injection Hs as <-. apply (sh_new_wf 1 2 (mkSharded [new_mutex wit_new] 0)); [lia|]. by vm_compute.
Qed.

(** With the reader dropped. *)
Lemma concurrent_system_is_safe_witness :
  let start := spawn (map (activity_prog demo_manager) demo_activities) demo_rungs 0 in
  let choices := concat (replicate 12 [(0, 5%Z, OnTime); (1, 5%Z, LateApplied); (3, 5%Z, OnTime)])
                 ++ [(2, 5%Z, DroppedLost)] in
  world_ok (V := bytes) (th_world (follow choices start)).
Proof.
  intros start choices.
  refine (proj1 (concurrent_system_is_safe (V := bytes) demo_manager demo_activities demo_rungs 0%Z _
    demo_rungs_ok demo_activities_sound _)).
  apply (follow_reachable _ _ 5%Z); [cbn; lia|]. repeat constructor.
Defined.
