(* ===== verification/Progress.v ===== *)
(** * Everything that keeps running gets on

    Requests and governors interleaved by a scheduler, with the governors'
    tasks looping for ever, as [src/governor/task.rs] has them: a request waits
    no more often among the others than [Bounded] says it does on its own, a
    governor no more often than its settings allow in each round, and neither
    is stuck while it is given turns. *)

From S2P Require Import Prelude Entry Integrity Key Tier Continuity Policy TierTrait Telemetry.
From S2P Require Import Pool FixedTier ShardedTier Stubs ControlEntry Shard Cachelito Plane Protocol.
From S2P Require Import Commit Prog Threads Manager Steps Guarantee ReadYourWrite Bounded Governor.
From S2P Require Import Autonomy System.

(** ** Schedules *)

(** Who steps at each turn, when, and what becomes of what it awaits. *)
Abbreviation scheduler := (nat -> nat * Instant * pace) (only parsing).

Definition turn_of (x : nat * Instant * pace) : nat := fst (fst x).

Section schedules.
Context {T A : Type}.
Implicit Types (c : Threads T A) (p : prog T A).

(** What a thread goes on with at its turn: for one in a loop that has come to
    the end of a round, the next one. *)
Variable resume : nat -> prog T A -> prog T A.

Definition turn (i : nat) (now : Instant) (pc : pace) c : Threads T A :=
  match th_progs c !! i with
  | Some (Some p) =>
      let '(p', w') := thread_step now pc (resume i p) (th_world c) in
      mkThreads (<[i := p']> (th_progs c)) w' now
  | _ => c
  end.

Variable sigma : scheduler.

(** The pool after the first [n] turns. *)
Fixpoint after (n : nat) c : Threads T A :=
  match n with
  | O => c
  | S n => turn (turn_of (sigma n)) (snd (fst (sigma n))) (snd (sigma n)) (after n c)
  end.

(** The thread has not been forgotten: its turn always comes again. *)
Definition kept_running (i : nat) : Prop := forall n, exists m, n <= m /\ turn_of (sigma m) = i.

Definition drops (pc : pace) : Prop := pc = DroppedLost \/ pc = DroppedApplied.

(** It has come to the end of its program -- for a loop, of a round -- or its
    future was dropped at one of its turns. *)
Definition ended (i n : nat) c : Prop :=
  (exists a, th_progs (after n c) !! i = Some (Some (Ret a))) \/
  (th_progs (after n c) !! i = Some None /\
   exists m, m < n /\ turn_of (sigma m) = i /\ drops (snd (sigma m))).

(** Suspended at an [await], a sleep or a wait for a wake-up. *)
Definition is_waiting (p : prog T A) : bool :=
  match p with Ret _ | Step _ _ => false | Await _ _ _ _ | Pause _ _ | Notified _ _ _ _ => true end.

(** How many of the first [n] turns found the thread at one. *)
Fixpoint waits (i n : nat) c : nat :=
  match n with
  | O => 0
  | S n =>
      waits i n c +
      match th_progs (after n c) !! i with
      | Some (Some p) => if (turn_of (sigma n) =? i) && is_waiting (resume i p) then 1 else 0
      | _ => 0
      end
  end.

Definition is_ret (p : prog T A) : bool := match p with Ret _ => true | _ => false end.

(** How many of them found it at the end of a round. *)
Fixpoint rounds (i n : nat) c : nat :=
  match n with
  | O => 0
  | S n =>
      rounds i n c +
      match th_progs (after n c) !! i with
      | Some (Some p) => if (turn_of (sigma n) =? i) && is_ret p then 1 else 0
      | _ => 0
      end
  end.

Lemma after_progs_other i n c :
  turn_of (sigma n) <> i -> th_progs (after (S n) c) !! i = th_progs (after n c) !! i.
Proof.
  intros Hne. cbn [after]. unfold turn.
  destruct (th_progs (after n c) !! turn_of (sigma n)) as [[p|]|]; [|done..].
  destruct (thread_step _ _ (resume _ p) _). cbn. by rewrite list_lookup_insert_ne.
Qed.

Lemma after_progs_turn i n c p :
  turn_of (sigma n) = i -> th_progs (after n c) !! i = Some (Some p) ->
  th_progs (after (S n) c) !! i =
    Some (fst (thread_step (snd (fst (sigma n))) (snd (sigma n)) (resume i p) (th_world (after n c)))) /\
  th_world (after (S n) c) =
    snd (thread_step (snd (fst (sigma n))) (snd (sigma n)) (resume i p) (th_world (after n c))).
Proof.
  intros Ht Hp. cbn [after]. unfold turn. rewrite Ht, Hp.
  destruct (thread_step _ _ (resume i p) _) as [p' w']. cbn. split; [|done].
  apply list_lookup_insert_eq. by eapply lookup_lt_Some.
Qed.

(** Until its next turn a thread stays what it is. *)
Lemma next_turn i c d k :
  turn_of (sigma (k + d)) = i ->
  exists m, k <= m /\ turn_of (sigma m) = i /\ th_progs (after m c) !! i = th_progs (after k c) !! i.
Proof.
  revert k. induction d as [|d IH]; intros k Ht.
  - exists k. rewrite Nat.add_0_r in Ht. by split_and!.
  - destruct (decide (turn_of (sigma k) = i)) as [Hk|Hk]; [by exists k|].
    destruct (IH (S k)) as (m & Hm & Htm & Hp); [by rewrite Nat.add_succ_comm|].
    exists m. split_and!; [lia|done|]. by rewrite Hp, after_progs_other.
Qed.

(** A step goes on with a part of the program, or drops it. *)
Lemma thread_step_cases now pc (p : prog T A) w (Q : prog T A -> Prop) :
  (forall p', fst (thread_step now pc p w) = Some p' -> Q p') ->
  (exists p', fst (thread_step now pc p w) = Some p' /\ Q p') \/
  (fst (thread_step now pc p w) = None /\ drops pc).
Proof.
  intros HQ. destruct (fst (thread_step now pc p w)) as [p'|] eqn:He; [left; by exists p'; auto|].
  right. split; [done|]. unfold drops. revert He.
  destruct p as [a|B f k|B armed b op k|armed k|armed a s k]; cbn; [done| | | |].
  - by destruct (f now w).
  - destruct (op now w). destruct pc, b; auto; done.
  - destruct pc; auto; done.
  - destruct pc; auto; done.
Qed.

(** A thread that is given turns comes to the end of its program, or is dropped. *)
Lemma kept_running_round i c (p : prog T A) :
  (forall q, is_ret q = false -> resume i q = q) -> kept_running i ->
  forall k, th_progs (after k c) !! i = Some (Some p) -> exists n, k <= n /\ ended i n c.
Proof.
  intros Hres Hrun.
  assert (Hnext : forall (q : prog T A) k, is_ret q = false ->
    (forall now pc w p', fst (thread_step now pc q w) = Some p' ->
       forall k, th_progs (after k c) !! i = Some (Some p') -> exists n, k <= n /\ ended i n c) ->
    th_progs (after k c) !! i = Some (Some q) -> exists n, k <= n /\ ended i n c).
  { intros q k Hq HQ Hk. destruct (Hrun k) as (m0 & Hm0 & Ht0).
    destruct (next_turn i c (m0 - k) k) as (m & Hm & Ht & Hp);
      [by replace (k + (m0 - k)) with m0 by lia|].
    rewrite Hk in Hp. destruct (after_progs_turn i m c q Ht Hp) as [Hn _]. rewrite (Hres q Hq) in Hn.
    destruct (thread_step_cases (snd (fst (sigma m))) (snd (sigma m)) q (th_world (after m c))
      (fun p' => forall k, th_progs (after k c) !! i = Some (Some p') -> exists n, k <= n /\ ended i n c))
      as [(p' & Hp' & HQ')|[Hnone Hd]].
    - intros p' Hp'. by eapply HQ.
    - rewrite Hp' in Hn. destruct (HQ' _ Hn) as (n & Hle & He). exists n. split; [lia|done].
    - rewrite Hnone in Hn. exists (S m). split; [lia|]. right. split; [done|]. exists m. auto. }
  induction p as [a|B f g IH|B armed b op g IH|armed g IH|armed a s g IH]; intros k Hk.
  - exists k. split; [done|]. left. by exists a.
  - refine (Hnext _ k _ _ Hk); [done|]. intros now pc w p'. cbn. destruct (f now w) as [x w']. intros [= <-]. apply IH.
  - refine (Hnext _ k _ _ Hk); [done|]. intros now pc w p'. cbn. destruct (op now w) as [x w'].
    destruct pc, b; intros Heq; try discriminate Heq; injection Heq as <-; apply IH.
  - refine (Hnext _ k _ _ Hk); [done|]. intros now pc w p'. cbn.
    destruct pc; intros Heq; try discriminate Heq; injection Heq as <-; apply IH.
  - refine (Hnext _ k _ _ Hk); [done|]. intros now pc w p'. cbn.
    destruct pc; intros Heq; try discriminate Heq; injection Heq as <-; apply IH.
Qed.

Lemma rounds_mono i m n c : m <= n -> rounds i m c <= rounds i n c.
Proof. induction 1 as [|n _ IH]; [done|]. cbn [rounds]. lia. Qed.

(** One that loops and is never dropped goes round as often as one likes. *)
Lemma kept_running_loops i c (p : prog T A) (body : prog T A) :
  (forall q, is_ret q = false -> resume i q = q) -> (forall a, resume i (Ret a) = body) ->
  kept_running i -> (forall m, turn_of (sigma m) = i -> ~ drops (snd (sigma m))) ->
  th_progs c !! i = Some (Some p) ->
  forall k, exists n q, k <= rounds i n c /\ th_progs (after n c) !! i = Some (Some q).
Proof.
  intros Hres Hbody Hrun Hnd Hp k. induction k as [|k (n & q & Hk & Hq)].
  { exists 0, p. split; [lia|exact Hp]. }
  destruct (kept_running_round i c q Hres Hrun n Hq) as (n1 & Hn1 & [[a Ha]|(_ & m & _ & Ht & Hd)]);
    [|by destruct (Hnd m Ht)].
  destruct (Hrun n1) as (m0 & Hm0 & Ht0).
  destruct (next_turn i c (m0 - n1) n1) as (m & Hm & Ht & Hpm); [by replace (n1 + (m0 - n1)) with m0 by lia|].
  rewrite Ha in Hpm. destruct (after_progs_turn i m c _ Ht Hpm) as [Hnext _].
  destruct (thread_step_cases (snd (fst (sigma m))) (snd (sigma m)) (resume i (Ret a)) (th_world (after m c))
    (fun _ => True)) as [(p' & Hp' & _)|[_ Hd]]; [done| |by destruct (Hnd m Ht)].
  rewrite Hp' in Hnext. exists (S m), p'. split; [|done]. cbn [rounds]. rewrite Hpm.
  rewrite (proj2 (Nat.eqb_eq _ _) Ht). cbn. pose proof (rounds_mono i n m c). lia.
Qed.

(** ** Counting the waits *)

Section counting.
Context (I : World T -> Prop).

(** A step spends a wait exactly when the program was at one. *)
Lemma aw_thread_step n now pc p w p' :
  I w -> aw I n p -> fst (thread_step now pc p w) = Some p' ->
  if is_waiting p then exists m, n = S m /\ aw I m p' else aw I n p'.
Proof.
  intros Hw Ha. destruct p as [a|B f k|B armed b op k|armed k|armed a s k]; cbn in *.
  - by intros [= <-].
  - specialize (Ha now w Hw). destruct (f now w) as [x w']. by intros [= <-].
  - destruct n as [|n]; [done|]. destruct Ha as [Hk Ht]. specialize (Hk now w Hw).
    destruct (op now w) as [x w']. destruct pc, b; intros Heq; try discriminate Heq; injection Heq as <-;
      exists n; auto.
  - destruct n as [|n]; [done|]. destruct pc; intros Heq; try discriminate Heq; injection Heq as <-;
      by exists n.
  - destruct n as [|n]; [done|]. destruct pc; intros Heq; try discriminate Heq; injection Heq as <-;
      exists n; auto.
Qed.

Lemma waiting_budget n p : aw I n p -> is_waiting p = true -> 0 < n.
Proof. destruct p, n; cbn; try done; lia. Qed.

(** A thread that does not loop stays within its budget. *)
Lemma waits_bound i bound p c :
  (forall q, resume i q = q) ->
  (forall n, I (th_world (after n c))) -> th_progs c !! i = Some (Some p) -> aw I bound p ->
  forall n, waits i n c <= bound /\
    (forall q, th_progs (after n c) !! i = Some (Some q) -> aw I (bound - waits i n c) q).
Proof.
  intros Hres HI Hp Ha n. induction n as [|n [IHw IHp]].
  - cbn. split; [lia|]. rewrite Hp, Nat.sub_0_r. by intros q [= <-].
  - cbn [waits]. destruct (decide (turn_of (sigma n) = i)) as [Ht|Ht].
    + rewrite (proj2 (Nat.eqb_eq _ _) Ht). cbn [andb].
      destruct (th_progs (after n c) !! i) as [[q|]|] eqn:Hq.
      * specialize (IHp q eq_refl). destruct (after_progs_turn i n c q Ht Hq) as [Hnext _].
        rewrite Hres in *.
        split; [destruct (is_waiting q) eqn:Hwait; [pose proof (waiting_budget _ _ IHp Hwait)|]; lia|].
        intros q' Hq'. rewrite Hnext in Hq'. injection Hq' as Hq'.
        pose proof (aw_thread_step _ _ _ _ _ _ (HI n) IHp Hq') as Hs.
        destruct (is_waiting q); [|by rewrite Nat.add_0_r]. destruct Hs as (m & Hm & Hs).
        by replace (bound - (waits i n c + 1)) with m by lia.
      * rewrite Nat.add_0_r. split; [done|]. intros q'. cbn [after]. unfold turn. by rewrite Ht, Hq, Hq.
      * rewrite Nat.add_0_r. split; [done|]. intros q'. cbn [after]. unfold turn. by rewrite Ht, Hq, Hq.
    + rewrite (proj2 (Nat.eqb_neq _ _) Ht). cbn [andb].
      assert (H0 : match th_progs (after n c) !! i with Some (Some _) => 0 | _ => 0 end = 0)
        by (by destruct (th_progs (after n c) !! i) as [[]|]).
      rewrite H0, Nat.add_0_r. split; [done|]. intros q. rewrite after_progs_other by done. apply IHp.
Qed.

(** One that loops, within the budget of a round for each round. *)
Lemma loop_waits_bound i bound body a c :
  (forall q, is_ret q = false -> resume i q = q) -> (forall b, resume i (Ret b) = body) ->
  (forall n, I (th_world (after n c))) -> th_progs c !! i = Some (Some (Ret a)) -> aw I bound body ->
  forall n, waits i n c <= rounds i n c * bound /\
    (forall q, th_progs (after n c) !! i = Some (Some q) -> aw I (rounds i n c * bound - waits i n c) q).
Proof.
  intros Hres Hbody HI Hp Hb n. induction n as [|n [IHw IHp]].
  - cbn. split; [lia|]. rewrite Hp. by intros q [= <-].
  - cbn [waits rounds]. destruct (decide (turn_of (sigma n) = i)) as [Ht|Ht].
    + rewrite (proj2 (Nat.eqb_eq _ _) Ht). cbn [andb].
      destruct (th_progs (after n c) !! i) as [[q|]|] eqn:Hq.
      * specialize (IHp q eq_refl). destruct (after_progs_turn i n c q Ht Hq) as [Hnext _].
        assert (Hbudget : exists total, total = (rounds i n c + (if is_ret q then 1 else 0)) * bound /\
                  waits i n c <= total /\ aw I (total - waits i n c) (resume i q)).
        { eexists. split; [done|]. destruct (is_ret q) eqn:Hret.
          - split; [lia|]. destruct q; try discriminate Hret. rewrite Hbody.
            eapply aw_mono; [|exact Hb]. lia.
          - rewrite Nat.add_0_r, Hres by done. split; [lia|done]. }
        destruct Hbudget as (total & Ht' & Hle & Haw). rewrite <- Ht'. clear IHp IHw.
        split; [destruct (is_waiting (resume i q)) eqn:Hwait; [pose proof (waiting_budget _ _ Haw Hwait)|]; lia|].
        intros q' Hq'. rewrite Hnext in Hq'. injection Hq' as Hq'.
        pose proof (aw_thread_step _ _ _ _ _ _ (HI n) Haw Hq') as Hs.
        destruct (is_waiting (resume i q)); [|by rewrite Nat.add_0_r]. destruct Hs as (m & Hm & Hs).
        by replace (total - (waits i n c + 1)) with m by lia.
      * rewrite !Nat.add_0_r. split; [done|]. intros q'. cbn [after]. unfold turn. by rewrite Ht, Hq, Hq.
      * rewrite !Nat.add_0_r. split; [done|]. intros q'. cbn [after]. unfold turn. by rewrite Ht, Hq, Hq.
    + rewrite (proj2 (Nat.eqb_neq _ _) Ht). cbn [andb].
      assert (H0 : match th_progs (after n c) !! i with Some (Some _) => 0 | _ => 0 end = 0)
        by (by destruct (th_progs (after n c) !! i) as [[]|]).
      rewrite H0, !Nat.add_0_r. split; [done|]. intros q. rewrite after_progs_other by done. apply IHp.
Qed.
End counting.
End schedules.

(** ** Programs that do the same *)

(** Equal up to what their continuations are written as. *)
Inductive peq {T A} : prog T A -> prog T A -> Prop :=
| peq_ret a : peq (Ret a) (Ret a)
| peq_step {B} (f : Instant -> World T -> B * World T) k k' :
    (forall b, peq (k b) (k' b)) -> peq (Step f k) (Step f k')
| peq_await {B} armed bounded (op : Instant -> World T -> res B * World T) k k' :
    (forall r, peq (k r) (k' r)) -> peq (Await armed bounded op k) (Await armed bounded op k')
| peq_pause armed k k' : peq k k' -> peq (Pause armed k) (Pause armed k')
| peq_notified armed a seen k k' :
    (forall r, peq (k r) (k' r)) -> peq (Notified armed a seen k) (Notified armed a seen k').

Section peq.
Context {T : Type}.

Lemma peq_refl {A} (p : prog T A) : peq p p.
Proof. induction p; by constructor. Qed.

(** Sequences that go on alike after a common first part. *)
Lemma peq_after {A B B' C} (p : prog T A) (f : A -> prog T B) (f' : A -> prog T B')
    (g : B -> prog T C) (g' : B' -> prog T C) :
  (forall a, peq (bind (f a) g) (bind (f' a) g')) ->
  peq (bind (bind p f) g) (bind (bind p f') g').
Proof. intros H. induction p; cbn; [apply H|by constructor..]. Qed.

(** One step of both ends in the same world, with what does the same left. *)
Lemma thread_step_peq {A} now pc (p q : prog T A) w :
  peq p q ->
  snd (thread_step now pc p w) = snd (thread_step now pc q w) /\
  match fst (thread_step now pc p w), fst (thread_step now pc q w) with
  | Some p', Some q' => peq p' q'
  | None, None => True
  | _, _ => False
  end.
Proof.
  intros H. destruct H as [a|B f k k' H|B armed b op k k' H|armed k k' H|armed a seen k k' H]; cbn.
  - split; [done|constructor].
  - destruct (f now w). cbn. auto.
  - destruct (op now w). destruct pc, b; cbn; auto.
  - destruct pc; cbn; auto.
  - destruct pc; cbn; auto.
Qed.

(** A step of the first part of a sequence that has not returned. *)
Lemma thread_step_bind {A B} now pc (p : prog T A) (f : A -> prog T B) w :
  is_ret p = false ->
  thread_step now pc (bind p f) w =
  (option_map (fun p' => bind p' f) (fst (thread_step now pc p w)), snd (thread_step now pc p w)).
Proof.
  destruct p as [a|C g k|C armed b op k|armed k|armed a seen k]; intros Hr; cbn; [done| | | |].
  - by destruct (g now w).
  - destruct (op now w). by destruct pc, b.
  - by destruct pc.
  - by destruct pc.
Qed.
End peq.

(** ** The waits of a governor's round *)

Section tick_waits.
Context {K V P T0 : Type} `{!Key K} `{!CachePolicy P K V} `{!CacheTier V T0}.
Variable self : Governor (K := K) (P := P) (T0 := T0).
Context (rungs : nat).

Abbreviation T := (HotRungTier T0).
Abbreviation AW := (aw (fun w : World T => length (w_tiers w) = rungs)).

(** Rebinds wait for the rebinder once each, demotions and promotions four times
    each for a tier. *)
Definition tick_awaits (s : GovernorSettings) : nat :=
  gs_max_rebinds_per_tick s + 8 * gs_max_moves_per_tick s.

Definition round_awaits (s : GovernorSettings) : nat := S (tick_awaits s).

Lemma aw_recover_each n items report : AW n (recover_each items report).
Proof.
  revert report. induction items as [|[a i] items IH]; intros report; cbn [recover_each]; [done|].
  destruct (ci_kind i); (apply aw_free; [apply aw_ctl|]); intros r; apply IH.
Qed.

Lemma aw_observe_census n idx entries : AW n (observe_census (K := K) idx entries).
Proof.
  revert idx. induction entries as [|entry rest IH]; intros idx; cbn [observe_census]; [done|].
  apply aw_free; [apply aw_peek|]. intros s.
  apply (aw_bind _ n 0); [apply IH|done|lia].
Qed.

Lemma aw_plan n : AW n (plan (V := V) self).
Proof.
  unfold plan, observe. apply (aw_bind _ n 0); [|intros o; by apply aw_free; [apply aw_ask|]|lia].
  do 3 (apply aw_free; [apply aw_ask|]; intros ?).
  apply (aw_bind _ n 0); [|done|lia]. destruct (g_census self); [apply aw_observe_census|done].
Qed.

Lemma aw_rebinds n rebinder l report : AW (length l + n) (apply_rebinds (V := V) self rebinder l report).
Proof.
  revert report. induction l as [|rung l IH]; intros report; cbn [apply_rebinds length plus]; [done|].
  destruct (List.find _ _) as [hot|]; [|eapply aw_mono; [|apply IH]; lia].
  apply aw_one; [apply aw_await|]. intros [[replacement|]|e]; [|apply IH..].
  apply aw_free; [|intros []; apply IH].
  destruct hot; cbn [swap_through]; [|done]. by apply aw_free; [apply aw_step|].
Qed.

Lemma aw_demotes n entries ctx idxs budget report :
  AW (4 * budget + n) (apply_demotes (V := V) self entries ctx idxs budget report).
Proof.
  revert budget report. induction idxs as [|idx idxs IH]; intros budget report; cbn [apply_demotes]; [done|].
  destruct budget as [|budget]; [done|]. destruct (entries !! idx); [|apply IH].
  apply (aw_bind _ 4 (4 * budget + n)); [apply aw_demote| |lia].
  intros [u|[]]; try apply IH; done.
Qed.

Lemma aw_promotes n entries ctx idxs budget report :
  AW (4 * length idxs + n) (apply_promotes (V := V) self entries ctx idxs budget report).
Proof.
  revert budget report. induction idxs as [|idx idxs IH]; intros budget report; cbn [apply_promotes]; [done|].
  destruct budget as [|budget]; [done|].
  destruct (entries !! idx); [|eapply aw_mono; [|apply IH]; cbn [length]; lia].
  apply (aw_bind _ 4 (4 * length idxs + n)); [apply aw_promote| |cbn [length]; lia].
  intros [u|e]; apply IH.
Qed.

(** What a plan asks for at most. *)
Definition within (s : GovernorSettings) (p : GovernorPlan) : Prop :=
  length (gp_rebind p) <= gs_max_rebinds_per_tick s /\ length (gp_promote p) <= gs_max_moves_per_tick s.

Lemma plan_within : returns (plan (V := V) self) (within (g_settings self)).
Proof.
  unfold plan. apply (returns_bind _ _ _ (fun _ => True)); [apply returns_any|]. intros o _.
  apply (returns_bind _ _ _ (fun _ => True)); [apply returns_any|]. intros h _. cbn.
  apply plan_tick_within.
Qed.

Lemma aw_apply_plan p :
  within (g_settings self) p -> AW (tick_awaits (g_settings self)) (apply_plan (V := V) self p).
Proof.
  intros [Hrb Hpr]. unfold apply_plan, tick_awaits. destruct (negb _); [done|].
  apply aw_free.
  { destruct (gp_recovery_sweep p); [|done]. apply aw_free; [|done].
    unfold recover_older_than. apply aw_free; [apply aw_ask|]. intros items. apply aw_recover_each. }
  intros r1. apply aw_free; [destruct (gp_expire_sweep p); [|done]; by apply aw_free; [apply aw_ctl|]|].
  intros r2. apply (aw_bind _ (gs_max_rebinds_per_tick (g_settings self))
                      (8 * gs_max_moves_per_tick (g_settings self))); [| |lia].
  { destruct (g_rebinder self); [|done]. eapply aw_mono; [|apply (aw_rebinds 0)]. lia. }
  intros r3. destruct (negb _); [done|]. destruct (g_census self) as [census|]; [|done]. cbn zeta.
  apply (aw_bind _ (4 * gs_max_moves_per_tick (g_settings self))
           (4 * gs_max_moves_per_tick (g_settings self))); [| |lia].
  { eapply aw_mono; [|apply (aw_demotes 0)]. lia. }
  intros moved. eapply aw_mono; [|apply (aw_promotes 0)]. lia.
Qed.

Lemma aw_tick : AW (tick_awaits (g_settings self)) (tick (V := V) self).
Proof.
  unfold tick. apply (aw_bind_returns _ 0 (tick_awaits (g_settings self)) _ _ _ (within (g_settings self)));
    [apply aw_plan|apply plan_within| |lia].
  intros p Hp. destruct (executes_maintenance _); [|done].
  apply (aw_bind _ (tick_awaits (g_settings self)) 0); [by apply aw_apply_plan|done|lia].
Qed.

Lemma aw_round : AW (round_awaits (g_settings self)) (task_round (V := V) self).
Proof.
  unfold task_round, round_awaits. apply aw_one; [apply aw_pause|]. intros _.
  apply (aw_bind _ (tick_awaits (g_settings self)) 0); [apply aw_tick|done|lia].
Qed.
End tick_waits.

(** ** The system *)

Section system.
Context {K V P T0 : Type} `{!Key K} `{!CachePolicy P K V} `{HT : !CacheTier V T0} `{HL : !TierLaws V T0}.
Context (manager : CacheManager P).

Abbreviation W := (World (HotRungTier T0)).
Abbreviation activity := (activity (K := K) (V := V) (P := P) (T0 := T0)).
Abbreviation reply := (option (response V)).

(** A governor's thread starts at the head of its loop; the number of rounds of
    [System] plays no part here. *)
Definition initial_prog (a : activity) : prog (HotRungTier T0) reply :=
  match a with Serve _ => activity_prog manager a | Govern _ _ => Ret None end.

Definition round_prog (g : Governor (K := K) (P := P) (T0 := T0)) : prog (HotRungTier T0) reply :=
  let! _ := task_round (V := V) g in Ret None.

(** A governor that has come to the end of a round begins the next. *)
Definition loops (activities : list activity) (i : nat) (p : prog (HotRungTier T0) reply) :
    prog (HotRungTier T0) reply :=
  match activities !! i, p with
  | Some (Govern g _), Ret _ => round_prog g
  | _, _ => p
  end.

(** *** The loop and its first rounds *)

Definition with_rounds (n : nat) (a : activity) : activity :=
  match a with Serve _ => a | Govern g _ => Govern g n end.

(** What is left of [j] rounds, one after the other. *)
Fixpoint rounds_left (g : Governor (K := K) (P := P) (T0 := T0)) (j : nat) : prog (HotRungTier T0) reply :=
  match j with
  | O => Ret None
  | S j => let! _ := round_prog g in rounds_left g j
  end.

Lemma task_loop_rounds g j : peq (activity_prog manager (Govern g j)) (rounds_left g j).
Proof.
  cbn [activity_prog]. induction j as [|j IH]; cbn [task_loop rounds_left]; [apply peq_refl|].
  unfold round_prog, task_round. generalize (tick (V := V) g) as p. intros p. cbn. apply peq_pause.
  induction p as [r|B f k IHp|B armed b op k IHp|armed k IHp|armed a s k IHp]; cbn;
    [exact IH|by constructor..].
Qed.

(** The thread of the loop and that of so many rounds, at the same point. *)
Definition in_step (a : activity) (left : nat) (o o' : option (prog (HotRungTier T0) reply)) : Prop :=
  match o, o' with
  | None, None => True
  | Some p, Some q =>
      match a with
      | Serve _ => peq q p
      | Govern g _ => exists j, left <= j /\ peq q (bind p (fun _ => rounds_left g j))
      end
  | _, _ => False
  end.

Lemma in_step_later a left o o' : in_step a (S left) o o' -> in_step a left o o'.
Proof.
  destruct o as [p|], o' as [q|], a as [r|g n]; cbn; try done. intros (j & Hj & Hq). exists j. split; [lia|done].
Qed.

Lemma in_step_turn activities i a left now pc p q (w : W) :
  activities !! i = Some a -> in_step a (S left) (Some p) (Some q) ->
  snd (thread_step now pc (loops activities i p) w) = snd (thread_step now pc q w) /\
  in_step a left (fst (thread_step now pc (loops activities i p) w)) (fst (thread_step now pc q w)).
Proof.
  intros Ha Hin. unfold loops. rewrite Ha. destruct a as [r|g n]; cbn [in_step] in Hin.
  - destruct (thread_step_peq now pc q p w Hin) as [Hs Hp]. split; [done|].
    destruct (fst (thread_step now pc p w)), (fst (thread_step now pc q w)); done.
  - assert (Hbody : exists p' j, left <= j /\ is_ret p' = false /\ peq q (bind p' (fun _ => rounds_left g j)) /\
              match p with Ret _ => round_prog g | _ => p end = p').
    { destruct Hin as (j & Hj & Hq). destruct p as [x|B f k|B armed b op k|armed k|armed a s k].
      - destruct j as [|j]; [lia|]. exists (round_prog g), j. split_and!; [lia|done|exact Hq|done].
      - by eexists _, j; split_and!; [lia| |exact Hq|].
      - by eexists _, j; split_and!; [lia| |exact Hq|].
      - by eexists _, j; split_and!; [lia| |exact Hq|].
      - by eexists _, j; split_and!; [lia| |exact Hq|]. }
    destruct Hbody as (p' & j & Hj & Hr & Hq & ->).
    destruct (thread_step_peq now pc q _ w Hq) as [Hs Hp]. rewrite thread_step_bind in Hs, Hp by done.
    cbn [fst snd] in Hs, Hp. split; [done|].
    destruct (fst (thread_step now pc p' w)), (fst (thread_step now pc q w)); cbn in *; try done.
    by exists j.
Qed.

(** Any finite part of the system with its endless loops is a part of the system
    of [System] with enough rounds: the worlds they go through are the same. *)
Theorem looping_governors_are_prefixes (activities : list activity) (w : W) (t : Instant)
    (sigma : scheduler) (n : nat) :
  th_world (after (loops activities) sigma n (spawn (map initial_prog activities) w t)) =
  th_world (after (fun _ p => p) sigma n
              (spawn (map (fun a => activity_prog manager (with_rounds n a)) activities) w t)).
Proof.
  set (c := spawn (map initial_prog activities) w t).
  set (c' := spawn (map (fun a => activity_prog manager (with_rounds n a)) activities) w t).
  assert (H : forall m, m <= n ->
    th_world (after (loops activities) sigma m c) = th_world (after (fun _ p => p) sigma m c') /\
    forall i, match activities !! i with
              | Some a => exists o o', th_progs (after (loops activities) sigma m c) !! i = Some o /\
                            th_progs (after (fun _ p => p) sigma m c') !! i = Some o' /\
                            in_step a (n - m) o o'
              | None => th_progs (after (loops activities) sigma m c) !! i = None /\
                        th_progs (after (fun _ p => p) sigma m c') !! i = None
              end); [|by apply H].
  induction m as [|m IH]; intros Hm.
  - cbn [after]. split; [done|]. intros i. unfold c, c', spawn. cbn [th_progs].
    rewrite !map_map, !list_lookup_fmap. destruct (activities !! i) as [a|]; cbn; [|done].
    eexists _, _. split; [done|]. split; [done|]. destruct a as [r|g k]; cbn; [apply peq_refl|].
    exists n. split; [lia|]. apply (task_loop_rounds g n).
  - destruct (IH ltac:(lia)) as [Hw Hp]. cbn [after]. unfold turn.
    set (i := turn_of (sigma m)). pose proof (Hp i) as Hi.
    destruct (activities !! i) as [a|] eqn:Ha.
    2: { destruct Hi as [-> ->]. split; [done|]. intros j. specialize (Hp j).
         destruct (activities !! j); [|done]. destruct Hp as (o & o' & ? & ? & Hin). exists o, o'.
         split_and!; [done|done|]. apply in_step_later. by replace (S (n - S m)) with (n - m) by lia. }
    destruct Hi as (o & o' & Ho & Ho' & Hin). rewrite Ho, Ho'.
    replace (n - m) with (S (n - S m)) in Hin by lia.
    assert (Hothers : forall j, match activities !! j with
        | Some a => exists o o', th_progs (after (loops activities) sigma m c) !! j = Some o /\
                      th_progs (after (fun _ p => p) sigma m c') !! j = Some o' /\ in_step a (n - S m) o o'
        | None => th_progs (after (loops activities) sigma m c) !! j = None /\
                  th_progs (after (fun _ p => p) sigma m c') !! j = None
        end).
    { intros j. specialize (Hp j). destruct (activities !! j); [|done].
      destruct Hp as (x & x' & ? & ? & Hx). exists x, x'. split_and!; [done|done|].
      apply in_step_later. by replace (S (n - S m)) with (n - m) by lia. }
    destruct o as [p|], o' as [q|]; try done.
    destruct (in_step_turn activities i a (n - S m) (snd (fst (sigma m))) (snd (sigma m)) p q
                (th_world (after (loops activities) sigma m c)) Ha Hin) as [Hs Hn].
    rewrite <- Hw. destruct (thread_step _ _ (loops activities i p) _) as [p' w1].
    destruct (thread_step _ _ q _) as [q' w2]. cbn [fst snd th_world th_progs] in *. split; [done|].
    intros j. destruct (decide (j = i)) as [->|Hj].
    + rewrite Ha. exists p', q'.
      rewrite !list_lookup_insert_eq by (by eapply lookup_lt_Some). done.
    + rewrite !list_lookup_insert_ne by done. apply Hothers.
Qed.

(** Whatever the schedule, the same rungs are bound all along. *)
Lemma rungs_along (activities : list activity) (w : W) t (sigma : scheduler) n :
  world_ok (V := V) w -> Forall sound_rebinder activities ->
  length (w_tiers (th_world (after (loops activities) sigma n (spawn (map initial_prog activities) w t)))) =
  length (w_tiers w).
Proof.
  intros Hw Hsound. rewrite looping_governors_are_prefixes.
  set (pl := c_placement (w_ctl w)). set (c := spawn _ w t). generalize n at 1 as m. intros m.
  assert (HI : forall w1 w2 : W, placed pl w1 -> tick_safe (V := V) w1 w2 -> placed pl w2).
  { intros w1 w2 Hw1 [Hk _]. unfold placed in *. by rewrite (wk_placement _ _ Hk). }
  assert (Hinv : tick_safe (V := V) w (th_world (after (fun _ p => p) sigma m c)) /\
    placed pl (th_world (after (fun _ p => p) sigma m c)) /\
    all_respect (placed pl) (tick_safe (V := V)) (after (fun _ p => p) sigma m c)).
  { induction m as [|m (Hg & Hp & Hall)]; cbn [after].
    - split; [reflexivity|]. split; [done|]. unfold all_respect, c, spawn. cbn [th_progs]. rewrite map_map.
      apply Forall_map, (Forall_impl _ _ _ Hsound). intros a Ha. apply (activity_safe (V := V)).
      by destruct a.
    - destruct (schedule_respects (placed pl) (tick_safe (V := V)) HI (turn_of (sigma m))
        (snd (fst (sigma m))) (snd (sigma m)) _ Hp Hall) as [Hg' Hall'].
      split_and!; [by etransitivity|by eapply HI|done]. }
  destruct Hinv as [[Hk _] _]. by destruct Hk.
Qed.

(** C12. Nobody waits for ever and nobody is stuck. Requests and governors run
    together, each governor looping for ever as its task does, under any
    schedule at all. A request is found waiting -- at an [await], a sleep or a
    wait for a wake-up -- at no more of its turns than its fixed budget,
    however the others interfere, and while it is given turns it ends, with an
    answer unless its future was dropped at one of its own turns. A governor is
    found waiting, over all the rounds it has begun so far, at most as often as
    if each round waited once for its sleep, once for each rebind its settings
    allow and eight times for each move they allow; it never ends by itself:
    while it is given turns and not aborted, it begins as many rounds as one
    likes. (A turn at an [await] is the moment
    that wait is over: answered, timed out or dropped.) *)
Theorem concurrent_system_makes_progress
    (activities : list activity) (w : W) (t : Instant) (sigma : scheduler) (i : nat) (a : activity)
    (Hw : world_ok (V := V) w) (Hsound : Forall sound_rebinder activities)
    (Ha : activities !! i = Some a) :
  let start := spawn (map initial_prog activities) w t in
  let system := loops activities in
  match a with
  | Serve r =>
      (forall n, waits system sigma i n start <= request_awaits (length (w_tiers w)) r) /\
      (kept_running sigma i -> exists n, ended system sigma i n start)
  | Govern g _ =>
      (forall n, waits system sigma i n start <=
                 rounds system sigma i n start * round_awaits (g_settings g)) /\
      (kept_running sigma i -> (forall m, turn_of (sigma m) = i -> ~ drops (snd (sigma m))) ->
       forall k, exists n, k <= rounds system sigma i n start)
  end.
Proof.
  intros start system. set (rungs := length (w_tiers w)).
  assert (HI : forall n, length (w_tiers (th_world (after system sigma n start))) = rungs)
    by (intros n; by apply rungs_along).
  assert (Hi : th_progs start !! i = Some (Some (initial_prog a))).
  { unfold start, spawn. cbn [th_progs]. by rewrite map_map, list_lookup_fmap, Ha. }
  destruct a as [r|g k0]; cbn [initial_prog] in Hi.
  - assert (Hres : forall q, system i q = q) by (intros q; unfold system, loops; by rewrite Ha). split.
    + intros n. apply (waits_bound system sigma (fun w => length (w_tiers w) = rungs) i
        (request_awaits rungs r) (activity_prog manager (Serve r)) start Hres HI Hi).
      cbn [activity_prog]. apply (aw_bind _ (request_awaits rungs r) 0); [apply aw_perform|done|lia].
    + intros Hrun. destruct (kept_running_round system sigma i start _ (fun q _ => Hres q) Hrun 0 Hi)
        as (n & _ & He). by exists n.
  - assert (Hres : forall q, is_ret q = false -> system i q = q)
      by (intros q; unfold system, loops; rewrite Ha; by destruct q).
    assert (Hbody : forall b, system i (Ret b) = round_prog g)
      by (intros b; unfold system, loops; by rewrite Ha). split.
    + intros n. apply (loop_waits_bound system sigma (fun w => length (w_tiers w) = rungs) i
        (round_awaits (g_settings g)) (round_prog g) None start Hres Hbody HI Hi).
      unfold round_prog. apply (aw_bind _ (round_awaits (g_settings g)) 0); [apply aw_round|done|lia].
    + intros Hrun Hnd k.
      destruct (kept_running_loops system sigma i start _ _ Hres Hbody Hrun Hnd Hi k) as (n & q & Hk & _).
      by exists n.
Qed.
End system.

#[local] Existing Instance system_hasher.

(** The example of [System], round robin, with the governor looping: the second
    writer ends, within its budget of waits; the governor begins a hundred
    rounds, and waits at most 67 times in each. *)
Lemma concurrent_system_makes_progress_witness :
  let start := spawn (map (initial_prog demo_manager) demo_activities) demo_rungs 0 in
  let sigma := fun n => (n mod 4, 5%Z, OnTime) in
  (exists n, ended (loops demo_activities) sigma 1 n start) /\
  waits (loops demo_activities) sigma 1 400 start <= 15232 /\
  (exists n, 100 <= rounds (loops demo_activities) sigma 3 n start) /\
  waits (loops demo_activities) sigma 3 400 start <=
    rounds (loops demo_activities) sigma 3 400 start * 67.
Proof.
  intros start sigma.
  assert (Hrun : forall i, i < 4 -> kept_running sigma i).
  { intros i Hi n. exists (i + n * 4). split; [lia|]. unfold sigma, turn_of. cbn [fst].
    rewrite Nat.Div0.mod_add. by apply Nat.mod_small. }
  destruct (concurrent_system_makes_progress (V := bytes) demo_manager demo_activities demo_rungs 0%Z
    sigma 1 (Serve (RSet [107%Z] [2%Z] demo_ctx)) demo_rungs_ok demo_activities_sound eq_refl) as [Hwaits Hend].
  destruct (concurrent_system_makes_progress (V := bytes) demo_manager demo_activities demo_rungs 0%Z
    sigma 3 (Govern demo_governor 1) demo_rungs_ok demo_activities_sound eq_refl) as [Hgwaits Hrounds].
  split; [apply Hend, Hrun; lia|]. split; [apply (Hwaits 400)|]. split; [|apply (Hgwaits 400)].
  apply Hrounds; [apply Hrun; lia|]. by intros m _ [[=]|[=]].
Defined.
