(* ===== verification/Walk.v ===== *)
(** * One walk through every operation of the manager

    A judgement on programs -- in good worlds every step leaves the world good,
    and what is returned satisfies a postcondition -- and one walk through all
    of [src/manager.rs] and [src/governor/mod.rs] against an interface, [Keeps]:
    what "good" must survive at the leaves (calls on a tier, on the control
    plane, on the registry and the sink). [Genuine] and [Routing] are its two
    instances. *)

From stdpp Require Import relations.
From S2P Require Import Prelude Entry Integrity Key Tier Continuity Policy TierTrait Telemetry.
From S2P Require Import Stubs ControlEntry Shard Cachelito Plane Protocol.
From S2P Require Import Prog Threads Manager Steps Governor Autonomy.

(** ** The judgement *)

Section yields.
Context {T : Type} (good : World T -> Prop).

Fixpoint yields {A} (p : prog T A) (Q : A -> Prop) : Prop :=
  match p with
  | Ret a => Q a
  | Step f k => forall now w, good w -> good (snd (f now w)) /\ yields (k (fst (f now w))) Q
  | Await armed bounded op k =>
      (forall now w, good w -> good (snd (op now w)) /\ yields (k (fst (op now w))) Q) /\
      (bounded = true -> yields (k (Err Timeout)) Q)
  | Pause armed k => yields k Q
  | Notified armed a seen k => forall r, yields (k r) Q
  end.

Lemma yields_mono {A} (p : prog T A) (Q R : A -> Prop) :
  (forall a, Q a -> R a) -> yields p Q -> yields p R.
Proof.
  intros HQ. induction p as [a|B f k IH|B armed b op k IH|armed k IH|armed a s k IH]; cbn; auto.
  - intros Hp now w Hw. destruct (Hp now w Hw). auto.
  - intros [Hk Ht]. split; [|auto]. intros now w Hw. destruct (Hk now w Hw). auto.
Qed.

Lemma yields_bind {A B} (p : prog T A) (f : A -> prog T B) (R : A -> Prop) (Q : B -> Prop) :
  yields p R -> (forall a, R a -> yields (f a) Q) -> yields (bind p f) Q.
Proof.
  intros Hp Hf. induction p as [a|C g k IH|C armed b op k IH|armed k IH|armed a s k IH]; cbn in *; auto.
  - intros now w Hw. destruct (Hp now w Hw). auto.
  - destruct Hp as [Hk Ht]. split; [|auto]. intros now w Hw. destruct (Hk now w Hw). auto.
Qed.

(** [p?]: an error is returned as it is. *)
Lemma yields_try {A B} (p : prog T (res A)) (f : A -> prog T (res B)) (R : res A -> Prop)
    (Q : res B -> Prop) :
  yields p R -> (forall a, R (Ok a) -> yields (f a) Q) -> (forall e, Q (Err e)) ->
  yields (bind p (fun r => match r with Ok x => f x | Err e => Ret (Err e) end)) Q.
Proof. intros Hp Hf Hq. apply (yields_bind _ _ R); [done|]. intros [a|e] Ha; [by apply Hf|apply Hq]. Qed.

Definition anything {A} (_ : A) : Prop := True.

(** What comes after a step that constrains nothing. *)
Lemma y_then {A B} (p : prog T A) (f : A -> prog T B) (Q : B -> Prop) :
  yields p anything -> (forall a, yields (f a) Q) -> yields (bind p f) Q.
Proof. intros Hp Hf. apply (yields_bind _ _ anything); [done|]. by intros a _. Qed.

Lemma y_any {A} (p : prog T A) (Q : A -> Prop) : yields p Q -> yields p anything.
Proof. by apply yields_mono. Qed.

Lemma y_ret {A} (a : A) : yields (Ret a) anything.
Proof. done. Qed.

Lemma y_step {B} (f : Instant -> World T -> B * World T) (Q : B -> Prop) :
  (forall now w, good w -> good (snd (f now w)) /\ Q (fst (f now w))) -> yields (atomically f) Q.
Proof. by intros Hf now w Hw; apply Hf. Qed.

Lemma y_ask {B} (f : Instant -> World T -> B) (Q : B -> Prop) :
  (forall now w, good w -> Q (f now w)) -> yields (ask f) Q.
Proof. intros Hf. apply y_step. intros now w Hw. split; [done|by apply Hf]. Qed.

Lemma y_ask_any {B} (f : Instant -> World T -> B) : yields (ask f) anything.
Proof. by apply y_ask. Qed.

Lemma y_ctl {B} (op : Instant -> Cachelito -> B * Cachelito) (Q : B -> Prop) :
  (forall now w, good w -> good (set_ctl (snd (op now (w_ctl w))) w) /\ Q (fst (op now (w_ctl w)))) ->
  yields (ctl op) Q.
Proof.
  intros Hop. apply y_step. intros now w Hw. specialize (Hop now w Hw).
  by destruct (op now (w_ctl w)).
Qed.

Lemma y_await {B} armed bounded (op : Instant -> World T -> res B * World T) (R : res B -> Prop) :
  (forall now w, good w -> good (snd (op now w)) /\ R (fst (op now w))) -> R (Err Timeout) ->
  yields (await armed bounded op) R.
Proof. intros Hop Ht. split; [|done]. intros now w Hw. by destruct (Hop now w Hw). Qed.

Lemma y_pause armed : yields (pause armed) anything.
Proof. done. Qed.

Lemma y_notified armed a seen : yields (notified armed a seen) anything.
Proof. by intros r. Qed.

Lemma y_if_bound {A} rung (absent k : prog T A) (Q : A -> Prop) :
  yields absent Q -> yields k Q -> yields (if_bound rung absent k) Q.
Proof. intros Ha Hk. apply y_then; [apply y_ask_any|]. by intros []. Qed.

(** *** What it says of executions *)

(** Dropped guards leave the world good, and so does everybody else. *)
Context (Hdrop : forall armed w, good w -> good (drop_guards armed w)).

Lemma run_yields {A} (env : Env T) n (p : prog T A) w (Q : A -> Prop) :
  (forall n w, good w -> good (env_others env n w)) -> good w -> yields p Q ->
  good (snd (run env n p w)) /\ forall a, fst (run env n p w) = Some a -> Q a.
Proof.
  intros He. revert n w. induction p as [a|B f k IH|B armed b op k IH|armed k IH|armed a s k IH];
    cbn; intros n w Hw Hp.
  - split; [done|]. by intros a' [= <-].
  - specialize (Hp (env_clock env n) _ (He n w Hw)). destruct (f _ _). destruct Hp. by apply IH.
  - destruct Hp as [Hk Ht]. specialize (Hk (env_clock env n) _ (He n w Hw)).
    destruct (op _ _) as [r w']. destruct Hk as [Hg Hk].
    destruct (env_pace env n), b; cbn; auto; (split; [by auto|]); intros ? [=].
  - destruct (env_pace env n); cbn; auto; (split; [by auto|]); intros ? [=].
  - destruct (env_pace env n); cbn; auto; (split; [by auto|]); intros ? [=].
Qed.

Lemma thread_step_yields {A} now pc (p : prog T A) w (Q : A -> Prop) :
  good w -> yields p Q ->
  good (snd (thread_step now pc p w)) /\
  (forall p', fst (thread_step now pc p w) = Some p' -> yields p' Q).
Proof.
  intros Hw Hp. destruct p as [a|B f k|B armed b op k|armed k|armed a s k]; cbn in *.
  - split; [done|]. by intros p' [= <-].
  - specialize (Hp now w Hw). destruct (f now w). destruct Hp. split; [done|]. by intros p' [= <-].
  - destruct Hp as [Hk Ht]. specialize (Hk now w Hw). destruct (op now w) as [r w']. destruct Hk as [Hg Hk].
    destruct pc, b; cbn; (split; [by auto|]); intros p' Heq; try discriminate Heq; injection Heq as <-; auto.
  - destruct pc; cbn; (split; [by auto|]); intros p' Heq; try discriminate Heq; injection Heq as <-; auto.
  - destruct pc; cbn; (split; [by auto|]); intros p' Heq; try discriminate Heq; injection Heq as <-; auto.
Qed.

(** Threads that yield, yield together. *)
Definition all_yield {A} (Q : nat -> A -> Prop) (c : Threads T A) : Prop :=
  forall i p, th_progs c !! i = Some (Some p) -> yields p (Q i).

Lemma threads_yield {A} (Q : nat -> A -> Prop) (c c' : Threads T A) :
  rtc threads_step c c' -> good (th_world c) -> all_yield Q c ->
  good (th_world c') /\ all_yield Q c'.
Proof.
  induction 1 as [c|c c1 c' Hs _ IH]; [done|]. intros Hw Hall. destruct Hs as [c i now pc _]. apply IH.
  - unfold schedule. destruct (th_progs c !! i) as [[p|]|] eqn:Hi; [|done..].
    destruct (thread_step_yields now pc p _ (Q i) Hw (Hall i p Hi)) as [Hg _].
    by destruct (thread_step now pc p (th_world c)).
  - unfold schedule. destruct (th_progs c !! i) as [[p|]|] eqn:Hi; [|done..].
    destruct (thread_step_yields now pc p _ (Q i) Hw (Hall i p Hi)) as [_ Hy].
    destruct (thread_step now pc p (th_world c)) as [p' w']. cbn in *. intros j q Hj.
    apply list_lookup_insert_Some in Hj as [(<- & -> & _)|[_ Hj]]; [by apply Hy|by apply Hall].
Qed.
End yields.

Create HintDb yields.
#[export] Hint Resolve y_ret y_ask_any y_pause y_notified : yields.

(** Walk through a program that constrains nothing. *)
Ltac y1 :=
  match goal with
  | |- yields _ (bind (Ret _) _) _ => cbn [bind]
  | |- yields _ (if_bound _ _ _) _ => apply y_if_bound
  | |- yields _ (let _ := _ in _) _ => cbn zeta
  | |- yields _ (match ?x with _ => _ end) _ => destruct x eqn:?
  | |- yields _ _ anything => solve [auto with yields]
  | |- yields _ (bind _ _) _ => apply y_then; [solve [auto with yields|repeat y1]|]
  | |- forall _, _ => intros ?
  end.
Ltac ys := repeat y1.

(** ** The interface

    [good] worlds, the rungs entries may point at, and the values that may be
    stored and served under a framed key. *)

(** A token whose target an entry may point at. *)
Definition token_ok (rung_ok : TierId -> Prop) (token : CommitToken) : Prop :=
  forall t, from_index (tok_target_tier token) = Some t -> rung_ok t.

(** The rungs an operation of the control plane writes into an entry. *)
Definition op_ok (rung_ok : TierId -> Prop) (op : plane_op) : Prop :=
  match op with
  | PoAcquire _ _ t | PoPublish _ _ _ t _ | PoPrepare _ _ _ t _ | PoSetTier _ t => rung_ok t
  | PoCommit _ token _ => token_ok rung_ok token
  | _ => True
  end.

Class Keeps (V T : Type) `{!CacheTier V T} (good : World T -> Prop) (rung_ok : TierId -> Prop)
    (value_ok : bytes -> V -> Prop) : Prop := {
  keeps_rung : forall t, is_cache_rung t = true -> rung_ok t;
  keeps_reg : forall r w, good w -> good (set_reg r w);
  keeps_sink : forall s w, good w -> good (set_sink s w);
  keeps_op : forall op w, op_ok rung_ok op -> good w -> good (set_ctl (plane_exec (w_ctl w) op) w);
  keeps_stale : forall kb w, good w -> good (set_ctl (snd (plane_set_state kb Stale (w_ctl w))) w);
  keeps_sweep : forall now w, good w -> good (set_ctl (snd (sweep_expired now (w_ctl w))) w);
  keeps_peek : forall now kb w s, good w -> peek now kb (w_ctl w) = Ok s -> rung_ok (snap_tier s);
  keeps_acquire : forall now kb t w s,
    rung_ok t -> good w -> fst (acquire now kb t (w_ctl w)) = Ok s -> rung_ok (snap_tier s);
  keeps_get : forall rung kb now w, rung_ok rung -> good w ->
    good (snd (get_at rung kb now w)) /\
    forall v, fst (get_at rung kb now w) = Ok (Some v) -> value_ok kb v;
  keeps_set : forall rung kb v ttl' now w, is_cache_rung rung = true -> value_ok kb v -> good w ->
    good (snd (set_at rung kb v ttl' now w));
  keeps_remove : forall slot kb now w, slot <> as_usize L6 \/ (exists t, slot = as_usize t /\ rung_ok t) ->
    good w -> good (snd (on_slot slot (tier_remove now kb) w));
  keeps_contains : forall rung kb now w, rung_ok rung -> good w ->
    good (snd (contains_at rung kb now w));
  keeps_nominate : forall rung now w, is_cache_rung rung = true -> good w ->
    good (snd (nominate_at rung now w));
  keeps_reclaim : forall rung a w, is_cache_rung rung = true -> good w -> good (snd (reclaim_at rung a w))
}.

(** What a policy promises: reads and refreshes start on such a rung. *)
Class RoutedPolicy (P K V : Type) `{!CachePolicy P K V} (rung_ok : TierId -> Prop) : Prop :=
  routed : forall (p : P) (rq : CacheRequest K V) who,
    rq_operation rq = OpGet \/ rq_operation rq = OpRefresh ->
    rung_ok (pd_tier (select p rq CacheState_new who)).

(** The policies of the crate stay in the ladder. *)
#[export] Instance RoutedPolicy_default K V :
  RoutedPolicy DefaultPolicy K V (fun t => is_cache_rung t = true).
Proof.
  intros p rq who Hop. unfold select, CachePolicy_default. rewrite default_select_tier.
  by destruct Hop as [-> | ->].
Qed.

#[export] Instance RoutedPolicy_strict K V :
  RoutedPolicy StrictPolicy K V (fun t => is_cache_rung t = true).
Proof.
  intros p rq who Hop. unfold select, CachePolicy_strict. destruct (_ && _); [done|].
  by apply (RoutedPolicy_default K V mkDefaultPolicy rq who).
Qed.

#[export] Instance RoutedPolicy_any {P K V} `{!CachePolicy P K V} : RoutedPolicy P K V anything.
Proof. done. Qed.

(** ** The manager's operations *)

Section operations.
Context {K V P T : Type} `{!Key K} `{!CachePolicy P K V} `{!CacheTier V T}.
Context (good : World T -> Prop) (rung_ok : TierId -> Prop) (value_ok : bytes -> V -> Prop).
Context `{HK : !Keeps V T good rung_ok value_ok} `{HR : !RoutedPolicy P K V rung_ok}.
Context (self : CacheManager P).

Abbreviation Y := (yields good).

(** What a read may return. *)
Definition read_ok (kb : bytes) (r : res (option V)) : Prop := forall v, r = Ok (Some v) -> value_ok kb v.
Definition fetch_ok (kb : bytes) (r : res V) : Prop := forall v, r = Ok v -> value_ok kb v.
Definition snap_ok (r : res ControlSnapshot) : Prop := forall s, r = Ok s -> rung_ok (snap_tier s).

Lemma cache_rung_ok t : is_cache_rung t = true -> rung_ok t.
Proof. apply (keeps_rung (good := good) (value_ok := value_ok)). Qed.
Lemma read_ok_err kb e : read_ok kb (Err e).
Proof. by intros v. Qed.
Lemma read_ok_none kb : read_ok kb (Ok None).
Proof. by intros v. Qed.
Lemma fetch_ok_err kb e : fetch_ok kb (Err e).
Proof. by intros v. Qed.
Hint Resolve read_ok_err read_ok_none fetch_ok_err : yields.

Lemma drop_guards_good armed w : good w -> good (drop_guards armed w).
Proof.
  revert w. induction armed as [|g armed IH]; intros w Hw; [done|]. apply (IH (drop_guard g w)).
  destruct g as [key|token]; [by apply (keeps_op (PoFail key Cancelled))|
                              by apply (keeps_op (PoAbort token Cancelled))].
Qed.

(** *** The control plane, the registry, the sink *)

Lemma y_op {B} (op : Instant -> Cachelito -> B * Cachelito) po :
  (forall now c, snd (op now c) = plane_exec c (po now)) -> (forall now, op_ok rung_ok (po now)) ->
  Y (ctl op) anything.
Proof.
  intros Hop Hok. apply y_ctl. intros now w Hw. split; [|done]. rewrite Hop. by apply keeps_op.
Qed.

Lemma y_publish kb g t d : rung_ok t -> Y (ctl (fun now => publish now kb g t d)) anything.
Proof. intros Ht. by apply (y_op _ (fun now => PoPublish now kb g t d)). Qed.

Lemma y_fail kb e : Y (ctl (fun _ => fail_with_error kb e)) anything.
Proof. by apply (y_op _ (fun _ => PoFail kb e)). Qed.

Lemma y_release kb : Y (ctl (fun _ => release kb)) anything.
Proof. by apply (y_op _ (fun _ => PoRelease kb)). Qed.

Lemma y_invalidate_key kb : Y (ctl (fun _ => Cachelito.invalidate kb)) anything.
Proof. by apply (y_op _ (fun _ => PoInvalidate kb)). Qed.

Lemma y_reserve a : Y (ctl (fun _ => reserve_eviction a)) anything.
Proof. by apply (y_op _ (fun _ => PoReserve a)). Qed.

Lemma y_release_claim a : Y (ctl (fun _ => release_population_claim a)) anything.
Proof. by apply (y_op _ (fun _ => PoReleaseClaim a)). Qed.

Lemma y_abort_intent a e : Y (ctl (fun _ => abort_intent_by_address a e)) anything.
Proof. by apply (y_op _ (fun _ => PoAbortIntent a e)). Qed.

Lemma y_commit token d : token_ok rung_ok token -> Y (ctl (fun now => commit now token d)) anything.
Proof. intros Ht. by apply (y_op _ (fun now => PoCommit now token d)). Qed.

Lemma y_abort_here token e : Y (abort_here token e) anything.
Proof. apply y_then; [|done]. by apply (y_op _ (fun _ => PoAbort token e)). Qed.

Lemma y_abort_clean_here token e : Y (abort_clean_here token e) anything.
Proof. apply y_then; [|done]. by apply (y_op _ (fun _ => PoAbortClean token e)). Qed.

Lemma y_mark_stale kb : Y (mark_stale kb) anything.
Proof. apply y_then; [|done]. apply y_ctl. intros now w Hw. split; [by apply keeps_stale|done]. Qed.

Lemma y_peek kb : Y (peek_at kb) snap_ok.
Proof. apply y_ask. intros now w Hw s Hs. by eapply keeps_peek. Qed.

Lemma y_acquire kb t : rung_ok t -> Y (ctl (fun now => acquire now kb t)) snap_ok.
Proof.
  intros Ht. apply y_ctl. intros now w Hw. split; [by apply (keeps_op (PoAcquire now kb t))|].
  intros s Hs. by eapply keeps_acquire.
Qed.

(** The token of a prepared write names the target it was given. *)
Lemma prepare_target now kb g t k c token :
  fst (prepare now kb g t k c) = Ok token -> tok_target_tier token = as_u8 t.
Proof.
  unfold prepare, with_created_entry. repeat case_match; cbn; try done.
  match goal with H : prepare_entry _ _ _ _ _ _ = _ |- _ => revert H end.
  unfold prepare_entry. destruct (match g with Some _ => _ | None => _ end); intros [= <- <-]; [done|].
  intros Hr. by injection Hr as <-.
Qed.

Lemma y_prepare kb g t k : rung_ok t ->
  Y (ctl (fun now => prepare now kb g t k)) (fun r => forall token, r = Ok token -> token_ok rung_ok token).
Proof.
  intros Ht. apply y_ctl. intros now w Hw. split; [by apply (keeps_op (PoPrepare now kb g t k))|].
  intros token Hp. apply prepare_target in Hp. intros t'. rewrite Hp, from_index_as_u8. by intros [= <-].
Qed.

Lemma y_emit r : Y (emit r) anything.
Proof. apply y_step. intros now w Hw. split; [by apply keeps_sink|done]. Qed.

Lemma y_record_outcome {A} rung (r : res A) : Y (record_outcome rung r) anything.
Proof.
  apply y_step. intros now w Hw. split; [|done]. destruct r as [|[]]; cbn; try done; by apply keeps_reg.
Qed.

Lemma y_drop_here g : Y (drop_here g) anything.
Proof. apply y_step. intros now w Hw. split; [by apply (drop_guards_good [g])|done]. Qed.

Lemma y_read_clock : Y read_clock anything.
Proof. apply y_ask_any. Qed.
Lemma y_peek_any kb : Y (peek_at kb) anything.
Proof. apply y_ask_any. Qed.
Hint Resolve y_publish y_fail y_release y_invalidate_key y_reserve y_release_claim y_abort_intent
  y_commit y_abort_here y_abort_clean_here y_mark_stale y_emit y_record_outcome y_drop_here
  y_read_clock y_peek_any : yields.

Lemma y_control_only op kb rung started o : Y (observed_control_only op kb rung started o) anything.
Proof. apply y_emit. Qed.
Lemma y_record_fallback kb rung cause : Y (record_fallback kb rung cause) anything.
Proof. unfold record_fallback. ys. Qed.
Lemma y_refresh_failure kb s cause : Y (record_telemetry_refresh_failure kb s cause) anything.
Proof. unfold record_telemetry_refresh_failure. ys. Qed.
Lemma y_wait kb : Y (wait_for_population kb) anything.
Proof. unfold wait_for_population. ys. Qed.
Hint Resolve y_control_only y_record_fallback y_refresh_failure y_wait : yields.

(** *** Calls on a tier *)

Lemma y_get_at armed bounded rung kb :
  rung_ok rung -> Y (await armed bounded (get_at rung kb)) (read_ok kb).
Proof.
  intros Hr. apply y_await; [|apply read_ok_err]. intros now w Hw.
  by destruct (keeps_get (value_ok := value_ok) rung kb now w Hr Hw).
Qed.

Lemma y_set_at armed bounded rung kb v ttl' :
  is_cache_rung rung = true -> value_ok kb v -> Y (await armed bounded (set_at rung kb v ttl')) anything.
Proof. intros Hr Hv. apply y_await; [|done]. intros now w Hw. split; [by apply keeps_set|done]. Qed.

Lemma y_remove_at armed bounded rung kb : rung_ok rung -> Y (await armed bounded (remove_at rung kb)) anything.
Proof.
  intros Hr. apply y_await; [|done]. intros now w Hw. split; [|done].
  apply keeps_remove; [right; by exists rung|done].
Qed.

Lemma y_remove_slot armed bounded slot kb :
  slot <> as_usize L6 -> Y (await armed bounded (fun now => on_slot slot (tier_remove now kb))) anything.
Proof. intros Hs. apply y_await; [|done]. intros now w Hw. split; [|done]. apply keeps_remove; [by left|done]. Qed.

Lemma y_contains_at armed bounded rung kb :
  rung_ok rung -> Y (await armed bounded (contains_at rung kb)) anything.
Proof. intros Hr. apply y_await; [|done]. intros now w Hw. split; [by apply keeps_contains|done]. Qed.

Lemma y_nominate rung : is_cache_rung rung = true -> Y (atomically (nominate_at rung)) anything.
Proof. intros Hr. apply y_step. intros now w Hw. split; [by apply keeps_nominate|done]. Qed.

Lemma y_reclaim rung a : is_cache_rung rung = true -> Y (atomically (fun _ => reclaim_at rung a)) anything.
Proof. intros Hr. apply y_step. intros now w Hw. split; [by apply keeps_reclaim|done]. Qed.
Hint Resolve y_remove_at y_contains_at y_nominate y_reclaim cache_rung_ok : yields.

Lemma y_observed_read op kb rung armed : rung_ok rung -> Y (observed_read op kb rung armed) (read_ok kb).
Proof.
  intros Hr. unfold observed_read. apply y_then; [auto with yields|]. intros started.
  apply (yields_bind _ _ _ (read_ok kb)); [by apply y_get_at|]. intros r Hv. cbn zeta.
  by apply y_then; [auto with yields|].
Qed.

Lemma y_observed_write op kb rung armed v ttl' :
  is_cache_rung rung = true -> value_ok kb v -> Y (observed_write op kb rung armed v ttl') anything.
Proof.
  intros Hr Hv. unfold observed_write. apply y_then; [auto with yields|]. intros started.
  apply y_then; [by apply y_set_at|]. intros r. cbn zeta. by apply y_then; [auto with yields|].
Qed.

(** *** Reading *)

Lemma y_get_ready kb started s : rung_ok (snap_tier s) -> Y (get_ready kb started s) (read_ok kb).
Proof.
  intros Hs. unfold get_ready, control_only_then. apply y_if_bound; [ys; apply read_ok_err|].
  apply (yields_bind _ _ _ (read_ok kb)); [by apply y_observed_read|]. intros r Hr.
  apply y_then; [auto with yields|]. intros _. destruct (is_ok r); [|exact Hr].
  apply y_then; [auto with yields|]. intros [a|e]; [|exact Hr].
  destruct (bool_decide _); [exact Hr|apply read_ok_err].
Qed.

Lemma y_get_waiting kb : Y (get_waiting kb) (read_ok kb).
Proof.
  unfold get_waiting. apply y_then; [auto with yields|]. intros [_w|e]; [|apply read_ok_err].
  apply (yields_bind _ _ _ snap_ok); [apply y_peek|]. intros [after|e] Hs; [|apply read_ok_err].
  specialize (Hs after eq_refl).
  destruct (snap_last_error after); [apply read_ok_err|].
  destruct (negb _); [apply read_ok_err|]. apply y_if_bound; [apply read_ok_err|].
  apply (yields_bind _ _ _ (read_ok kb)); [by apply y_observed_read|]. intros r Hr.
  apply y_then; [auto with yields|]. intros _. exact Hr.
Qed.

Lemma y_get_from kb started s : rung_ok (snap_tier s) -> Y (get_from kb started s) (read_ok kb).
Proof.
  intros Hs. assert (Hmiss : Y (control_only_then kb (snap_tier s) started OutMiss Miss) (read_ok kb))
    by (unfold control_only_then; apply y_then; [auto with yields|intros _; apply read_ok_err]).
  unfold get_from. cbn zeta. destruct (snap_state s); try exact Hmiss.
  - destruct (negb _); [by apply y_get_ready|]. apply y_then; [auto with yields|]. by intros _.
  - destruct (negb _); [apply y_get_waiting|exact Hmiss].
  - destruct (negb _); [apply y_get_waiting|exact Hmiss].
Qed.

Context (key : K) (ctx : CacheContext) (kb : bytes).
Hypothesis Hkey : forall b, encode_key key ctx = Ok b -> b = kb.

(** The key encodes to [kb] or not at all. *)
Lemma y_key {A} (f : bytes -> prog T (res A)) (Q : res A -> Prop) :
  Y (f kb) Q -> (forall e, Q (Err e)) ->
  Y (bind (Ret (encode_key key ctx)) (fun r => match r with Ok x => f x | Err e => Ret (Err e) end)) Q.
Proof.
  intros Hf He. cbn [bind]. case_eq (encode_key key ctx); [|intros e _; apply He]. intros b Hb.
  by rewrite (Hkey b Hb).
Qed.

Lemma y_get : Y (get (V := V) self key ctx) (read_ok kb).
Proof.
  unfold get. apply y_then; [auto with yields|]. intros started. apply y_key; [|apply read_ok_err].
  assert (Herr : forall rung o e, Y (control_only_then (A := option V) kb rung started o e) (read_ok kb))
    by (intros; unfold control_only_then; apply y_then; [auto with yields|intros _; apply read_ok_err]).
  destruct (check_auth ctx); [|apply Herr]. cbn zeta. destruct (authorize _); [|apply Herr].
  apply (yields_bind _ _ _ snap_ok); [apply y_peek|]. intros [s|e] Hs; [by apply y_get_from, Hs|apply read_ok_err].
Qed.

Lemma y_wait_and_get : Y (wait_and_get (V := V) key ctx) (fetch_ok kb).
Proof.
  unfold wait_and_get. apply y_key; [|apply fetch_ok_err]. apply y_then; [auto with yields|].
  intros [_w|e]; [|apply fetch_ok_err].
  apply (yields_bind _ _ _ snap_ok); [apply y_peek|]. intros [after|e] Hs; [|apply fetch_ok_err].
  specialize (Hs after eq_refl).
  destruct (snap_last_error after); [apply fetch_ok_err|]. destruct (negb _); [apply fetch_ok_err|].
  apply y_if_bound; [apply fetch_ok_err|].
  apply (yields_try _ _ _ (read_ok kb)); [by apply y_observed_read| |apply fetch_ok_err].
  intros [v|] Hr; [|apply fetch_ok_err]. intros u [= <-]. by apply Hr.
Qed.

(** *** Populating *)

Lemma y_fallback_rungs cause rungs :
  Forall (fun t => is_cache_rung t = true) rungs ->
  Y (try_fallback_rungs (V := V) kb cause rungs) (fetch_ok kb).
Proof.
  induction 1 as [|rung rungs Hc _ IH]; cbn [try_fallback_rungs]; [apply fetch_ok_err|].
  apply y_if_bound; [done|]. apply y_then; [auto with yields|]. intros [|]; [done|].
  apply (yields_bind _ _ _ (read_ok kb)); [by apply y_get_at, keeps_rung|]. intros [[v|]|e] Hr; [|done..].
  apply y_then; [auto with yields|]. intros _ u [= <-]. by apply Hr.
Qed.

Lemma y_fallback cause : Y (try_fallback_tier (V := V) key ctx cause) (fetch_ok kb).
Proof. apply y_key; [apply y_fallback_rungs; by repeat constructor|apply fetch_ok_err]. Qed.

(** Where a read or a refresh starts. *)
Lemma resolved_rung op :
  op = OpGet \/ op = OpRefresh ->
  rung_ok (pd_tier (resolve self (request_for (V := V) op key ctx) ctx)).
Proof. intros Hop. apply routed. unfold request_for. by destruct (ctx_ttl ctx), Hop as [-> | ->]; auto. Qed.

Section fetching.
Context (fetch : Instant -> World T -> res V).
Hypothesis Hfetch : forall now w v, fetch now w = Ok v -> value_ok kb v.

Lemma y_await_fetch armed : Y (await_fetch armed fetch) (fetch_ok kb).
Proof.
  apply y_await; [|apply fetch_ok_err]. intros now w Hw. split; [done|].
  intros v Hv. by apply (Hfetch now w).
Qed.

Lemma y_populate_once expected decision :
  Y (populate_once key kb expected ctx fetch decision) (fetch_ok kb).
Proof.
  unfold populate_once. cbn zeta.
  apply (yields_try _ _ _ (fetch_ok kb)); [apply y_await_fetch| |apply fetch_ok_err]. intros v Hv.
  apply (yields_bind _ _ _ (fun o => forall rung, o = Some rung -> is_cache_rung rung = true)).
  { apply y_ask. intros now w _ rung. apply nearest_bound_rung_cache. }
  intros [rung|] Hr; [|apply fetch_ok_err]. specialize (Hr rung eq_refl).
  apply y_if_bound; [apply fetch_ok_err|]. apply y_key; [|apply fetch_ok_err].
  apply y_then; [apply y_observed_write; [done|by apply Hv]|]. intros r.
  apply y_then; [auto with yields|]. intros _. destruct r as [u|e]; [|apply fetch_ok_err].
  apply y_then; [auto with yields|]. intros [p|e]; [exact Hv|apply fetch_ok_err].
Qed.

Lemma y_population_failed decision e : Y (population_failed (V := V) key kb ctx decision e) (fetch_ok kb).
Proof.
  unfold population_failed. do 3 (apply y_then; [auto with yields|intros ?]).
  destruct (bool_decide _); [apply fetch_ok_err|]. destruct (bool_decide _); [apply y_fallback|apply fetch_ok_err].
Qed.

Lemma y_population_loop left expected decision :
  Y (population_loop left key kb expected ctx decision fetch) (fetch_ok kb).
Proof.
  induction left as [|left IH]; cbn [population_loop]; [apply fetch_ok_err|].
  apply (yields_bind _ _ _ (fetch_ok kb)); [apply y_populate_once|]. intros [v|e] Hv; [exact Hv|].
  destruct (_ && _); [|apply y_population_failed]. by apply y_then; [auto with yields|].
Qed.

Lemma y_owner expected decision :
  Y (become_population_owner key kb expected ctx decision fetch) (fetch_ok kb).
Proof. apply y_population_loop. Qed.

Lemma y_dispatch decision again s :
  Y again (fetch_ok kb) -> Y (dispatch_acquired key kb ctx decision fetch again s) (fetch_ok kb).
Proof.
  intros Ha. unfold dispatch_acquired.
  destruct (snap_state s), (snap_population_owner s); cbn [negb];
    solve [apply y_owner|apply y_wait_and_get
          |apply y_then; [auto with yields|]; intros [u|e]; [done|apply fetch_ok_err]].
Qed.

Lemma y_population_attempts left decision :
  rung_ok (pd_tier decision) -> Y (population_attempts left key kb ctx decision fetch) (fetch_ok kb).
Proof.
  intros Hd. induction left as [|left IH]; cbn [population_attempts]; [apply fetch_ok_err|].
  apply (yields_try _ _ _ snap_ok); [by apply y_acquire| |apply fetch_ok_err]. intros first Hfirst.
  apply (yields_try _ _ _ snap_ok); [|intros s Hs|apply fetch_ok_err].
  { destruct (_ && _); [|done]. apply y_then; [auto with yields|]. intros _. by apply y_acquire. }
  pose proof (y_dispatch decision _ s IH) as Hagain. cbn zeta. destruct (_ && _); [|exact Hagain].
  apply y_if_bound; [apply fetch_ok_err|].
  apply (yields_try _ _ _ (read_ok kb)); [by apply y_observed_read, Hs| |apply fetch_ok_err].
  intros [v|] Hr; [|exact Hagain]. intros u [= <-]. by apply Hr.
Qed.

Lemma y_get_or_fetch : Y (get_or_fetch self key ctx fetch) (fetch_ok kb).
Proof.
  unfold get_or_fetch. destruct (check_auth ctx); [|apply fetch_ok_err].
  apply y_key; [|apply fetch_ok_err]. cbn zeta.
  destruct (authorize _); [|apply fetch_ok_err]. apply y_population_attempts, resolved_rung. by left.
Qed.

(** What a refresh gives: the fetched value, or the current one. *)
Definition lookup_ok (r : res (Lookup V)) : Prop :=
  forall l v, r = Ok l -> lk_value l = Some v -> value_ok kb v.

Lemma lookup_ok_err e : lookup_ok (Err e).
Proof. by intros l v. Qed.

Lemma y_refresh_current before :
  rung_ok (snap_tier before) ->
  Y (refresh_current (V := V) kb before) (fun o => forall v, o = Some v -> value_ok kb v).
Proof.
  intros Hb. unfold refresh_current. destruct (is_readable _); [|by intros v].
  apply y_if_bound; [by intros v|].
  apply (yields_bind _ _ _ (read_ok kb)); [by apply y_get_at|].
  intros [o|e] Hr v; cbn; [intros ->; by apply Hr|done].
Qed.

Lemma y_refresh_detailed : Y (refresh_detailed self key ctx fetch) lookup_ok.
Proof.
  unfold refresh_detailed. destruct (check_auth ctx); [|apply lookup_ok_err].
  apply y_key; [|apply lookup_ok_err]. cbn zeta. destruct (authorize _); [|apply lookup_ok_err].
  apply (yields_try _ _ _ snap_ok); [apply y_peek| |apply lookup_ok_err]. intros before Hb.
  eapply yields_bind; [by apply y_refresh_current, Hb|]. cbv beta. intros current Hc.
  assert (Hstale : lookup_ok (Ok (mkLookup current FreshnessStale))) by (intros l v [= <-]; apply Hc).
  apply y_then; [by ys|]. intros _.
  apply y_then; [eapply y_any, y_acquire, resolved_rung; by right|].
  intros [s|e]; [|apply lookup_ok_err]. destruct (negb _); [exact Hstale|].
  apply (yields_bind _ _ _ (fetch_ok kb)); [apply y_owner|]. intros [v|e] Hv.
  - intros l u [= <-] [= <-]. by apply Hv.
  - destruct current; [|apply lookup_ok_err]. by apply y_then; [auto with yields|].
Qed.
End fetching.

(** *** Writing and moving

    What these return is not a value; what they store is. *)

Lemma y_evict_rung left rung : is_cache_rung rung = true -> Y (try_evict_at_rung left rung) anything.
Proof. intros Hr. induction left as [|left IH]; cbn [try_evict_at_rung]; [done|]. by ys. Qed.

Lemma y_free_rungs left rungs :
  Forall (fun t => is_cache_rung t = true) rungs -> Y (try_free_rungs left rungs) anything.
Proof.
  intros Hall. revert left. induction Hall as [|rung rungs Hr _ IH]; intros left; cbn [try_free_rungs]; [done|].
  apply y_if_bound; [done|]. apply y_then; [by apply y_evict_rung|]. intros r. by destruct (fst r).
Qed.

Lemma y_free : Y try_free_somewhere_in_the_ladder anything.
Proof. apply y_free_rungs. by repeat constructor. Qed.
Hint Resolve y_free : yields.

Section writing.
Context (value : V).
Hypothesis Hvalue : value_ok kb value.

Lemma y_write op rung armed ttl' :
  is_cache_rung rung = true -> Y (observed_write op kb rung armed value ttl') anything.
Proof. intros Hr. by apply y_observed_write. Qed.
Hint Resolve y_write : yields.

Lemma y_set_races left rung : is_cache_rung rung = true -> Y (set_races left kb value ctx rung) anything.
Proof.
  intros Hr. induction left as [|left IH]; cbn [set_races]; [done|].
  eapply yields_bind; [by apply y_prepare, cache_rung_ok|]. intros [token|e] Ht; [|done].
  specialize (Ht token eq_refl). by ys.
Qed.

Lemma y_set_walk n rung last : Y (set_walk n kb value ctx rung last) anything.
Proof.
  revert rung last. induction n as [|n IH]; intros rung last; cbn [set_walk]; [done|].
  destruct (is_cache_rung rung) eqn:Hr; [|done]. apply y_if_bound; [done|].
  apply y_then; [by apply y_set_races|]. by intros [].
Qed.
Hint Resolve y_set_walk : yields.

Lemma y_set_passes passes start last : Y (set_passes passes kb value ctx start last) anything.
Proof. revert last. induction passes as [|passes IH]; intros last; cbn [set_passes]; [done|]. by ys. Qed.

Lemma y_set : Y (set self key value ctx) anything.
Proof.
  unfold set. destruct (check_auth ctx); [|done]. apply y_key; [|done].
  apply y_then; [auto with yields|]. intros [s|e]; [|done]. apply y_then; [apply y_ask_any|]. intros d.
  destruct (authorize d); [|done]. destruct (bool_decide _); [done|apply y_set_passes].
Qed.

Lemma y_move_value from to token :
  rung_ok from -> is_cache_rung to = true -> token_ok rung_ok token ->
  Y (move_value key kb from to token value ctx) anything.
Proof.
  intros Hf Hto Ht. unfold move_value. cbn zeta.
  case_eq (encode_key key ctx); [|by intros; unfold abort_with; ys].
  intros b Hb. rewrite (Hkey b Hb). unfold abort_with. by ys.
Qed.
End writing.

Lemma y_move_entry s to :
  rung_ok (snap_tier s) -> is_cache_rung to = true -> Y (move_entry (V := V) key kb s to ctx) anything.
Proof.
  intros Hs Hto. unfold move_entry, abort_with.
  eapply yields_try; [by apply y_prepare, cache_rung_ok| |done]. cbv beta. intros token Ht. cbn zeta.
  specialize (Ht token eq_refl).
  assert (Hu : Y (let! _u := drop_here (GIntent token) in Ret (Err TierUnavailable) : prog T (res unit)) anything)
    by ys.
  apply y_if_bound; [exact Hu|]. apply y_if_bound; [exact Hu|].
  apply (yields_bind _ _ _ (read_ok kb)); [by apply y_get_at|]. intros [[v|]|e] Hv.
  - apply y_move_value; [by apply Hv|done..].
  - by ys.
  - by ys.
Qed.

(** The requests that return no value. *)
Ltac unit_request :=
  apply y_then; [done|intros [?d|?e]; [|done]]; apply y_key; [|done].

Lemma y_invalidate : Y (invalidate self key ctx) anything.
Proof. unfold invalidate. unit_request. by ys. Qed.

Lemma y_remove_from slots : Y (remove_from slots kb) anything.
Proof.
  induction slots as [|idx slots IH]; cbn [remove_from]; [done|].
  destruct (Nat.eqb_spec idx (as_usize L6)); [done|]. apply y_then; [by apply y_remove_slot|done].
Qed.
Hint Resolve y_remove_from : yields.

Lemma y_remove : Y (remove self key ctx) anything.
Proof. unfold remove. unit_request. by ys. Qed.

Lemma y_exists : Y (exists_ self key ctx) anything.
Proof.
  unfold exists_. unit_request. apply (yields_try _ _ _ snap_ok); [apply y_peek| |done]. intros s Hs.
  specialize (Hs s eq_refl). by ys.
Qed.

(** The rung above and the rung below a cache rung. *)
Lemma above_cache t to :
  negb (is_cache_rung t) || (as_usize t =? 0) = false -> from_usize (as_usize t - 1) = Some to ->
  is_cache_rung to = true.
Proof. destruct t; cbn; try done; intros _ H; by injection H as <-. Qed.

Lemma below_cache t to :
  negb (is_cache_rung t) || (as_usize LAST_CACHE_TIER <=? as_usize t) = false ->
  from_usize (as_usize t + 1) = Some to -> is_cache_rung to = true.
Proof. destruct t; cbn; try done; intros _ H; by injection H as <-. Qed.

Lemma y_promote : Y (promote (V := V) self key ctx) anything.
Proof.
  unfold promote. unit_request. apply (yields_try _ _ _ snap_ok); [apply y_peek| |done]. intros s Hs.
  specialize (Hs s eq_refl). destruct (negb (bool_decide _)); [done|].
  destruct (_ || _) eqn:Hc; [done|]. destruct (from_usize _) as [to|] eqn:Hto; [|done].
  apply y_move_entry; [done|by eapply above_cache].
Qed.

Lemma y_demote : Y (demote (V := V) self key ctx) anything.
Proof.
  unfold demote. unit_request. apply (yields_try _ _ _ snap_ok); [apply y_peek| |done]. intros s Hs.
  specialize (Hs s eq_refl). destruct (negb (bool_decide _)); [done|].
  destruct (_ || _) eqn:Hc; [done|]. destruct (from_usize _) as [to|] eqn:Hto; [|done].
  apply y_move_entry; [done|by eapply below_cache].
Qed.
End operations.

(** ** Requests *)

Section requests.
Context {K V P T : Type} `{!Key K} `{!CachePolicy P K V} `{!CacheTier V T}.
Context (good : World T -> Prop) (rung_ok : TierId -> Prop) (value_ok : bytes -> V -> Prop).
Context `{HK : !Keeps V T good rung_ok value_ok} `{HR : !RoutedPolicy P K V rung_ok}.
Context (self : CacheManager P).
Implicit Types (r : request K V T).

(** The values a request brings with it. *)
Definition offers r (v : V) : Prop :=
  match r with
  | RSet _ u _ => v = u
  | RGetOrFetch _ _ fetch | RRefresh _ _ fetch => exists now w, fetch now w = Ok v
  | _ => False
  end.

(** The value an answer gives the caller. *)
Definition served (a : response V) : option V :=
  match a with
  | AValue (Ok o) => o
  | AFetched (Ok v) => Some v
  | ALookup (Ok l) => lk_value l
  | _ => None
  end.

(** What is served under the request's key may be. *)
Definition serves_ok r (a : response V) : Prop :=
  forall v, served a = Some v -> exists kb,
    encode_key (request_key r) (request_ctx r) = Ok kb /\ value_ok kb v.

Abbreviation Y := (yields good).

(** A key that does not encode gets an error, and nothing else happens. *)
Lemma y_unencodable r e :
  encode_key (request_key r) (request_ctx r) = Err e -> Y (perform self r) (serves_ok r).
Proof.
  assert (Hnone : forall a, served a = None -> serves_ok r a) by (intros a Ha v; by rewrite Ha).
  intros He. destruct r; cbn [request_key request_ctx perform] in *;
    unfold get, get_or_fetch, set, invalidate, remove, exists_, refresh_detailed, promote, demote, allowed;
    (apply (yields_bind _ _ _ (fun x => is_ok x = false)); [|intros [x|x] Hx; [discriminate Hx|by apply Hnone]]);
    destruct (check_auth ctx); rewrite ?He; try done;
    try (apply y_then; [apply y_ask_any|intros started; by rewrite ?He]).
  all: cbn [map_ok bind]; destruct (authorize _); cbn [bind map_ok]; by rewrite ?He.
Qed.

Lemma y_perform r :
  (forall kb v, encode_key (request_key r) (request_ctx r) = Ok kb -> offers r v -> value_ok kb v) ->
  Y (perform self r) (serves_ok r).
Proof.
  intros Hoff. case_eq (encode_key (request_key r) (request_ctx r)); [|apply y_unencodable].
  intros kb He. assert (Hkey : forall b, encode_key (request_key r) (request_ctx r) = Ok b -> b = kb)
    by congruence.
  pose proof (fun v => Hoff kb v He) as Hv. clear Hoff. unfold serves_ok. rewrite He. clear He.
  assert (Hno : forall X : res unit, forall v, served (ADone X) = Some v -> exists kb',
    Ok (E := CacheError) kb = Ok kb' /\ value_ok kb' v) by done.
  destruct r; cbn [request_key request_ctx perform offers] in *.
  - apply (yields_bind _ _ _ (read_ok value_ok kb)); [by apply (y_get good rung_ok value_ok)|].
    intros [o|e] Hr v Hs; [|done]. cbn in Hs. subst o. exists kb. split; [done|]. by apply Hr.
  - apply (yields_bind _ _ _ (fetch_ok value_ok kb)); [apply (y_get_or_fetch good rung_ok value_ok); [done|naive_solver]|].
    intros [u|e] Hr v Hs; [|done]. injection Hs as <-. exists kb. split; [done|]. by apply Hr.
  - apply y_then; [apply (y_set good rung_ok value_ok _ _ _ kb); auto|auto].
  - apply y_then; [by apply (y_invalidate good rung_ok value_ok _ _ _ kb)|auto].
  - apply y_then; [by apply (y_remove good rung_ok value_ok _ _ _ kb)|auto].
  - apply y_then; [by apply (y_exists good rung_ok value_ok _ _ _ kb)|by intros x v].
  - apply (yields_bind _ _ _ (lookup_ok value_ok kb)); [apply (y_refresh_detailed good rung_ok value_ok); [done|naive_solver]|].
    intros [l|e] Hr v Hs; [|done]. exists kb. split; [done|]. by apply (Hr l).
  - apply y_then; [by apply (y_promote good rung_ok value_ok _ _ _ kb)|auto].
  - apply y_then; [by apply (y_demote good rung_ok value_ok _ _ _ kb)|auto].
Qed.
End requests.

(** ** The governor *)

Section governor.
Context {K V P T0 : Type} `{!Key K} `{!CachePolicy P K V} `{!CacheTier V T0}.
Context (good : World (HotRungTier T0) -> Prop) (rung_ok : TierId -> Prop) (value_ok : bytes -> V -> Prop).
Context `{HK : !Keeps V (HotRungTier T0) good rung_ok value_ok}.
Context (self : Governor (K := K) (P := P) (T0 := T0)).

(** The tiers a rebinder offers may be bound on a cache rung. *)
Definition swappable (r : T0) : Prop :=
  forall rung w, is_cache_rung rung = true -> good w ->
    good (snd (on_slot (as_usize rung) (hot_swap (V := V) r) w)).

Hypothesis Hrebinder : forall rebinder t now r,
  g_rebinder self = Some rebinder -> rebinder t now = Ok (Some r) -> swappable r.

Abbreviation Y := (yields good).

Hint Resolve y_release_claim y_abort_intent y_peek_any : yields.

Lemma y_recover_each items report : Y (recover_each items report) anything.
Proof.
  revert report. induction items as [|[a i] items IH]; intros report; cbn [recover_each]; [done|].
  destruct (ci_kind i); (apply y_then; [|by intros r]).
  - eapply y_abort_intent; exact HK.
  - eapply y_release_claim; exact HK.
Qed.

Lemma y_recover age : Y (recover_older_than age) anything.
Proof. apply y_then; [apply y_ask_any|intros items; apply y_recover_each]. Qed.

Lemma y_sweep : Y manager_sweep_expired anything.
Proof. apply y_ctl. intros now w Hw. split; [by apply keeps_sweep|done]. Qed.

Lemma y_observe_census idx (entries : list (CensusKey K)) : Y (observe_census idx entries) anything.
Proof.
  revert idx. induction entries as [|c l IH]; intros idx; cbn [observe_census]; [done|].
  apply y_then; [apply y_ask_any|]. intros s. by apply y_then.
Qed.
Hint Resolve y_recover y_sweep y_observe_census : yields.

(** A plan rebinds cache rungs only. *)
Definition plan_ok (p : GovernorPlan) : Prop := Forall (fun t => is_cache_rung t = true) (gp_rebind p).

Lemma y_plan : Y (plan self) plan_ok.
Proof.
  unfold plan. apply y_then; [unfold observe, manager_plane_stats; by ys|]. intros o.
  apply y_then; [apply y_ask_any|]. intros h. cbn. unfold plan_ok. rewrite plan_tick_rebind.
  apply plan_rebind_cache.
Qed.

(** The replacement is the value of an await, so it is the rebinder's. *)
Lemma y_rebinds rebinder rungs report :
  g_rebinder self = Some rebinder -> Forall (fun t => is_cache_rung t = true) rungs ->
  Y (apply_rebinds (V := V) self rebinder rungs report) anything.
Proof.
  intros Hg Hall. revert report.
  induction Hall as [|rung rungs Hc _ IH]; intros report; cbn [apply_rebinds]; [done|].
  destruct (List.find _ _) as [h|] eqn:Hf; [|done].
  apply List.find_some in Hf as [_ Hf%bool_decide_eq_true].
  apply (yields_bind _ _ _ (fun o => forall r, o = Ok (Some r) -> swappable r)).
  - apply y_await; [|done]. intros now w Hw. split; [done|]. intros r. by apply Hrebinder.
  - intros [[r|]|e] Hr; [|done..]. apply y_then; [|by intros x].
    destruct h as [rung'|rung']; cbn in Hf; subst rung'; [|done].
    apply y_then; [|done]. apply y_step. intros now w Hw. split; [|done]. by apply Hr.
Qed.

Lemma y_any_promote key ctx : Y (promote (V := V) (g_manager self) key ctx) anything.
Proof. apply (y_promote good rung_ok value_ok _ _ _ (census_key key ctx)). intros b. apply census_key_spec. Qed.

Lemma y_any_demote key ctx : Y (demote (V := V) (g_manager self) key ctx) anything.
Proof. apply (y_demote good rung_ok value_ok _ _ _ (census_key key ctx)). intros b. apply census_key_spec. Qed.
Hint Resolve y_any_promote y_any_demote : yields.

Lemma y_demotes entries ctx idxs budget report :
  Y (apply_demotes (V := V) self entries ctx idxs budget report) anything.
Proof.
  revert budget report. induction idxs as [|idx idxs IH]; intros budget report; cbn [apply_demotes]; [done|].
  by ys.
Qed.

Lemma y_promotes entries ctx idxs budget report :
  Y (apply_promotes (V := V) self entries ctx idxs budget report) anything.
Proof.
  revert budget report. induction idxs as [|idx idxs IH]; intros budget report; cbn [apply_promotes]; [done|].
  by ys.
Qed.
Hint Resolve y_demotes y_promotes : yields.

Lemma y_apply_plan p : plan_ok p -> Y (apply_plan (V := V) self p) anything.
Proof.
  intros Hp. unfold apply_plan. destruct (negb _); [done|].
  apply y_then; [by ys|]. intros r1. apply y_then; [by ys|]. intros r2. apply y_then.
  - case_eq (g_rebinder self); [|done]. intros rebinder Hg. by apply y_rebinds.
  - intros r3. by ys.
Qed.

Lemma y_task_loop rounds : Y (task_loop (V := V) self rounds) anything.
Proof.
  induction rounds as [|rounds IH]; cbn [task_loop]; [done|]. apply y_then; [done|]. intros _.
  apply y_then; [|done]. unfold tick. eapply yields_bind; [apply y_plan|]. cbv beta. intros p Hp.
  destruct (executes_maintenance _); [|done]. by apply y_then; [apply y_apply_plan|].
Qed.
End governor.
