(* ===== verification/Genuine.v ===== *)
(** * Nothing is served that was not put there

    Every value a caller is given under a key was written or fetched under a
    key with the same fingerprint, or was stored from the start: whatever runs
    at the same time, no value comes out of thin air or out of another
    caller's key. *)

From stdpp Require Import relations.
From S2P Require Import Prelude Entry Integrity Key Tier Continuity Policy TierTrait Telemetry.
From S2P Require Import Pool FixedTier ShardedTier Stubs Stored ControlEntry Shard Cachelito Plane Protocol.
From S2P Require Import Commit Prog Threads Manager Steps Guarantee ReadYourWrite Governor Autonomy System Walk.

(** ** Worlds that store legitimate values *)

Section genuine.
Context {V T : Type} `{HT : !CacheTier V T} `{HL : !TierLaws V T} `{HS : !TierStores V T}.
Context (Phi : Z -> V -> Prop).

(** A well-formed tier that stores legitimate values only. *)
Definition genuine_tier (t : T) : Prop := tier_ok t /\ forall f u, stores t f u -> Phi f u.

Definition all_genuine (w : World T) : Prop := Forall genuine_tier (w_tiers w).

(** The values that are legitimate under a key. *)
Definition legitimate (kb : bytes) (v : V) : Prop := Phi (KeyFingerprint_of kb) v.

Lemma on_slot_genuine {B} slot (op : T -> res B * T) w :
  (forall t, genuine_tier t -> genuine_tier (snd (op t))) -> all_genuine w ->
  all_genuine (snd (on_slot slot op w)).
Proof.
  intros Hop Hw. unfold on_slot. destruct (w_tiers w !! slot) as [t|] eqn:Ht; [|done].
  specialize (Hop t (Forall_lookup_1 _ _ _ _ Hw Ht)). destruct (op t) as [r t']. cbn in *.
  by apply Forall_insert.
Qed.

Lemma genuine_get rung kb now w : all_genuine w ->
  all_genuine (snd (get_at rung kb now w)) /\
  forall v, fst (get_at rung kb now w) = Ok (Some v) -> legitimate kb v.
Proof.
  intros Hw. unfold get_at. split.
  - apply on_slot_genuine; [|done]. intros t [Hok Hst]. split; [by apply law_get_ok|].
    intros f u Hu. by apply Hst, (stores_get now kb).
  - unfold on_slot. destruct (w_tiers w !! as_usize rung) as [t|] eqn:Ht; [|done].
    destruct (Forall_lookup_1 _ _ _ _ Hw Ht) as [Hok Hst]. intros v Hv.
    apply Hst, (stores_read now kb v t Hok). by destruct (tier_get now kb t).
Qed.

Lemma genuine_set rung kb v ttl' now w :
  legitimate kb v -> all_genuine w -> all_genuine (snd (set_at rung kb v ttl' now w)).
Proof.
  intros Hv. apply on_slot_genuine. intros t [Hok Hst]. split; [by apply law_set_ok|].
  intros f u Hu. destruct (stores_set now kb v ttl' t f u Hok Hu) as [Hs|[-> ->]]; [by apply Hst|done].
Qed.

Lemma genuine_remove slot kb now w :
  all_genuine w -> all_genuine (snd (on_slot slot (tier_remove now kb) w)).
Proof.
  apply on_slot_genuine. intros t [Hok Hst]. split; [by apply law_remove_ok|].
  intros f u Hu. by apply Hst, (stores_remove now kb).
Qed.

Lemma genuine_contains rung kb now w : all_genuine w -> all_genuine (snd (contains_at rung kb now w)).
Proof.
  apply on_slot_genuine. intros t [Hok Hst]. split; [by apply law_contains_ok|].
  intros f u Hu. by apply Hst, (stores_contains now kb).
Qed.

Lemma genuine_nominate rung now w : all_genuine w -> all_genuine (snd (nominate_at rung now w)).
Proof.
  intros Hw. unfold nominate_at. destruct (w_tiers w !! as_usize rung) as [t|] eqn:Ht; [|done].
  destruct (Forall_lookup_1 _ _ _ _ Hw Ht) as [Hok Hst].
  pose proof (law_evict_ok now (w_cursor w) t Hok) as Hok'.
  pose proof (fun f u => stores_evict now (w_cursor w) t f u Hok) as Hst'.
  destruct (eviction_candidate now (w_cursor w) t) as [[a c] t']. cbn in *.
  apply Forall_insert; [done|]. split; [done|]. intros f u Hu. by apply Hst, Hst'.
Qed.

Lemma genuine_reclaim rung a w : all_genuine w -> all_genuine (snd (reclaim_at rung a w)).
Proof.
  apply on_slot_genuine. intros t [Hok Hst]. split; [by apply law_reclaim_ok|].
  intros f u Hu. by apply Hst, (stores_reclaim a).
Qed.

(** Entries may point anywhere: a read is as good on any rung. *)
#[export] Instance Keeps_genuine : Keeps V T all_genuine anything legitimate.
Proof.
  split; try done; intros.
  - by apply genuine_get.
  - by apply genuine_set.
  - by apply genuine_remove.
  - by apply genuine_contains.
  - by apply genuine_nominate.
  - by apply genuine_reclaim.
Qed.
End genuine.

(** ** The system *)

Section system.
Context {K V P T0 : Type} `{!Key K} `{!CachePolicy P K V}.
Context `{HT : !CacheTier V T0} `{HL : !TierLaws V T0} `{HS : !TierStores V T0}.
Context (manager : CacheManager P).

Abbreviation W := (World (HotRungTier T0)).
Abbreviation activity := (activity (K := K) (V := V) (P := P) (T0 := T0)).

(** Where a value under a fingerprint can have come from: a request for a key
    with that fingerprint brought it, a tier stored it from the start, or a
    tier a rebinder may bind stores it. *)
Inductive provenance (activities : list activity) (w : W) (f : Z) (v : V) : Prop :=
| from_request r kb :
    Serve r ∈ activities -> encode_key (request_key r) (request_ctx r) = Ok kb ->
    KeyFingerprint_of kb = f -> offers r v -> provenance activities w f v
| from_the_start t : t ∈ w_tiers w -> stores t f v -> provenance activities w f v
| from_a_rebinder g rounds rebinder t now r :
    Govern g rounds ∈ activities -> g_rebinder g = Some rebinder -> rebinder t now = Ok (Some r) ->
    stores r f v -> provenance activities w f v.

Lemma swap_genuine Phi (r : T0) : genuine_tier Phi r -> swappable (V := V) (all_genuine Phi) r.
Proof.
  intros [Hr Hrs] rung w _. apply on_slot_genuine. intros h [Hh Hhs]. split; [by apply hot_swap_ok|].
  intros f u Hu. destruct (hot_swap_stores r h f u Hu) as [Hst|Hst]; [by apply Hhs|by apply Hrs].
Qed.

Lemma tiers_start_genuine (activities : list activity) (w : W) :
  world_ok (V := V) w -> all_genuine (provenance activities w) w.
Proof.
  intros [_ _ Ht]. apply Forall_forall. intros t Hin. split; [by eapply Forall_forall|].
  intros f u Hu. by eapply from_the_start.
Qed.

(** What an activity yields. *)
Definition activity_yields (Phi : Z -> V -> Prop) (a : activity) (x : option (response V)) : Prop :=
  match a, x with
  | Serve r, Some y => serves_ok (legitimate Phi) r y
  | Serve _, None => False
  | Govern _ _, _ => True
  end.

Lemma y_activity (activities : list activity) (w : W) a :
  Forall (sound_rebinder (V := V)) activities -> a ∈ activities ->
  yields (all_genuine (provenance activities w)) (activity_prog manager a)
    (activity_yields (provenance activities w) a).
Proof.
  intros Hsound Ha. pose proof (proj1 (Forall_forall _ _) Hsound a Ha) as Hok.
  destruct a as [r|g rounds]; cbn [activity_prog].
  - apply (yields_bind _ _ _ (serves_ok (legitimate (provenance activities w)) r)); [|done].
    apply (y_perform _ anything (legitimate (provenance activities w))). intros kb v He Hv. by eapply from_request.
  - apply y_then; [|done]. apply (y_task_loop _ anything (legitimate (provenance activities w))).
    intros rebinder t now r Hg Hr. apply swap_genuine.
    split; [by eapply Hok|]. intros f u Hu. by eapply from_a_rebinder.
Qed.

(** C10. Nothing is served out of thin air. However many requests of any keys
    and callers and however many governors run at the same time, whatever the
    scheduler makes of them, with timeouts, lost effects and dropped futures
    anywhere: a value a finished request serves -- a read, a population, a
    refresh, fresh or stale or out of a fallback rung -- was brought by some
    request (written by a [set] or returned by a fetch) for a key with the same
    fingerprint as the request's own framed key, or was stored under that
    fingerprint in a tier that was bound from the start or that a rebinder
    offered. Moves, evictions, recovery sweeps and rebindings never bring a
    value under a fingerprint it was not put under, and a request whose key does
    not encode is served nothing. *)
Theorem nothing_is_served_out_of_thin_air (activities : list activity) (w : W) (t : Instant)
    (c : Threads (HotRungTier T0) (option (response V))) (i : nat) (r : request K V (HotRungTier T0))
    (a : option (response V)) (v : V)
    (Hw : world_ok (V := V) w) (Hsound : Forall sound_rebinder activities)
    (Hrun : rtc threads_step (spawn (map (activity_prog manager) activities) w t) c)
    (Hi : activities !! i = Some (Serve r)) (Hdone : th_progs c !! i = Some (Some (Ret a)))
    (Hv : (a ≫= served) = Some v) :
  exists kb, encode_key (request_key r) (request_ctx r) = Ok kb /\
    provenance activities w (KeyFingerprint_of kb) v.
Proof.
  set (Phi := provenance activities w).
  assert (Hall : all_yield (all_genuine Phi)
    (fun j x => exists b, activities !! j = Some b /\ activity_yields Phi b x)
    (spawn (map (activity_prog manager) activities) w t)).
  { intros j p Hj. cbn [spawn th_progs] in Hj. rewrite !list_lookup_fmap in Hj.
    destruct (activities !! j) as [b|] eqn:Hb; [|discriminate Hj]. injection Hj as <-.
    eapply yields_mono; [|apply y_activity; [done|by eapply list_elem_of_lookup_2]].
    intros x Hx. by exists b. }
  assert (Hdrop : forall armed (w' : W), all_genuine Phi w' -> all_genuine Phi (drop_guards armed w'))
    by (intros armed w'; apply (drop_guards_good (V := V) _ anything (legitimate Phi))).
  destruct (threads_yield _ Hdrop _ _ _ Hrun (tiers_start_genuine activities w Hw) Hall) as [_ Hend].
  destruct (Hend i _ Hdone) as (b & Hb & Hy). rewrite Hi in Hb. injection Hb as <-.
  destruct a as [y|]; [|done]. by apply Hy.
Qed.
End system.

(** ** An example: the reader is served what one of the writers wrote *)

#[local] Existing Instance system_hasher.

Lemma nothing_is_served_out_of_thin_air_witness :
  let start := spawn (map (activity_prog demo_manager) demo_activities) demo_rungs 0 in
  let choices := replicate 12 (0, 5%Z, OnTime) ++ replicate 9 (2, 5%Z, OnTime) in
  th_progs (follow choices start) !! 2 = Some (Some (Ret (Some (AValue (Ok (Some [1%Z])))))) /\
  exists kb, encode_key (K := bytes) [107%Z] demo_ctx = Ok kb /\
    provenance demo_activities demo_rungs (KeyFingerprint_of kb) [1%Z].
Proof.
  intros start choices.
  assert (Hdone : th_progs (follow choices start) !! 2 = Some (Some (Ret (Some (AValue (Ok (Some [1%Z])))))))
    by (vm_compute; reflexivity).
  split; [exact Hdone|].
  refine (nothing_is_served_out_of_thin_air demo_manager demo_activities demo_rungs 0%Z
    (follow choices start) 2 (RGet [107%Z] demo_ctx) _ [1%Z] demo_rungs_ok demo_activities_sound
    _ eq_refl Hdone eq_refl).
  apply (follow_reachable _ _ 5%Z); [cbn; lia|]. repeat constructor.
Defined.
