(* ===== verification/Routing.v ===== *)
(** * Nothing leaves the cache ladder

    Where the control plane sends a reader is the rung its entry names. Under a
    policy that starts reads and refreshes on cache rungs -- both policies of
    [src/policy.rs] do -- no entry ever names the authority rung, so nobody is
    ever sent there: what is bound on L6 is never touched at all. *)

From stdpp Require Import relations.
From S2P Require Import Prelude Entry Integrity Key Tier Continuity Policy TierTrait Telemetry.
From S2P Require Import Pool FixedTier ShardedTier Stubs ControlEntry Shard Cachelito Plane Protocol.
From S2P Require Import Commit Prog Threads Manager Steps Guarantee ReadYourWrite Governor Autonomy System Walk.

(** ** Planes in the ladder *)

Definition cache_only (t : TierId) : Prop := is_cache_rung t = true.

Definition in_ladder (c : Cachelito) : Prop :=
  forall a e, view c a = Some e -> cache_only (tier e).

(** An entry's rung changes to one the operation names, or not at all. *)
Lemma op_step_tier a op e : op_ok cache_only op -> cache_only (tier e) -> cache_only (tier (op_step a op e)).
Proof.
  intros Hop He. destruct op; cbn [op_step op_ok] in *; try exact He.
  - unfold acquire_entry, state_compare_exchange.
    destruct (state e); cbn [snd]; try exact He;
      (destruct (ce_state e =? _)%Z; cbn [snd]; [|exact He]; by rewrite <- (tier_set_tier t e) in Hop).
  - unfold publish_entry. destruct (_ || _); cbn [snd]; [exact He|]. by rewrite <- (tier_set_tier t e) in Hop.
  - unfold release_claim_entry. by destruct (_ || _).
  - unfold reserve_entry. destruct (_ || _); [exact He|]. by destruct (intent e).
  - unfold prepare_entry. by destruct (match g with Some _ => _ | None => _ end).
  - unfold commit_entry. destruct (_ || _); [exact He|]. cbn [snd].
    destruct (from_index _) as [t|] eqn:Ht; [|exact He]. specialize (Hop t Ht).
    by rewrite <- (tier_set_tier t e) in Hop.
  - unfold abort_entry. by destruct (negb _).
  - unfold abort_entry. by destruct (negb _).
  - unfold abort_intent_entry. destruct (intent e); [|exact He]. by destruct (negb _).
  - by rewrite <- (tier_set_tier t e) in Hop.
Qed.

Lemma exec_in_ladder c op :
  plane_ok c -> op_ok cache_only op -> in_ladder c -> in_ladder (plane_exec c op).
Proof.
  intros Hok Hop Hc. unfold in_ladder. apply (exec_entries (fun e => cache_only (tier e))); [done|done| |done].
  intros a e _. by apply op_step_tier.
Qed.

Lemma stale_in_ladder kb c :
  plane_ok c -> in_ladder c ->
  plane_ok (snd (plane_set_state kb Stale c)) /\ in_ladder (snd (plane_set_state kb Stale c)).
Proof.
  intros Hok Hc. unfold plane_set_state.
  destruct (with_created_entry_view c (address_of c kb) _ Hok (set_state_ok Stale)) as (Hok' & Hsb & Hv).
  split; [done|]. intros a e. destruct (decide (a = address_of c kb)) as [->|Hne].
  - rewrite Hv. destruct (view c _) as [e0|] eqn:He.
    + intros [= <-]. by apply (Hc _ _ He).
    + destruct (room_for c _); [|done]. by intros [= <-].
  - rewrite (sb_other _ _ _ Hsb) by done. apply Hc.
Qed.

Lemma sweep_in_ladder now c :
  plane_ok c -> in_ladder c ->
  plane_ok (snd (sweep_expired now c)) /\ in_ladder (snd (sweep_expired now c)).
Proof.
  intros Hok Hc. destruct (sweep_spec now c Hok) as (Hok' & _ & _ & Hv). split; [done|].
  intros a e. rewrite Hv. destruct (view c a) as [e0|] eqn:He; [|done]. cbn. intros [= <-].
  pose proof (Hc _ _ He) as Ht. unfold sweep_step.
  by repeat match goal with |- context [if ?b then _ else _] => destruct b end.
Qed.

Lemma peek_in_ladder now kb c s : plane_ok c -> in_ladder c -> peek now kb c = Ok s -> cache_only (snap_tier s).
Proof.
  intros Hok Hc. rewrite peek_view by done. intros [= <-].
  destruct (view c _) as [e|] eqn:He; [|done]. exact (Hc _ _ He).
Qed.

Lemma acquire_in_ladder now kb t c s :
  plane_ok c -> cache_only t -> in_ladder c -> fst (acquire now kb t c) = Ok s -> cache_only (snap_tier s).
Proof.
  intros Hok Ht Hc. set (a := address_of c kb). destruct (entry_at_wf c a Hok) as [Hwf _].
  assert (He : cache_only (tier (entry_at c a))).
  { unfold entry_at. destruct (view c a) as [e|] eqn:He; [by apply (Hc _ _ He)|done]. }
  destruct (reaches c a) eqn:Hr.
  - unfold acquire. fold a. destruct (created_result c a (acquire_entry now t) Hok (acquire_ok now t) Hr) as [-> _].
    rewrite acquire_entry_eq by done. destruct (is_claimable _); intros [= <-]; done.
  - unfold acquire. fold a.
    pose proof (with_created_entry_spec c a (acquire_entry now t) Hok (acquire_ok now t)) as H.
    unfold reaches in Hr. destruct (view c a) eqn:Hv; [by rewrite bool_decide_true in Hr|].
    apply orb_false_iff in Hr as [_ Hr]. rewrite Hr in H. by destruct H as [-> _].
Qed.

Lemma new_in_ladder n cap p : in_ladder (Cachelito_with_placement (cachelito_sized n cap) p).
Proof. intros a e. by rewrite new_view. Qed.

(** ** Worlds in the ladder *)

Section routing.
Context {V T : Type} `{!CacheTier V T}.
Implicit Types (w : World T).

(** Every entry names a cache rung, and on the authority rung is what was there. *)
Record routed_world (authority : option T) w : Prop := {
  rw_plane : plane_ok (w_ctl w);
  rw_ladder : in_ladder (w_ctl w);
  rw_authority : w_tiers w !! as_usize L6 = authority
}.

Context (authority : option T).

Lemma cache_slot t : cache_only t -> as_usize L6 <> as_usize t.
Proof. by destruct t. Qed.

Lemma routed_ctl c w :
  plane_ok c /\ in_ladder c -> routed_world authority w -> routed_world authority (set_ctl c w).
Proof. intros [Hc Hl] [_ _ Ha]. by split. Qed.

Lemma routed_slot {B} slot (op : T -> res B * T) w :
  as_usize L6 <> slot -> routed_world authority w -> routed_world authority (snd (on_slot slot op w)).
Proof.
  intros Hs [Hp Hl Ha]. destruct (on_slot_tiers slot op w) as (Hc & _ & Hj).
  split; [by rewrite Hc..|]. by rewrite Hj, decide_False.
Qed.

#[export] Instance Keeps_routed (any : bytes -> V -> Prop) :
  (forall kb v, any kb v) -> Keeps V T (routed_world authority) cache_only any.
Proof.
  intros Hany. split; try done.
  - by intros r w [].
  - by intros s w [].
  - intros op w Hop Hw. apply routed_ctl; [|done]. destruct Hw as [Hp Hl _].
    split; [by apply plane_exec_spec|by apply exec_in_ladder].
  - intros kb w Hw. apply routed_ctl; [|done]. destruct Hw. by apply stale_in_ladder.
  - intros now w Hw. apply routed_ctl; [|done]. destruct Hw. by apply sweep_in_ladder.
  - intros now kb w s []. by apply peek_in_ladder.
  - intros now kb t w s Ht []. by apply acquire_in_ladder.
  - intros rung kb now w Hr Hw. split; [by apply routed_slot; [apply cache_slot|]|by intros].
  - intros rung kb v d now w Hr _. by apply routed_slot, cache_slot.
  - intros slot kb now w [Hs|(t & -> & Ht)]; apply routed_slot; [done|by apply cache_slot].
  - intros rung kb now w Hr. by apply routed_slot, cache_slot.
  - intros rung now w Hr [Hp Hl Ha]. destruct (nominate_tiers rung now w) as (Hc & _ & Hj).
    split; [by rewrite Hc..|]. rewrite Hj, decide_False; [done|by apply cache_slot].
  - intros rung a w Hr. by apply routed_slot, cache_slot.
Qed.
End routing.

(** ** The system *)

Section system.
Context {K V P T0 : Type} `{!Key K} `{!CachePolicy P K V} `{!CacheTier V T0}.
Context `{HR : !RoutedPolicy P K V cache_only}.
Context (manager : CacheManager P).

Abbreviation W := (World (HotRungTier T0)).
Abbreviation activity := (activity (K := K) (V := V) (P := P) (T0 := T0)).
Abbreviation any := (fun (_ : bytes) (_ : V) => True).

Lemma y_routed (authority : option (HotRungTier T0)) (a : activity) :
  yields (routed_world authority) (activity_prog manager a) anything.
Proof.
  assert (HK : Keeps V (HotRungTier T0) (routed_world authority) cache_only any) by by apply Keeps_routed.
  destruct a as [r|g rounds]; cbn [activity_prog]; (apply y_then; [|done]).
  - eapply y_any, (y_perform _ cache_only any). done.
  - apply (y_task_loop _ cache_only any). intros rebinder t now r _ _ rung w Hr.
    by apply routed_slot, cache_slot.
Qed.

(** C11. Nothing leaves the cache ladder, and the authority rung is never
    touched. However many requests of any keys and callers and however many
    governors run at the same time, under any schedule, with timeouts, lost
    effects and dropped futures anywhere: in every state they reach together
    every entry of the control plane -- committed, prepared, in flight or
    failed -- names a cache rung, so nobody is ever sent to the authority, and
    whatever is bound on L6 is exactly as it was: not written, not removed from,
    not even read. Asked of the policy is only that reads and refreshes start on
    a cache rung; that writes and moves stay in the ladder is the manager's own
    doing, whatever rung the policy names. *)
Theorem nothing_leaves_the_ladder (activities : list activity) (w : W) (t : Instant)
    (c : Threads (HotRungTier T0) (option (response V)))
    (Hok : plane_ok (w_ctl w)) (Hladder : in_ladder (w_ctl w))
    (Hrun : rtc threads_step (spawn (map (activity_prog manager) activities) w t) c) :
  in_ladder (w_ctl (th_world c)) /\
  w_tiers (th_world c) !! as_usize L6 = w_tiers w !! as_usize L6.
Proof.
  set (authority := w_tiers w !! as_usize L6).
  assert (HK : Keeps V (HotRungTier T0) (routed_world authority) cache_only any) by by apply Keeps_routed.
  assert (Hdrop : forall armed (w' : W),
    routed_world authority w' -> routed_world authority (drop_guards armed w'))
    by (intros armed w'; apply (drop_guards_good (V := V) _ cache_only any)).
  assert (Hw : routed_world authority w) by done.
  destruct (threads_yield _ Hdrop (fun _ => anything) _ _ Hrun Hw) as [[_ Hl Ha] _]; [|done].
  intros i p Hi. cbn [spawn th_progs] in Hi. rewrite !list_lookup_fmap in Hi.
  destruct (activities !! i) as [a|]; [|discriminate Hi]. injection Hi as <-. apply y_routed.
Qed.
End system.

(** ** An example: writers of one key, a reader and a governor *)

#[local] Existing Instance system_hasher.

Lemma demo_rungs_in_ladder : in_ladder (w_ctl demo_rungs).
Proof.
  unfold demo_rungs, demo_ready, demo_acquired, demo_plane. cbn [w_ctl].
  repeat (apply exec_in_ladder; [repeat apply plane_exec_spec; apply with_placement_ok|done|]).
  apply new_in_ladder.
Qed.

(** With the reader dropped, and a write that outlives its deadline. *)
Lemma nothing_leaves_the_ladder_witness :
  let start := spawn (map (activity_prog demo_manager) demo_activities) demo_rungs 0 in
  let choices := concat (replicate 12 [(0, 5%Z, OnTime); (1, 5%Z, LateApplied); (3, 5%Z, OnTime)])
                 ++ [(2, 5%Z, DroppedLost)] in
  in_ladder (w_ctl (th_world (follow choices start))) /\
  w_tiers (th_world (follow choices start)) !! as_usize L6 = Some (mkHot L1 (new_mutex demo_tier)).
Proof.
  intros start choices.
  refine (nothing_leaves_the_ladder (V := bytes) demo_manager demo_activities demo_rungs 0%Z _
    (wok_plane _ demo_rungs_ok) demo_rungs_in_ladder _).
  apply (follow_reachable _ _ 5%Z); [cbn; lia|]. repeat constructor.
Defined.
