(* ===== verification/Text.v ===== *)
(** * Text as the developer tooling handles it

    The methods of [str] and [char] that [xtask/src/*.rs] uses. A string is
    the list of its characters, a character its Unicode scalar value. *)

From Stdlib Require Import String Ascii.
From S2P Require Import Prelude.
Local Open Scope Z_scope.

Abbreviation char := Z (only parsing).
Abbreviation text := (list Z) (only parsing).

(** A literal. *)
Fixpoint text_of (s : string) : text :=
  match s with
  | EmptyString => []
  | String c s => Z.of_nat (nat_of_ascii c) :: text_of s
  end.

Definition NEWLINE : char := 10.
Definition CARRIAGE_RETURN : char := 13.
Definition COLON : char := 58.

(** [char::is_whitespace]: the characters with the property White_Space. *)
Definition is_whitespace (c : char) : bool :=
  ((9 <=? c) && (c <=? 13)) || (c =? 0x20) || (c =? 0x85) || (c =? 0xA0) || (c =? 0x1680)
  || ((0x2000 <=? c) && (c <=? 0x200A)) || (c =? 0x2028) || (c =? 0x2029) || (c =? 0x202F)
  || (c =? 0x205F) || (c =? 0x3000).

Definition text_eqb (a b : text) : bool := bool_decide (a = b).

Definition mem_text (a : text) (l : list text) : bool := existsb (text_eqb a) l.

Definition has_char (c : char) (s : text) : bool := existsb (Z.eqb c) s.

Fixpoint drop_while (f : char -> bool) (s : text) : text :=
  match s with
  | [] => []
  | c :: s' => if f c then drop_while f s' else s
  end.

(** [trim_start_matches], [trim]. *)
Definition trim_start_matches (c : char) (s : text) : text := drop_while (Z.eqb c) s.
Definition trim (s : text) : text := rev (drop_while is_whitespace (rev (drop_while is_whitespace s))).

Definition is_blank_text (s : text) : bool := bool_decide (trim s = []).

Fixpoint starts_with_text (prefix s : text) : bool :=
  match prefix, s with
  | [], _ => true
  | c :: prefix, d :: s => (c =? d) && starts_with_text prefix s
  | _ :: _, [] => false
  end.

Definition ends_with_text (suffix s : text) : bool := starts_with_text (rev suffix) (rev s).

(** [split_once]: around the first separator. *)
Fixpoint split_once (sep : char) (s : text) : option (text * text) :=
  match s with
  | [] => None
  | c :: s =>
      if c =? sep then Some ([], s)
      else option_map (fun '(a, b) => (c :: a, b)) (split_once sep s)
  end.

(** [split]: the pieces between separators, one more than there are. *)
Fixpoint split_text (sep : char) (s : text) : list text :=
  match s with
  | [] => [[]]
  | c :: s =>
      if c =? sep then [] :: split_text sep s
      else match split_text sep s with
           | piece :: rest => (c :: piece) :: rest
           | [] => [[c]]
           end
  end.

(** [splitn]: at most [n] pieces, the last one unsplit. *)
Fixpoint splitn (n : nat) (sep : char) (s : text) : list text :=
  match n with
  | O => []
  | S O => [s]
  | S n =>
      match split_once sep s with
      | Some (a, b) => a :: splitn n sep b
      | None => [s]
      end
  end.

(** The line ending of a line that had a newline. *)
Definition strip_carriage_return (line : text) : text :=
  match rev line with
  | c :: rest => if c =? CARRIAGE_RETURN then rev rest else line
  | [] => line
  end.

(** [lines]: a final empty line does not count, and only a carriage return
    before a newline is part of the line ending. *)
Definition lines (s : text) : list text :=
  let pieces := split_text NEWLINE s in
  let final := List.last pieces [] in
  map strip_carriage_return (removelast pieces)
  ++ match final with [] => [] | _ => [final] end.

(** [split_inclusive] at newlines: each piece keeps its own. *)
Fixpoint split_inclusive (s : text) : list text :=
  match s with
  | [] => []
  | c :: s =>
      if c =? NEWLINE then [c] :: split_inclusive s
      else match split_inclusive s with
           | [] => [[c]]
           | piece :: rest => (c :: piece) :: rest
           end
  end.

Definition trim_start (s : text) : text := drop_while is_whitespace s.

(** [find], as what follows: the text from the first occurrence on. *)
Fixpoint find_text (needle s : text) : option text :=
  if starts_with_text needle s then Some s
  else match s with [] => None | _ :: s => find_text needle s end.

Definition contains_text (needle s : text) : bool := bool_decide (is_Some (find_text needle s)).

(** [strip_prefix] *)
Definition strip_prefix (prefix s : text) : option text :=
  if starts_with_text prefix s then Some (drop (length prefix) s) else None.

(** [split_once] around a string. *)
Fixpoint split_once_text (sep s : text) : option (text * text) :=
  if starts_with_text sep s then Some ([], drop (length sep) s)
  else match s with
       | [] => None
       | c :: s => option_map (fun '(a, b) => (c :: a, b)) (split_once_text sep s)
       end.

(** Lines, each ended by a newline. *)
Definition unlines (ls : list text) : text := concat (map (fun l => l ++ [NEWLINE]) ls).

(** [join] *)
Fixpoint join (sep : text) (pieces : list text) : text :=
  match pieces with
  | [] => []
  | [p] => p
  | p :: pieces => p ++ sep ++ join sep pieces
  end.

(** ** Lemmas *)

Lemma text_eqb_spec a b : reflect (a = b) (text_eqb a b).
Proof. apply bool_decide_reflect. Qed.

Lemma mem_text_spec a l : mem_text a l = true <-> a ∈ l.
Proof.
  unfold mem_text. rewrite existsb_exists. split.
  - intros (b & Hb & Heq). destruct (text_eqb_spec a b) as [->|]; [by apply list_elem_of_In|done].
  - intros Ha. exists a. split; [by apply list_elem_of_In|]. by destruct (text_eqb_spec a a).
Qed.

Lemma has_char_spec c s : has_char c s = true <-> c ∈ s.
Proof.
  unfold has_char. rewrite existsb_exists. split.
  - intros (d & Hd & Heq). apply Z.eqb_eq in Heq as ->. by apply list_elem_of_In.
  - intros Hc. exists c. split; [by apply list_elem_of_In|apply Z.eqb_refl].
Qed.

Lemma split_once_sep sep a b : sep ∉ a -> split_once sep (a ++ sep :: b) = Some (a, b).
Proof.
  induction a as [|c a IH]; cbn; intros Ha.
  - by rewrite Z.eqb_refl.
  - apply not_elem_of_cons in Ha as [Hc Ha]. destruct (Z.eqb_spec c sep); [congruence|].
    by rewrite IH.
Qed.

Lemma split_once_none sep a : sep ∉ a -> split_once sep a = None.
Proof.
  induction a as [|c a IH]; cbn; intros Ha; [done|].
  apply not_elem_of_cons in Ha as [Hc Ha]. destruct (Z.eqb_spec c sep); [congruence|]. by rewrite IH.
Qed.

Lemma split_text_none sep a : sep ∉ a -> split_text sep a = [a].
Proof.
  induction a as [|c a IH]; cbn; intros Ha; [done|].
  apply not_elem_of_cons in Ha as [Hc Ha]. destruct (Z.eqb_spec c sep); [congruence|]. by rewrite IH.
Qed.

Lemma split_text_sep sep a b : sep ∉ a -> split_text sep (a ++ sep :: b) = a :: split_text sep b.
Proof.
  induction a as [|c a IH]; cbn; intros Ha.
  - by rewrite Z.eqb_refl.
  - apply not_elem_of_cons in Ha as [Hc Ha]. destruct (Z.eqb_spec c sep); [congruence|]. by rewrite IH.
Qed.

(** Writing lines and reading them back. *)
Definition plain_line (l : text) : Prop := NEWLINE ∉ l /\ last l <> Some CARRIAGE_RETURN.

Lemma strip_plain l : plain_line l -> strip_carriage_return l = l.
Proof.
  intros [_ Hl]. unfold strip_carriage_return. destruct l as [|x l _] using rev_ind; [done|].
  rewrite rev_unit. rewrite last_snoc in Hl. by destruct (Z.eqb_spec x CARRIAGE_RETURN) as [->|].
Qed.

Lemma split_unlines ls :
  Forall plain_line ls -> split_text NEWLINE (unlines ls) = ls ++ [[]].
Proof.
  induction 1 as [|l ls Hl _ IH]; [done|]. unfold unlines. cbn [map concat].
  rewrite <- app_assoc. cbn [app]. rewrite split_text_sep by apply Hl. cbn. by f_equal.
Qed.

Lemma lines_unlines ls : Forall plain_line ls -> lines (unlines ls) = ls.
Proof.
  intros Hls. unfold lines. rewrite split_unlines by done.
  rewrite removelast_last, last_last. rewrite app_nil_r.
  induction Hls as [|l ls Hl _ IH]; [done|]. cbn. rewrite strip_plain by done. by f_equal.
Qed.
