(* ===== verification/Display.v ===== *)
(** * What the crate prints

    Models the [Display] implementations of the crate: digests, identities,
    generations, capabilities, continuity reports, log lines and percentiles.
    A rendering is the text it produces. *)

From Stdlib Require Import String.
From stdpp Require Import strings pretty.
From S2P Require Import Prelude Entry Integrity Tier Capability Continuity Telemetry Text.
Local Open Scope Z_scope.

Definition SPACE : char := 32.

(** ** Numbers *)

(** [{}] of an unsigned integer. *)
Definition decimal (z : Z) : text := text_of (pretty (Z.to_N z)).

(** [{:016x}] of a [u64] has 16 digits, [{:032x}] of a [u128] has 32. *)
Fixpoint hex_fixed (digits : nat) (z : Z) : text :=
  match digits with
  | O => []
  | S digits => hex_fixed digits (z / 16) ++ [hex_digit (z mod 16)]
  end.

(** ** [{:?}] *)

(** The text between the quotes is one of the crate's own names: nothing of it
    is escaped. *)
Definition debug_option_text (o : option text) : text :=
  match o with
  | None => text_of "None"
  | Some s => text_of "Some(" ++ 34 :: s ++ 34 :: text_of ")"
  end.

Definition CacheError_debug (e : CacheError) : string :=
  match e with
  | Unauthenticated => "Unauthenticated" | Unauthorized => "Unauthorized"
  | TierUnavailable => "TierUnavailable" | WriteIndeterminate => "WriteIndeterminate"
  | PolicyDenied => "PolicyDenied" | Miss => "Miss" | PopulationFailed => "PopulationFailed"
  | Timeout => "Timeout" | Cancelled => "Cancelled" | StaleGeneration => "StaleGeneration"
  | WriteContended => "WriteContended" | SerializationFailed => "SerializationFailed"
  | ConfigurationError => "ConfigurationError" | CapacityExhausted => "CapacityExhausted"
  | Corrupted => "Corrupted" | UncommittedIntent => "UncommittedIntent"
  end%string.

Definition debug_option_error (o : option CacheError) : text :=
  match o with
  | None => text_of "None"
  | Some e => text_of "Some(" ++ text_of (CacheError_debug e) ++ text_of ")"
  end.

Definition bool_display (b : bool) : text := text_of (if b then "true" else "false")%string.

(** ** Digests and identities *)

Definition ContentDigest_display (d : Z) : text := hex_fixed 32 d.
Definition KeyFingerprint_display (d : Z) : text := hex_fixed 32 d.
Definition Generation_display (g : Generation) : text := decimal g.

Definition KeyIdentity_display (k : KeyIdentity) : text :=
  text_of "k" ++ hex_fixed 16 (kid_digest k) ++ text_of "/" ++ decimal (kid_len k).

(** ** Backends and capabilities *)

Definition BackendKind_display (b : BackendKind) : string :=
  match b with
  | InMemory => "in-memory" | InMemoryFallback => "in-memory-fallback" | Moka => "moka"
  | Redis => "redis" | Sled => "sled" | RocksDb => "rocksdb" | Postgres => "postgres"
  | Neo4j => "neo4j" | Helix => "helix" | Oxigraph => "oxigraph" | Origin => "origin"
  | TestBackend => "test" | BackendUnavailable => "unavailable"
  end%string.

Definition CapabilityFlags_display (flags : Z) : text :=
  match flag_names flags with
  | [] => text_of "none"
  | names => join (text_of "|") (map text_of names)
  end.

Definition TierCapability_summary (c : TierCapability) : text :=
  text_of (BackendKind_display (cap_backend c)) ++ text_of "[" ++ CapabilityFlags_display (cap_flags c)
  ++ text_of "] state=" ++ text_of (os_name (cap_state c))
  ++ text_of " durability=" ++ text_of (dc_name (cap_durability c)).

(** ** Reports *)

Definition ContinuityReport_summary (r : ContinuityReport) : text :=
  join (text_of " ")
    (map (fun '(t, s) => text_of (TierId_display t) ++ text_of "=" ++ text_of (cs_name s)) r).

(** The fields of the format string: a label, [=], a value; spaces between. *)
Definition record_fields (r : OperationRecord) : list (string * text) :=
  [("op", text_of (Operation_name (or_operation r)));
   ("key", KeyIdentity_display (or_key r));
   ("src", debug_option_text (option_map (fun t => text_of (TierId_display t)) (or_source_tier r)));
   ("dst", debug_option_text (option_map (fun t => text_of (TierId_display t)) (or_destination_tier r)));
   ("backend", debug_option_text (option_map (fun b => text_of (BackendKind_display b)) (or_backend r)));
   ("gen", match or_generation r with Some g => Generation_display g | None => text_of "-" end);
   ("latency_us", decimal (or_latency r / 1000));
   ("outcome", text_of (Outcome_name (or_outcome r)));
   ("fallback", bool_display (or_fallback r));
   ("failure", debug_option_error (or_failure_class r));
   ("recovery", debug_option_text (option_map (fun s => text_of (cs_name s)) (or_recovery_state r)))]%string.

Definition labelled (field : string * text) : text := text_of field.1 ++ text_of "=" ++ field.2.

Definition OperationRecord_display (r : OperationRecord) : text :=
  join (text_of " ") (map labelled (record_fields r)).

Definition LatencyPercentiles_display (p : LatencyPercentiles) : text :=
  let us (z : Z) := decimal z ++ text_of "us" in
  join (text_of " ") (map labelled
    [("n", decimal (Z.of_nat (lp_count p))); ("p50", us (lp_p50 p)); ("p95", us (lp_p95 p));
     ("p99", us (lp_p99 p)); ("p99.9", us (lp_p99_9 p)); ("max", us (lp_max p))]%string).

(** ** Renderings are injective *)

Lemma text_of_inj s1 s2 : text_of s1 = text_of s2 -> s1 = s2.
Proof.
  revert s2. induction s1 as [|c s1 IH]; intros [|d s2]; cbn; [done..|].
  intros Heq. injection Heq as Hc Hs. rewrite (IH _ Hs). f_equal. apply Nat2Z.inj in Hc.
  by rewrite <- (Ascii.ascii_nat_embedding c), <- (Ascii.ascii_nat_embedding d), Hc.
Qed.

Lemma decimal_inj z1 z2 : 0 <= z1 -> 0 <= z2 -> decimal z1 = decimal z2 -> z1 = z2.
Proof.
  intros H1 H2 H. apply text_of_inj in H. apply (inj pretty) in H. lia.
Qed.

(** Decimal digits. *)
Definition is_digit (c : char) : Prop := 48 <= c <= 57.

Lemma decimal_digits z : Forall is_digit (decimal z).
Proof.
  assert (Hgo : forall n s, Forall is_digit (text_of s) -> Forall is_digit (text_of (pretty_N_go n s))).
  { intros n. induction (N.lt_wf_0 n) as [n _ IH]. intros s Hs.
    destruct (decide (n = 0)%N) as [->|Hn]; [by rewrite pretty_N_go_0|].
    rewrite pretty_N_go_step by lia. apply IH; [apply N.div_lt; lia|]. cbn. constructor; [|done].
    unfold is_digit, pretty_N_char. repeat case_match; vm_compute; by split. }
  unfold decimal, pretty, pretty_N. case_decide; [|by apply Hgo].
  apply Forall_singleton. vm_compute. by split.
Qed.

Lemma digits_lack c l : Forall is_digit l -> ~ is_digit c -> c ∉ l.
Proof. intros Hl Hc Hin. rewrite Forall_forall in Hl. by apply Hc, Hl. Qed.

Lemma hex_digit_inj d1 d2 : 0 <= d1 < 16 -> 0 <= d2 < 16 -> hex_digit d1 = hex_digit d2 -> d1 = d2.
Proof. unfold hex_digit. intros H1 H2. destruct (Z.ltb_spec d1 10), (Z.ltb_spec d2 10); lia. Qed.

Lemma length_hex n z : length (hex_fixed n z) = n.
Proof. revert z. induction n as [|n IH]; intros z; cbn; [done|]. rewrite length_app, IH. cbn. lia. Qed.

Lemma hex_lacks c n z : c < 48 -> c ∉ hex_fixed n z.
Proof.
  intros Hc. revert z. induction n as [|n IH]; intros z; cbn; [by intros ?%elem_of_nil|].
  rewrite elem_of_app, list_elem_of_singleton. intros [Hin|Heq]; [exact (IH _ Hin)|].
  pose proof (Z.mod_pos_bound z 16). unfold hex_digit in Heq. destruct (Z.ltb_spec (z mod 16) 10); lia.
Qed.

Lemma hex_fixed_inj n z1 z2 :
  0 <= z1 < 16 ^ Z.of_nat n -> 0 <= z2 < 16 ^ Z.of_nat n -> hex_fixed n z1 = hex_fixed n z2 -> z1 = z2.
Proof.
  revert z1 z2. induction n as [|n IH]; intros z1 z2 H1 H2 Heq; [cbn in *; lia|].
  rewrite Nat2Z.inj_succ, Z.pow_succ_r in H1, H2 by lia. cbn in Heq. apply app_inj_tail in Heq as [Hq Hr].
  apply hex_digit_inj in Hr; [|apply Z.mod_pos_bound; lia..].
  apply IH in Hq; [|split; [apply Z.div_pos; lia|apply Z.div_lt_upper_bound; lia]..].
  rewrite (Z.div_mod z1 16), (Z.div_mod z2 16) by lia. lia.
Qed.

(** Pieces joined by a character none of them has are read back by splitting. *)
Lemma split_join sep pieces :
  pieces <> [] -> Forall (fun p => sep ∉ p) pieces -> split_text sep (join [sep] pieces) = pieces.
Proof.
  intros Hne Hall. induction Hall as [|p pieces Hp Hall IH]; [done|].
  destruct pieces as [|q pieces]; [by apply split_text_none|].
  change (join [sep] (p :: q :: pieces)) with (p ++ sep :: join [sep] (q :: pieces)).
  rewrite split_text_sep by done. by rewrite IH.
Qed.

(** ** Log lines *)

(** No value of a log line has a space in it; decided by computation once the
    numbers are out of the way. *)
Definition spaceless (s : text) : bool := negb (has_char SPACE s).

Lemma spaceless_spec s : spaceless s = true <-> SPACE ∉ s.
Proof. unfold spaceless. rewrite <- has_char_spec. by destruct (has_char SPACE s). Qed.

Lemma spaceless_app a b : spaceless (a ++ b) = spaceless a && spaceless b.
Proof. unfold spaceless, has_char. by rewrite existsb_app, negb_orb. Qed.

Lemma spaceless_decimal z : spaceless (decimal z) = true.
Proof. apply spaceless_spec, digits_lack; [apply decimal_digits|]. unfold is_digit, SPACE. lia. Qed.

Lemma spaceless_hex n z : spaceless (hex_fixed n z) = true.
Proof. by apply spaceless_spec, hex_lacks. Qed.

Lemma spaceless_identity k : spaceless (KeyIdentity_display k) = true.
Proof. unfold KeyIdentity_display. by rewrite !spaceless_app, spaceless_hex, spaceless_decimal. Qed.

Lemma record_fields_spaceless r :
  Forall (fun f => SPACE ∉ labelled f) (record_fields r).
Proof.
  assert (H : forallb (fun f => spaceless (labelled f)) (record_fields r) = true).
  { destruct r as [op k src dst b g lat out fb fail rec]. unfold record_fields, labelled. cbn [forallb fst snd].
    rewrite !spaceless_app, spaceless_identity. cbn [or_latency]. rewrite spaceless_decimal.
    assert (Hg : spaceless match g with Some g => Generation_display g | None => text_of "-" end = true)
      by (destruct g; [apply spaceless_decimal|reflexivity]).
    cbn [or_generation]. rewrite Hg. cbn [or_operation or_source_tier or_destination_tier or_backend
      or_outcome or_fallback or_failure_class or_recovery_state].
    assert (Ho : spaceless (text_of (Operation_name op)) = true) by (by destruct op).
    assert (Hs : forall t : option TierId,
      spaceless (debug_option_text (option_map (fun t => text_of (TierId_display t)) t)) = true)
      by (by intros [[]|]).
    assert (Hb : spaceless (debug_option_text (option_map (fun b => text_of (BackendKind_display b)) b)) = true)
      by (by destruct b as [[]|]).
    assert (Hout : spaceless (text_of (Outcome_name out)) = true) by (by destruct out).
    assert (Hfb : spaceless (bool_display fb) = true) by (by destruct fb).
    assert (Hf : spaceless (debug_option_error fail) = true) by (by destruct fail as [[]|]).
    assert (Hr : spaceless (debug_option_text (option_map (fun s => text_of (cs_name s)) rec)) = true)
      by (by destruct rec as [[]|]).
    by rewrite Ho, !Hs, Hb, Hout, Hfb, Hf, Hr. }
  apply Forall_forall. intros f Hin. apply spaceless_spec.
  by apply (proj1 (forallb_forall _ _) H), list_elem_of_In.
Qed.

(** A log line splits at its spaces into its labelled fields. *)
Lemma record_display_split r : split_text SPACE (OperationRecord_display r) = map labelled (record_fields r).
Proof. apply split_join; [done|]. apply Forall_map, record_fields_spaceless. Qed.

(** Fields as they are when the code builds a record: at their width. *)
Definition record_in_range (r : OperationRecord) : Prop :=
  u64 (kid_digest (or_key r)) /\ 0 <= kid_len (or_key r) /\ 0 <= or_latency r /\
  match or_generation r with Some g => 0 <= g | None => True end.

Lemma KeyIdentity_display_inj k1 k2 :
  u64 (kid_digest k1) -> u64 (kid_digest k2) -> 0 <= kid_len k1 -> 0 <= kid_len k2 ->
  KeyIdentity_display k1 = KeyIdentity_display k2 -> k1 = k2.
Proof.
  destruct k1 as [d1 l1], k2 as [d2 l2]. unfold KeyIdentity_display. cbn [kid_digest kid_len].
  intros H1 H2 Hl1 Hl2 Heq. apply app_inv_head in Heq.
  apply app_inj_1 in Heq as [Hd Hl]; [|by rewrite !length_hex].
  apply app_inv_head, decimal_inj in Hl; [|done..]. subst l2.
  by apply hex_fixed_inj in Hd as ->.
Qed.

Lemma debug_option_text_inj o1 o2 : debug_option_text o1 = debug_option_text o2 -> o1 = o2.
Proof.
  destruct o1 as [s1|], o2 as [s2|]; [|done..]. intros Heq. apply app_inv_head in Heq.
  injection Heq as Heq. by apply app_inv_tail in Heq as ->.
Qed.

Lemma debug_option_error_inj o1 o2 : debug_option_error o1 = debug_option_error o2 -> o1 = o2.
Proof.
  destruct o1 as [e1|], o2 as [e2|]; [|done..]. intros Heq. apply app_inv_head, app_inv_tail, text_of_inj in Heq.
  by destruct e1, e2.
Qed.

Lemma option_name_inj {A} (f : A -> string) (o1 o2 : option A) :
  Inj (=) (=) f ->
  debug_option_text (option_map (fun a => text_of (f a)) o1) =
  debug_option_text (option_map (fun a => text_of (f a)) o2) -> o1 = o2.
Proof.
  intros Hf Heq%debug_option_text_inj. destruct o1 as [a1|], o2 as [a2|]; [|done..].
  injection Heq as Heq%text_of_inj. by apply Hf in Heq as ->.
Qed.

#[export] Instance TierId_display_inj : Inj (=) (=) TierId_display.
Proof. by intros [] []. Qed.
#[export] Instance cs_name_inj : Inj (=) (=) cs_name.
Proof. by intros [] []. Qed.
#[export] Instance BackendKind_display_inj : Inj (=) (=) BackendKind_display.
Proof. by intros [] []. Qed.
#[export] Instance os_name_inj : Inj (=) (=) os_name.
Proof. by intros [] []. Qed.
#[export] Instance dc_name_inj : Inj (=) (=) dc_name.
Proof. by intros [] []. Qed.
#[export] Instance Operation_name_inj : Inj (=) (=) Operation_name.
Proof. by intros [] []. Qed.
#[export] Instance Outcome_name_inj : Inj (=) (=) Outcome_name.
Proof. by intros [] []. Qed.

Lemma labelled_inj l v1 v2 : labelled (l, v1) = labelled (l, v2) -> v1 = v2.
Proof. unfold labelled. cbn [fst snd]. by intros ?%app_inv_head%app_inv_head. Qed.

(** Fields under the same labels: the values are the same. *)
Lemma labelled_values l1 l2 :
  map fst l1 = map fst l2 -> map labelled l1 = map labelled l2 -> map snd l1 = map snd l2.
Proof.
  revert l2. induction l1 as [|[a v1] l1 IH]; intros [|[b v2] l2]; cbn; [done..|].
  intros Ha Heq. injection Ha as -> Ha. f_equal.
  - eapply labelled_inj. exact (f_equal (fun l => default [] (head l)) Heq).
  - apply IH; [done|]. exact (f_equal (@tail text) Heq).
Qed.

Lemma cons_inv {A} (x y : A) l k : x :: l = y :: k -> x = y /\ l = k.
Proof. by intros [= -> ->]. Qed.

Lemma generation_inj g1 g2 :
  match g1 with Some g => 0 <= g | None => True end -> match g2 with Some g => 0 <= g | None => True end ->
  match g1 with Some g => Generation_display g | None => text_of "-" end =
  match g2 with Some g => Generation_display g | None => text_of "-" end -> g1 = g2.
Proof.
  assert (Hdash : forall g, decimal g <> text_of "-").
  { intros g Heq. pose proof (decimal_digits g) as Hd. rewrite Heq in Hd.
    apply Forall_inv in Hd. destruct Hd as [Hd _]. by vm_compute in Hd. }
  destruct g1 as [g1|], g2 as [g2|]; [|by intros _ _ ?%Hdash|by intros _ _ ?%eq_sym%Hdash|done].
  intros H1 H2 Heq. by apply decimal_inj in Heq as ->.
Qed.

(** What a log line can say: the latency in whole microseconds. *)
Definition to_microseconds (r : OperationRecord) : OperationRecord :=
  mkRecord (or_operation r) (or_key r) (or_source_tier r) (or_destination_tier r) (or_backend r)
    (or_generation r) (or_latency r / 1000) (or_outcome r) (or_fallback r) (or_failure_class r)
    (or_recovery_state r).

(** C28. A log line determines its record. Splitting the line at its spaces gives
    back the eleven labelled fields, and two records -- their numbers at the
    widths the code gives them -- are printed alike only if they agree in the
    operation, the key's identity, both rungs, the backend, the generation,
    the outcome, the fallback flag, the error and the continuity state, and in
    the latency up to the microsecond. *)
Theorem log_line_determines_the_record (r1 r2 : OperationRecord)
    (H1 : record_in_range r1) (H2 : record_in_range r2) :
  split_text SPACE (OperationRecord_display r1) = map labelled (record_fields r1) /\
  (OperationRecord_display r1 = OperationRecord_display r2 <-> to_microseconds r1 = to_microseconds r2).
Proof.
  split; [apply record_display_split|]. split.
  - intros Heq. apply (f_equal (split_text SPACE)) in Heq. rewrite !record_display_split in Heq.
    destruct r1 as [op1 k1 s1 d1 b1 g1 l1 o1 f1 e1 c1], r2 as [op2 k2 s2 d2 b2 g2 l2 o2 f2 e2 c2].
    destruct H1 as (Hk1 & Hn1 & Hl1 & Hg1), H2 as (Hk2 & Hn2 & Hl2 & Hg2).
    apply labelled_values in Heq; [|done]. unfold record_fields in Heq. cbn [map snd or_operation or_key or_source_tier or_destination_tier or_backend
      or_generation or_latency or_outcome or_fallback or_failure_class or_recovery_state] in *.
    apply cons_inv in Heq as [Hop [Hk [Hs [Hd [Hb [Hg [Hl [Ho [Hf [He [Hc _]%cons_inv]%cons_inv]%cons_inv
      ]%cons_inv]%cons_inv]%cons_inv]%cons_inv]%cons_inv]%cons_inv]%cons_inv].
    unfold to_microseconds. cbn. f_equal.
    + by apply text_of_inj, (inj _) in Hop.
    + by apply KeyIdentity_display_inj in Hk.
    + by apply (option_name_inj TierId_display) in Hs; [|apply _].
    + by apply (option_name_inj TierId_display) in Hd; [|apply _].
    + by apply (option_name_inj BackendKind_display) in Hb; [|apply _].
    + by apply generation_inj in Hg.
    + by apply decimal_inj in Hl; [|apply Z.div_pos; lia..].
    + by apply text_of_inj, (inj _) in Ho.
    + by destruct f1, f2.
    + by apply debug_option_error_inj in He.
    + by apply (option_name_inj cs_name) in Hc; [|apply _].
  - intros Heq. unfold OperationRecord_display. do 2 f_equal.
    destruct r1 as [op1 k1 s1 d1 b1 g1 l1 o1 f1 e1 c1], r2 as [op2 k2 s2 d2 b2 g2 l2 o2 f2 e2 c2].
    unfold to_microseconds in Heq. cbn in Heq. injection Heq as -> -> -> -> -> -> Hl -> -> -> ->.
    unfold record_fields. cbn [or_latency]. by rewrite Hl.
Qed.

(** ** Summaries *)

(** The flags the crate defines, as a number below [2 ^ 7]. *)
Lemma CapabilityFlags_display_inj f1 f2 :
  0 <= f1 < 128 -> 0 <= f2 < 128 -> CapabilityFlags_display f1 = CapabilityFlags_display f2 -> f1 = f2.
Proof.
  assert (Hdup : NoDup (map (fun n => CapabilityFlags_display (Z.of_nat n)) (seq 0 128)))
    by (refine (@bool_decide_unpack _ _ _); vm_compute; exact Logic.I).
  intros H1 H2 Heq.
  assert (Hlook : forall f, 0 <= f < 128 ->
    map (fun n => CapabilityFlags_display (Z.of_nat n)) (seq 0 128) !! Z.to_nat f =
      Some (CapabilityFlags_display f)).
  { intros f Hf. rewrite list_lookup_fmap, lookup_seq_lt by lia. cbn. by rewrite Z2Nat.id by lia. }
  pose proof (NoDup_lookup _ _ _ _ Hdup (Hlook f1 H1) (eq_trans (Hlook f2 H2) (f_equal Some (eq_sym Heq)))).
  lia.
Qed.

(** What precedes the first occurrence of a character, and what follows it. *)
Lemma separated_inj c a1 b1 a2 b2 :
  has_char c a1 = false -> has_char c a2 = false -> a1 ++ c :: b1 = a2 ++ c :: b2 -> a1 = a2 /\ b1 = b2.
Proof.
  intros H1 H2 Heq. apply (f_equal (split_once c)) in Heq.
  rewrite !split_once_sep in Heq; [by injection Heq|..]; intros Hin%has_char_spec; congruence.
Qed.

Lemma flags_lack_bracket f : 0 <= f < 128 -> has_char 93 (CapabilityFlags_display f) = false.
Proof.
  intros Hf.
  assert (H : forallb (fun n => negb (has_char 93 (CapabilityFlags_display (Z.of_nat n)))) (seq 0 128) = true)
    by (vm_compute; reflexivity).
  rewrite forallb_forall in H. specialize (H (Z.to_nat f)). rewrite in_seq, Z2Nat.id in H by lia.
  apply negb_true_iff, H. lia.
Qed.

(** The one line of a capability says all there is to it. *)
Lemma TierCapability_summary_inj c1 c2 :
  0 <= cap_flags c1 < 128 -> 0 <= cap_flags c2 < 128 ->
  TierCapability_summary c1 = TierCapability_summary c2 -> c1 = c2.
Proof.
  destruct c1 as [b1 f1 s1 d1], c2 as [b2 f2 s2 d2]. cbn [cap_flags]. intros H1 H2 Heq.
  unfold TierCapability_summary in Heq. cbn [cap_backend cap_flags cap_state cap_durability] in Heq.
  apply separated_inj in Heq as [Hb Heq]; [|by destruct b1|by destruct b2].
  apply separated_inj in Heq as [Hf Heq]; [|by apply flags_lack_bracket..].
  apply (app_inv_head (text_of " state=")) in Heq.
  apply separated_inj in Heq as [Hs Heq]; [|by destruct s1|by destruct s2].
  apply (app_inv_head (text_of "durability=")) in Heq.
  apply text_of_inj, (inj _) in Hb, Hs, Heq. apply CapabilityFlags_display_inj in Hf; [|done..].
  by subst.
Qed.

(** So does the line of a report, one word a rung. *)
Lemma ContinuityReport_summary_inj r1 r2 :
  ContinuityReport_summary r1 = ContinuityReport_summary r2 -> r1 = r2.
Proof.
  assert (Hword : forall x : TierId * ContinuityState,
    SPACE ∉ text_of (TierId_display x.1) ++ text_of "=" ++ text_of (cs_name x.2) /\
    text_of (TierId_display x.1) ++ text_of "=" ++ text_of (cs_name x.2) <> []).
  { intros [t s]. split; [|by destruct t]. apply spaceless_spec. by destruct t, s. }
  set (word := fun x : TierId * ContinuityState =>
    text_of (TierId_display x.1) ++ text_of "=" ++ text_of (cs_name x.2)) in *.
  assert (Hsum : forall r, ContinuityReport_summary r = join (text_of " ") (map word r)).
  { intros r. unfold ContinuityReport_summary. f_equal. apply map_ext. by intros [t s]. }
  assert (Hsplit : forall x r, split_text SPACE (ContinuityReport_summary (x :: r)) = map word (x :: r)).
  { intros x r. rewrite Hsum. apply split_join; [done|]. apply Forall_map, Forall_true. intros y. apply Hword. }
  assert (Hinj : Inj (=) (=) word).
  { intros [t1 s1] [t2 s2] Heq. unfold word in Heq. cbn [fst snd] in Heq.
    apply separated_inj in Heq as [Ht Hs]; [|by destruct t1|by destruct t2].
    apply text_of_inj, (inj _) in Ht, Hs. by subst. }
  assert (Hne : forall x r, ContinuityReport_summary (x :: r) <> []).
  { intros x r Hnil. pose proof (Hsplit x r) as Hs. rewrite Hnil in Hs. cbn in Hs. injection Hs as Hx _.
    by destruct (Hword x) as [_ []]. }
  destruct r1 as [|x1 r1], r2 as [|x2 r2]; intros Heq; [done| | |].
  - by destruct (Hne x2 r2).
  - by destruct (Hne x1 r1).
  - apply (f_equal (split_text SPACE)) in Heq. rewrite !Hsplit in Heq. by apply (inj (map word)) in Heq.
Qed.

(** ** Examples *)

Definition sample_record : OperationRecord :=
  with_recovery_state CsRecovering (with_fallback true (with_generation 7 (with_backend Redis
    (with_source L3 (record_finish 2500 1000 OutServed (record_begin TGet [107%Z])))))).

(** With [!] for the quotation mark. *)
Example sample_line :
  OperationRecord_display sample_record =
  map (fun c => if c =? 33 then 34 else c) (text_of
    "op=get key=kaf63e64c8601fd8a/1 src=Some(!L3!) dst=None backend=Some(!redis!) gen=7 latency_us=1 outcome=served fallback=true failure=None recovery=Some(!recovering!)").
Proof. vm_compute. reflexivity. Qed.

(** Three records: half a microsecond is lost, a generation is not. *)
Lemma log_line_determines_the_record_witness :
  let shorter := record_finish 1750 750 OutServed (record_begin TGet [107]) in
  let longer := record_finish 2500 1000 OutServed (record_begin TGet [107]) in
  OperationRecord_display shorter = OperationRecord_display longer /\
  OperationRecord_display longer <> OperationRecord_display (with_generation 7 longer).
Proof.
  intros shorter longer.
  assert (Hrange : forall r, or_key r = KeyIdentity_of [107] -> 0 <= or_latency r ->
    (or_generation r = None \/ or_generation r = Some 7) -> record_in_range r).
  { intros r Hk Hl Hg. unfold record_in_range. rewrite Hk.
    split; [vm_compute; split; [discriminate|reflexivity]|]. split; [vm_compute; discriminate|].
    split; [done|]. destruct Hg as [-> | ->]; [done|lia]. }
  assert (Hs : record_in_range shorter) by (apply Hrange; [done|vm_compute; discriminate|by left]).
  assert (Hl : record_in_range longer) by (apply Hrange; [done|vm_compute; discriminate|by left]).
  assert (Hg : record_in_range (with_generation 7 longer))
    by (apply Hrange; [done|vm_compute; discriminate|by right]).
  split.
  - apply (log_line_determines_the_record shorter longer Hs Hl). vm_compute. reflexivity.
  - intros Heq. apply (log_line_determines_the_record longer _ Hl Hg) in Heq. vm_compute in Heq. discriminate Heq.
Defined.
