(* ===== verification/Testkit.v ===== *)
(** * The test harness' contexts, keys and ladders

    Models the builders of [testkit/src/lib.rs]: who calls, under which bytes
    the manager addresses a key, and what is bound where. A [CacheManager] of
    the harness is the pair of its fixed parts and the world it starts in. *)

From Stdlib Require Import String.
From S2P Require Import Prelude Entry Integrity Key Tier Capability Continuity Policy TierTrait.
From S2P Require Import Telemetry Pool FixedTier ShardedTier Stubs Text Fault Harness.
From S2P Require Import ControlEntry Shard Cachelito Prog Manager.

(** ** Contexts *)

Definition ctx_for_tenant (tenant : text) : CacheContext :=
  CacheContext_new (mkIdentity (text_of "test-principal") [text_of "tester"] tenant).

Definition test_ctx : CacheContext := ctx_for_tenant (text_of "test-tenant").

Definition anon_ctx : CacheContext := CacheContext_anonymous.

(** ** Framed keys *)

Definition try_framed_key (ctx : CacheContext) (key : bytes) : option bytes :=
  let buf := replicate MAX_KEY_SIZE 0%Z in
  if (length buf <? length key)%nat then None
  else
    match frame_tenant_key (tenant (identity ctx)) key buf with
    | (Ok n, buf) => Some (take (Z.to_nat n) buf)
    | (Err _, _) => None
    end.

(** [expect]: [None] is a panic. *)
Definition framed_key (ctx : CacheContext) (key : bytes) : option bytes := try_framed_key ctx key.

Definition address_via_manager_fingerprint (key : bytes) : KeyAddress := KeyAddress_of key PlaceDefault.

(** ** Ladders *)

Section ladders.
Context {V : Type} `{IntegrityCheck V} `{DefaultHasher}.

(** [Arc<dyn CacheTier<V>>] over the six stubs. *)
Abbreviation StubRung :=
  (L0Stub V + (L1Stub V + (L2Stub V + (L3Stub V + (L4Stub V + L5Stub V)))))%type.

(** [L0Stub::new()] and its siblings: the default table each; [None] is the
    panic of a failed allocation. *)
Definition default_tiers : option (list StubRung) :=
  match sh_with_shards (V := V) DEFAULT_SHARDS DEFAULT_CAPACITY_PER_SHARD with
  | Ok t => Some [inl (mkL0 t); inr (inl (mkL1 t)); inr (inr (inl (mkL2 t)));
                  inr (inr (inr (inl (mkL3 t)))); inr (inr (inr (inr (inl (mkL4 t)))));
                  inr (inr (inr (inr (inr (mkL5 t)))))]
  | Err _ => None
  end.
End ladders.

Section builders.
Context {T : Type}.

(** [tiers[slot] = build()]: out of range is a panic. *)
Definition ladder_with (default_ladder : list T) (slot : nat) (built : T) : option (list T) :=
  if (slot <? length default_ladder)%nat then Some (<[slot := built]> default_ladder) else None.

(** The manager of the harness: the pool of 1024 slots must allocate. *)
Definition manager_from_parts (cachelito : Cachelito) (tiers : list T) (timeout : Duration) :
    option (CacheManager DefaultPolicy * World T) :=
  match MemoryPool_new (V := bytes) 1024 with
  | Ok _ => Some (CacheManager_with_timeout mkDefaultPolicy timeout,
                  mkWorld cachelito TierRegistry_new tiers 0 [])
  | Err _ => None
  end.

Definition manager_from_tiers (tiers : list T) (timeout : Duration) :
    option (CacheManager DefaultPolicy * World T) :=
  manager_from_parts Cachelito_new tiers timeout.

(** The handles a caller keeps beside the rungs are the tallies inside them. *)
Definition record_all (tiers : list T) : list (RecordingTier T) * list Tally :=
  let wrapped := map recording_wrap tiers in (wrapped, map rt_tally wrapped).

(** Likewise the ledger. *)
Definition faulty {V} (inner : T) (plan : FaultPlan) : @FaultyTier V T * FaultLedger :=
  let tier := faulty_with_plan inner plan in (tier, fy_ledger tier).

Definition faulty_corrupting {V} (inner : T) (plan : FaultPlan) (corruptor : V -> V) :
    @FaultyTier V T * FaultLedger :=
  let tier := faulty_with_corruptor inner plan corruptor in (tier, fy_ledger tier).
End builders.

Section default_manager.
Context {V : Type} `{IntegrityCheck V} `{DefaultHasher}.

Definition make_manager_with_timeout (timeout : Duration) :=
  match default_tiers (V := V) with
  | Some tiers => manager_from_tiers tiers timeout
  | None => None
  end.

Definition make_manager := make_manager_with_timeout 5000000000%Z.

(** The default manager starts: six rungs, each under the tier its slot
    stands for, the authority's slot left unbound. *)
Lemma make_manager_binds_the_cache_ladder :
  exists m w, make_manager = Some (m, w) /\ map tier_id (w_tiers w) = [L0; L1; L2; L3; L4; L5] /\
    w_ctl w = Cachelito_new /\ w_reg w = TierRegistry_new.
Proof.
  unfold make_manager, make_manager_with_timeout, default_tiers.
  destruct (sh_with_shards DEFAULT_SHARDS DEFAULT_CAPACITY_PER_SHARD) as [t|e] eqn:Ht; [|by vm_compute in Ht].
  by eexists _, _.
Qed.
End default_manager.

(** ** Which keys have an address *)

(** Framing is decided by the tenant and the two lengths, whatever the buffer holds. *)
Lemma frame_tenant_key_decided (t k buf : bytes) (n : nat) :
  length buf = n -> (Z.of_nat n < W64)%Z ->
  (TENANT_SEPARATOR ∉ t -> length t + 1 + length k <= n ->
   exists buf', frame_tenant_key t k buf = (Ok (Z.of_nat (length t + 1 + length k)), buf') /\
     take (length t + 1 + length k) buf' = t ++ TENANT_SEPARATOR :: k) /\
  (TENANT_SEPARATOR ∈ t \/ n < length t + 1 + length k ->
   frame_tenant_key t k buf = (Err ConfigurationError, buf)).
Proof.
  intros Hlen Hn. split.
  - intros Ht Hfit. destruct (frame_tenant_key t k buf) as [[m|e] buf'] eqn:Hf.
    + apply frame_tenant_key_inv in Hf as (_ & -> & _ & Hb). rewrite Nat2Z.id in Hb. by exists buf'.
    + apply contains_byte_false in Ht. revert Hf. unfold frame_tenant_key, checked_add. rewrite Ht.
      repeat case_match; bool_to_prop; simplify_eq; try lia; done.
  - intros Hor. unfold frame_tenant_key, checked_add.
    destruct (contains_byte _ t) eqn:Hsep; [done|]. apply contains_byte_false in Hsep.
    destruct Hor as [|Hor]; [done|]. repeat case_match; bool_to_prop; simplify_eq; try lia; done.
Qed.

(** The keys of a tenant that a buffer of [n] bytes can address. *)
Definition addressable (n : nat) (t k : bytes) : Prop :=
  TENANT_SEPARATOR ∉ t /\ length t + 1 + length k <= n.

#[export] Instance addressable_dec n t k : Decision (addressable n t k).
Proof. unfold addressable. apply _. Defined.

Lemma not_addressable n t k :
  ~ addressable n t k -> TENANT_SEPARATOR ∈ t \/ n < length t + 1 + length k.
Proof.
  unfold addressable. intros H. destruct (decide (TENANT_SEPARATOR ∈ t)) as [|Ht]; [by left|].
  right. destruct (decide (n < length t + 1 + length k)); [done|]. destruct H. split; [done|lia].
Qed.

(** C34. Which keys have an address, exactly: the manager addresses a key as
    the tenant's bytes, the separator and the key when the tenant does not
    hold the separator and the frame has at most 256 bytes, and answers
    [ConfigurationError] otherwise; the harness' [try_framed_key] gives the
    same bytes, but up to 512 of them. So a key whose frame has between 257
    and 512 bytes is framed by the harness and refused by the manager. *)
Theorem addresses_are_bounded (ctx : CacheContext) (key : bytes) :
  encode_key key ctx =
    (if decide (addressable 256 (tenant (identity ctx)) key)
     then Ok (tenant (identity ctx) ++ TENANT_SEPARATOR :: key) else Err ConfigurationError) /\
  try_framed_key ctx key =
    (if decide (addressable 512 (tenant (identity ctx)) key)
     then Some (tenant (identity ctx) ++ TENANT_SEPARATOR :: key) else None).
Proof.
  set (t := tenant (identity ctx)). split.
  - unfold encode_key. cbn [encode Key_bytes]. unfold encode_bytes_key.
    destruct (frame_tenant_key_decided t key (replicate MANAGER_KEY_SIZE 0%Z) 256
                (length_replicate _ _) eq_refl) as [Hok Herr].
    rewrite length_replicate. destruct (_ <? length key) eqn:Hlong.
    { apply Nat.ltb_lt in Hlong. change MANAGER_KEY_SIZE with 256 in Hlong. case_decide as Ha; [|done]. destruct Ha. lia. }
    rewrite copy_at_0, Nat2Z.id, take_app_length. fold t. case_decide as Ha.
    + destruct Ha as [Ht Hfit]. destruct (Hok Ht Hfit) as (b & -> & Hb). by rewrite Nat2Z.id, Hb.
    + by rewrite (Herr (not_addressable _ _ _ Ha)).
  - unfold try_framed_key. fold t.
    destruct (frame_tenant_key_decided t key (replicate MAX_KEY_SIZE 0%Z) 512
                (length_replicate _ _) eq_refl) as [Hok Herr].
    rewrite length_replicate. destruct (_ <? length key) eqn:Hlong.
    { apply Nat.ltb_lt in Hlong. change MAX_KEY_SIZE with 512 in Hlong. case_decide as Ha; [|done]. destruct Ha. lia. }
    case_decide as Ha.
    + destruct Ha as [Ht Hfit]. destruct (Hok Ht Hfit) as (b & -> & Hb). by rewrite Nat2Z.id, Hb.
    + by rewrite (Herr (not_addressable _ _ _ Ha)).
Qed.

(** A key of 300 bytes: the harness frames it, the manager refuses it. *)
Example key_between_the_budgets :
  is_Some (try_framed_key test_ctx (replicate 300 1%Z)) /\
  encode_key (replicate 300 1%Z) test_ctx = Err ConfigurationError.
Proof. split; [eexists; by vm_compute|by vm_compute]. Qed.
