(* ===== verification/Fuzz.v ===== *)
(** * The fuzz targets

    Models every target of [fuzz/fuzz_targets/*.rs]. A target is given the
    fuzzer's bytes; it fails by a failed assertion or another panic. The
    targets that run the control plane or a manager are programs, so their
    clock is whatever the environment says and a call on a tier may time out.
    For each target: no input makes it fail. *)

From Stdlib Require Import String.
From S2P Require Import Prelude Entry Integrity Key Tier Capability Continuity Policy TierTrait Telemetry.
From S2P Require Import Pool FixedTier ShardedTier Stubs Codec Utf8 Text Display Fault Harness.
From S2P Require Import ControlEntry Shard Cachelito Plane Protocol Commit Prog Manager Steps Guarantee.
From S2P Require Import ReadYourWrite Autonomy Walk Routing Testkit.
Local Open Scope Z_scope.

(** [data.first().copied().unwrap_or(0)] and its like. *)
Definition byte_or_zero (i : nat) (data : bytes) : Z := default 0 (data !! i).

(** [format!("k{}", n)] *)
Definition fuzz_key (n : Z) : bytes := 107 :: decimal n.

(** ** Targets that call functions *)

(** [keys.rs] *)
Definition fuzz_keys (data : bytes) : bool :=
  let split := match data with [] => O | b :: _ => Z.to_nat (b mod Z.of_nat (Nat.max (length data) 1)) end in
  let split := Nat.min split (length data) in
  let tenant := from_utf8_lossy (take split data) in
  let key := drop split data in
  match frame_tenant_key tenant key (replicate 512 0) with
  | (Ok n, buf) =>
      let framed := take (Z.to_nat n) buf in
      match list_find (fun b => b = TENANT_SEPARATOR) framed with
      | Some (i, _) =>
          bool_decide (from_utf8_lossy (take i framed) = tenant) && bool_decide (drop (S i) framed = key)
      | None => true
      end
  | (Err _, _) => true
  end.

(** [serialized_payloads.rs] *)
Definition fuzz_serialized_payloads (data : bytes) : bool :=
  let a := ContentDigest_of_bytes data in
  let b := ContentDigest_of_bytes data in
  let f := KeyFingerprint_of data in
  (a =? b) && (f =? KeyFingerprint_of data)
  && (if (4 <=? length data)%nat then
        let split := (length data / 2)%nat in
        let '(t1, k1) := (take split data, drop split data) in
        let '(t2, k2) := (take (length data - split) data, drop (length data - split) data) in
        if negb (bool_decide (t1 = t2)) || negb (bool_decide (k1 = k2)) then
          match frame_tenant_key (from_utf8_lossy t1) k1 (replicate 1024 0),
                frame_tenant_key (from_utf8_lossy t2) k2 (replicate 1024 0) with
          | (Ok a, buf1), (Ok b, buf2) =>
              negb (bool_decide (take (Z.to_nat a) buf1 = take (Z.to_nat b) buf2))
          | _, _ => true
          end
        else true
      else true)
  && match frame_tenant_key (text_of "t") data (replicate 2048 0) with
     | (Ok n, _) => n =? Z.of_nat (length data) + 2
     | (Err _, _) => true
     end.

(** [capabilities.rs]: [bits] is a [u16]. *)
Definition fuzz_flags (bits : Z) : Z :=
  fold_left (fun flags known => if negb (Z.land bits known =? 0) then flags_union flags known else flags)
    CapabilityFlags_ALL EMPTY.

Definition fuzz_state (bits : Z) : OperationalState :=
  if bits mod 3 =? 0 then OsUnbound else if bits mod 3 =? 1 then OsHealthy else OsDegraded.

Definition fuzz_durability (bits : Z) : DurabilityClass :=
  if bits mod 3 =? 0 then DcVolatile else if bits mod 3 =? 1 then DcDelegated else DcVerified.

Definition fuzz_capabilities (bits : Z) : bool :=
  let flags := fuzz_flags bits in
  let state := fuzz_state bits in
  let durability := fuzz_durability bits in
  let cap := mkCapability InMemory flags state durability in
  Bool.eqb (is_bound cap) (negb (bool_decide (state = OsUnbound)))
  && Bool.eqb (is_authoritative cap) (flags_contains flags AUTHORITATIVE)
  && Bool.eqb (cap_survives_restart cap)
       (match durability with DcDelegated | DcVerified => true | _ => false end)
  && (if negb (is_bound cap) && is_authoritative cap
      then contains_text (text_of "authoritative") (TierCapability_summary cap) else true)
  && forallb (fun f => flags_contains (cap_flags cap) f) (flags_iter flags).

(** [payloads.rs]; the clock as each call reads it. *)
Definition fuzz_payloads (t_set t_get t_damage t_reread : Instant) (data : bytes) : bool :=
  let key := text_of "payload" in
  match ft_with_capacity (V := bytes) 4 with
  | Err _ => false
  | Ok stub =>
      match ft_set t_set key data None stub with
      | (Err _, _) => false
      | (Ok _, stub) =>
          match ft_get t_get key stub with
          | (Err _, _) => false
          | (Ok got, stub) =>
              bool_decide (got = Some data)
              && match rev data with
                 | [] => true
                 | last :: init =>
                     let damaged := rev (Z.lxor last 0xFF :: init) in
                     if bool_decide (damaged = data) then true
                     else
                       match ft_corrupt t_damage key damaged stub with
                       | (Err _, _) => false
                       | (Ok _, stub) =>
                           match fst (ft_get t_reread key stub) with Err Corrupted => true | _ => false end
                       end
                 end
          end
      end
  end.

(** [configuration.rs] *)
Fixpoint fuzz_shards (now : Instant) (ks : list nat) (cachelito : Cachelito) : bool :=
  match ks with
  | [] => true
  | i :: ks =>
      let key := fuzz_key (Z.of_nat i) in
      is_ok (peek now key cachelito)
      && let '(bumped, cachelito) := bump_generation key cachelito in
         is_ok bumped && fuzz_shards now ks cachelito
  end.

Definition fuzz_configuration (now : Instant) (data : bytes) : bool :=
  match data with
  | [] => true
  | first :: _ =>
      let capacity := Z.to_nat (first mod 64) in
      (is_ok (ft_with_capacity (V := bytes) capacity) || (capacity =? 0)%nat)
      && (is_ok (MemoryPool_new (V := bytes) capacity) || (capacity =? 0)%nat)
      && fuzz_shards now (seq 0 8) (Cachelito_with_shards (Nat.max capacity 1))
      && (length (reg_tiers TierRegistry_new) =? length TierId_ALL)%nat
  end.

(** ** Targets that run programs *)

(** The plane alone: nothing is bound. *)
Definition plane_world (c : Cachelito) : World unit := mkWorld c TierRegistry_new [] 0 [].

(** One operation of [metadata.rs]. The result of the operation is dropped. *)
Definition fuzz_metadata_op (b : Z) (key : bytes) : prog unit unit :=
  if b mod 6 =? 0 then let! _ := peek_at key in Ret tt
  else if b mod 6 =? 1 then let! _ := ctl (fun now => acquire now key L0) in Ret tt
  else if b mod 6 =? 2 then
    let! r := ctl (fun now => prepare now key None L1 Write) in
    match r with
    | Ok token => let! _ := ctl (fun now => commit now token None) in Ret tt
    | Err _ => Ret tt
    end
  else if b mod 6 =? 3 then
    let! r := ctl (fun now => prepare now key None L2 Move) in
    match r with
    | Ok token => let! _ := ctl (fun _ => abort token Cancelled) in Ret tt
    | Err _ => Ret tt
    end
  else if b mod 6 =? 4 then let! _ := ctl (fun _ => bump_generation key) in Ret tt
  else let! _ := ask (fun now w => stale_intents now 0 (w_ctl w)) in Ret tt.

(** The assertions after it. *)
Definition fuzz_metadata_check (r : res ControlSnapshot) : bool :=
  match r with
  | Err _ => true
  | Ok s =>
      negb (bool_decide (snap_state s = Prepared) && is_readable (snap_state s))
      && match snap_intent s with
         | Some _ => bool_decide (snap_state s = Prepared)
         | None => true
         end
  end.

Fixpoint fuzz_metadata_ops (data : bytes) : prog unit bool :=
  match data with
  | [] => Ret true
  | b :: data =>
      let key := fuzz_key (b mod 8) in
      let! _ := fuzz_metadata_op b key in
      let! r := peek_at key in
      if fuzz_metadata_check r then fuzz_metadata_ops data else Ret false
  end.

(** "Recovery must converge." *)
Fixpoint fuzz_metadata_recovery (data : bytes) : prog unit unit :=
  match data with
  | [] => Ret tt
  | b :: data =>
      let key := fuzz_key (b mod 8) in
      let! r := peek_at key in
      let! _ :=
        match r with
        | Ok s =>
            match snap_intent s with
            | Some i => let! _ := ctl (fun now => resolve_intent now key i (for_kind (ci_kind i))) in Ret tt
            | None => Ret tt
            end
        | Err _ => Ret tt
        end in
      fuzz_metadata_recovery data
  end.

(** [metadata.rs] *)
Definition fuzz_metadata (data : bytes) : prog unit bool :=
  let! ok := fuzz_metadata_ops data in
  if ok : bool then
    let! _ := ask (fun now w => stale_intents now 0 (w_ctl w)) in
    let! _ := fuzz_metadata_recovery data in
    Ret true
  else Ret false.

(** [generation_metadata.rs] *)
Definition fuzz_ordering (raw : Z) : bool :=
  let base := sat_add64 raw 1 in
  let older := base - 1 in
  is_stale older base && negb (is_stale base older) && negb (is_stale base base)
  && negb (is_stale (sat_add64 base 1) base).

Definition fuzz_generation_metadata (data : bytes) : prog unit bool :=
  match data with
  | [] => Ret true
  | raw :: _ =>
      let! prepared := ctl (fun now => prepare now (text_of "k") None L1 Write) in
      match prepared with
      | Err _ => Ret true
      | Ok token =>
          let! committed := ctl (fun now => commit now token None) in
          if negb (is_ok committed) then Ret false
          else
            let stale := mkToken (tok_address token) (sat_add64 raw 1) (tok_kind token)
                           (tok_target_tier token) in
            let! r := ctl (fun now => commit now stale None) in
            match r with
            | Err StaleGeneration => Ret (fuzz_ordering raw)
            | _ => Ret false
            end
      end
  end.

(** [routing.rs]: a prefix of the ladder, and its manager. *)
Section routing.
Context `{DefaultHasher}.

Definition fuzz_rungs (n : nat) : option (list (L0Stub bytes + L1Stub bytes)) :=
  match sh_with_shards (V := bytes) DEFAULT_SHARDS DEFAULT_CAPACITY_PER_SHARD with
  | Err _ => None
  | Ok t =>
      let tiers := replicate n (inl (mkL0 t)) in
      Some (if (1 <? n)%nat then <[1%nat := inr (mkL1 t)]> tiers else tiers)
  end.

Fixpoint fuzz_routing_loop (m : CacheManager DefaultPolicy) (ks : list nat) (data : bytes) :
    prog (L0Stub bytes + L1Stub bytes) bool :=
  match ks with
  | [] => Ret true
  | i :: ks =>
      let key := fuzz_key (byte_or_zero i data mod 8) in
      let! _ := Manager.set m key (text_of "v") test_ctx in
      let! _ := get (V := bytes) m key test_ctx in
      let! _ := promote (V := bytes) m key test_ctx in
      let! _ := demote (V := bytes) m key test_ctx in
      match framed_key test_ctx key with
      | None => Ret false
      | Some framed =>
          let! snap := peek_at framed in
          match snap with
          | Ok s =>
              if is_cache_rung (snap_tier s) && negb (bool_decide (snap_tier s = L6))
              then fuzz_routing_loop m ks data else Ret false
          | Err _ => fuzz_routing_loop m ks data
          end
      end
  end.

Definition fuzz_routing (data : bytes) :
    option (prog (L0Stub bytes + L1Stub bytes) bool * World (L0Stub bytes + L1Stub bytes)) :=
  match fuzz_rungs (Z.to_nat (byte_or_zero 0 data mod 7)) with
  | None => None
  | Some tiers =>
      match manager_from_tiers tiers 60000000 with
      | None => None
      | Some (m, w) =>
          Some (let! ok := fuzz_routing_loop m (seq 0 4) data in
                Ret (ok && (as_usize LAST_CACHE_TIER =? LAST_CACHE_RUNG_INDEX)%nat
                     && forallb (fun t => is_cache_rung t && negb (bool_decide (t = L6))) cache_ladder), w)
      end
  end.
End routing.

(** [backend_responses.rs]: one armed fault behind a manager of one rung. *)
Section backend.
Context `{DefaultHasher}.

Definition FUZZ_DEADLINE : Duration := 80000000.

#[local] Instance faulty_rung : CacheTier bytes (FaultyTier bytes (L0Stub bytes)) :=
  faulty_as_tier FUZZ_DEADLINE.

Definition fuzz_classes : list FaultClass :=
  [FTimeout; FReadFailure; FWriteFailure; FDisconnect; FCapacityExhaustion; FCorruption; FMetadataFailure].

Definition fuzz_class (data : bytes) : FaultClass :=
  nth (Z.to_nat (byte_or_zero 0 data mod Z.of_nat (length fuzz_classes))) fuzz_classes FTimeout.

(** [ledger.fired(class)] *)
Definition fuzz_fired (class : FaultClass) (w : World (FaultyTier bytes (L0Stub bytes))) : Z :=
  match w_tiers w !! 0%nat with Some t => fired (fy_ledger t) class | None => 0 end.

(** The assertions, under [if ledger.fired(class) > 0]. *)
Definition fuzz_response_ok (class : FaultClass) (result : res (option bytes)) : bool :=
  negb (match result with Ok (Some _) => true | _ => false end)
  && (if bool_decide (class = FCorruption)
      then match result with Err Corrupted => true | _ => false end else true).

Definition fuzz_backend_responses (data : bytes) :
    option (prog (FaultyTier bytes (L0Stub bytes)) bool * World (FaultyTier bytes (L0Stub bytes))) :=
  let class := fuzz_class data in
  match sh_with_shards (V := bytes) DEFAULT_SHARDS DEFAULT_CAPACITY_PER_SHARD with
  | Err _ => None
  | Ok t =>
      match manager_from_parts Cachelito_new
              [faulty_with_plan (mkL0 t) (push KGet class FaultPlan_new)] FUZZ_DEADLINE with
      | None => None
      | Some (m, w) =>
          Some (let! result := get (V := bytes) m (fuzz_key (Z.of_nat (length data))) test_ctx in
                let! n := ask (fun _ => fuzz_fired class) in
                Ret (if 0 <? n then fuzz_response_ok class result else true), w)
      end
  end.
End backend.

(** ** No input makes a target fail *)

(** The program ends with every assertion met, however long its steps take and
    whichever of its bounded calls time out. *)
Definition never_fails {T} (p : prog T bool) (w : World T) : Prop :=
  forall clock pc, ~ dropped (T := T) (alone clock pc) 0 -> fst (run (alone clock pc) 0 p w) = Some true.

Lemma yields_never_fails {T} (good : World T -> Prop) (p : prog T bool) w :
  (forall armed w, good w -> good (drop_guards armed w)) ->
  good w -> yields good p (fun b => b = true) -> never_fails p w.
Proof.
  intros Hdrop Hw Hp clock pc Hd. destruct (fst (run (alone clock pc) 0 p w)) as [b|] eqn:Hr.
  - f_equal. destruct (run_yields good Hdrop (alone clock pc) 0 p w _ ltac:(done) Hw Hp) as [_ H]. by apply H.
  - destruct Hd. by eapply run_finishes.
Qed.

(** A program of atomic steps: it never waits, so it cannot be dropped. *)
Fixpoint steps_only {T A} (p : prog T A) : Prop :=
  match p with
  | Ret _ => True
  | Step _ k => forall b, steps_only (k b)
  | _ => False
  end.

Lemma steps_only_bind {T A B} (p : prog T A) (f : A -> prog T B) :
  steps_only p -> (forall a, steps_only (f a)) -> steps_only (bind p f).
Proof. intros Hp Hf. induction p as [a|C g k IH|C armed b op k IH|armed k IH|armed a s k IH]; cbn in *; auto. Qed.

(** Walk through such a program. *)
Ltac steps :=
  repeat match goal with
  | |- forall _, _ => intros ?
  | |- steps_only (bind _ _) => apply steps_only_bind
  | |- steps_only (match ?x with _ => _ end) => destruct x
  | |- steps_only (Ret _) => exact I
  | |- steps_only (atomically _) => intros ?; exact I
  | |- steps_only _ => progress unfold ctl, ask, peek_at
  end.

Lemma steps_never_fail {T} (good : World T -> Prop) (p : prog T bool) w :
  steps_only p -> good w -> yields good p (fun b => b = true) -> never_fails p w.
Proof.
  intros Hs Hw Hp clock pc _. generalize 0%nat as n. revert w Hw Hp.
  induction p as [a|B f k IH|B armed b op k IH|armed k IH|armed a s k IH]; try done; cbn in *;
    intros w Hw Hp n.
  - by subst a.
  - specialize (Hp (clock n) w Hw). destruct (f _ _) as [b w']. destruct Hp as [Hw' Hp]. by apply IH.
Qed.

(** *** Functions *)

Lemma find_separator (t k : bytes) :
  TENANT_SEPARATOR ∉ t ->
  list_find (fun b => b = TENANT_SEPARATOR) (t ++ TENANT_SEPARATOR :: k) = Some (length t, TENANT_SEPARATOR).
Proof.
  intros Ht. apply list_find_Some. split_and!; [by rewrite list_lookup_middle|done|].
  intros j y Hj Hlt -> . apply Ht. rewrite lookup_app_l in Hj by done. by eapply list_elem_of_lookup_2.
Qed.

Lemma fuzz_keys_ok data : fuzz_keys data = true.
Proof.
  unfold fuzz_keys. set (split := Nat.min _ _). set (tenant := from_utf8_lossy (take split data)).
  destruct (frame_tenant_key tenant (drop split data) (replicate 512 0)) as [[n|e] buf] eqn:Hf; [|done].
  apply frame_tenant_key_inv in Hf as (Ht & _ & _ & ->). rewrite find_separator by done.
  rewrite take_app_length. rewrite (from_utf8_lossy_id tenant) by apply from_utf8_lossy_valid.
  assert (Hk : drop (S (length tenant)) (tenant ++ TENANT_SEPARATOR :: drop split data) = drop split data).
  { rewrite cons_middle, app_assoc. apply drop_app_length'. rewrite length_app. cbn. lia. }
  by rewrite Hk, !bool_decide_true.
Qed.

Lemma fuzz_serialized_payloads_ok data : fuzz_serialized_payloads data = true.
Proof.
  unfold fuzz_serialized_payloads. rewrite !Z.eqb_refl. cbn [andb]. apply andb_true_iff. split.
  - destruct (4 <=? length data)%nat eqn:Hlen; [|done]. apply Nat.leb_le in Hlen.
    set (s := (length data / 2)%nat). set (s' := (length data - s)%nat).
    destruct (_ || _) eqn:Hne; [|done].
    destruct (frame_tenant_key _ (drop s data) _) as [[a|e] buf1] eqn:H1; [|done].
    destruct (frame_tenant_key _ (drop s' data) _) as [[b|e] buf2] eqn:H2; [|done].
    apply negb_true_iff, bool_decide_false. intros Heq.
    apply frame_tenant_key_inv in H1 as (Ht1 & _ & _ & H1). apply frame_tenant_key_inv in H2 as (Ht2 & _ & _ & H2).
    rewrite H1, H2 in Heq. apply frame_split_inj in Heq as [_ Hk]; [|done..].
    assert (Hs : s = s').
    { apply (f_equal length) in Hk. rewrite !length_drop in Hk.
      pose proof (Nat.div_lt (length data) 2). subst s s'. lia. }
    rewrite Hs in Hne. by rewrite !bool_decide_true in Hne.
  - destruct (frame_tenant_key _ data _) as [[n|e] buf] eqn:Hf; [|done].
    apply frame_tenant_key_inv in Hf as (_ & -> & _). apply Z.eqb_eq. cbn [length text_of]. lia.
Qed.

(** Seven flags, each set or not. *)
Lemma fuzz_flags_range bits : 0 <= fuzz_flags bits < 128.
Proof.
  unfold fuzz_flags, CapabilityFlags_ALL. cbn [fold_left].
  repeat match goal with |- context [if ?b then _ else _] => destruct b end; by vm_compute.
Qed.

(** An unbound rung that claims authority says so in its summary. *)
Lemma summary_shows_authority flags d :
  0 <= flags < 128 -> flags_contains flags AUTHORITATIVE = true ->
  contains_text (text_of "authoritative") (TierCapability_summary (mkCapability InMemory flags OsUnbound d)) = true.
Proof.
  intros Hf. assert (Hall : Forall (fun flags => Forall (fun d =>
    negb (flags_contains flags AUTHORITATIVE)
    || contains_text (text_of "authoritative") (TierCapability_summary (mkCapability InMemory flags OsUnbound d))
    = true) DurabilityClass_ALL) (seqZ 0 128)) by by_decision.
  rewrite list.Forall_forall in Hall. specialize (Hall flags (small_in_seqZ _ _ Hf)).
  rewrite list.Forall_forall in Hall. specialize (Hall d ltac:(destruct d; by_decision)).
  intros Ha. by rewrite Ha in Hall.
Qed.

Lemma fuzz_capabilities_ok bits : fuzz_capabilities bits = true.
Proof.
  unfold fuzz_capabilities. cbn zeta. rewrite !andb_true_iff. split_and!.
  - by destruct (fuzz_state bits).
  - unfold is_authoritative. cbn. apply eqb_reflx.
  - by destruct (fuzz_durability bits).
  - destruct (negb _ && _) eqn:H; [|done]. apply andb_true_iff in H as [Hb Ha].
    destruct (fuzz_state bits) eqn:Hs; try discriminate Hb.
    apply summary_shows_authority; [apply fuzz_flags_range|exact Ha].
  - apply forallb_forall. intros f Hf. cbn [cap_flags]. unfold flags_iter in Hf.
    by apply filter_In in Hf as [_ Hf].
Qed.

(** A capacity below 64, a plane of as many shards, and eight keys: whatever the
    clock says. *)
Lemma fuzz_configuration_ok now data : fuzz_configuration now data = true.
Proof.
  destruct data as [|first data]; [done|]. unfold fuzz_configuration.
  assert (Hall : forallb (fun c : nat =>
    (is_ok (ft_with_capacity (V := bytes) c) || (c =? 0)%nat)
    && (is_ok (MemoryPool_new (V := bytes) c) || (c =? 0)%nat)
    && fuzz_shards now (seq 0 8) (Cachelito_with_shards (Nat.max c 1))
    && (length (reg_tiers TierRegistry_new) =? length TierId_ALL)%nat) (seq 0 64) = true)
    by (vm_compute; reflexivity).
  rewrite forallb_forall in Hall. apply Hall. apply in_seq.
  pose proof (Z.mod_pos_bound first 64). lia.
Qed.

(** The damaged payload has another digest: one byte differs. *)
Lemma fuzz_damage_digest (init : bytes) last :
  Forall byte (init ++ [last]) ->
  (digest_of (init ++ [Z.lxor last 0xFF]) =? digest_of (init ++ [last])) = false.
Proof.
  intros Hd. apply Forall_app in Hd as [_ Hb]. inversion_clear Hb as [|? ? Hl _].
  apply Z.eqb_neq. intros Heq. unfold digest_of, IntegrityCheck_hash in Heq.
  rewrite !content_digest_lanes in Heq. cbn [hash_writes RustHash_bytes concat] in Heq.
  rewrite !app_nil_r, !length_app in Heq. cbn [length] in Heq.
  rewrite <- !of_bytes_lanes, !app_assoc in Heq.
  unfold byte in Hl. pose proof (lxor_255 last Hl).
  apply of_bytes_one_byte in Heq; unfold byte; (done || lia).
Qed.

(** One write, one read, and, after the damage, one refused read: at any
    instants, the value being whatever it is. *)
Section payload.
Context {V : Type} `{IntegrityCheck V}.

Lemma payload_written (v : V) t_set t_get :
  exists stub, (exists t0, ft_with_capacity 4 = Ok t0 /\ ft_set t_set (text_of "payload") v None t0 = (Ok tt, stub)) /\
  ft_get t_get (text_of "payload") stub = (Ok (Some v), stub) /\
  forall w t_damage t_reread, (digest_of w =? digest_of v) = false ->
    fst (ft_get t_reread (text_of "payload") (snd (ft_corrupt t_damage (text_of "payload") w stub))) = Err Corrupted
    /\ is_ok (fst (ft_corrupt t_damage (text_of "payload") w stub)) = true.
Proof.
  eexists. split_and!; [eexists; split; [reflexivity|vm_compute; reflexivity]| |].
  - unfold ft_get. change (ft_find_slot _ _ _ _) with (Some 1%nat). cbn -[Z.eqb]. by rewrite Z.eqb_refl.
  - intros w t_damage t_reread Hne. unfold ft_corrupt. change (ft_find_slot _ _ _ _) with (Some 1%nat).
    cbn -[Z.eqb ft_get]. split; [|done]. unfold ft_get. change (ft_find_slot _ _ _ _) with (Some 1%nat).
    unfold digest_of in *. cbn -[Z.eqb]. by rewrite Hne.
Qed.
End payload.

Lemma fuzz_payloads_ok t_set t_get t_damage t_reread data :
  Forall byte data -> fuzz_payloads t_set t_get t_damage t_reread data = true.
Proof.
  intros Hd. destruct (payload_written data t_set t_get) as (stub & (t0 & Hnew & Hset) & Hget & Hdamage).
  unfold fuzz_payloads. rewrite Hnew. cbn zeta. rewrite Hset, Hget, bool_decide_true by done. cbn [andb].
  pose proof (rev_involutive data) as Hrev. destruct (rev data) as [|last init]; [done|].
  cbn [rev] in *. rewrite <- Hrev in Hd. case_bool_decide; [done|].
  destruct (Hdamage (rev init ++ [Z.lxor last 0xFF]) t_damage t_reread) as [Hread Hok].
  { rewrite <- Hrev. by apply fuzz_damage_digest. }
  destruct (ft_corrupt _ _ _ _) as [[r|e] stub']; [|discriminate Hok]. cbn [snd] in Hread. by rewrite Hread.
Qed.

(** *** The control plane alone *)

(** "An intent survived on a non-prepared entry": never. *)
Definition intent_prepared (e : ControlEntry) : Prop := is_Some (intent e) -> state e = Prepared.

(** The operations the targets use. Writes through [publish] and [fail] are not
    among them. *)
Definition metadata_op (op : plane_op) : bool :=
  match op with
  | PoAcquire _ _ _ | PoBump _ | PoPrepare _ _ _ _ _ | PoCommit _ _ _ | PoAbort _ _ => true
  | _ => false
  end.

Lemma metadata_step a op e :
  metadata_op op = true -> entry_wf e -> intent_prepared e -> intent_prepared (op_step a op e).
Proof.
  intros Hop Hwf He. destruct op; try discriminate Hop; cbn [op_step]; clear Hop.
  - rewrite acquire_entry_eq by done. destruct (is_claimable (state e)) eqn:Hc; [|done].
    cbn. intros Hi. apply He in Hi. by rewrite Hi in Hc.
  - exact He.
  - unfold prepare_entry. destruct (match g with Some _ => _ | None => _ end); [done|]. intros _. cbn [snd].
    rewrite <- (state_set_state Prepared e). reflexivity.
  - unfold commit_entry. destruct (_ || _); [done|]. cbn [snd]. by destruct (from_index _); intros [? [=]].
  - unfold abort_entry. destruct (negb _); [done|]. by intros [? [=]].
Qed.

Record metadata_world (w : World unit) : Prop := {
  mw_ok : plane_ok (w_ctl w);
  mw_intents : forall a e, view (w_ctl w) a = Some e -> intent_prepared e
}.

Lemma metadata_exec op w :
  metadata_op op = true -> metadata_world w -> metadata_world (set_ctl (plane_exec (w_ctl w) op) w).
Proof.
  intros Hop [Hok Hi]. split; [by apply plane_exec_spec|]. cbn [w_ctl set_ctl].
  apply (exec_entries intent_prepared); [done|by intros a [? [=]]| |done].
  intros a e. by apply metadata_step.
Qed.

Lemma metadata_new : metadata_world (plane_world Cachelito_new).
Proof.
  split; [apply sized_ok|]. intros a e. cbn [w_ctl plane_world].
  by rewrite (new_view DEFAULT_SHARD_COUNT DEFAULT_CAPACITY_PER_SHARD PlaceDefault).
Qed.

Lemma y_metadata_ctl {B} (op : Instant -> Cachelito -> B * Cachelito) po :
  (forall now c, snd (op now c) = plane_exec c (po now)) -> (forall now, metadata_op (po now) = true) ->
  yields metadata_world (ctl op) anything.
Proof.
  intros Hop Hok. apply y_ctl. intros now w Hw. split; [|done]. rewrite Hop. by apply metadata_exec.
Qed.

Lemma y_metadata_peek key : yields metadata_world (peek_at key) (fun r => fuzz_metadata_check r = true).
Proof.
  apply y_ask. intros now w [Hok Hi]. rewrite peek_view by done. unfold fuzz_metadata_check.
  destruct (view (w_ctl w) _) as [e|] eqn:He; [|done]. cbn [peek_entry snapshot_of snap_state snap_intent].
  apply andb_true_iff. split; [by destruct (state e)|].
  destruct (intent e) as [i|] eqn:Hint; [|done]. apply bool_decide_true, (Hi _ _ He). by exists i.
Qed.

Lemma y_metadata_op b key : yields metadata_world (fuzz_metadata_op b key) anything.
Proof.
  unfold fuzz_metadata_op. repeat case_match; try done;
    (apply y_then; [|intros r; try done]).
  all: try (by eapply y_any, y_metadata_peek).
  all: try (by apply y_ask_any).
  - by apply (y_metadata_ctl _ (fun now => PoAcquire now key L0)).
  - by apply (y_metadata_ctl _ (fun now => PoPrepare now key None L1 Write)).
  - destruct r as [token|]; [|done]. apply y_then; [|done].
    by apply (y_metadata_ctl _ (fun now => PoCommit now token None)).
  - by apply (y_metadata_ctl _ (fun now => PoPrepare now key None L2 Move)).
  - destruct r as [token|]; [|done]. apply y_then; [|done].
    by apply (y_metadata_ctl _ (fun _ => PoAbort token Cancelled)).
  - by apply (y_metadata_ctl _ (fun _ => PoBump key)).
Qed.

Lemma y_resolve key i d : yields metadata_world (ctl (fun now => resolve_intent now key i d)) anything.
Proof.
  apply y_ctl. intros now w Hw. split; [|done]. unfold resolve_intent. set (token := mkToken _ _ _ _).
  destruct d.
  - pose proof (metadata_exec (PoAbort token UncommittedIntent) w eq_refl Hw) as H. cbn [plane_exec] in H.
    by destruct (abort _ _ _).
  - pose proof (metadata_exec (PoCommit now token None) w eq_refl Hw) as H. cbn [plane_exec] in H.
    by destruct (commit _ _ _ _).
  - by destruct w.
Qed.

Lemma y_metadata_ops data : yields metadata_world (fuzz_metadata_ops data) (fun b => b = true).
Proof.
  induction data as [|b data IH]; [done|]. cbn [fuzz_metadata_ops]. cbn zeta.
  apply y_then; [apply y_metadata_op|]. intros _.
  eapply yields_bind; [apply y_metadata_peek|]. by intros r ->.
Qed.

Lemma y_metadata_recovery data : yields metadata_world (fuzz_metadata_recovery data) anything.
Proof.
  induction data as [|b data IH]; [done|]. cbn [fuzz_metadata_recovery]. cbn zeta.
  apply y_then; [by eapply y_any, y_metadata_peek|]. intros r.
  apply y_then; [|done]. destruct r as [s|]; [|done]. destruct (snap_intent s); [|done].
  apply y_then; [apply y_resolve|done].
Qed.

Lemma metadata_steps data : steps_only (fuzz_metadata data).
Proof.
  assert (Hops : steps_only (fuzz_metadata_ops data)).
  { induction data as [|b data IH]; [done|]. cbn [fuzz_metadata_ops]. unfold fuzz_metadata_op. cbn zeta. by steps. }
  assert (Hrec : steps_only (fuzz_metadata_recovery data)).
  { clear Hops. induction data as [|b data IH]; [done|]. cbn [fuzz_metadata_recovery]. cbn zeta. by steps. }
  unfold fuzz_metadata. by steps.
Qed.

Lemma fuzz_metadata_ok data : never_fails (fuzz_metadata data) (plane_world Cachelito_new).
Proof.
  apply (steps_never_fail metadata_world); [apply metadata_steps|apply metadata_new|].
  eapply yields_bind; [apply y_metadata_ops|]. intros ? ->. apply y_then; [apply y_ask_any|]. intros _.
  by apply y_then; [apply y_metadata_recovery|].
Qed.

(** A committed entry refuses every further commit, whatever generation the
    token names: its own included. *)
Lemma commit_once now now' key t k c token c1 :
  plane_ok c -> prepare now key None t k c = (Ok token, c1) ->
  fst (commit now' token None c1) = Ok tt /\
  forall now'' g k' t', fst (commit now'' (mkToken (tok_address token) g k' t') None
                        (snd (commit now' token None c1))) = Err StaleGeneration.
Proof.
  intros Hok Hp. destruct (prepared_view _ _ _ _ _ _ _ _ Hok Hp) as (-> & Hok1 & _ & Hv).
  cbn [tok_address]. set (a := address_of c key) in *. set (tok := mkToken a _ k _).
  set (e1 := prepared_entry now t k (entry_at c a)) in *.
  destruct (commit_existing now' tok None c1 e1 Hok1 Hv) as (Hr & Hok2 & Hv2).
  assert (Hacc : fst (commit_entry now' tok None e1) = Ok tt).
  { rewrite commit_entry_accepts. unfold e1. cbn. by rewrite Z.eqb_refl. }
  rewrite <- (commit_entry_accepts now' tok None) in Hr. split; [by rewrite Hr|].
  intros now'' g k' t'. destruct (commit_existing now'' (mkToken a g k' t') None _ _ Hok2 Hv2) as (-> & _).
  destruct (commit_entry_spec now' tok t None e1 eq_refl Hacc) as [-> _].
  by rewrite bool_decide_false, andb_false_r.
Qed.

Lemma fuzz_ordering_ok raw : byte raw -> fuzz_ordering raw = true.
Proof.
  unfold byte. intros Hr. unfold fuzz_ordering, is_stale, sat_add64, U64_MAX.
  rewrite !andb_true_iff, !negb_true_iff, Z.ltb_lt, !Z.ltb_ge. lia.
Qed.

Lemma fuzz_generation_metadata_ok data :
  Forall byte data -> never_fails (fuzz_generation_metadata data) (plane_world Cachelito_new).
Proof.
  intros Hd. destruct data as [|raw data]; [by intros clock pc _|]. inversion_clear Hd as [|? ? Hraw _].
  intros clock pc _. unfold fuzz_generation_metadata, plane_world. generalize (text_of "k") as key. intros key.
  cbn -[Cachelito_new prepare commit fuzz_ordering sat_add64].
  destruct (prepare (clock 0%nat) key None L1 Write Cachelito_new) as [[token|e] c1] eqn:Hp; [|done].
  cbn -[Cachelito_new prepare commit fuzz_ordering sat_add64].
  destruct (commit_once _ (clock 1%nat) _ _ _ _ _ _ (sized_ok _ _) Hp) as [Hc Hstale].
  destruct (commit (clock 1%nat) token None c1) as [r c2] eqn:Hc1. cbn [fst snd] in *. subst r.
  cbn -[Cachelito_new prepare commit fuzz_ordering sat_add64].
  specialize (Hstale (clock 2%nat) (sat_add64 raw 1) (tok_kind token) (tok_target_tier token)).
  destruct (commit (clock 2%nat) _ None c2) as [r c3]. cbn [fst] in Hstale. subst r.
  cbn -[fuzz_ordering].
  by rewrite fuzz_ordering_ok.
Qed.

(** *** A manager over a prefix of the ladder *)

Lemma sharded_default_allocates {V} :
  exists t, sh_with_shards (V := V) DEFAULT_SHARDS DEFAULT_CAPACITY_PER_SHARD = Ok t.
Proof. destruct (sh_with_shards _ _) as [t|e] eqn:Ht; [by exists t|by vm_compute in Ht]. Qed.

(** One digit is framed. *)
Lemma fuzz_key_framed b : is_Some (framed_key test_ctx (fuzz_key (b mod 8))).
Proof.
  assert (Hall : Forall (fun d => is_Some (framed_key test_ctx (fuzz_key d))) (seqZ 0 8)).
  { repeat constructor; eexists; vm_compute; reflexivity. }
  rewrite list.Forall_forall in Hall. apply Hall, elem_of_seqZ.
  pose proof (Z.mod_pos_bound b 8). lia.
Qed.

Section routing_ok.
Context `{DefaultHasher}.
Abbreviation Rungs := (L0Stub bytes + L1Stub bytes)%type.
Context (authority : option Rungs).
Abbreviation good := (routed_world (T := Rungs) authority).
Abbreviation any := (fun (_ _ : bytes) => True).

Lemma y_routing_loop m ks data : yields good (fuzz_routing_loop m ks data) (fun b => b = true).
Proof.
  assert (HK : Keeps bytes Rungs good cache_only any) by by apply Keeps_routed.
  induction ks as [|i ks IH]; [done|]. cbn [fuzz_routing_loop]. cbn zeta.
  set (b := byte_or_zero i data). destruct (fuzz_key_framed b) as [framed Hframed].
  set (key := fuzz_key _) in *. set (kb := census_key key test_ctx).
  assert (Hkey : forall x, encode_key key test_ctx = Ok x -> x = kb) by (intros x; apply census_key_spec).
  apply y_then; [by apply (y_set (V := bytes) _ cache_only any _ _ _ kb)|]. intros _.
  apply y_then; [by eapply y_any, (y_get _ cache_only any _ _ _ kb)|]. intros _.
  apply y_then; [by apply (y_promote _ cache_only any _ _ _ kb)|]. intros _.
  apply y_then; [by apply (y_demote _ cache_only any _ _ _ kb)|]. intros _.
  rewrite Hframed. eapply yields_bind; [by apply (y_peek _ cache_only any)|].
  intros [s|e] Hs; [|exact IH]. specialize (Hs s eq_refl). unfold cache_only in Hs. rewrite Hs.
  rewrite bool_decide_false by (by intros Heq; rewrite Heq in Hs). exact IH.
Qed.
End routing_ok.

Lemma fuzz_routing_ok `{DefaultHasher} data :
  exists p w, fuzz_routing data = Some (p, w) /\ never_fails p w.
Proof.
  unfold fuzz_routing, fuzz_rungs. destruct (sharded_default_allocates (V := bytes)) as [t ->]. cbn zeta.
  unfold manager_from_tiers, manager_from_parts.
  destruct (MemoryPool_new 1024) as [pool|] eqn:Hpool; [|by vm_compute in Hpool].
  eexists _, _. split; [reflexivity|].
  set (w := mkWorld _ _ _ _ _). set (authority := w_tiers w !! as_usize L6).
  assert (HK : Keeps bytes _ (routed_world authority) cache_only (fun (_ _ : bytes) => True)) by by apply Keeps_routed.
  apply (yields_never_fails (routed_world authority)).
  - intros armed w'. apply (drop_guards_good (V := bytes) _ cache_only (fun (_ _ : bytes) => True)).
  - split; [apply sized_ok|apply (new_in_ladder DEFAULT_SHARD_COUNT DEFAULT_CAPACITY_PER_SHARD PlaceDefault)|done].
  - eapply yields_bind; [apply y_routing_loop|]. by intros ? ->.
Qed.

(** *** A manager over one armed fault *)

Section backend_ok.
Context `{DefaultHasher} (class : FaultClass).
#[local] Existing Instance faulty_rung.
Abbreviation Rung := (FaultyTier bytes (L0Stub bytes)).

(** The plane holds no entry, and nothing has fired. *)
Record quiet_world (w : World Rung) : Prop := {
  qw_ok : plane_ok (w_ctl w);
  qw_empty : forall a, view (w_ctl w) a = None;
  qw_fired : fuzz_fired class w = 0
}.

Lemma quiet_emit r : yields quiet_world (emit r) anything.
Proof. apply y_step. by intros now w []. Qed.

(** An operation that creates no entry finds none. *)
Lemma quiet_exec op w :
  op_creates op = false -> quiet_world w -> quiet_world (set_ctl (plane_exec (w_ctl w) op) w).
Proof.
  intros Hop [Hok Hempty Hf]. destruct (plane_exec_spec (w_ctl w) op Hok) as (Hok' & _ & Hv).
  split; [done| |done]. intros a. cbn [w_ctl set_ctl]. rewrite Hv. unfold spec_exec.
  by destruct (decide _); rewrite !Hempty, ?Hop.
Qed.

Lemma quiet_drop armed w : quiet_world w -> quiet_world (drop_guards armed w).
Proof.
  revert w. induction armed as [|g armed IH]; intros w Hw; [done|]. apply (IH (drop_guard g w)).
  destruct g as [key|token]; [by apply (quiet_exec (PoFail key Cancelled))|
                              by apply (quiet_exec (PoAbort token Cancelled))].
Qed.

(** A read finds the key absent and is a miss before any rung is asked. *)
Lemma quiet_get m key :
  yields quiet_world (get (V := bytes) (P := DefaultPolicy) m key test_ctx)
    (fun r => match r with Ok _ => False | Err _ => True end).
Proof.
  assert (Hctl : forall kb rung started o e, yields quiet_world
    (control_only_then (A := option bytes) kb rung started o e) (fun r => match r with Ok _ => False | Err _ => True end)).
  { intros. unfold control_only_then. apply y_then; [apply quiet_emit|]. done. }
  unfold get. apply y_then; [by apply y_ask_any|]. intros started. cbn [bind].
  destruct (encode_key key test_ctx) as [kb|]; [|done]. destruct (check_auth test_ctx); [|apply Hctl]. cbn zeta.
  destruct (authorize _); [|apply Hctl].
  apply (yields_bind _ _ _ (fun r => r = Ok snapshot_absent)); [|intros r ->; apply Hctl].
  apply y_ask. intros now w [Hok Hempty _]. by rewrite peek_view, Hempty.
Qed.
End backend_ok.

Lemma fuzz_backend_responses_ok `{DefaultHasher} data :
  exists p w, fuzz_backend_responses data = Some (p, w) /\ never_fails p w /\
    forall clock pc, fuzz_fired (fuzz_class data) (snd (run (alone clock pc) 0 p w)) = 0.
Proof.
  unfold fuzz_backend_responses. cbn zeta. set (class := fuzz_class data).
  destruct (sharded_default_allocates (V := bytes)) as [t ->]. unfold manager_from_parts.
  destruct (MemoryPool_new 1024) as [pool|] eqn:Hpool; [|by vm_compute in Hpool].
  do 2 eexists. split; [reflexivity|].
  assert (Hw : quiet_world class (mkWorld Cachelito_new TierRegistry_new
    [faulty_with_plan (mkL0 t) (push KGet class FaultPlan_new)] 0 [])).
  { split; [apply sized_ok|apply (new_view DEFAULT_SHARD_COUNT DEFAULT_CAPACITY_PER_SHARD PlaceDefault)|].
    by destruct class. }
  match goal with |- never_fails ?p _ /\ _ => assert (Hp : yields (quiet_world class) p (fun b => b = true)) end.
  { apply y_then; [by eapply y_any, quiet_get|]. intros r.
    apply (yields_bind _ _ _ (fun n => n = 0)); [|by intros ? ->]. by apply y_ask; intros now w []. }
  split; [apply (yields_never_fails (quiet_world class)); [apply quiet_drop|exact Hw|exact Hp]|].
  intros clock pc. by apply (run_yields _ (quiet_drop class) (alone clock pc) 0 _ _ _ (fun n w Hw => Hw) Hw Hp).
Qed.

(** ** All targets *)

(** C37. No input makes a fuzz target fail. Whatever bytes the fuzzer supplies --
    and whatever the clock says, however long each step takes and whichever
    bounded calls time out -- every target of [fuzz/fuzz_targets] runs to its end
    with all its assertions met: framing keeps tenant and key apart and two
    distinct pairs never frame alike, a stored payload reads back and a damaged
    one is refused, no capacity below 64 panics or is silently accepted, no
    sequence of metadata operations leaves an intent on an entry that is not
    prepared, a token is committed once, and the routing of any prefix of the
    ladder stays on cache rungs. The last target passes for another reason: its
    read finds a fresh plane, misses before a rung is asked, and so the armed
    fault never fires -- for no input is either of its assertions reached. *)
Theorem no_input_fails_a_fuzz_target `{DefaultHasher} (data : bytes) (bits now t1 t2 t3 t4 : Z)
    (Hdata : Forall byte data) :
  fuzz_keys data = true /\
  fuzz_serialized_payloads data = true /\
  fuzz_capabilities bits = true /\
  fuzz_payloads t1 t2 t3 t4 data = true /\
  fuzz_configuration now data = true /\
  never_fails (fuzz_metadata data) (plane_world Cachelito_new) /\
  never_fails (fuzz_generation_metadata data) (plane_world Cachelito_new) /\
  (exists p w, fuzz_routing data = Some (p, w) /\ never_fails p w) /\
  (exists p w, fuzz_backend_responses data = Some (p, w) /\ never_fails p w /\
     forall clock pc, fuzz_fired (fuzz_class data) (snd (run (alone clock pc) 0 p w)) = 0).
Proof.
  split_and!.
  - apply fuzz_keys_ok.
  - apply fuzz_serialized_payloads_ok.
  - apply fuzz_capabilities_ok.
  - by apply fuzz_payloads_ok.
  - apply fuzz_configuration_ok.
  - apply fuzz_metadata_ok.
  - by apply fuzz_generation_metadata_ok.
  - apply fuzz_routing_ok.
  - apply fuzz_backend_responses_ok.
Qed.

Lemma no_input_fails_a_fuzz_target_witness :
  let _ : DefaultHasher := fun _ => 0%Z in
  never_fails (fuzz_metadata [2; 9; 5]) (plane_world Cachelito_new) /\
  (exists p w, fuzz_routing [6; 3; 3; 1] = Some (p, w) /\ never_fails p w).
Proof.
  intros h. split.
  - apply (no_input_fails_a_fuzz_target [2; 9; 5] 0 0 0 0 0 0). by_decision.
  - apply (no_input_fails_a_fuzz_target [6; 3; 3; 1] 0 0 0 0 0 0). by_decision.
Defined.
