(* ===== verification/Contract.v ===== *)
(** * The verification contract

    Models [xtask/src/contract.rs]: the contract file as it is deserialised,
    the structural validation, and the views a validated contract offers. The
    TOML parser is third-party code: what it returns is the argument of
    [Contract_load]. A message that reports a problem is the problem it names. *)

From Stdlib Require Import String.
From S2P Require Import Prelude Text Fault.

(** ** The file *)

Inductive GateKind : Type :=
| GkTool | GkCargo | GkTest | GkDoctest | GkSlow | GkNightly | GkTracker | GkAuthorship.

#[export] Instance GateKind_eq_dec : EqDecision GateKind.
Proof. solve_decision. Defined.

Definition in_default_pass (k : GateKind) : bool :=
  match k with GkSlow | GkNightly => false | _ => true end.

Definition GateKind_as_str (k : GateKind) : string :=
  match k with
  | GkTool => "tool" | GkCargo => "cargo" | GkTest => "test" | GkDoctest => "doctest"
  | GkSlow => "slow" | GkNightly => "nightly" | GkTracker => "tracker" | GkAuthorship => "authorship"
  end%string.

Record Gate : Type := mkGate {
  ga_name : text;
  ga_kind : GateKind;
  ga_command : list text;
  ga_args : list text;
  ga_targets : list text;
  ga_features : list text;
  ga_env : list (text * text);
  ga_description : text
}.

Record MergeReadiness : Type := mkMergeReadiness {
  mr_tracker : text;
  mr_expected_blocking : option nat;
  mr_expected_should_fix : option nat
}.

Definition default_tracker : text := text_of "bugs.toml".

Record VerificationRequired : Type := mkRequired {
  vr_fmt : bool;
  vr_check_all_targets : bool;
  vr_check_all_features : bool;
  vr_tests_all_targets : bool;
  vr_tests_all_features : bool;
  vr_doctests : bool;
  vr_clippy_warnings_as_errors : bool;
  vr_documentation : bool;
  vr_dependency_audit : bool;
  vr_dependency_hygiene : bool;
  vr_package_validation : bool
}.

(** [ContractFile] and its sections; a [BTreeMap] is listed in key order. *)
Record ContractFile : Type := mkContractFile {
  cf_name : text;
  cf_version : text;
  cf_gates : list Gate;
  cf_merge_readiness : MergeReadiness;
  cf_forbidden_trailers : list text;
  cf_gate_order : list text;
  cf_verification_required : bool;
  cf_anti_vacuity_required : bool;
  cf_required : VerificationRequired;
  cf_layers : list (text * list text);
  cf_negative_cases : list text;
  cf_faults : list text;
  cf_invariants : list (text * bool);
  cf_fuzz_targets : list text;
  cf_recovery : list text;
  cf_durability : list text;
  cf_security : list text;
  cf_fields : list text
}.

Definition required_booleans (r : VerificationRequired) : list (string * bool) :=
  [("fmt", vr_fmt r); ("check_all_targets", vr_check_all_targets r);
   ("check_all_features", vr_check_all_features r); ("tests_all_targets", vr_tests_all_targets r);
   ("tests_all_features", vr_tests_all_features r); ("doctests", vr_doctests r);
   ("clippy_warnings_as_errors", vr_clippy_warnings_as_errors r); ("documentation", vr_documentation r);
   ("dependency_audit", vr_dependency_audit r); ("dependency_hygiene", vr_dependency_hygiene r);
   ("package_validation", vr_package_validation r)]%string.

(** ** Problems *)

Inductive Problem : Type :=
| SpecName (name : text)
| GateCount (ordered declared : nat)
| GateOrder (position : nat) (name : text)
| DuplicateGate (name : text)
| NoCommand (gate : text)
| NoArgs (gate : text)
| NoTargets (gate : text) (kind : GateKind)
| NothingForbidden
| NothingEnforces
| UnusableTrailer (key : text)
| UnclaimedTarget (layer target : text)
| NotMandatory (flag : string)
| VerificationOff
| AntiVacuityOff
| FaultTaxonomy (contract : list text)
| InvariantOff (name : text)
| EmptySection (label : string).

Definition report (b : bool) (p : Problem) : list Problem := if b then [p] else [].

Definition order_problems (declared ordered : list text) : list Problem :=
  report (negb (length declared =? length ordered)) (GateCount (length ordered) (length declared))
  ++ concat (imap (fun i name => report (negb (bool_decide (declared !! i = Some name))) (GateOrder i name))
               ordered).

Definition detail_problems (g : Gate) : list Problem :=
  match ga_kind g with
  | GkTool | GkNightly => report (bool_decide (ga_command g = [])) (NoCommand (ga_name g))
  | GkCargo => report (bool_decide (ga_args g = [])) (NoArgs (ga_name g))
  | GkTest | GkSlow => report (bool_decide (ga_targets g = [])) (NoTargets (ga_name g) (ga_kind g))
  | _ => []
  end.

(** [seen] holds the names met so far. *)
Fixpoint gate_problems (seen : list text) (gates : list Gate) : list Problem :=
  match gates with
  | [] => []
  | g :: gates =>
      report (mem_text (ga_name g) seen) (DuplicateGate (ga_name g)) ++ detail_problems g
      ++ gate_problems (ga_name g :: seen) gates
  end.

Definition declares_gate (gates : list Gate) : bool :=
  existsb (fun g => bool_decide (ga_kind g = GkAuthorship)) gates.

Definition unusable_key (key : text) : bool :=
  bool_decide (key = []) || has_char COLON key || existsb is_whitespace key.

Definition trailer_problems (gates : list Gate) (trailers : list text) : list Problem :=
  report (declares_gate gates && bool_decide (trailers = [])) NothingForbidden
  ++ report (negb (declares_gate gates) && negb (bool_decide (trailers = []))) NothingEnforces
  ++ concat (map (fun key => report (unusable_key key) (UnusableTrailer key)) trailers).

Definition claimed_targets (gates : list Gate) : list text := concat (map ga_targets gates).

Definition layer_problems (gates : list Gate) (layers : list (text * list text)) : list Problem :=
  concat (map (fun '(layer, targets) =>
    concat (map (fun t => report (negb (mem_text t (claimed_targets gates))) (UnclaimedTarget layer t))
              targets)) layers).

Definition flag_problems (f : ContractFile) : list Problem :=
  concat (map (fun '(flag, value) => report (negb value) (NotMandatory flag))
            (required_booleans (cf_required f)))
  ++ report (negb (cf_verification_required f)) VerificationOff
  ++ report (negb (cf_anti_vacuity_required f)) AntiVacuityOff.

(** [gates::fault_classes]: the taxonomy of the crate itself. *)
Definition fault_classes : list text := map (fun c => text_of (FaultClass_as_str c)) FaultClass_ALL.

Definition section_lengths (f : ContractFile) : list (string * nat) :=
  [("[testing.negative].cases", length (cf_negative_cases f));
   ("[testing.fault_injection].faults", length (cf_faults f));
   ("[testing.fuzz].targets", length (cf_fuzz_targets f));
   ("[testing.property.invariants]", length (cf_invariants f));
   ("[testing.recovery].requirements", length (cf_recovery f));
   ("[testing.durability].events", length (cf_durability f));
   ("[testing.security].requirements", length (cf_security f));
   ("[observability.operation].fields", length (cf_fields f))]%string.

Definition problems (f : ContractFile) : list Problem :=
  report (negb (bool_decide (cf_name f = text_of "theSix"))) (SpecName (cf_name f))
  ++ order_problems (map ga_name (cf_gates f)) (cf_gate_order f)
  ++ gate_problems [] (cf_gates f)
  ++ trailer_problems (cf_gates f) (cf_forbidden_trailers f)
  ++ layer_problems (cf_gates f) (cf_layers f)
  ++ flag_problems f
  ++ report (negb (bool_decide (fault_classes = cf_faults f))) (FaultTaxonomy (cf_faults f))
  ++ concat (map (fun '(name, value) => report (negb value) (InvariantOff name)) (cf_invariants f))
  ++ concat (map (fun '(label, n) => report (n =? 0) (EmptySection label)) (section_lengths f)).

(** ** A validated contract *)

Record ExpectedFindings : Type := mkExpected {
  ef_blocking : option nat;
  ef_should_fix : option nat
}.

Record Contract : Type := mkContract {
  ct_version : text;
  ct_gates : list Gate;
  ct_layers : list (text * list text);
  ct_negative_cases : list text;
  ct_faults : list text;
  ct_property_invariants : list (text * bool);
  ct_fuzz_targets : list text;
  ct_recovery_requirements : list text;
  ct_durability_events : list text;
  ct_security_requirements : list text;
  ct_telemetry_fields : list text;
  ct_required_booleans : list (string * bool);
  ct_expected_findings : ExpectedFindings;
  ct_tracker : text;
  ct_forbidden_trailers : list text
}.

Definition contract_of (f : ContractFile) : Contract :=
  mkContract (cf_version f) (cf_gates f) (cf_layers f) (cf_negative_cases f) (cf_faults f)
    (cf_invariants f) (cf_fuzz_targets f) (cf_recovery f) (cf_durability f) (cf_security f)
    (cf_fields f) (required_booleans (cf_required f))
    (mkExpected (mr_expected_blocking (cf_merge_readiness f)) (mr_expected_should_fix (cf_merge_readiness f)))
    (mr_tracker (cf_merge_readiness f)) (cf_forbidden_trailers f).

Inductive LoadError : Type :=
| CannotRead
| DoesNotParse
| ValidationFailed (problems : list Problem).

(** [load]: what reading the file gave, and what the parser made of it. *)
Definition Contract_load (raw : option text) (parse : text -> option ContractFile) :
    result Contract LoadError :=
  match raw with
  | None => Err CannotRead
  | Some raw =>
      match parse raw with
      | None => Err DoesNotParse
      | Some parsed =>
          match problems parsed with
          | [] => Ok (contract_of parsed)
          | found => Err (ValidationFailed found)
          end
      end
  end.

Definition ct_gate (self : Contract) (name : text) : option Gate :=
  List.find (fun g => text_eqb (ga_name g) name) (ct_gates self).

(** The gates and targets that name no test of the checkout. *)
Definition missing_targets (exists_ : text -> bool) (self : Contract) : list (text * text) :=
  concat (map (fun g => concat (map (fun t => if exists_ t then [] else [(ga_name g, t)])
                                  (ga_targets g))) (ct_gates self)).

Definition validate_targets (exists_ : text -> bool) (self : Contract) :
    result unit (list (text * text)) :=
  match missing_targets exists_ self with
  | [] => Ok tt
  | found => Err found
  end.

Definition declared_case_counts (self : Contract) : list (string * nat) :=
  [("negative cases", length (ct_negative_cases self)); ("faults", length (ct_faults self));
   ("property invariants", length (ct_property_invariants self));
   ("fuzz targets", length (ct_fuzz_targets self));
   ("recovery requirements", length (ct_recovery_requirements self));
   ("durability events", length (ct_durability_events self));
   ("security requirements", length (ct_security_requirements self));
   ("telemetry fields", length (ct_telemetry_fields self))]%string.

Definition default_pass (self : Contract) : list Gate :=
  List.filter (fun g => in_default_pass (ga_kind g)) (ct_gates self).

Definition deferred (self : Contract) : list Gate :=
  List.filter (fun g => negb (in_default_pass (ga_kind g))) (ct_gates self).

(** ** What validation accepts *)

(** A gate carries what its kind needs. *)
Definition detailed (g : Gate) : Prop :=
  match ga_kind g with
  | GkTool | GkNightly => ga_command g <> []
  | GkCargo => ga_args g <> []
  | GkTest | GkSlow => ga_targets g <> []
  | _ => True
  end.

Definition usable_key (key : text) : Prop :=
  key <> [] /\ COLON ∉ key /\ forall c, c ∈ key -> is_whitespace c = false.

Record well_formed (f : ContractFile) : Prop := {
  wf_name : cf_name f = text_of "theSix";
  wf_order : cf_gate_order f = map ga_name (cf_gates f);
  wf_names : NoDup (map ga_name (cf_gates f));
  wf_detail : forall g, g ∈ cf_gates f -> detailed g;
  wf_trailers : (exists g, g ∈ cf_gates f /\ ga_kind g = GkAuthorship) <-> cf_forbidden_trailers f <> [];
  wf_keys : forall key, key ∈ cf_forbidden_trailers f -> usable_key key;
  wf_layers : forall layer targets t, (layer, targets) ∈ cf_layers f -> t ∈ targets ->
    exists g, g ∈ cf_gates f /\ t ∈ ga_targets g;
  wf_required : forall flag value, (flag, value) ∈ required_booleans (cf_required f) -> value = true;
  wf_verification : cf_verification_required f = true;
  wf_anti_vacuity : cf_anti_vacuity_required f = true;
  wf_faults : cf_faults f = fault_classes;
  wf_invariants : forall name value, (name, value) ∈ cf_invariants f -> value = true;
  wf_sections : forall label n, (label, n) ∈ section_lengths f -> n <> 0
}.

Lemma report_nil b p : report b p = [] <-> b = false.
Proof. by destruct b. Qed.

Lemma concat_map_nil {A B} (f : A -> list B) l : concat (map f l) = [] <-> forall x, x ∈ l -> f x = [].
Proof.
  induction l as [|x l IH]; cbn; [split; [by intros _ y Hy%elem_of_nil|done]|].
  rewrite app_nil, IH. split.
  - intros [Hx Hl] y [->|Hy]%elem_of_cons; auto.
  - intros H. split; [by apply H, elem_of_cons; left|]. intros y Hy. by apply H, elem_of_cons; right.
Qed.

Lemma order_problems_nil declared ordered : order_problems declared ordered = [] <-> ordered = declared.
Proof.
  unfold order_problems. rewrite app_nil, report_nil, negb_false_iff, Nat.eqb_eq. split.
  - intros [Hl Hi]. apply list_eq_same_length with (length ordered); [done|done|].
    intros i x y Hlt Hx Hy.
    assert (H : forall (l : list text) k, concat (imap (fun i name =>
        report (negb (bool_decide (declared !! (k + i) = Some name))) (GateOrder (k + i) name)) l) = [] ->
      forall i x, l !! i = Some x -> declared !! (k + i) = Some x).
    { clear. induction l as [|a l IH]; intros k H i x Hx; [done|]. cbn in H.
      apply app_nil in H as [Ha H]. apply report_nil, negb_false_iff, bool_decide_eq_true in Ha.
      destruct i as [|i]; [by cbn in Hx; simplify_eq|]. cbn in Hx.
      rewrite Nat.add_succ_r, <- Nat.add_succ_l. apply (IH (S k)); [|done].
      rewrite <- H. f_equal. apply imap_ext. intros j y _. cbn. by rewrite Nat.add_succ_r. }
    specialize (H ordered 0 Hi i x Hx). cbn in H. congruence.
  - intros ->. split; [done|]. 
    assert (H : forall (l pre : list text), declared = pre ++ l ->
      concat (imap (fun i name => report (negb (bool_decide (declared !! (length pre + i) = Some name)))
                                    (GateOrder (length pre + i) name)) l) = []).
    { clear. induction l as [|a l IH]; intros pre ->; [done|]. cbn.
      rewrite Nat.add_0_r, list_lookup_middle by done. rewrite bool_decide_true by done. cbn.
      rewrite <- (IH (pre ++ [a])) by (by rewrite <- app_assoc).
      f_equal. apply imap_ext. intros j y _. cbn. rewrite length_app. cbn.
      by replace (length pre + 1 + j) with (length pre + S j) by lia. }
    by apply (H declared []).
Qed.

Lemma detail_problems_nil g : detail_problems g = [] <-> detailed g.
Proof.
  unfold detail_problems, detailed. destruct (ga_kind g); try done;
    rewrite report_nil, bool_decide_eq_false; done.
Qed.

Lemma gate_problems_nil seen gates :
  gate_problems seen gates = [] <->
  NoDup (map ga_name gates) /\ (forall g, g ∈ gates -> ga_name g ∉ seen) /\
  (forall g, g ∈ gates -> detailed g).
Proof.
  revert seen. induction gates as [|g gates IH]; intros seen; cbn [gate_problems map].
  { split; [intros _|done]. split_and!; [constructor|by intros g Hg%elem_of_nil..]. }
  rewrite !app_nil, report_nil, detail_problems_nil, IH, NoDup_cons.
  rewrite <- not_true_iff_false, mem_text_spec. setoid_rewrite elem_of_cons. split.
  - intros (Hs & Hd & Hn & Hseen & Hdet). split_and!; [|done| |].
    + intros Hin. apply list_elem_of_In, in_map_iff in Hin as (g' & Heq & Hg').
      apply (Hseen g'); [by apply list_elem_of_In|by left].
    + intros g' [->|Hg']; [done|]. intros Hin. by apply (Hseen g' Hg'); right.
    + intros g' [->|Hg']; auto.
  - intros ([Hg Hn] & Hseen & Hdet). split_and!; try done; [auto..| |auto].
    intros g' Hg' [Heq|Hin]; [|by apply (Hseen g'); auto].
    apply Hg. rewrite <- Heq. apply list_elem_of_In, in_map, list_elem_of_In, Hg'.
Qed.

Lemma declares_gate_spec gates :
  declares_gate gates = true <-> exists g, g ∈ gates /\ ga_kind g = GkAuthorship.
Proof.
  unfold declares_gate. rewrite existsb_exists. setoid_rewrite bool_decide_eq_true.
  split; intros (g & Hg & Hk); exists g; (split; [by apply list_elem_of_In|done]).
Qed.

Lemma unusable_key_spec key : unusable_key key = false <-> usable_key key.
Proof.
  unfold unusable_key, usable_key. rewrite !orb_false_iff, bool_decide_eq_false.
  rewrite <- !not_true_iff_false, has_char_spec, existsb_exists. split.
  - intros [[H1 H2] H3]. split_and!; [done|done|]. intros c Hc. apply not_true_iff_false. intros Hw.
    apply H3. exists c. by split; [apply list_elem_of_In|].
  - intros (H1 & H2 & H3). split_and!; [done|done|]. intros (c & Hc & Hw).
    by rewrite H3 in Hw by (by apply list_elem_of_In).
Qed.

Lemma trailer_problems_nil gates trailers :
  trailer_problems gates trailers = [] <->
  ((exists g, g ∈ gates /\ ga_kind g = GkAuthorship) <-> trailers <> []) /\
  (forall key, key ∈ trailers -> usable_key key).
Proof.
  unfold trailer_problems. rewrite !app_nil, !report_nil, concat_map_nil, <- declares_gate_spec.
  setoid_rewrite report_nil. setoid_rewrite unusable_key_spec.
  rewrite <- Logic.and_assoc. apply and_iff_compat_r.
  by destruct (declares_gate gates), trailers; cbn; naive_solver.
Qed.

Lemma layer_problems_nil gates layers :
  layer_problems gates layers = [] <->
  forall layer targets t, (layer, targets) ∈ layers -> t ∈ targets -> exists g, g ∈ gates /\ t ∈ ga_targets g.
Proof.
  unfold layer_problems. rewrite concat_map_nil.
  assert (Ht : forall t, mem_text t (claimed_targets gates) = true <-> exists g, g ∈ gates /\ t ∈ ga_targets g).
  { intros t. rewrite mem_text_spec. unfold claimed_targets. rewrite list_elem_of_In, in_concat.
    setoid_rewrite in_map_iff. split.
    - intros (x & (g & <- & Hg) & Hx). exists g. by rewrite !list_elem_of_In.
    - intros (g & Hg & Hx). exists (ga_targets g). rewrite <- list_elem_of_In. split; [|done].
      exists g. by rewrite <- list_elem_of_In. }
  split.
  - intros H layer targets t Hl Hin. specialize (H _ Hl). cbn in H. rewrite concat_map_nil in H.
    specialize (H t Hin). rewrite report_nil, negb_false_iff in H. by apply Ht.
  - intros H [layer targets] Hl. apply concat_map_nil. intros t Hin.
    apply report_nil, negb_false_iff, Ht. by eapply H.
Qed.

Lemma flagged_nil {A} (l : list (A * bool)) (p : A -> Problem) :
  concat (map (fun '(name, value) => report (negb value) (p name)) l) = [] <->
  forall name value, (name, value) ∈ l -> value = true.
Proof.
  rewrite concat_map_nil. split.
  - intros H name value Hin. specialize (H _ Hin). cbn in H. by apply report_nil, negb_false_iff in H.
  - intros H [name value] Hin. apply report_nil, negb_false_iff. by eapply H.
Qed.

Lemma problems_nil f : problems f = [] <-> well_formed f.
Proof.
  unfold problems, flag_problems. rewrite !app_nil, !report_nil, order_problems_nil, gate_problems_nil,
    trailer_problems_nil, layer_problems_nil, !flagged_nil, !negb_false_iff, !bool_decide_eq_true.
  assert (Hs : concat (map (fun '(label, n) => report (n =? 0) (EmptySection label)) (section_lengths f)) = [] <->
    forall label n, (label, n) ∈ section_lengths f -> n <> 0).
  { rewrite concat_map_nil. split.
    - intros H label n Hin. specialize (H _ Hin). cbn in H. by apply report_nil, Nat.eqb_neq in H.
    - intros H [label n] Hin. apply report_nil, Nat.eqb_neq. by eapply H. }
  rewrite Hs. split.
  - intros (H1 & H2 & (H3 & _ & H4) & (H5 & H6) & H7 & (H8 & H9 & H10) & H11 & H12 & H13). by split.
  - intros [H1 H2 H3 H4 H5 H6 H7 H8 H9 H10 H11 H12 H13]. split_and!; try done.
    by intros g _ Hin%elem_of_nil.
Qed.

Lemma filter_partition {A} (f : A -> bool) l :
  List.filter f l ++ List.filter (fun x => negb (f x)) l ≡ₚ l.
Proof.
  induction l as [|x l IH]; cbn; [done|]. destruct (f x); cbn; [by rewrite IH|].
  by rewrite <- Permutation_middle, IH.
Qed.

(** C39. The validator accepts exactly the well-formed contracts. A contract
    loads only if the file could be read and parsed and what it says holds
    together -- the order lists the declared gates in their order, no two gates
    share a name, every gate has what its kind needs, trailers are forbidden
    exactly when a gate enforces them and could occur, every layer's target is
    run by some gate, no mandatory flag is off, the fault taxonomy is the
    crate's own, nothing required is empty -- and then it does load. A gate of
    the accepted contract is found by its name, and belongs to the default pass
    or is deferred, never both. *)
Theorem contract_accepts_exactly_the_well_formed (raw : option text) (parse : text -> option ContractFile)
    (c : Contract) :
  (Contract_load raw parse = Ok c <->
     exists s f, raw = Some s /\ parse s = Some f /\ well_formed f /\ c = contract_of f) /\
  (Contract_load raw parse = Ok c ->
     default_pass c ++ deferred c ≡ₚ ct_gates c /\
     (forall g, g ∈ ct_gates c -> ct_gate c (ga_name g) = Some g) /\
     (forall g, g ∈ default_pass c -> g ∉ deferred c)).
Proof.
  assert (Hiff : Contract_load raw parse = Ok c <->
     exists s f, raw = Some s /\ parse s = Some f /\ well_formed f /\ c = contract_of f).
  { unfold Contract_load. split.
    - destruct raw as [s|]; [|done]. destruct (parse s) as [f|] eqn:Hp; [|done].
      destruct (problems f) eqn:Hf; [|done]. intros [= <-]. exists s, f.
      apply problems_nil in Hf. by split_and!.
    - intros (s & f & -> & -> & Hf & ->). apply problems_nil in Hf. by rewrite Hf. }
  split; [done|]. intros Hc. apply Hiff in Hc as (s & f & _ & _ & Hf & ->). split_and!.
  - apply filter_partition.
  - pose proof (wf_names f Hf) as Hn. cbn. unfold ct_gate. cbn. revert Hn. generalize (cf_gates f).
    intros gates. induction gates as [|g gates IH]; cbn; intros Hn g' Hg'; [by apply elem_of_nil in Hg'|].
    apply NoDup_cons in Hn as [Hg Hn]. destruct (text_eqb_spec (ga_name g) (ga_name g')) as [Heq|Hne].
    + apply elem_of_cons in Hg' as [->|Hg']; [done|]. exfalso. apply Hg. rewrite Heq.
      by apply list_elem_of_In, in_map, list_elem_of_In.
    + apply elem_of_cons in Hg' as [->|Hg']; [done|]. by apply IH.
  - intros g Hg Hd. apply list_elem_of_In, filter_In in Hg as [_ Hg].
    apply list_elem_of_In, filter_In in Hd as [_ Hd]. by rewrite Hg in Hd.
Qed.
