(* ===== verification/Gates.v ===== *)
(** * Running the verification gates

    Models the decisions of [xtask/src/gates.rs] and [xtask/src/main.rs]: the
    command of a gate, whether its tooling is there, the two gates the runner
    decides itself, and the exit code. Processes, the file system and the TOML
    parser are parameters. A panic of the runner is the result [None]; what is
    printed is not modelled, so the panic of [println!] on a closed standard
    output is not either. *)

From Stdlib Require Import String.
From S2P Require Import Prelude Text Contract.

Inductive GateOutcome : Type := Passed | Failed | Unavailable.

#[export] Instance GateOutcome_eq_dec : EqDecision GateOutcome.
Proof. solve_decision. Defined.

Abbreviation lit := text_of (only parsing).

(** ** Commands *)

Definition starts_with_plus (a : text) : bool := starts_with_text (text_of "+") a.

(** [argv_for] *)
Definition argv_for (gate : Gate) : list text :=
  match ga_kind gate with
  | GkTool | GkNightly => ga_command gate
  | GkCargo => text_of "cargo" :: ga_args gate
  | GkDoctest => [text_of "cargo"; text_of "test"; text_of "--doc"] ++ ga_features gate
  | GkTest | GkSlow =>
      [text_of "cargo"; text_of "nextest"; text_of "run"; text_of "--no-fail-fast";
       text_of "--hide-progress-bar"]
      ++ ga_features gate
      ++ concat (map (fun t => [text_of "--test"; t]) (ga_targets gate))
      ++ (if decide (ga_kind gate = GkSlow) then [text_of "--run-ignored"; text_of "only"] else [])
  | GkTracker | GkAuthorship => [text_of "xtask"; text_of "internal:" ++ ga_name gate]
  end.

(** Subcommands that are separate binaries. *)
Definition EXTERNAL : list text :=
  map text_of ["nextest"; "deny"; "machete"; "fuzz"; "audit"; "miri"; "llvm-cov"; "tarpaulin"]%string.

(** [missing_tool]: the binary that is not on the path, if one is needed. *)
Definition missing_tool (which_bin : text -> bool) (program : text) (argv : list text) : option text :=
  let absent name := if which_bin name then None else Some name in
  if text_eqb program (text_of "cargo") then
    match List.find (fun a => negb (starts_with_plus a)) (tail argv) with
    | None => absent (text_of "cargo")
    | Some sub => if mem_text sub EXTERNAL then absent (text_of "cargo-" ++ sub) else None
    end
  else if starts_with_text (text_of "cargo-") program then absent program
  else if has_char 47 program || ends_with_text (text_of "cargo") program then None
  else absent program.

(** [resolve]: the gates a selector names. *)
Definition resolve (contract : Contract) (selector : option text) : result (list Gate) text :=
  match selector with
  | None => Ok (default_pass contract)
  | Some name =>
      if text_eqb name (text_of "all") then Ok (ct_gates contract)
      else match ct_gate contract name with
           | Some g => Ok [g]
           | None => Err name
           end
  end.

(** [test_target_exists]: [tests/<target>/main.rs] or [tests/<target>.rs]. *)
Definition test_target_exists (is_file : list text -> bool) (target : text) : bool :=
  is_file [text_of "tests"; target; text_of "main.rs"]
  || is_file [text_of "tests"; target ++ text_of ".rs"].

(** ** Commit authorship *)

Definition FIELD_SEP : Z := 0x1f.
Definition RECORD_SEP : Z := 0x1e.

Section authorship.
(** [char::to_lowercase], the Unicode mapping of the standard library. *)
Variable to_lowercase : Z -> list Z.

Definition normalise_key (key : text) : text :=
  concat (map to_lowercase
    (List.filter (fun c => negb (c =? 45)%Z && negb (c =? 95)%Z && negb (is_whitespace c)) key)).

(** [wanted]: the normalised keys, each with its declared spelling. *)
Definition wanted_keys (forbidden : list text) : list (text * text) :=
  map (fun k => (normalise_key k, k)) forbidden.

(** The declared key a message line violates. *)
Definition line_violation (wanted : list (text * text)) (line : text) : option text :=
  match split_once COLON line with
  | None => None
  | Some (key, _) => option_map snd (List.find (fun w => text_eqb (fst w) (normalise_key key)) wanted)
  end.

Definition redact_banned (s : text) (wanted : list (text * text)) : text :=
  join (text_of " ")
    (map (fun line => match line_violation wanted line with
                      | Some _ => text_of "<withheld: banned trailer>"
                      | None => line
                      end) (lines s)).

(** One offending line: the commit, the declared key, the redacted subject. *)
Record Offender : Type := mkOffender { of_sha : text; of_declared : text; of_subject : text }.

Definition scan_message (wanted : list (text * text)) (sha message : text) : list Offender :=
  let subject := redact_banned (trim (default [] (head (lines message)))) wanted in
  concat (map (fun line => match line_violation wanted line with
                           | Some declared => [mkOffender (take 8 sha) declared subject]
                           | None => []
                           end) (lines message)).

(** The commits of a [git log] output, as the loop reads them. *)
Definition parse_record (record : text) : option (text * text) :=
  let record := trim_start_matches NEWLINE record in
  if is_blank_text record then None
  else match splitn 3 FIELD_SEP record with
       | sha :: message :: _ => Some (sha, message)
       | _ => None
       end.

Definition parse_log (raw : text) : list (text * text) := omap parse_record (split_text RECORD_SEP raw).

Inductive AuthorshipDetail : Type :=
| NothingToForbid
| NoGit
| NotAWorkTree (answer : text)
| GitFailed
| ShallowClone
| NoCommits
| Scanned (commits : nat)
| Banned (offenders : list Offender).

(** [authorship]; [git] is a command run in the repository. *)
Definition authorship (forbidden : list text) (which_bin : text -> bool)
    (git : list text -> result text unit) : GateOutcome * AuthorshipDetail :=
  if decide (forbidden = []) then (Unavailable, NothingToForbid)
  else if negb (which_bin (text_of "git")) then (Unavailable, NoGit)
  else
    match git [text_of "rev-parse"; text_of "--is-inside-work-tree"] with
    | Err _ => (Unavailable, GitFailed)
    | Ok answer =>
        if negb (text_eqb (trim answer) (text_of "true")) then (Unavailable, NotAWorkTree answer)
        else if match git [text_of "rev-parse"; text_of "--is-shallow-repository"] with
                | Ok answer => text_eqb (trim answer) (text_of "true")
                | Err _ => false
                end then (Unavailable, ShallowClone)
        else
          match git [text_of "log"; text_of "--all"; text_of "--no-color"; text_of "--format=%x1e%H%x1f%B"] with
          | Err _ => (Unavailable, GitFailed)
          | Ok raw =>
              let wanted := wanted_keys forbidden in
              let commits := parse_log raw in
              let offenders := concat (map (fun '(sha, message) => scan_message wanted sha message) commits) in
              if length commits =? 0 then (Unavailable, NoCommits)
              else match offenders with
                   | [] => (Passed, Scanned (length commits))
                   | _ => (Failed, Banned offenders)
                   end
          end
    end.
End authorship.

(** ** Merge readiness *)

Record BugEntry : Type := mkBug {
  bg_id : text;
  bg_title : text;
  bg_status : text;
  bg_blocks_merge : bool;
  bg_accepted_by : option text;
  bg_rationale : option text
}.

Inductive Uncleared : Type := StillOpen | RiskNotOwned | NoRationale | UnknownStatus (status : text).

Definition blank (s : option text) : bool :=
  match s with None => true | Some v => is_blank_text v end.

(** What is wrong with a finding that blocks the merge. *)
Definition finding_problem (e : BugEntry) : option Uncleared :=
  if text_eqb (bg_status e) (text_of "open") then Some StillOpen
  else if text_eqb (bg_status e) (text_of "accepted-risk") then
    if blank (bg_accepted_by e) || blank (bg_rationale e) then Some RiskNotOwned else None
  else if text_eqb (bg_status e) (text_of "resolved") then
    if blank (bg_rationale e) then Some NoRationale else None
  else Some (UnknownStatus (bg_status e)).

Inductive CountProblem : Type :=
| BlockingCount (want actual : nat)
| ShouldFixCount (want actual : nat)
| NoFindings.

Definition count_problems (expected : ExpectedFindings) (bugs : list BugEntry) : list CountProblem :=
  let actual_blocking := length (List.filter bg_blocks_merge bugs) in
  let actual_should_fix := length (List.filter (fun b => negb (bg_blocks_merge b)) bugs) in
  let mismatch want actual p :=
    match want with
    | Some want => if want =? actual then [] else [p want actual]
    | None => []
    end in
  let found := mismatch (ef_blocking expected) actual_blocking BlockingCount
               ++ mismatch (ef_should_fix expected) actual_should_fix ShouldFixCount in
  match found, bugs with
  | [], [] => [NoFindings]
  | _, _ => found
  end.

Inductive ReadinessDetail : Type :=
| TrackerAbsent
| TrackerMalformed
| NoExpectations
| CountsDiffer (found : list CountProblem)
| AllCleared (tracked : nat)
| Blocking (found : list (text * Uncleared * text)).

Definition blocking_findings (bugs : list BugEntry) : list (text * Uncleared * text) :=
  omap (fun e => if bg_blocks_merge e
                 then option_map (fun p => (bg_id e, p, bg_title e)) (finding_problem e) else None) bugs.

Definition merge_readiness (raw : option text) (parse : text -> option (list BugEntry))
    (expected : option ExpectedFindings) : GateOutcome * ReadinessDetail :=
  match raw with
  | None => (Unavailable, TrackerAbsent)
  | Some raw =>
      match parse raw with
      | None => (Unavailable, TrackerMalformed)
      | Some bugs =>
          match expected with
          | None => (Unavailable, NoExpectations)
          | Some expected =>
              match count_problems expected bugs with
              | [] =>
                  match blocking_findings bugs with
                  | [] => (Passed, AllCleared (length (List.filter bg_blocks_merge bugs)))
                  | found => (Failed, Blocking found)
                  end
              | found => (Failed, CountsDiffer found)
              end
          end
      end
  end.

(** ** The environment of a gate *)

Record Toolchain : Type := mkToolchain {
  tc_sccache : option text;
  tc_linker : option text;
  tc_mold : option text;
  tc_nextest : bool
}.

(** [probe]; [which_bin] gives the path of a binary on the search path. *)
Definition probe (which_bin : text -> option text) : Toolchain :=
  let mold := which_bin (text_of "mold") in
  let linker := if mold then which_bin (text_of "clang") else None in
  mkToolchain (which_bin (text_of "sccache")) linker mold
    (bool_decide (is_Some (which_bin (text_of "cargo-nextest")))
     || bool_decide (is_Some (which_bin (text_of "cargo")))).

Definition LINKER_VAR : text := text_of "CARGO_TARGET_X86_64_UNKNOWN_LINUX_GNU_LINKER".
Definition RUSTFLAGS_VAR : text := text_of "CARGO_TARGET_X86_64_UNKNOWN_LINUX_GNU_RUSTFLAGS".
Definition MOLD_FLAG : text := text_of "-Clink-arg=-fuse-ld=mold".

(** [Toolchain::env], with the flags the runner itself was started with. *)
Definition toolchain_env (self : Toolchain) (rustflags : option text) : list (text * text) :=
  match tc_sccache self with
  | Some s => [(text_of "RUSTC_WRAPPER", s); (text_of "SCCACHE_CACHE_SIZE", text_of "20G")]
  | None => []
  end
  ++ match tc_linker self with Some l => [(LINKER_VAR, l)] | None => [] end
  ++ match tc_mold self with
     | Some _ => [(RUSTFLAGS_VAR, match default [] rustflags with
                                  | [] => MOLD_FLAG
                                  | existing => existing ++ text_of " " ++ MOLD_FLAG
                                  end)]
     | None => []
     end.

Definition FIXED : list text :=
  map text_of ["CARGO"; "CARGO_MANIFEST_DIR"; "CARGO_MANIFEST_PATH"; "CARGO_CRATE_NAME";
               "CARGO_BIN_NAME"; "CARGO_PRIMARY_PACKAGE"; "CARGO_TARGET_TMPDIR"]%string.

Definition describes_xtask (name : text) : bool :=
  mem_text name FIXED || starts_with_text (text_of "CARGO_PKG_") name.

(** The environment of the runner. A variable's name and value are bytes, which
    need not be Unicode. *)
Inductive OsText : Type := Unicode (t : text) | NotUnicode (raw : bytes).

Definition os_unicode (s : OsText) : option text :=
  match s with Unicode t => Some t | NotUnicode _ => None end.

(** [std::env::vars()], collected: it panics, which is [None], on a name or a
    value that is not Unicode. *)
Definition env_vars (env : list (OsText * OsText)) : option (list (text * text)) :=
  mapM (fun b => match os_unicode (fst b), os_unicode (snd b) with
                 | Some name, Some value => Some (name, value)
                 | _, _ => None
                 end) env.

(** An environment: the last binding of a name is the one in force. *)
Definition env_value (env : list (text * text)) (name : text) : option text :=
  option_map snd (List.find (fun b => text_eqb (fst b) name) (rev env)).

Definition scrub_cargo_env (env : list (text * text)) : list (text * text) :=
  List.filter (fun b => negb (describes_xtask (fst b))) env.

(** What a gate's process is started with. *)
Definition child_env (parent : list (text * text)) (tc : Toolchain) (gate : Gate) (verbose : bool) :
    list (text * text) :=
  scrub_cargo_env parent ++ toolchain_env tc (env_value parent RUSTFLAGS_VAR) ++ ga_env gate
  ++ [(text_of "CARGO_TERM_COLOR", text_of (if verbose then "always" else "never"))].

(** ** Running *)

(** Everything outside the runner. [m_exec] runs a command with an environment:
    nothing when it cannot be spawned, otherwise whether it succeeded. *)
Record Machine : Type := mkMachine {
  m_which : text -> option text;
  m_env : list (OsText * OsText);
  m_exec : list text -> list (text * text) -> option bool;
  m_git : list text -> result text unit;
  m_tracker : text -> option text;
  m_parse_tracker : text -> option (list BugEntry);
  m_lowercase : Z -> list Z
}.

Record RunOptions : Type := mkOptions {
  ro_expected : option ExpectedFindings;
  ro_tracker : text;
  ro_forbidden_trailers : list text;
  ro_toolchain : Toolchain;
  ro_dry_run : bool;
  ro_verbose : bool
}.

Definition on_path (m : Machine) (name : text) : bool := bool_decide (is_Some (m_which m name)).

(** Whether the authorship gate comes to call git; [git_out] scrubs the
    environment before it does. *)
Definition authorship_calls_git (m : Machine) (opts : RunOptions) : bool :=
  negb (bool_decide (ro_forbidden_trailers opts = [])) && on_path m (text_of "git").

(** [run]: the outcome of one gate, or [None] when the runner panics:
    [argv.split_first().expect(..)] on an empty command, [std::env::vars()],
    which [scrub_cargo_env] calls before anything is looked up or spawned, on a
    variable that is not Unicode. *)
Definition run_gate (m : Machine) (gate : Gate) (opts : RunOptions) : option GateOutcome :=
  let argv := argv_for gate in
  if ro_dry_run opts then Some Passed
  else
    match ga_kind gate with
    | GkTracker =>
        Some (fst (merge_readiness (m_tracker m (ro_tracker opts)) (m_parse_tracker m) (ro_expected opts)))
    | GkAuthorship =>
        let outcome := fst (authorship (m_lowercase m) (ro_forbidden_trailers opts) (on_path m) (m_git m)) in
        if authorship_calls_git m opts
        then match env_vars (m_env m) with None => None | Some _ => Some outcome end
        else Some outcome
    | _ =>
        match argv with
        | [] => None
        | program :: _ =>
            match env_vars (m_env m) with
            | None => None
            | Some env =>
                match missing_tool (on_path m) program argv with
                | Some _ => Some Unavailable
                | None =>
                    match m_exec m argv (child_env env (ro_toolchain opts) gate (ro_verbose opts)) with
                    | Some true => Some Passed
                    | _ => Some Failed
                    end
                end
            end
        end
    end.

(** [run_all]: every selected gate is run, then the exit code is decided. *)
Definition exit_code (results : list GateOutcome) : nat :=
  let count o := length (List.filter (fun r => bool_decide (r = o)) results) in
  if 0 <? count Failed then 1 else if 0 <? count Unavailable then 3 else 0.

Definition run_all (m : Machine) (opts : RunOptions) (selected : list Gate) : option nat :=
  option_map exit_code (mapM (fun g => run_gate m g opts) selected).

(** [main], up to what it prints. *)
Inductive Command : Type :=
| CmdGates | CmdRun (name : text) | CmdContract | CmdList | CmdDeferred | CmdShow (name : text)
| CmdToolchain | CmdLayers.

Definition main (m : Machine) (raw : option text) (parse : text -> option ContractFile)
    (is_file : list text -> bool) (dry_run verbose : bool) (command : option Command) : option nat :=
  match Contract_load raw parse with
  | Err _ => Some 2
  | Ok contract =>
      match validate_targets (test_target_exists is_file) contract with
      | Err _ => Some 2
      | Ok _ =>
          let opts := mkOptions (Some (ct_expected_findings contract)) (ct_tracker contract)
            (ct_forbidden_trailers contract) (probe (m_which m)) dry_run verbose in
          match default CmdGates command with
          | CmdContract | CmdToolchain | CmdList | CmdDeferred | CmdLayers => Some 0
          | CmdShow name => Some (if ct_gate contract name then 0 else 2)
          | CmdRun name =>
              match resolve contract (Some name) with
              | Ok selected => run_all m opts selected
              | Err _ => Some 2
              end
          | CmdGates =>
              match resolve contract None with
              | Ok selected => run_all m opts selected
              | Err _ => None
              end
          end
      end
  end.

(** ** Every gate of an accepted contract has a command *)

Lemma accepted_argv f g : well_formed f -> g ∈ cf_gates f -> argv_for g <> [].
Proof.
  intros Hf Hg. pose proof (wf_detail f Hf g Hg) as Hd. unfold detailed in Hd. unfold argv_for.
  by destruct (ga_kind g).
Qed.

(** A run that reads no variable it cannot: a dry one, or one whose variables
    are Unicode. *)
Definition readable_env (m : Machine) (opts : RunOptions) : Prop :=
  ro_dry_run opts = true \/ is_Some (env_vars (m_env m)).

Lemma run_gate_total m opts f g :
  readable_env m opts -> well_formed f -> g ∈ cf_gates f -> is_Some (run_gate m g opts).
Proof.
  intros Henv Hf Hg. pose proof (accepted_argv f g Hf Hg) as Ha. unfold run_gate.
  destruct (ro_dry_run opts) eqn:Hdry; [done|]. destruct Henv as [Henv|[env Henv]]; [congruence|].
  rewrite Henv. destruct (ga_kind g); try done; [..|by destruct (authorship_calls_git m opts)];
    (destruct (argv_for g); [done|]; destruct (missing_tool _ _ _); [done|];
     by destruct (m_exec _ _ _) as [[]|]).
Qed.

(** What stands behind a [Passed]: the merge gate's or the authorship gate's own
    decision, or a process that was there, was run, and succeeded. *)
Definition run_and_passed (m : Machine) (env : list (text * text)) (opts : RunOptions) (g : Gate) : Prop :=
  match ga_kind g with
  | GkTracker =>
      fst (merge_readiness (m_tracker m (ro_tracker opts)) (m_parse_tracker m) (ro_expected opts)) = Passed
  | GkAuthorship =>
      fst (authorship (m_lowercase m) (ro_forbidden_trailers opts) (on_path m) (m_git m)) = Passed
  | _ =>
      exists program args, argv_for g = program :: args /\
        missing_tool (on_path m) program (argv_for g) = None /\
        m_exec m (argv_for g) (child_env env (ro_toolchain opts) g (ro_verbose opts)) = Some true
  end.

Lemma run_gate_passed m env opts g :
  ro_dry_run opts = false -> env_vars (m_env m) = Some env ->
  run_gate m g opts = Some Passed <-> run_and_passed m env opts g.
Proof.
  intros Hdry Henv. unfold run_gate, run_and_passed. rewrite Hdry, Henv.
  assert (Hproc : forall argv,
    match argv with
    | [] => None
    | program :: _ =>
        match missing_tool (on_path m) program argv with
        | Some _ => Some Unavailable
        | None =>
            match m_exec m argv (child_env env (ro_toolchain opts) g (ro_verbose opts)) with
            | Some true => Some Passed
            | _ => Some Failed
            end
        end
    end = Some Passed <->
    exists program args, argv = program :: args /\ missing_tool (on_path m) program argv = None /\
      m_exec m argv (child_env env (ro_toolchain opts) g (ro_verbose opts)) = Some true).
  { intros [|program args]; [split; [done|by intros (? & ? & ? & _)]|].
    destruct (missing_tool _ _ _) eqn:Hm; [split; [done|intros (? & ? & [= -> ->] & ? & _); congruence]|].
    destruct (m_exec _ _ _) as [[]|]; split; try done; [by eauto 6|by intros (? & ? & _ & _ & [=])..]. }
  destruct (ga_kind g); try apply Hproc; [by split; [intros [=]|intros ->]|].
  destruct (authorship_calls_git m opts); by split; [intros [=]|intros ->].
Qed.

Lemma exit_code_spec results :
  (exit_code results = 0 <-> forall r, r ∈ results -> r = Passed) /\
  (exit_code results = 1 <-> Failed ∈ results) /\
  (exit_code results = 3 <-> Failed ∉ results /\ Unavailable ∈ results).
Proof.
  assert (Hc : forall o, (0 <? length (List.filter (fun r => bool_decide (r = o)) results)) = true <-> o ∈ results).
  { intros o. rewrite Nat.ltb_lt. split.
    - intros Hl. destruct (List.filter _ results) as [|r l] eqn:Hf; [cbn in Hl; lia|].
      assert (Hr : In r (List.filter (fun r => bool_decide (r = o)) results)) by (rewrite Hf; by left).
      apply filter_In in Hr as [Hr Heq]. apply bool_decide_eq_true in Heq as ->. by apply list_elem_of_In.
    - intros Ho. assert (Hin : In o (List.filter (fun r => bool_decide (r = o)) results)).
      { apply filter_In. split; [by apply list_elem_of_In|by apply bool_decide_eq_true]. }
      destruct (List.filter _ results); [done|cbn; lia]. }
  pose proof (Hc Failed) as Hf. pose proof (Hc Unavailable) as Hu. unfold exit_code.
  destruct (0 <? length (List.filter (fun r => bool_decide (r = Failed)) results)).
  - assert (Hin : Failed ∈ results) by (by apply Hf). split_and!; split; try done.
    + intros H. by specialize (H _ Hin).
    + by intros [H _].
  - assert (Hnf : Failed ∉ results) by (intros H; by apply Hf in H).
    destruct (0 <? length (List.filter (fun r => bool_decide (r = Unavailable)) results)).
    + assert (Hin : Unavailable ∈ results) by (by apply Hu). split_and!; split; try done.
      intros H. by specialize (H _ Hin).
    + assert (Hnu : Unavailable ∉ results) by (intros H; by apply Hu in H). split_and!; split; try done.
      * intros _ r Hr. by destruct r.
      * by intros [_ H].
Qed.

Lemma mapM_total {A B} (f : A -> option B) l : (forall x, x ∈ l -> is_Some (f x)) ->
  exists ys, mapM f l = Some ys /\ forall y, y ∈ ys <-> exists x, x ∈ l /\ f x = Some y.
Proof.
  induction l as [|x l IH]; intros H.
  - exists []. split; [done|]. intros y. split; [by intros Hy%elem_of_nil|by intros (x & Hx%elem_of_nil & _)].
  - destruct (H x) as [y Hy]; [by left|]. destruct IH as (ys & Hys & Hin); [intros z Hz; apply H; by right|].
    exists (y :: ys). cbn. rewrite Hy. cbn. rewrite Hys. split; [done|]. intros z. rewrite elem_of_cons, Hin.
    setoid_rewrite elem_of_cons. split.
    + intros [->|(w & Hw & Hf)]; [exists x|exists w]; auto.
    + intros (w & [->|Hw] & Hf); [left; congruence|right; by exists w].
Qed.

(** The default pass of an accepted contract ends with an exit code that says
    what became of it. *)
Lemma run_all_spec m opts f gates :
  readable_env m opts -> well_formed f -> (forall g, g ∈ gates -> g ∈ cf_gates f) ->
  exists code, run_all m opts gates = Some code /\
    (code = 0 <-> forall g, g ∈ gates -> run_gate m g opts = Some Passed) /\
    (code = 1 <-> exists g, g ∈ gates /\ run_gate m g opts = Some Failed) /\
    (code = 3 <-> (forall g, g ∈ gates -> run_gate m g opts <> Some Failed) /\
                  exists g, g ∈ gates /\ run_gate m g opts = Some Unavailable).
Proof.
  intros Henv Hf Hsub.
  destruct (mapM_total (fun g => run_gate m g opts) gates) as (rs & Hrs & Hin).
  { intros g Hg. eapply run_gate_total; [done|done|by apply Hsub]. }
  exists (exit_code rs). unfold run_all. rewrite Hrs. split; [done|].
  destruct (exit_code_spec rs) as (H0 & H1 & H3). rewrite H0, H1, H3. rewrite !Hin.
  split_and!; [|done|].
  - split.
    + intros H g Hg. destruct (run_gate_total m opts f g Henv Hf (Hsub g Hg)) as [r Hr].
      rewrite Hr. f_equal. apply H, Hin. by exists g.
    + intros H r Hr. apply Hin in Hr as (g & Hg & Hr). rewrite H in Hr by done. by simplify_eq.
  - split; intros [Ha Hb]; (split; [|done]).
    + intros g Hg Hr. apply Ha. by exists g.
    + intros (g & Hg & Hr). by apply (Ha g).
Qed.

(** ** Merge readiness, exactly *)

(** A blocking finding that no longer blocks: resolved with a rationale, or
    accepted as a risk by someone, with a rationale. *)
Definition cleared (e : BugEntry) : Prop :=
  blank (bg_rationale e) = false /\
  (bg_status e = text_of "resolved" \/
   bg_status e = text_of "accepted-risk" /\ blank (bg_accepted_by e) = false).

Lemma finding_problem_none e : finding_problem e = None <-> cleared e.
Proof.
  unfold finding_problem, cleared.
  destruct (text_eqb_spec (bg_status e) (text_of "open")) as [->|_].
  { split; [done|]. by intros [_ [H|[H _]]]. }
  destruct (text_eqb_spec (bg_status e) (text_of "accepted-risk")) as [->|Hn].
  { destruct (blank (bg_accepted_by e)), (blank (bg_rationale e)); cbn; split; try done.
    - by intros [? _].
    - by intros [_ [H|[_ H]]].
    - by intros [? _].
    - intros _. auto. }
  destruct (text_eqb_spec (bg_status e) (text_of "resolved")) as [->|Hr].
  { destruct (blank (bg_rationale e)); split; try done; [by intros [? _]|auto]. }
  split; [done|]. by intros [_ [H|[H _]]].
Qed.

(** The count the contract expects, when it expects one. *)
Definition as_expected (want : option nat) (actual : nat) : Prop :=
  match want with Some want => want = actual | None => True end.

Lemma count_problems_nil expected bugs :
  count_problems expected bugs = [] <->
  bugs <> [] /\
  as_expected (ef_blocking expected) (length (List.filter bg_blocks_merge bugs)) /\
  as_expected (ef_should_fix expected) (length (List.filter (fun b => negb (bg_blocks_merge b)) bugs)).
Proof.
  unfold count_problems, as_expected.
  generalize (length (List.filter bg_blocks_merge bugs)) as nb.
  generalize (length (List.filter (fun b => negb (bg_blocks_merge b)) bugs)) as ns. intros ns nb.
  destruct (ef_blocking expected) as [b|], (ef_should_fix expected) as [s|];
    repeat match goal with |- context [?a =? ?b] => destruct (Nat.eqb_spec a b) end;
    destruct bugs; cbn; naive_solver.
Qed.

(** The merge gate passes exactly when the tracker is there, parses, holds the
    findings the contract counts on, at least one, and every finding that
    blocks the merge is cleared. *)
Theorem merge_readiness_is_exact (raw : option text) (parse : text -> option (list BugEntry))
    (expected : option ExpectedFindings) :
  (fst (merge_readiness raw parse expected) = Passed <->
   exists s bugs want, raw = Some s /\ parse s = Some bugs /\ expected = Some want /\ bugs <> [] /\
     as_expected (ef_blocking want) (length (List.filter bg_blocks_merge bugs)) /\
     as_expected (ef_should_fix want) (length (List.filter (fun b => negb (bg_blocks_merge b)) bugs)) /\
     forall e, e ∈ bugs -> bg_blocks_merge e = true -> cleared e) /\
  (fst (merge_readiness raw parse expected) = Unavailable <->
   raw = None \/ (exists s, raw = Some s /\ parse s = None) \/ expected = None).
Proof.
  assert (Hb : forall bugs, blocking_findings bugs = [] <->
    forall e, e ∈ bugs -> bg_blocks_merge e = true -> cleared e).
  { unfold blocking_findings. induction bugs as [|e bugs IH]; cbn.
    { split; [by intros _ e He%elem_of_nil|done]. }
    setoid_rewrite elem_of_cons. destruct (bg_blocks_merge e) eqn:Hm; cbn.
    - destruct (finding_problem e) as [p|] eqn:Hp; cbn.
      + split; [done|]. intros H. specialize (H e (or_introl eq_refl) Hm).
        by rewrite <- finding_problem_none, Hp in H.
      + rewrite IH. apply finding_problem_none in Hp. split; [|by auto].
        intros H e' [->|He']; auto.
    - rewrite IH. split; [|by auto]. intros H e' [->|He']; [congruence|auto]. }
  unfold merge_readiness. destruct raw as [s|]; [|split; [split; [done|naive_solver]|split; [by left|done]]].
  destruct (parse s) as [bugs|] eqn:Hp; [|split; [split; [done|naive_solver]|split; [right; left; eauto|done]]].
  destruct expected as [want|]; [|split; [split; [done|naive_solver]|split; [auto|done]]].
  pose proof (count_problems_nil want bugs) as Hc. specialize (Hb bugs).
  destruct (count_problems want bugs); [|split; [split; [done|]|split; [done|naive_solver]]].
  - destruct (blocking_findings bugs); cbn; (split; [|split; [done|naive_solver]]); split; try done.
    + intros _. exists s, bugs, want. destruct Hc as [Hc _]. destruct (Hc eq_refl) as (? & ? & ?).
      split_and!; try done. by apply Hb.
    + intros (s' & bugs' & want' & ? & ? & ? & _ & _ & _ & H). simplify_eq. by apply Hb in H.
  - intros (s' & bugs' & want' & ? & ? & ? & H1 & H2 & H3 & _). simplify_eq. destruct Hc as [_ Hc]. by specialize (Hc (conj H1 (conj H2 H3))).
Qed.

(** ** The runner, exactly *)

Definition options_of (m : Machine) (c : Contract) (dry_run verbose : bool) : RunOptions :=
  mkOptions (Some (ct_expected_findings c)) (ct_tracker c) (ct_forbidden_trailers c)
    (probe (m_which m)) dry_run verbose.

(** What the default pass comes to, for any way of reading the variables that
    does not panic. *)
Lemma default_pass_code m raw parse is_file dry_run verbose :
  let accepted c := Contract_load raw parse = Ok c /\
                    validate_targets (test_target_exists is_file) c = Ok tt in
  let outcome c g := run_gate m g (options_of m c dry_run verbose) in
  dry_run = true \/ is_Some (env_vars (m_env m)) ->
  (forall command, is_Some (main m raw parse is_file dry_run verbose command)) /\
  exists code, main m raw parse is_file dry_run verbose (Some CmdGates) = Some code /\
    (code = 0 <-> exists c, accepted c /\ forall g, g ∈ default_pass c -> outcome c g = Some Passed) /\
    (code = 1 <-> exists c, accepted c /\ exists g, g ∈ default_pass c /\ outcome c g = Some Failed) /\
    (code = 3 <-> exists c, accepted c /\ (forall g, g ∈ default_pass c -> outcome c g <> Some Failed) /\
                            exists g, g ∈ default_pass c /\ outcome c g = Some Unavailable) /\
    (code = 2 <-> ~ exists c, accepted c).
Proof.
  cbn zeta. intros Henv. unfold main, options_of. destruct (Contract_load raw parse) as [c|e] eqn:Hl.
  2: { split; [done|]. exists 2. split_and!; [done|split; [done|by intros (? & [? _] & _)]..|].
       split; [by intros _ (? & ? & _)|done]. }
  destruct (validate_targets _ c) as [[]|e] eqn:Hv.
  2: { split; [done|]. exists 2. split_and!; [done|split; [done|intros (c' & [[= <-] ?] & _); congruence]..|].
       split; [intros _ (c' & [= <-] & ?); congruence|done]. }
  assert (Hacc : exists f, well_formed f /\ c = contract_of f).
  { unfold Contract_load in Hl. destruct raw as [s|]; [|done]. destruct (parse s) as [f|]; [|done].
    destruct (problems f) eqn:Hp; [|done]. exists f. split; [by apply problems_nil|congruence]. }
  destruct Hacc as (f & Hf & Hc). set (opts := mkOptions _ _ _ _ _ _).
  assert (Hdef : forall g, g ∈ default_pass c -> g ∈ cf_gates f).
  { intros g Hg. subst c. apply list_elem_of_In, filter_In in Hg as [Hg _]. by apply list_elem_of_In. }
  destruct (run_all_spec m opts f (default_pass c) Henv Hf Hdef) as (code & Hr & H0 & H1 & H3). split.
  - intros command. destruct (default CmdGates command) as [|name| | | |name| |]; cbn -[run_all]; try done.
    destruct (text_eqb name _).
    { destruct (run_all_spec m opts f (ct_gates c) Henv Hf) as (k & -> & _); [by subst c|done]. }
    destruct (ct_gate c name) as [g|] eqn:Hg; [|done].
    destruct (run_all_spec m opts f [g] Henv Hf) as (k & -> & _); [|done].
    intros g' Hg'. apply list_elem_of_singleton in Hg' as ->. subst c. unfold ct_gate in Hg.
    apply List.find_some in Hg as [Hg _]. by apply list_elem_of_In.
  - exists code. cbn -[run_all]. rewrite Hr, H0, H1, H3. split_and!; [done|..].
    + split; [by intros H; exists c|]. intros (c' & [[= <-] _] & Ho). exact Ho.
    + split; [by intros H; exists c|]. intros (c' & [[= <-] _] & Ho). exact Ho.
    + split; [by intros H; exists c|]. intros (c' & [[= <-] _] & Ho). exact Ho.
    + split; [|by intros []; exists c]. intros ->. exfalso.
      unfold run_all in Hr. destruct (mapM _ _); [|done]. injection Hr as Hr. unfold exit_code in Hr.
      by repeat destruct (0 <? _).
Qed.

(** C40. [cargo xtask gates] does not claim what it did not do. Run for real in an
    environment of Unicode variables, the runner comes to an exit code on every
    command, and the default pass exits with 0 exactly when the contract is
    accepted, its targets exist, and every required gate was run and passed --
    its process was there, was started with the scrubbed environment and
    succeeded, or its own check passed -- with 1 when one failed, with 3 when
    none failed but one could not be run, and with 2 when the contract is not
    accepted. A dry run comes to an exit code in any environment, and says only
    whether the contract is accepted. *)
Theorem xtask_exit_code_is_honest (m : Machine) (raw : option text) (parse : text -> option ContractFile)
    (is_file : list text -> bool) (verbose : bool) (env : list (text * text))
    (Henv : env_vars (m_env m) = Some env) :
  let accepted c := Contract_load raw parse = Ok c /\
                    validate_targets (test_target_exists is_file) c = Ok tt in
  let opts c := options_of m c false verbose in
  (forall command, is_Some (main m raw parse is_file false verbose command)) /\
  (exists code, main m raw parse is_file false verbose (Some CmdGates) = Some code /\
    (code = 0 <-> exists c, accepted c /\ forall g, g ∈ default_pass c -> run_and_passed m env (opts c) g) /\
    (code = 1 <-> exists c, accepted c /\
                    exists g, g ∈ default_pass c /\ run_gate m g (opts c) = Some Failed) /\
    (code = 3 <-> exists c, accepted c /\
                    (forall g, g ∈ default_pass c -> run_gate m g (opts c) <> Some Failed) /\
                    exists g, g ∈ default_pass c /\ run_gate m g (opts c) = Some Unavailable) /\
    (code = 2 <-> ~ exists c, accepted c)) /\
  forall m', (forall command, is_Some (main m' raw parse is_file true verbose command)) /\
    (main m' raw parse is_file true verbose (Some CmdGates) = Some 0 <-> exists c, accepted c).
Proof.
  cbn zeta.
  destruct (default_pass_code m raw parse is_file false verbose) as [Hall (code & Hc & H0 & H1 & H3 & H2)];
    [right; by exists env|].
  split; [done|]. split.
  - exists code. split; [done|]. split; [|done]. rewrite H0.
    assert (Hp : forall c g, run_gate m g (options_of m c false verbose) = Some Passed <->
              run_and_passed m env (options_of m c false verbose) g)
      by (intros c g; by apply run_gate_passed).
    by setoid_rewrite Hp.
  - intros m'. destruct (default_pass_code m' raw parse is_file true verbose)
      as [Hall' (code' & Hc' & H0' & _)]; [by left|].
    split; [done|]. rewrite Hc'. split.
    + intros [= ->]. destruct (proj1 H0' eq_refl) as (c & Ha & _). by exists c.
    + intros (c & Ha). f_equal. apply H0'. exists c. split; [done|]. done.
Qed.

(** A gate that starts a process. *)
Definition starts_process (g : Gate) : bool :=
  match ga_kind g with GkTracker | GkAuthorship => false | _ => true end.

(** With one variable that is not Unicode, though, the runner panics as soon as
    the pass comes to a gate that starts a process: no exit code, and no report
    of the gates it already ran. *)
Lemma non_unicode_variable_panics m raw parse is_file verbose c g :
  env_vars (m_env m) = None ->
  Contract_load raw parse = Ok c -> validate_targets (test_target_exists is_file) c = Ok tt ->
  g ∈ default_pass c -> starts_process g = true ->
  main m raw parse is_file false verbose (Some CmdGates) = None.
Proof.
  intros Henv Hl Hv Hg Hp. unfold main. rewrite Hl, Hv. cbn -[run_all]. unfold run_all.
  assert (Hn : forall opts, ro_dry_run opts = false -> run_gate m g opts = None).
  { intros opts Hd. unfold run_gate, starts_process in *. rewrite Hd, Henv.
    destruct (ga_kind g); try done; by destruct (argv_for g). }
  destruct (mapM _ _) as [rs|] eqn:Hm; [|done]. exfalso.
  apply list_elem_of_lookup in Hg as [i Hi]. apply mapM_Some in Hm.
  destruct (Forall2_lookup_l _ _ _ _ _ Hm Hi) as (r & _ & Hr). rewrite Hn in Hr; done.
Qed.

(** ** Authorship, exactly *)

Section authorship_exact.
Context (to_lowercase : Z -> list Z) (forbidden : list text).

Abbreviation wanted := (wanted_keys to_lowercase forbidden).

(** A line is [key: value] and the key is a forbidden one, up to case,
    hyphens, underscores and white space. *)
Definition carries_banned (line : text) : Prop :=
  exists key value k, line = key ++ COLON :: value /\ COLON ∉ key /\ k ∈ forbidden /\
    normalise_key to_lowercase k = normalise_key to_lowercase key.

Lemma split_once_some sep s a b : split_once sep s = Some (a, b) -> s = a ++ sep :: b /\ sep ∉ a.
Proof.
  revert a. induction s as [|c s IH]; intros a H; cbn in H; [done|].
  destruct (Z.eqb_spec c sep) as [->|Hne].
  - injection H as <- <-. split; [done|]. by intros Hin%elem_of_nil.
  - destruct (split_once sep s) as [[a' b']|]; [|done]. cbn in H. injection H as <- <-.
    destruct (IH a' eq_refl) as [-> Ha]. split; [done|]. intros [->|Hin]%elem_of_cons; done.
Qed.

Lemma line_violation_spec line : line_violation to_lowercase wanted line <> None <-> carries_banned line.
Proof.
  unfold line_violation, carries_banned. split.
  - destruct (split_once COLON line) as [[key value]|] eqn:Hs; [|done]. intros Hn.
    apply split_once_some in Hs as [-> Hk].
    destruct (List.find _ wanted) as [w|] eqn:Hf; [|done]. apply List.find_some in Hf as [Hw Heq].
    unfold wanted_keys in Hw. apply in_map_iff in Hw as (k & <- & Hin). cbn in Heq.
    destruct (text_eqb_spec (normalise_key to_lowercase k) (normalise_key to_lowercase key)); [|done].
    exists key, value, k. split_and!; try done. by apply list_elem_of_In.
  - intros (key & value & k & -> & Hk & Hin & Heq). rewrite split_once_sep by done.
    destruct (List.find _ wanted) as [w|] eqn:Hf; [done|].
    assert (Hw : In (normalise_key to_lowercase k, k) wanted)
      by (apply in_map_iff; exists k; split; [done|by apply list_elem_of_In]).
    pose proof (List.find_none _ _ Hf _ Hw) as Hfn. cbn in Hfn. rewrite Heq in Hfn.
    by destruct (text_eqb_spec (normalise_key to_lowercase key) (normalise_key to_lowercase key)).
Qed.

Lemma scan_message_nil sha message :
  scan_message to_lowercase wanted sha message = [] <->
  forall line, line ∈ lines message -> ~ carries_banned line.
Proof.
  unfold scan_message. rewrite concat_map_nil. apply forall_proper. intros line.
  apply forall_proper. intros _. rewrite <- line_violation_spec.
  destruct (line_violation to_lowercase wanted line); naive_solver.
Qed.

(** *** Reading the log back *)

Lemma drop_while_some (f : Z -> bool) s c : c ∈ s -> f c = false -> drop_while f s <> [].
Proof.
  induction s as [|d s IH]; intros Hc Hf; [by apply elem_of_nil in Hc|]. cbn.
  destruct (f d) eqn:Hd; [|done]. apply elem_of_cons in Hc as [->|Hc]; [congruence|auto].
Qed.

Lemma not_blank c s : is_whitespace c = false -> is_blank_text (c :: s) = false.
Proof.
  intros Hc. unfold is_blank_text. apply bool_decide_eq_false. unfold trim. cbn [drop_while]. rewrite Hc.
  intros H. apply (f_equal (rev (A := Z))) in H. rewrite rev_involutive in H. change (rev (A := Z) []) with (@nil Z) in H.
  eapply (drop_while_some is_whitespace (rev (c :: s)) c); [|exact Hc|exact H].
  apply list_elem_of_In, in_rev. rewrite rev_involutive. by left.
Qed.

(** A commit id and a message that can be told apart in the output. *)
Definition readable (commit : text * text) : Prop :=
  fst commit <> [] /\ (forall c, c ∈ fst commit -> is_whitespace c = false /\ c <> FIELD_SEP /\ c <> RECORD_SEP) /\
  FIELD_SEP ∉ snd commit /\ RECORD_SEP ∉ snd commit.

(** [%x1e%H%x1f%B] and the newline git ends an entry with. *)
Definition log_record (commit : text * text) : text := fst commit ++ FIELD_SEP :: snd commit ++ [NEWLINE].

Definition render_log (commits : list (text * text)) : text :=
  concat (map (fun commit => RECORD_SEP :: log_record commit) commits).

Lemma parse_record_spec sha message :
  sha <> [] -> (forall c, c ∈ sha -> is_whitespace c = false /\ c <> FIELD_SEP) ->
  parse_record (sha ++ FIELD_SEP :: message) =
    Some (sha, match split_once FIELD_SEP message with Some (a, _) => a | None => message end).
Proof.
  intros Hne Hsha. destruct sha as [|c sha]; [done|]. unfold parse_record.
  destruct (Hsha c ltac:(by left)) as [Hw Hc].
  assert (Htrim : trim_start_matches NEWLINE ((c :: sha) ++ FIELD_SEP :: message) = (c :: sha) ++ FIELD_SEP :: message).
  { unfold trim_start_matches. cbn [drop_while app]. destruct (Z.eqb_spec NEWLINE c) as [<-|]; done. }
  rewrite Htrim. cbn [app]. rewrite not_blank by done. cbn [splitn]. change (c :: sha ++ ?x) with ((c :: sha) ++ x).
  rewrite split_once_sep. 2: { intros Hin. by destruct (Hsha _ Hin). }
  by destruct (split_once FIELD_SEP message) as [[a b]|].
Qed.

Lemma split_records b bodies :
  RECORD_SEP ∉ b -> (forall b, b ∈ bodies -> RECORD_SEP ∉ b) ->
  split_text RECORD_SEP (b ++ concat (map (cons RECORD_SEP) bodies)) = b :: bodies.
Proof.
  revert b. induction bodies as [|b' bodies IH]; intros b Hb Hbs; cbn.
  - rewrite app_nil_r. by apply split_text_none.
  - rewrite split_text_sep by done. rewrite IH; [done|by apply Hbs; left|]. intros b'' Hb''. apply Hbs. by right.
Qed.

Lemma parse_log_render commits :
  (forall commit, commit ∈ commits -> readable commit) ->
  parse_log (render_log commits) = map (fun '(sha, message) => (sha, message ++ [NEWLINE])) commits.
Proof.
  intros Hall. unfold parse_log, render_log.
  replace (concat (map (fun commit => RECORD_SEP :: log_record commit) commits))
    with ([] ++ concat (map (cons RECORD_SEP) (map log_record commits))) by (by rewrite map_map).
  rewrite split_records; [|by intros H%elem_of_nil|].
  - cbn [omap list_omap]. change (parse_record []) with (@None (text * text)). cbv beta iota.
    clear - Hall. induction commits as [|[sha message] commits IH]; [done|]. cbn [map omap list_omap].
    destruct (Hall (sha, message) ltac:(by left)) as (Hne & Hsha & Hf & _). cbn [fst snd] in *.
    unfold log_record at 1. cbn [fst snd]. rewrite parse_record_spec by naive_solver.
    rewrite split_once_none.
    + f_equal. apply IH. intros commit Hc. apply Hall. by right.
    + rewrite elem_of_app, list_elem_of_singleton. by intros [?|?].
  - intros b Hb. apply list_elem_of_In, in_map_iff in Hb as ([sha message] & <- & Hin).
    apply list_elem_of_In in Hin. destruct (Hall _ Hin) as (_ & Hsha & _ & Hr). cbn [fst snd] in *.
    unfold log_record. cbn [fst snd]. rewrite elem_of_app, elem_of_cons, elem_of_app, list_elem_of_singleton.
    intros [Hb|[Hb|[Hb|Hb]]]; try done. by destruct (Hsha _ Hb) as (_ & _ & ?).
Qed.

(** *** The gate *)

(** A repository with its whole history, and what git says of it. *)
Record full_history (which_bin : text -> bool) (git : list text -> result text unit)
    (raw : text) : Prop := {
  fh_git : which_bin (text_of "git") = true;
  fh_tree : git [text_of "rev-parse"; text_of "--is-inside-work-tree"] = Ok (text_of "true" ++ [NEWLINE]);
  fh_deep : git [text_of "rev-parse"; text_of "--is-shallow-repository"] = Ok (text_of "false" ++ [NEWLINE]);
  fh_log : git [text_of "log"; text_of "--all"; text_of "--no-color"; text_of "--format=%x1e%H%x1f%B"] = Ok raw
}.

Definition offenders_of (commits : list (text * text)) : list Offender :=
  concat (map (fun '(sha, message) => scan_message to_lowercase wanted sha message) commits).

Lemma authorship_full which_bin git raw :
  forbidden <> [] -> full_history which_bin git raw -> parse_log raw <> [] ->
  authorship to_lowercase forbidden which_bin git =
    match offenders_of (parse_log raw) with
    | [] => (Passed, Scanned (length (parse_log raw)))
    | found => (Failed, Banned found)
    end.
Proof.
  intros Hf [Hg Ht Hd Hl] Hne. unfold authorship. rewrite decide_False by done.
  rewrite Hg, Ht, Hd, Hl. cbn -[parse_log lines text_of].
  change (text_eqb (trim (text_of "true" ++ [NEWLINE])) (text_of "true")) with true.
  change (text_eqb (trim (text_of "false" ++ [NEWLINE])) (text_of "true")) with false. cbn -[parse_log].
  fold (offenders_of (parse_log raw)).
  destruct (parse_log raw); [done|]. by destruct (offenders_of _).
Qed.

Lemma offenders_nil commits :
  offenders_of commits = [] <->
  forall sha message line, (sha, message) ∈ commits -> line ∈ lines message -> ~ carries_banned line.
Proof.
  unfold offenders_of. rewrite concat_map_nil. split.
  - intros H sha message line Hc. specialize (H _ Hc). cbn in H. by apply (proj1 (scan_message_nil sha message)).
  - intros H [sha message] Hc. apply scan_message_nil. intros line. by apply (H sha).
Qed.

Lemma offender_found commits o :
  o ∈ offenders_of commits ->
  exists sha message line, (sha, message) ∈ commits /\ line ∈ lines message /\ carries_banned line.
Proof.
  intros Ho. apply list_elem_of_In, in_concat in Ho as (l & Hl & Ho).
  apply in_map_iff in Hl as ([sha message] & <- & Hc). unfold scan_message in Ho.
  apply in_concat in Ho as (l & Hl & Ho). apply in_map_iff in Hl as (line & <- & Hline).
  exists sha, message, line. split_and!; [by apply list_elem_of_In..|].
  apply line_violation_spec. by destruct (line_violation to_lowercase wanted line).
Qed.
End authorship_exact.

(** The authorship gate is exact, on the messages it can read. In a
    repository with its full history, the gate passes exactly when no line of
    any commit message reachable from any ref is [key: value] with a forbidden
    key -- in any case, with or without hyphens, underscores and spaces,
    whatever the value -- and fails exactly when some line is. That holds of
    messages without the two separators the log is printed with: what follows
    a unit separator in a message is never scanned, and a commit whose first
    lines are clean passes whatever trailer is behind it. *)
Theorem authorship_gate_is_exact (to_lowercase : Z -> list Z) (forbidden : list text)
    (which_bin : text -> bool) (git : list text -> result text unit) (commits : list (text * text))
    (Hforbidden : forbidden <> []) (Hcommits : commits <> [])
    (Hgit : full_history which_bin git (render_log commits)) :
  let outcome := fst (authorship to_lowercase forbidden which_bin git) in
  let banned sha message := exists line, (sha, message) ∈ commits /\
    line ∈ lines (message ++ [NEWLINE]) /\ carries_banned to_lowercase forbidden line in
  ((forall commit, commit ∈ commits -> readable commit) ->
     (outcome = Passed <-> forall sha message, ~ banned sha message) /\
     (outcome = Failed <-> exists sha message, banned sha message)) /\
  (forall sha clean hidden, commits = [(sha, clean ++ FIELD_SEP :: hidden)] ->
     readable (sha, clean) -> RECORD_SEP ∉ hidden ->
     (forall line, line ∈ lines clean -> ~ carries_banned to_lowercase forbidden line) ->
     outcome = Passed).
Proof.
  cbn zeta. split.
  - intros Hread. pose proof (parse_log_render commits Hread) as Hp.
    rewrite (authorship_full _ _ _ _ (render_log commits)); [|done|done|rewrite Hp; by destruct commits].
    pose proof (offenders_nil to_lowercase forbidden (parse_log (render_log commits))) as Ho. rewrite Hp in Ho |- *.
    assert (Hin : forall sha message, (sha, message) ∈ commits ->
      (sha, message ++ [NEWLINE]) ∈ map (fun '(sha, message) => (sha, message ++ [NEWLINE])) commits).
    { intros sha message Hc. apply list_elem_of_In, in_map_iff. exists (sha, message).
      split; [done|by apply list_elem_of_In]. }
    assert (Hback : forall sha m, (sha, m) ∈ map (fun '(sha, message) => (sha, message ++ [NEWLINE])) commits ->
      exists message, (sha, message) ∈ commits /\ m = message ++ [NEWLINE]).
    { intros sha m Hc. apply list_elem_of_In, in_map_iff in Hc as ([sha' message] & [= <- <-] & Hc).
      exists message. split; [by apply list_elem_of_In|done]. }
    assert (Hclean : offenders_of to_lowercase forbidden
        (map (fun '(sha, message) => (sha, message ++ [NEWLINE])) commits) = [] <->
      forall sha message, ~ exists line, (sha, message) ∈ commits /\ line ∈ lines (message ++ [NEWLINE]) /\
        carries_banned to_lowercase forbidden line).
    { rewrite Ho. split.
      - intros H sha message (line & Hc & Hl & Hb). by apply (H sha (message ++ [NEWLINE]) line); auto.
      - intros H sha m line Hc Hl Hb. destruct (Hback _ _ Hc) as (message & Hm & ->).
        apply (H sha message). by exists line. }
    destruct (offenders_of _ _ _) as [|o os] eqn:Hos; cbn [fst].
    + split; split; try done; [intros _; by apply Hclean|].
      intros (sha & message & Hb). by apply (proj1 Hclean eq_refl) in Hb.
    + split; split; try done.
      * intros H. by apply Hclean in H.
      * intros _. destruct (offender_found to_lowercase forbidden
          (map (fun '(sha, message) => (sha, message ++ [NEWLINE])) commits) o) as (sha & m & line & Hc & Hl & Hb);
          [rewrite Hos; by left|].
        destruct (Hback _ _ Hc) as (message & Hm & ->). exists sha, message, line. by split_and!.
  - intros sha clean hidden Heq (Hne & Hsha & Hf & Hr) Hh Hclean. cbn [fst snd] in *.
    assert (Hp : parse_log (render_log commits) = [(sha, clean)]).
    { subst commits. unfold parse_log, render_log. cbn [map concat].
      replace (RECORD_SEP :: log_record (sha, clean ++ FIELD_SEP :: hidden)) with
        ([] ++ concat (map (cons RECORD_SEP) [sha ++ FIELD_SEP :: clean ++ FIELD_SEP :: hidden ++ [NEWLINE]])).
      2: { cbn. rewrite app_nil_r. unfold log_record. cbn. by rewrite <- !app_assoc. }
      rewrite app_nil_r, split_records; [|by intros H%elem_of_nil|].
      - cbn [omap list_omap]. change (parse_record []) with (@None (text * text)). cbv beta iota.
        rewrite parse_record_spec by naive_solver. by rewrite split_once_sep.
      - intros b ->%list_elem_of_singleton. rewrite !elem_of_app, elem_of_cons, !elem_of_app, elem_of_cons,
          elem_of_app, list_elem_of_singleton.
        intros [Hb|[Hb|[Hb|[Hb|[Hb|Hb]]]]]; try done. by destruct (Hsha _ Hb) as (_ & _ & ?). }
    rewrite (authorship_full _ _ _ _ (render_log commits)) by (try done; by rewrite Hp). rewrite Hp.
    assert (Hno : offenders_of to_lowercase forbidden [(sha, clean)] = []).
    { apply offenders_nil. intros sha' m line Hc%list_elem_of_singleton Hl. simplify_eq. by apply Hclean. }
    by rewrite Hno.
Qed.

(** ** Concrete runs *)

Definition ascii_lowercase (c : Z) : list Z :=
  if ((65 <=? c) && (c <=? 90))%Z then [(c + 32)%Z] else [c].

(** A commit that says [fix], and behind a unit separator carries the trailer. *)
Definition hidden_trailer : list (text * text) :=
  [(text_of "0a1b2c3d", text_of "fix" ++ FIELD_SEP :: NEWLINE :: text_of "Co-Authored-By: somebody")].

Definition demo_git (args : list text) : result text unit :=
  if decide (args = [text_of "rev-parse"; text_of "--is-inside-work-tree"]) then Ok (text_of "true" ++ [NEWLINE])
  else if decide (args = [text_of "rev-parse"; text_of "--is-shallow-repository"])
  then Ok (text_of "false" ++ [NEWLINE])
  else Ok (render_log hidden_trailer).

Lemma authorship_gate_is_exact_witness :
  fst (authorship ascii_lowercase [text_of "co_authored_by"] (fun _ => true) demo_git) = Passed.
Proof.
  refine (proj2 (authorship_gate_is_exact ascii_lowercase [text_of "co_authored_by"] (fun _ => true) demo_git
    hidden_trailer _ _ _) (text_of "0a1b2c3d") (text_of "fix") (NEWLINE :: text_of "Co-Authored-By: somebody")
    eq_refl _ _ _).
  - discriminate.
  - discriminate.
  - split; vm_compute; reflexivity.
  - split_and!; [discriminate| |by_decision..].
    apply Forall_forall. by_decision.
  - by_decision.
  - intros line Hl (key & value & k & -> & _). 
    assert (Hc : COLON ∈ text_of "fix").
    { change (lines (text_of "fix")) with [text_of "fix"] in Hl. apply list_elem_of_singleton in Hl as <-.
      apply elem_of_app. right. by left. }
    revert Hc. by_decision.
Defined.

(** A contract that declares no gate at all. *)
Definition gateless (layers : list (text * list text)) : ContractFile :=
  mkContractFile (text_of "theSix") (text_of "2.0") [] (mkMergeReadiness default_tracker None None) [] []
    true true (mkRequired true true true true true true true true true true true) layers
    [text_of "case"] fault_classes [(text_of "invariant", true)] [text_of "target"] [text_of "requirement"]
    [text_of "event"] [text_of "requirement"] [text_of "field"].

(** Validation asks that every required list of cases hold something, but not
    the list of gates: a contract without gates is accepted, the default pass
    runs nothing, and the runner exits with success. *)
Lemma gateless_contract_verifies_nothing (m : Machine) (is_file : list text -> bool) (dry_run verbose : bool) :
  main m (Some []) (fun _ => Some (gateless [])) is_file dry_run verbose None = Some 0.
Proof. reflexivity. Qed.

(** The same contract is refused as soon as a layer names a test target. *)
Lemma unclaimed_layer_is_refused (m : Machine) (is_file : list text -> bool) (dry_run verbose : bool) :
  main m (Some []) (fun _ => Some (gateless [(text_of "unit", [text_of "integration"])])) is_file
    dry_run verbose None = Some 2.
Proof. reflexivity. Qed.

(** ** A real run and an abandoned one *)

Definition fmt_gate : Gate :=
  mkGate (text_of "fmt") GkCargo [] [text_of "fmt"; text_of "--check"] [] [] [] [].

(** A contract whose one gate checks the formatting. *)
Definition fmt_contract : ContractFile :=
  mkContractFile (text_of "theSix") (text_of "2.0") [fmt_gate] (mkMergeReadiness default_tracker None None)
    [] [text_of "fmt"]
    true true (mkRequired true true true true true true true true true true true) []
    [text_of "case"] fault_classes [(text_of "invariant", true)] [text_of "target"] [text_of "requirement"]
    [text_of "event"] [text_of "requirement"] [text_of "field"].

(** A machine on which [cargo fmt] succeeds exactly when it is not told xtask's
    own manifest directory. *)
Definition fmt_machine (env : list (OsText * OsText)) : Machine :=
  mkMachine (fun _ => None) env
    (fun argv env => Some (negb (existsb (fun b => text_eqb (fst b) (text_of "CARGO_MANIFEST_DIR")) env)))
    (fun _ => Err tt) (fun _ => None) (fun _ => None) (fun c => [c]).

Definition xtask_env : list (text * text) :=
  [(text_of "HOME", text_of "/root"); (text_of "CARGO_MANIFEST_DIR", text_of "/src/xtask")].

Definition xtask_os_env : list (OsText * OsText) :=
  map (fun b => (Unicode (fst b), Unicode (snd b))) xtask_env.

Lemma xtask_exit_code_is_honest_witness :
  exists code, main (fmt_machine xtask_os_env) (Some []) (fun _ => Some fmt_contract) (fun _ => true)
                 false false (Some CmdGates) = Some code /\ code = 0.
Proof.
  destruct (xtask_exit_code_is_honest (fmt_machine xtask_os_env) (Some []) (fun _ => Some fmt_contract)
    (fun _ => true) false xtask_env ltac:(vm_compute; reflexivity))
    as (_ & (code & Hc & H0 & _) & _).
  exists code. split; [exact Hc|]. apply H0. exists (contract_of fmt_contract).
  split; [split; vm_compute; reflexivity|].
  intros g Hg. apply list_elem_of_singleton in Hg. subst g.
  exists (text_of "cargo"), [text_of "fmt"; text_of "--check"]. split_and!; vm_compute; reflexivity.
Defined.

(** The same gate with one variable whose value is not Unicode. *)
Lemma non_unicode_variable_abandons_the_pass :
  main (fmt_machine [(Unicode (text_of "LS_COLORS"), NotUnicode [255%Z])]) (Some [])
    (fun _ => Some fmt_contract) (fun _ => true) false false (Some CmdGates) = None.
Proof. vm_compute. reflexivity. Qed.
