(* ===== verification/Printing.v ===== *)
(** * What the runner reports

    Models what [xtask/src/*.rs] tells its user: the search path, the summary of
    the toolchain, the one line kept of a gate's output, and the listings of
    the contract. What is printed is a list of lines. Durations are not: their
    [Debug] text is the standard library's. *)

From Stdlib Require Import String.
From S2P Require Import Prelude Text Display Contract Gates.
Local Open Scope Z_scope.

(** ** The search path *)

Definition SLASH : char := 47.

(** [Path::join] with a relative name. *)
Definition path_join (dir name : text) : text :=
  match last dir with
  | None => name
  | Some c => if c =? SLASH then dir ++ name else dir ++ SLASH :: name
  end.

(** [file_name] of a path that does not end in a slash. *)
Definition file_name (path : text) : text := List.last (split_text SLASH path) [].

(** [which_bin]; [PATH] may be unset. *)
Definition which_bin (path_var : option text) (is_file : text -> bool) (name : text) : option text :=
  match path_var with
  | None => None
  | Some path => List.find is_file (map (fun dir => path_join dir name) (split_text COLON path))
  end.

(** ** [Toolchain::summary] *)

Definition CRATE : text := text_of "thesix".

Definition linker_summary (self : Toolchain) : text :=
  match tc_linker self, tc_mold self with
  | Some c, Some m => file_name c ++ text_of " + " ++ file_name m
  | Some c, None => file_name c
  | _, _ => text_of "system default"
  end.

Definition toolchain_summary (self : Toolchain) : text :=
  text_of "crate: " ++ CRATE
  ++ text_of " | runner: " ++ text_of (if tc_nextest self then "nextest" else "cargo test")
  ++ text_of " | sccache: " ++ text_of (match tc_sccache self with Some _ => "on" | None => "off" end)
  ++ text_of " | linker: " ++ linker_summary self.

(** ** [summarize] *)

(** [{}] of a signed integer. *)
Definition signed (z : Z) : text := if z <? 0 then text_of "-" ++ decimal (- z) else decimal z.

(** [trim_start_matches] of a word: as often as it is there. Each round drops at
    least a character, so the length is fuel enough. *)
Fixpoint drop_prefixes (fuel : nat) (word s : text) : text :=
  match fuel with
  | O => s
  | S fuel =>
      match strip_prefix word s with
      | Some rest => drop_prefixes fuel word rest
      | None => s
      end
  end.

Definition KEYWORDS : list text :=
  map text_of ["Summary"; "test result"; "passed"; "Checking"; "Finished"; "error"; "warning"]%string.

Definition is_interesting (l : text) : bool :=
  negb (bool_decide (l = [])) && existsb (fun word => contains_text word l) KEYWORDS.

Definition shorten (l : text) : text :=
  let l := drop_prefixes (length l) (text_of "test result: ") l in
  if (110 <? length l)%nat then take 107 l ++ text_of "..." else l.

Definition summarize (output : text) (code : option Z) : option text :=
  match List.find is_interesting (map trim (rev (lines output))) with
  | Some l => Some (shorten l)
  | None => option_map (fun c => text_of "exit code " ++ signed c) code
  end.

(** ** Colours *)

Definition ESC : char := 27.
Definition escape (code : string) : text := ESC :: text_of ("[" ++ code ++ "m").
Definition RESET : text := escape "0".
Definition BOLD : text := escape "1".
Definition DIM : text := escape "2".
Definition RED : text := escape "31".
Definition GREEN : text := escape "32".
Definition YELLOW : text := escape "33".
Definition CYAN : text := escape "36".

Definition ok_label : text := GREEN ++ text_of "pass" ++ RESET.
Definition fail_label : text := RED ++ text_of "FAIL" ++ RESET.
Definition skip_label : text := YELLOW ++ text_of "skip" ++ RESET.

Definition outcome_label (o : GateOutcome) : text :=
  match o with Passed => ok_label | Failed => fail_label | Unavailable => skip_label end.

(** [{:<w}] *)
Definition pad (width : nat) (s : text) : text := s ++ replicate (width - length s) SPACE.

(** ** Listings *)

Definition print_contract (path : text) (c : Contract) : list text :=
  [BOLD ++ text_of "contract" ++ RESET ++ text_of " " ++ path;
   text_of "  " ++ CYAN ++ text_of "version" ++ RESET ++ text_of " " ++ ct_version c;
   text_of "  " ++ CYAN ++ text_of "gates" ++ RESET ++ text_of "   " ++ decimal (Z.of_nat (length (ct_gates c)));
   text_of "  " ++ CYAN ++ text_of "layers" ++ RESET ++ text_of "  " ++ decimal (Z.of_nat (length (ct_layers c)))]
  ++ map (fun '((label, count) : string * nat) =>
       text_of "  " ++ CYAN ++ pad 26 (text_of label) ++ RESET ++ text_of " " ++ decimal (Z.of_nat count))
       (declared_case_counts c)
  ++ [@nil char; BOLD ++ text_of "mandatory verification flags" ++ RESET]
  ++ map (fun '((flag, value) : string * bool) =>
       text_of "  " ++ pad 32 (text_of flag) ++ text_of " " ++
       (if value then GREEN ++ text_of "true" ++ RESET else RED ++ text_of "false" ++ RESET))
       (ct_required_booleans c)
  ++ [@nil char; GREEN ++ text_of "contract is internally consistent" ++ RESET;
      DIM ++ text_of "gate order matches declaration order; every layer target is claimed by a gate; fault taxonomy matches the crate"
      ++ RESET].

Definition gate_lines (deferred_only : bool) (g : Gate) : list text :=
  [text_of "  " ++ pad 16 (ga_name g) ++ text_of " " ++ pad 8 (text_of (GateKind_as_str (ga_kind g)))
   ++ text_of " "
   ++ (if deferred_only then YELLOW ++ text_of "deferred" ++ RESET else CYAN ++ text_of "required" ++ RESET);
   text_of "  " ++ pad 16 [] ++ text_of " " ++ DIM ++ ga_description g ++ RESET].

Definition print_gates (c : Contract) (deferred_only : bool) : list text :=
  let listed := if deferred_only then deferred c else default_pass c in
  (BOLD ++ text_of "gates" ++ RESET ++ text_of " " ++ DIM ++ text_of "("
   ++ decimal (Z.of_nat (length listed)) ++ text_of " shown)" ++ RESET)
  :: concat (map (gate_lines deferred_only) listed).

Definition print_layers (c : Contract) : list text :=
  (BOLD ++ text_of "test target layers" ++ RESET)
  :: map (fun '((layer, targets) : text * list text) =>
       text_of "  " ++ CYAN ++ pad 16 layer ++ RESET ++ text_of " " ++ join (text_of ", ") targets)
       (ct_layers c).

Definition print_toolchain (tc : Toolchain) : list text :=
  let entry (label : string) (path : option text) :=
    match path with Some p => [text_of label ++ p] | None => [] end in
  toolchain_summary tc :: entry "  sccache   "%string (tc_sccache tc)
  ++ entry "  linker    "%string (tc_linker tc) ++ entry "  mold      "%string (tc_mold tc).

(** ** What the reports say *)

(** A binary is found in the first directory of the path that has it. *)
Lemma which_bin_first path is_file name found :
  which_bin (Some path) is_file name = Some found <->
  exists before dir after, split_text COLON path = before ++ dir :: after /\
    found = path_join dir name /\ is_file found = true /\
    Forall (fun d => is_file (path_join d name) = false) before.
Proof.
  unfold which_bin. induction (split_text COLON path) as [|d dirs IH]; cbn.
  - split; [done|]. by intros ([|] & ? & ? & ? & _).
  - destruct (is_file (path_join d name)) eqn:Hd.
    + split.
      * intros [= <-]. exists [], d, dirs. by split_and!.
      * intros (before & dir & after & Heq & -> & Hf & Hb). destruct before as [|b before]; injection Heq as -> _.
        -- done.
        -- apply Forall_cons in Hb as [Hb _]. congruence.
    + rewrite IH. split.
      * intros (before & dir & after & -> & ? & ? & ?). exists (d :: before), dir, after. split_and!; auto.
      * intros (before & dir & after & Heq & -> & Hf & Hb). destruct before as [|b before].
        -- injection Heq as -> _. congruence.
        -- injection Heq as <- Heq. apply Forall_cons in Hb as [_ Hb]. by exists before, dir, after.
Qed.

Lemma shorten_bounded l : (length (shorten l) <= 110)%nat.
Proof.
  unfold shorten. destruct (Nat.ltb_spec 110 (length (drop_prefixes (length l) (text_of "test result: ") l))).
  - rewrite length_app, length_take. cbn [length text_of]. lia.
  - lia.
Qed.

Lemma drop_prefixes_done fuel word s :
  word <> [] -> (length s <= fuel)%nat -> strip_prefix word (drop_prefixes fuel word s) = None.
Proof.
  intros Hw. revert s. induction fuel as [|fuel IH]; intros s Hs; cbn [drop_prefixes].
  - destruct s; [|cbn in Hs; lia]. unfold strip_prefix. by destruct word.
  - destruct (strip_prefix word s) as [rest|] eqn:Hrest; [|done]. apply IH.
    unfold strip_prefix in Hrest. destruct (starts_with_text word s) eqn:Hst; [|done]. injection Hrest as <-.
    rewrite length_drop. destruct word; [done|]. cbn [length]. destruct s; [done|cbn [length] in *; lia].
Qed.

(** The line kept of a gate's output: at most 110 characters, never none when
    the process has an exit code, and when it quotes the output, it quotes the
    last line that has one of the keywords in it. *)
Lemma summarize_spec output code :
  match summarize output code with
  | Some s =>
      (exists before l after, lines output = before ++ l :: after /\ is_interesting (trim l) = true /\
         Forall (fun x => is_interesting (trim x) = false) after /\ s = shorten (trim l) /\
         (length s <= 110)%nat) \/
      (Forall (fun x => is_interesting (trim x) = false) (lines output) /\
         exists c, code = Some c /\ s = text_of "exit code " ++ signed c)
  | None => code = None
  end.
Proof.
  unfold summarize. rewrite <- (rev_involutive (lines output)). set (ls := rev (lines output)).
  rewrite rev_involutive. induction ls as [|l ls IH]; cbn [map List.find].
  - destruct code as [c|]; cbn; [|done]. right. split; [apply Forall_nil; done|]. by exists c.
  - destruct (is_interesting (trim l)) eqn:Hl.
    + left. exists (rev ls), l, []. cbn [rev]. split_and!; [done..|]. apply shorten_bounded.
    + destruct (List.find is_interesting (map trim ls)) as [x|]; cbn [option_map] in *.
      * destruct IH as [(b & y & a & Heq & Hy & Ha & Hs)|[Hall Hc]].
        -- left. exists b, y, (a ++ [l]). cbn [rev]. rewrite Heq. split_and!; [by rewrite <- app_assoc|done| |apply Hs..].
           apply Forall_app. split; [done|]. by apply Forall_singleton.
        -- right. cbn [rev]. split; [|done]. apply Forall_app. split; [done|]. by apply Forall_singleton.
      * destruct code as [c|]; cbn [option_map] in *; [|done].
        destruct IH as [(b & y & a & Heq & Hy & Ha & Hs)|[Hall Hc]].
        -- left. exists b, y, (a ++ [l]). cbn [rev]. rewrite Heq. split_and!; [by rewrite <- app_assoc|done| |apply Hs..].
           apply Forall_app. split; [done|]. by apply Forall_singleton.
        -- right. cbn [rev]. split; [|done]. apply Forall_app. split; [done|]. by apply Forall_singleton.
Qed.

(** The listings show every gate exactly once, the deferred ones apart. *)
Lemma print_gates_length c deferred_only :
  length (print_gates c deferred_only) =
  S (2 * length (if deferred_only then deferred c else default_pass c)).
Proof.
  unfold print_gates. cbn [length]. f_equal. induction (if deferred_only then _ else _) as [|g l IH]; [done|].
  cbn [map concat]. rewrite length_app, IH. cbn. lia.
Qed.
