(* ===== verification/Registries.v ===== *)
(** * The registries of what the tests cover

    Models the tables of [testkit/src/coverage.rs] and the comparisons between
    a table and what the contract requires. *)

From Stdlib Require Import String.
From S2P Require Import Prelude Text Fault.

(** ** The tables *)

(** The negative cases the contract requires. *)
Definition NEGATIVE_CASES : list string := [
  "backend_unavailable"; "backend_timeout"; "backend_hang"; "malformed_response";
  "malformed_payload"; "corrupt_payload"; "invalid_metadata"; "capacity_exhaustion";
  "eviction_reclaims_a_saturated_ladder"; "cancelled_operation"; "duplicate_operation";
  "stale_generation"; "write_contended"; "generation_conflict"; "partial_write";
  "partial_promotion"; "authority_unavailable"; "fallback_unavailable"; "recovery_failure";
  "process_restart"; "invalid_configuration"
]%string.

(** The fault classes the contract requires. *)
Definition FAULT_CLASSES : list string := [
  "latency"; "timeout"; "hang"; "read_failure"; "write_failure"; "metadata_failure";
  "corruption"; "disconnect"; "capacity_exhaustion"; "failure_after_n_operations";
  "cancellation"; "partial_write"
]%string.

(** The property invariants the contract requires. *)
Definition PROPERTY_INVARIANTS : list string := [
  "no_silent_data_loss"; "no_cross_key_corruption"; "no_authority_inversion";
  "no_invalid_state_promotion"; "no_deadlock"; "no_lock_across_await";
  "no_capability_misreporting"; "no_false_durability"; "recovery_is_idempotent"
]%string.

(** Each property invariant with the test that proves it. *)
Definition PROPERTY_CASE_PROOFS : list (string * string) := [
  ("no_silent_data_loss", "tests/property/main.rs::no_silent_data_loss");
  ("no_cross_key_corruption", "tests/property/main.rs::no_cross_key_corruption");
  ("no_authority_inversion", "tests/property/main.rs::no_authority_inversion");
  ("no_invalid_state_promotion", "tests/property/main.rs::no_invalid_state_promotion");
  ("no_deadlock", "tests/property/main.rs::control_plane_survives_a_wedged_data_plane");
  ("no_lock_across_await", "tests/property/main.rs::control_plane_survives_a_wedged_data_plane");
  ("no_capability_misreporting", "tests/property/main.rs::no_capability_misreporting");
  ("no_false_durability", "tests/property/main.rs::no_capability_misreporting");
  ("recovery_is_idempotent", "tests/property/main.rs::recovery_is_idempotent")
]%string.

(** Each fault with the test that injects it. *)
Definition FAULT_CASE_PROOFS : list (string * string) := [
  ("latency", "tests/fault_injection/main.rs::latency_stalls_without_failing");
  ("timeout", "tests/fault_injection/main.rs::timeout_fails_the_operation");
  ("hang",
   "tests/fault_injection/main.rs::hang_parks_the_operation_and_leaves_the_control_plane_free");
  ("read_failure", "tests/fault_injection/main.rs::read_failure_fails_a_read_only");
  ("write_failure",
   "tests/fault_injection/main.rs::write_failure_never_serves_the_replacement_and_leaves_no_intent");
  ("metadata_failure",
   "tests/fault_injection/main.rs::metadata_failure_fails_the_operation_but_not_the_entry");
  ("corruption", "tests/fault_injection/main.rs::corruption_is_detected_rather_than_served");
  ("disconnect", "tests/fault_injection/main.rs::disconnect_looks_like_an_unavailable_rung");
  ("capacity_exhaustion",
   "tests/fault_injection/main.rs::capacity_exhaustion_is_reported_as_such");
  ("failure_after_n_operations",
   "tests/fault_injection/main.rs::failure_after_n_operations_succeeds_first_then_fails");
  ("cancellation", "tests/fault_injection/main.rs::cancellation_releases_the_claim");
  ("partial_write",
   "tests/fault_injection/main.rs::the_partial_write_fault_really_stores_bytes_before_failing")
]%string.

(** Each declared invariant with the test that proves it. *)
Definition INVARIANT_PROOFS : list (string * string) := [
  ("engineering.lock_across_await",
   "tests/property/main.rs::control_plane_survives_a_wedged_data_plane");
  ("verification.anti_vacuity_required",
   "tests/contract/main.rs::required_verification_flags_are_all_set");
  ("verification.required.check_all_features",
   "tests/contract/main.rs::required_verification_flags_are_all_set");
  ("verification.required.check_all_targets",
   "tests/contract/main.rs::required_verification_flags_are_all_set");
  ("verification.required.clippy_warnings_as_errors",
   "tests/contract/main.rs::required_verification_flags_are_all_set");
  ("verification.required.dependency_audit",
   "tests/contract/main.rs::required_verification_flags_are_all_set");
  ("verification.required.dependency_hygiene",
   "tests/contract/main.rs::required_verification_flags_are_all_set");
  ("verification.required.doctests",
   "tests/contract/main.rs::required_verification_flags_are_all_set");
  ("verification.required.documentation",
   "tests/contract/main.rs::required_verification_flags_are_all_set");
  ("verification.required.fmt", "tests/contract/main.rs::required_verification_flags_are_all_set");
  ("verification.required.package_validation",
   "tests/contract/main.rs::required_verification_flags_are_all_set");
  ("verification.required.tests_all_features",
   "tests/contract/main.rs::required_verification_flags_are_all_set");
  ("verification.required.tests_all_targets",
   "tests/contract/main.rs::required_verification_flags_are_all_set");
  ("verification.verification_required",
   "tests/contract/main.rs::required_verification_flags_are_all_set");
  ("capabilities.eviction_policy_is_tier_defined",
   "tests/capability.rs::eviction_policy_is_the_tiers_choice_not_the_crates");
  ("cia.availability.write_race_exhaustion_reports_contended",
   "tests/negative/main.rs::write_contended");
  ("engineering.ci_actions_sha_pinned",
   "tests/contract/main.rs::every_ci_action_reference_is_pinned_by_sha");
  ("engineering.design.tier_topology_is_replaceable",
   "tests/capability.rs::the_tier_topology_is_replaceable_behind_the_trait");
  ("engineering.eviction_is_control_plane_authorised",
   "tests/concurrency.rs::an_entry_under_population_is_not_evictable");
  ("engineering.eviction_is_last_resort_after_degradation",
   "tests/soak/main.rs::the_manager_degrades_down_the_ladder_before_it_fails");
  ("engineering.eviction_may_discard_a_ready_entry",
   "tests/negative/main.rs::eviction_reclaims_a_saturated_ladder");
  ("engineering.fake_durability",
   "tests/durability/main.rs::verified_durability_is_earned_not_assumed");
  ("engineering.hidden_blocking",
   "tests/await_safety.rs::the_crates_own_source_carries_no_unsafe_and_no_blocking_calls");
  ("engineering.runtime_block_on",
   "tests/await_safety.rs::the_crates_own_source_carries_no_unsafe_and_no_blocking_calls");
  ("engineering.rust_memory_safety_required",
   "tests/await_safety.rs::the_crates_own_source_carries_no_unsafe_and_no_blocking_calls");
  ("engineering.silent_backend_substitution",
   "tests/l6_authority.rs::unbound_l6_is_reported_not_substituted");
  ("engineering.unnecessary_dependencies",
   "tests/contract/workflow.rs::every_declared_gate_is_executed_by_a_ci_job");
  ("engineering.unsafe_requires_justification",
   "tests/await_safety.rs::the_crates_own_source_carries_no_unsafe_and_no_blocking_calls");
  ("verification.adversarial.concurrency",
   "tests/contract/main.rs::every_adversarial_layer_is_enabled_and_bound_to_a_target");
  ("verification.adversarial.durability",
   "tests/contract/main.rs::every_adversarial_layer_is_enabled_and_bound_to_a_target");
  ("verification.adversarial.fault_injection",
   "tests/contract/main.rs::every_adversarial_layer_is_enabled_and_bound_to_a_target");
  ("verification.adversarial.fuzz",
   "tests/contract/main.rs::every_adversarial_layer_is_enabled_and_bound_to_a_target");
  ("verification.adversarial.negative",
   "tests/contract/main.rs::every_adversarial_layer_is_enabled_and_bound_to_a_target");
  ("verification.adversarial.performance",
   "tests/contract/main.rs::every_adversarial_layer_is_enabled_and_bound_to_a_target");
  ("verification.adversarial.property",
   "tests/contract/main.rs::every_adversarial_layer_is_enabled_and_bound_to_a_target");
  ("verification.adversarial.recovery",
   "tests/contract/main.rs::every_adversarial_layer_is_enabled_and_bound_to_a_target");
  ("verification.adversarial.security",
   "tests/contract/main.rs::every_adversarial_layer_is_enabled_and_bound_to_a_target");
  ("verification.adversarial.soak",
   "tests/contract/main.rs::every_adversarial_layer_is_enabled_and_bound_to_a_target");
  ("verification.anti_vacuity.blocked_state_must_be_verified",
   "tests/fault_injection/main.rs::hang_parks_the_operation_and_leaves_the_control_plane_free");
  ("verification.anti_vacuity.corruption_must_be_verified",
   "tests/fault_injection/main.rs::corruption_is_detected_rather_than_served");
  ("verification.anti_vacuity.fallback_path_must_be_verified",
   "tests/soak/main.rs::the_manager_degrades_down_the_ladder_before_it_fails");
  ("verification.anti_vacuity.fault_activation_must_be_verified",
   "tests/fault_injection/main.rs::latency_stalls_without_failing");
  ("verification.anti_vacuity.recovery_path_must_be_verified",
   "tests/recovery/main.rs::an_aborted_prepared_write_is_not_left_readable");
  ("verification.every_invariant_has_a_proof_or_waiver",
   "tests/contract/invariant.rs::every_declared_invariant_has_a_proof_or_a_waiver");
  ("verification.merge_readiness.tracker",
   "xtask/src/gates.rs::the_tracker_path_is_read_from_the_contract");
  ("concurrency.testing.promotion_eviction_races",
   "tests/concurrency.rs::eviction_invalidates_an_in_flight_commit");
  ("capabilities.must_distinguish.recovering_from_available",
   "tests/capability.rs::recovering_is_reported_as_recovering_and_distinguished_from_available");
  ("cia.availability.unbounded_retry",
   "tests/negative/main.rs::retry_counts_are_bounded_and_observed");
  ("cia.integrity.silent_stale_data_acceptance",
   "tests/integration.rs::stale_service_is_reported_rather_than_silent");
  ("concurrency.nested_block_on",
   "tests/await_safety.rs::nested_block_on_is_absent_from_the_crate_and_would_be_caught");
  ("acid.atomicity.cancelled_operation_may_commit_partially",
   "tests/recovery/main.rs::an_aborted_prepared_write_is_not_left_readable");
  ("acid.atomicity.commit_protocol",
   "tests/loom/main.rs::concurrent_commit_and_abort_leave_a_settled_state");
  ("acid.atomicity.partial_commit_visible",
   "tests/fault_injection/main.rs::a_misreported_write_never_serves_its_residue");
  ("acid.atomicity.prepare_state",
   "tests/recovery/main.rs::a_prepared_entry_is_invisible_to_readers");
  ("acid.atomicity.read_of_uncommitted_entry",
   "tests/recovery/main.rs::a_prepared_entry_is_invisible_to_readers");
  ("acid.atomicity.recovery_direction_prepare_move",
   "tests/contract/main.rs::declared_recovery_directions_match_what_the_runtime_can_execute");
  ("acid.atomicity.recovery_direction_prepare_write",
   "tests/recovery/main.rs::an_aborted_prepared_write_is_not_left_readable");
  ("acid.atomicity.recovery_must_be_idempotent", "tests/recovery/main.rs::recovery_is_idempotent");
  ("acid.atomicity.required",
   "tests/contract/invariant.rs::every_semantic_section_is_marked_required");
  ("acid.consistency.authority_inversion", "tests/property/main.rs::no_authority_inversion");
  ("acid.consistency.corruption_may_be_silently_accepted",
   "tests/property/main.rs::corruption_is_never_swallowed");
  ("acid.consistency.invalid_state_may_be_promoted",
   "tests/property/main.rs::no_invalid_state_promotion");
  ("acid.consistency.required",
   "tests/contract/invariant.rs::every_semantic_section_is_marked_required");
  ("acid.consistency.stale_generation_may_overwrite_newer_generation",
   "tests/security/main.rs::a_stale_generation_is_rejected");
  ("acid.durability.committed_data_must_survive_required_failure_domain",
   "tests/durability/main.rs::a_committed_value_survives_a_restart");
  ("acid.durability.fallback_may_claim_authority_durability",
   "tests/capability.rs::l0_reports_exactly_in_memory_and_volatile");
  ("acid.durability.false_durability_claims",
   "tests/property/main.rs::no_capability_misreporting");
  ("acid.durability.required",
   "tests/contract/invariant.rs::every_semantic_section_is_marked_required");
  ("acid.isolation.cross_key_interference", "tests/property/main.rs::no_cross_key_corruption");
  ("acid.isolation.deadlock_tolerance",
   "tests/property/main.rs::control_plane_survives_a_wedged_data_plane");
  ("acid.isolation.intermediate_state_visibility",
   "tests/recovery/main.rs::a_prepared_entry_is_invisible_to_readers");
  ("acid.isolation.lock_guard_across_await",
   "tests/await_safety.rs::control_plane_stays_responsive_while_a_tier_awaits");
  ("acid.isolation.required",
   "tests/contract/invariant.rs::every_semantic_section_is_marked_required");
  ("acid.required", "tests/contract/invariant.rs::every_semantic_section_is_marked_required");
  ("authority.authority_loss_must_be_observable",
   "tests/durability/main.rs::authority_loss_is_observable");
  ("authority.explicit", "tests/contract/main.rs::authority_semantics_are_explicit_not_inferred");
  ("authority.l6.role", "tests/contract/main.rs::authority_rung_is_the_one_past_the_ladder");
  ("autonomy.bootstrap.absent_url_binds_no_redis_backend",
   "src/governor/bootstrap.rs::a_missing_url_binds_nothing_and_is_not_an_error");
  ("autonomy.bootstrap.degraded_binding_is_reported_loudly",
   "src/governor/bootstrap.rs::an_unreachable_server_degrades_loudly_and_rebindably");
  ("autonomy.bootstrap.invalid_url_is_a_configuration_error",
   "src/governor/bootstrap.rs::a_non_redis_url_is_a_configuration_error");
  ("autonomy.bootstrap.required",
   "tests/contract/invariant.rs::every_semantic_section_is_marked_required");
  ("autonomy.bootstrap.valkey_scheme_is_normalized",
   "src/governor/bootstrap.rs::a_valkey_url_normalizes_to_what_the_client_parses");
  ("autonomy.fully_autonomous_task_is_cancel_safe",
   "tests/autonomy.rs::aborting_the_spawned_governor_leaves_no_wedged_key");
  ("autonomy.manual_mode_executes_nothing",
   "tests/autonomy.rs::manual_tick_returns_a_plan_and_executes_nothing");
  ("autonomy.mode_is_escalating", "tests/autonomy.rs::the_modes_escalate_by_execution_surface");
  ("autonomy.movement.acts_only_on_registered_keys",
   "tests/autonomy.rs::only_census_keys_are_moved");
  ("autonomy.movement.cancelled_moves_are_resolved_by_the_next_tick",
   "tests/autonomy.rs::a_cancelled_move_is_resolved_by_the_next_tick");
  ("autonomy.movement.has_no_key_of_its_own",
   "src/governor/mod.rs::a_missing_census_is_a_stated_skip");
  ("autonomy.movement.move_budget_is_enforced", "src/governor/mod.rs::the_move_budget_saturates");
  ("autonomy.movement.required",
   "tests/contract/invariant.rs::every_semantic_section_is_marked_required");
  ("autonomy.movement.requires_observed_heat",
   "src/governor/mod.rs::a_missing_heat_source_is_a_stated_skip");
  ("autonomy.movement.respects_last_cache_rung",
   "src/governor/mod.rs::the_planner_never_targets_the_authority_rung");
  ("autonomy.movement.runs_through_the_manager",
   "tests/autonomy.rs::autonomous_moves_go_through_the_managers_public_api");
  ("autonomy.rebind.rebind_preserves_capability_honesty",
   "src/tier/hot_rung.rs::the_wrapper_forwards_the_inner_tier_identity");
  ("autonomy.rebind.rebind_refuses_a_foreign_rung",
   "src/tier/hot_rung.rs::a_swap_refuses_a_tier_claiming_another_rung");
  ("autonomy.rebind.required",
   "tests/contract/invariant.rs::every_semantic_section_is_marked_required");
  ("autonomy.required", "tests/contract/invariant.rs::every_semantic_section_is_marked_required");
  ("autonomy.semi_mode_executes_maintenance_only",
   "tests/autonomy.rs::semi_tick_executes_maintenance_and_leaves_movement_unapplied");
  ("autonomy.sweeps.expired_sweep_is_control_plane_only",
   "tests/autonomy.rs::the_expiry_sweep_touches_the_control_plane_never_data");
  ("autonomy.sweeps.expired_sweep_spares_the_authority_rung",
   "src/control/cachelito.rs::the_expiry_sweep_spared_nothing_until_the_authority_won_that_rule");
  ("autonomy.sweeps.maintenance_legs_are_planned_unconditionally",
   "src/governor/mod.rs::the_planner_never_targets_the_authority_rung");
  ("autonomy.sweeps.required",
   "tests/contract/invariant.rs::every_semantic_section_is_marked_required");
  ("autonomy.sweeps.sweeps_are_idempotent",
   "tests/autonomy.rs::sweeps_are_idempotent_across_ticks");
  ("autonomy.stats.plane_stats_expose_no_key_or_payload",
   "src/control/cachelito.rs::plane_stats_counts_every_entry_exactly_once_and_exposes_nothing_else");
  ("autonomy.stats.required",
   "tests/contract/invariant.rs::every_semantic_section_is_marked_required");
  ("authority.fallback_may_be_authoritative",
   "tests/capability.rs::only_the_authority_rung_claims_authority");
  ("authority.inferred_from_tier_number",
   "tests/contract/main.rs::authority_semantics_are_explicit_not_inferred");
  ("authority.l6.durability_required",
   "tests/capability.rs::nothing_claims_verified_durability_without_a_restart_test");
  ("authority.l6.implementation",
   "tests/contract/main.rs::authority_semantics_are_explicit_not_inferred");
  ("authority.l6.last_cache_rung",
   "tests/contract/main.rs::authority_rung_is_the_one_past_the_ladder");
  ("capabilities.model.durability_axis", "tests/contract/main.rs::capability_state_is_explicit");
  ("capabilities.model.property_axis", "tests/contract/main.rs::capability_state_is_explicit");
  ("capabilities.model.state_axis", "tests/contract/main.rs::capability_state_is_explicit");
  ("capabilities.must_distinguish.degraded_from_healthy",
   "tests/capability.rs::operational_state_is_queryable_without_an_operation");
  ("capabilities.must_distinguish.fallback_from_authority",
   "tests/capability.rs::default_build_reports_fallbacks_not_rich_backends");
  ("capabilities.must_distinguish.unbound_from_unavailable",
   "tests/capability.rs::unbound_is_reported_as_unbound_not_unavailable");
  ("capabilities.must_distinguish.volatile_from_persistent",
   "tests/capability.rs::the_persistent_rung_does_not_claim_persistence_by_default");
  ("capabilities.operation_failure_must_not_be_primary_discovery_mechanism",
   "tests/capability.rs::operational_state_is_queryable_without_an_operation");
  ("capabilities.required",
   "tests/contract/invariant.rs::every_semantic_section_is_marked_required");
  ("capabilities.unbound_rung_is_substituted",
   "tests/property/main.rs::continuity_never_claims_an_unbound_rung_is_healthy");
  ("cia.availability.control_plane_blocked_by_data_plane",
   "tests/await_safety.rs::control_plane_stays_responsive_while_a_tier_awaits");
  ("cia.availability.recovery_required",
   "tests/recovery/main.rs::the_sweep_finds_a_generation_zero_intent");
  ("cia.availability.required",
   "tests/contract/invariant.rs::every_semantic_section_is_marked_required");
  ("cia.availability.single_tier_failure_must_cascade",
   "tests/recovery/main.rs::one_failing_rung_does_not_cascade");
  ("cia.availability.unbounded_queue_growth",
   "tests/soak/main.rs::sustained_traffic_with_faults_keeps_serving");
  ("cia.confidentiality.cross_key_data_exposure",
   "tests/security/main.rs::keys_within_a_tenant_are_isolated");
  ("cia.confidentiality.cross_tenant_access",
   "tests/security/main.rs::one_tenant_cannot_overwrite_another");
  ("cia.confidentiality.key_identity_is_non_reversible",
   "tests/security/main.rs::key_identity_is_not_reversible_by_construction");
  ("cia.confidentiality.payload_in_error_messages",
   "tests/security/main.rs::errors_carry_no_payload_or_key");
  ("cia.confidentiality.payload_in_telemetry",
   "tests/security/main.rs::telemetry_carries_no_payload_and_no_key");
  ("cia.confidentiality.required",
   "tests/contract/invariant.rs::every_semantic_section_is_marked_required");
  ("cia.confidentiality.unintended_tier_exposure",
   "tests/contract/main.rs::the_consumer_never_needs_backend_identity");
  ("cia.integrity.corrupt_data_promoted",
   "tests/fault_injection/main.rs::corruption_is_detected_rather_than_served");
  ("cia.integrity.digest", "src/integrity.rs::seeded_hasher_matches_the_byte_lane_it_mirrors");
  ("cia.integrity.digest_is_cryptographic",
   "src/integrity.rs::blanket_digest_is_two_seeded_fnv_lanes_over_the_hash_stream");
  ("cia.integrity.required",
   "tests/contract/invariant.rs::every_semantic_section_is_marked_required");
  ("cia.integrity.silent_corruption", "tests/security/main.rs::a_corrupt_value_is_never_served");
  ("cia.integrity.silent_generation_conflict",
   "tests/stampede.rs::test_stale_generation_rejection");
  ("cia.required", "tests/contract/invariant.rs::every_semantic_section_is_marked_required");
  ("concurrency.cancel_safe",
   "tests/recovery/main.rs::a_cancelled_set_releases_its_commit_intent");
  ("concurrency.deadlock_free",
   "tests/property/main.rs::control_plane_survives_a_wedged_data_plane");
  ("concurrency.lock_guard_across_await",
   "tests/await_safety.rs::control_plane_stays_responsive_while_a_tier_awaits");
  ("concurrency.race_free",
   "tests/loom/main.rs::concurrent_commit_and_abort_leave_a_settled_state");
  ("concurrency.required",
   "tests/contract/invariant.rs::every_semantic_section_is_marked_required");
  ("concurrency.testing.adversarial_scheduler",
   "tests/loom/main.rs::concurrent_commit_and_abort_leave_a_settled_state");
  ("concurrency.testing.cancellation_races",
   "tests/recovery/main.rs::a_cancelled_write_does_not_wedge_the_population_path");
  ("concurrency.testing.concurrent_reads", "tests/concurrency.rs::test_concurrent_readers");
  ("concurrency.testing.concurrent_writes",
   "tests/concurrency.rs::test_concurrent_writer_readers");
  ("concurrency.testing.loom_scope",
   "tests/loom/main.rs::the_shard_lock_serialises_independent_keys_correctly");
  ("concurrency.testing.random_interleavings",
   "tests/property/main.rs::generations_never_regress");
  ("concurrency.testing.read_write_races", "tests/concurrency.rs::test_concurrent_writer_readers");
  ("concurrency.testing.recovery_traffic_overlap",
   "tests/recovery/main.rs::continuity_is_observable_under_traffic");
  ("continuity.backend_failure_isolation",
   "tests/fault_injection/main.rs::one_failing_rung_does_not_take_the_others_down");
  ("continuity.explicit_state_transitions",
   "tests/recovery/main.rs::entry_states_classify_into_the_machine");
  ("continuity.graceful_degradation",
   "tests/capability.rs::the_ladder_works_end_to_end_with_only_fallbacks");
  ("continuity.reconciliation",
   "tests/recovery/main.rs::an_unresolvable_move_is_reported_separately_from_a_failure");
  ("continuity.recovery.idempotent", "tests/recovery/main.rs::recovery_is_idempotent");
  ("continuity.recovery.partial_recovery_safe",
   "tests/recovery/main.rs::concurrent_recovery_is_safe");
  ("continuity.recovery.recovery_failure_must_be_observable",
   "tests/recovery/main.rs::recovery_outcomes_are_distinguishable");
  ("continuity.recovery.repeatable", "tests/recovery/main.rs::recovery_is_idempotent");
  ("continuity.required",
   "tests/contract/invariant.rs::every_semantic_section_is_marked_required");
  ("hpa.control_plane.global_data_plane_lock",
   "tests/await_safety.rs::a_parked_tier_does_not_block_other_keys");
  ("hpa.control_plane.must_remain_responsive_during_data_plane_stall",
   "tests/await_safety.rs::control_plane_stays_responsive_while_a_tier_awaits");
  ("hpa.isolation.hot_key_may_block_unrelated_keys",
   "tests/performance/main.rs::a_hot_key_does_not_starve_cold_keys");
  ("hpa.isolation.hot_shard_may_block_entire_pipeline",
   "tests/performance/main.rs::distinct_shards_do_not_serialise");
  ("hpa.isolation.slow_backend_may_block_control_plane",
   "tests/fault_injection/main.rs::hang_parks_the_operation_and_leaves_the_control_plane_free");
  ("hpa.required", "tests/contract/invariant.rs::every_semantic_section_is_marked_required")
]%string.

(** ** Comparisons *)

#[export] Instance string_eq_dec : EqDecision string := String.string_dec.

Definition mem_name (n : string) (l : list string) : bool := bool_decide (n ∈ l).

Definition missing_from_contract (required covered : list string) : list string :=
  List.filter (fun r => negb (mem_name r covered)) required.

(** The description of the difference, in both directions. *)
Definition diff (expected actual : list string) : string :=
  let missing := List.filter (fun e => negb (mem_name e actual)) expected in
  let extra := List.filter (fun a => negb (mem_name a expected)) actual in
  let part (label : string) (names : list string) : string :=
    match names with
    | [] => ""
    | _ => String (Ascii.ascii_of_nat 10) ("  " ++ label ++ ": " ++ String.concat ", " names)
    end%string in
  let out := (part "missing" missing ++ part "unexpected" extra)%string in
  if (out =? "")%string
  then String (Ascii.ascii_of_nat 10) "  (lists match, but lengths differ: duplicate entries?)"
  else out.

Definition unclaimed (declared : list string) (registry : list (string * string)) : list string :=
  List.filter (fun name => negb (existsb (fun entry => (entry.1 =? name)%string) registry)) declared.

Definition overclaimed (declared : list string) (registry : list (string * string)) : list string :=
  map fst (List.filter (fun entry => negb (mem_name entry.1 declared)) registry).

(** The last resort of [diff]: both lists have the same members. *)
Definition same_members : string :=
  String (Ascii.ascii_of_nat 10) "  (lists match, but lengths differ: duplicate entries?)".

(** ** What they decide *)

Lemma filter_nil {A} (f : A -> bool) l : List.filter f l = [] <-> forall x, x ∈ l -> f x = false.
Proof.
  induction l as [|y l IH]; cbn; [by split; [intros _ x ?%elem_of_nil|]|].
  destruct (f y) eqn:Hy; split.
  - done.
  - intros H. rewrite H in Hy by left. done.
  - intros H x [->|Hx]%elem_of_cons; [done|by apply IH].
  - intros H. apply IH. intros x Hx. apply H. by right.
Qed.

Lemma missing_spec required covered :
  missing_from_contract required covered = [] <-> forall r, r ∈ required -> r ∈ covered.
Proof.
  unfold missing_from_contract. rewrite filter_nil. unfold mem_name.
  split; intros H r Hr; specialize (H r Hr).
  - apply negb_false_iff in H. by apply bool_decide_eq_true in H.
  - apply negb_false_iff. by apply bool_decide_eq_true.
Qed.

Lemma unclaimed_spec declared registry :
  unclaimed declared registry = [] <-> forall n, n ∈ declared -> n ∈ map fst registry.
Proof.
  unfold unclaimed. rewrite filter_nil. split; intros H n Hn; specialize (H n Hn).
  - apply negb_false_iff, existsb_exists in H as (e & He & Heq). apply String.eqb_eq in Heq as <-.
    apply list_elem_of_In. by apply in_map.
  - apply negb_false_iff, existsb_exists. apply list_elem_of_In, in_map_iff in H as (e & <- & He).
    exists e. split; [done|apply String.eqb_refl].
Qed.

Lemma overclaimed_spec declared registry :
  overclaimed declared registry = [] <-> forall n, n ∈ map fst registry -> n ∈ declared.
Proof.
  unfold overclaimed. split.
  - intros H%map_eq_nil n Hn. apply list_elem_of_In, in_map_iff in Hn as (e & <- & He).
    pose proof (proj1 (filter_nil _ _) H e ltac:(by apply list_elem_of_In)) as Hm.
    apply negb_false_iff in Hm. by apply bool_decide_eq_true in Hm.
  - intros H. rewrite (proj2 (filter_nil _ _)); [done|]. intros e He. apply negb_false_iff.
    apply bool_decide_eq_true, H. by apply list_elem_of_In, in_map, list_elem_of_In.
Qed.

(** [diff] says the lists have the same members exactly when they do. *)
Lemma diff_spec expected actual :
  diff expected actual = same_members <-> forall n, n ∈ expected <-> n ∈ actual.
Proof.
  unfold diff, same_members.
  set (missing := List.filter _ expected). set (extra := List.filter _ actual).
  assert (Hm : missing = [] <-> forall r, r ∈ expected -> r ∈ actual) by apply (missing_spec expected actual).
  assert (Hx : extra = [] <-> forall r, r ∈ actual -> r ∈ expected) by apply (missing_spec actual expected).
  transitivity (missing = [] /\ extra = []).
  - destruct missing as [|m missing], extra as [|x extra]; cbn; (split; [|by intros []]); try done.
  - rewrite Hm, Hx. split; [intros [H1 H2] n; split; auto|intros H; split; intros n Hn; by apply H].
Qed.

(** ** What the contract requires *)

(** [testing.negative.cases], [testing.fault_injection.faults] and the keys of
    [testing.property.invariants], as the contract file has them. *)
Definition contract_negative_cases : list string := [
  "backend_unavailable"; "backend_timeout"; "backend_hang"; "malformed_response";
  "malformed_payload"; "corrupt_payload"; "invalid_metadata"; "capacity_exhaustion";
  "eviction_reclaims_a_saturated_ladder"; "cancelled_operation"; "duplicate_operation";
  "stale_generation"; "write_contended"; "generation_conflict"; "partial_write";
  "partial_promotion"; "authority_unavailable"; "fallback_unavailable"; "recovery_failure";
  "process_restart"; "invalid_configuration"
]%string.

Definition contract_faults : list string := [
  "latency"; "timeout"; "hang"; "read_failure"; "write_failure"; "metadata_failure";
  "corruption"; "disconnect"; "capacity_exhaustion"; "failure_after_n_operations";
  "cancellation"; "partial_write"
]%string.

Definition contract_property_invariants : list string := [
  "no_silent_data_loss"; "no_cross_key_corruption"; "no_authority_inversion";
  "no_invalid_state_promotion"; "no_deadlock"; "no_lock_across_await";
  "no_capability_misreporting"; "no_false_durability"; "recovery_is_idempotent"
]%string.

(** A registry covers a list: the same names, each once. *)
Definition covers_exactly (declared : list string) (registry : list (string * string)) : Prop :=
  NoDup declared /\ NoDup (map fst registry) /\ forall n, n ∈ declared <-> n ∈ map fst registry.

Lemma checks_spec declared registry :
  unclaimed declared registry = [] /\ overclaimed declared registry = [] <->
  forall n, n ∈ declared <-> n ∈ map fst registry.
Proof.
  rewrite unclaimed_spec, overclaimed_spec. split; [intros [H1 H2] n; split; auto|].
  intros H. split; intros n Hn; by apply H.
Qed.

#[export] Instance covers_exactly_dec declared registry : Decision (covers_exactly declared registry).
Proof.
  assert (Hdec : Decision (forall n, n ∈ declared <-> n ∈ map fst registry)).
  { destruct (decide (unclaimed declared registry = [] /\ overclaimed declared registry = [])) as [H|H].
    - left. by apply checks_spec.
    - right. intros Hn. by apply H, checks_spec. }
  unfold covers_exactly. apply _.
Defined.

(** The registry checks decide what they are for, and the registries pass
    them. Nothing is unclaimed and nothing overclaimed exactly when a registry
    has the declared names; [missing_from_contract] is empty exactly for a
    subset; [diff] reports equal members exactly when they are. And the shipped
    tables agree with each other, with the contract file and with the crate:
    every negative case, fault and property invariant the contract names is
    registered and nothing else is, each fault and each property invariant is
    bound to exactly one test, the fault names are those of the crate's
    [FaultClass], in order, and no clause is bound twice. *)
Theorem registries_agree :
  (forall declared registry,
     unclaimed declared registry = [] /\ overclaimed declared registry = [] <->
     forall n, n ∈ declared <-> n ∈ map fst registry) /\
  (forall required covered, missing_from_contract required covered = [] <-> required ⊆ covered) /\
  (forall expected actual,
     diff expected actual = same_members <-> forall n, n ∈ expected <-> n ∈ actual) /\
  (forall n, n ∈ contract_negative_cases <-> n ∈ NEGATIVE_CASES) /\ NoDup NEGATIVE_CASES /\
  covers_exactly contract_faults FAULT_CASE_PROOFS /\
  covers_exactly contract_property_invariants PROPERTY_CASE_PROOFS /\
  (forall n, n ∈ contract_property_invariants <-> n ∈ PROPERTY_INVARIANTS) /\
  FAULT_CLASSES = map FaultClass_as_str FaultClass_ALL /\
  NoDup (map fst INVARIANT_PROOFS).
Proof.
  split; [exact checks_spec|]. split; [exact missing_spec|]. split; [exact diff_spec|].
  split; [apply diff_spec; vm_compute; reflexivity|].
  do 3 (split; [match goal with |- ?P => refine (@bool_decide_unpack P _ _); vm_compute; exact Logic.I end|]).
  split; [apply diff_spec; vm_compute; reflexivity|]. split; [vm_compute; reflexivity|].
  match goal with |- ?P => refine (@bool_decide_unpack P _ _); vm_compute; exact Logic.I end.
Qed.
