(* ===== verification/Citations.v ===== *)
(** * Which test proves which clause

    Models the citation check of [testkit/src/coverage.rs]: a registry row
    cites a test by file and function, and the test must declare the clause it
    is cited for. Offsets into a text count characters where the code counts
    bytes; the cuts are at the same places. The file system is an argument. *)

From Stdlib Require Import String.
From S2P Require Import Prelude Text.
Local Open Scope Z_scope.

Definition QUOTE : char := 34.
Definition CLOSE : char := 41.
Definition BACKSLASH : char := 92.

(** ** String literals *)

(** [inside]: the characters of the literal that is open, if one is. *)
Fixpoint literals_from (inside : option text) (s : text) : list text :=
  match s with
  | [] => []
  | c :: s =>
      match inside with
      | None =>
          if negb (c =? QUOTE) then (if c =? CLOSE then [] else literals_from None s)
          else literals_from (Some []) s
      | Some value =>
          if c =? QUOTE then value :: literals_from None s
          else if c =? BACKSLASH then
            match s with
            | [] => []
            | escaped :: s => literals_from (Some (value ++ [escaped])) s
            end
          else literals_from (Some (value ++ [c])) s
      end
  end.

Definition string_literals (args : text) : list text := literals_from None args.

(** ** Declarations *)

Definition opener (trimmed : text) : option text :=
  match strip_prefix (text_of "testkit::proves!(") trimmed with
  | Some rest => Some rest
  | None => strip_prefix (text_of "proves!(") trimmed
  end.

(** The loop over the lines of the span. *)
Fixpoint declares_in (collecting : bool) (clause : text) (ls : list text) : bool :=
  match ls with
  | [] => false
  | line :: ls =>
      let trimmed := trim_start line in
      if negb collecting then
        match opener trimmed with
        | Some rest =>
            if mem_text clause (string_literals rest) then true
            else declares_in (negb (has_char CLOSE rest)) clause ls
        | None => declares_in false clause ls
        end
      else if starts_with_text (text_of "//") trimmed then declares_in true clause ls
      else if mem_text clause (string_literals trimmed) then true
      else declares_in (negb (has_char CLOSE trimmed)) clause ls
  end.

Definition declares_clause (span clause : text) : bool := declares_in false clause (lines span).

(** ** The text of a function *)

Definition starts_function (trimmed : text) : bool :=
  existsb (fun p => starts_with_text (text_of p) trimmed)
    ["fn "; "async fn "; "pub fn "; "pub async fn "; "unsafe fn "; "pub(crate) fn "]%string.

(** Where the span ends; [offset] is where the lines left begin, [end_] where
    the text does end. *)
Fixpoint span_end (offset end_ : nat) (pieces : list text) : nat :=
  match pieces with
  | [] => end_
  | line :: pieces =>
      let at_line_start := (offset =? 0)%nat in
      let offset := (offset + length line)%nat in
      if at_line_start then span_end offset end_ pieces
      else if starts_function (trim_start line) then offset
      else span_end offset end_ pieces
  end.

Definition function_span (source needle : text) : text :=
  match find_text needle source with
  | None => []
  | Some rest => take (span_end 0 (length rest) (split_inclusive rest)) rest
  end.

(** ** The rows of a registry *)

Inductive citation_problem : Type :=
| MalformedLocator (name locator : text)
| NoSuchFile (name path : text)
| UnreadableFile (name path error : text)
| NamesNoFunction (name locator : text)
| Undeclared (name locator : text).

Section citations.
(** The regular files under the root, or why one cannot be read. *)
Variable file_at : text -> option (result text text).

Definition needle_of (fn_name : text) : text := text_of "fn " ++ fn_name.

Definition check_citation (name locator : text) : option citation_problem :=
  match split_once_text (text_of "::") locator with
  | None => Some (MalformedLocator name locator)
  | Some (path, fn_name) =>
      match file_at path with
      | None => Some (NoSuchFile name path)
      | Some (Err e) => Some (UnreadableFile name path e)
      | Some (Ok source) =>
          let needle := needle_of fn_name in
          if negb (existsb (fun l => starts_with_text needle (trim_start l) || contains_text needle l)
                     (lines source))
          then Some (NamesNoFunction name locator)
          else if negb (declares_clause (function_span source needle) name)
          then Some (Undeclared name locator)
          else None
      end
  end.

Definition missing_locators (registry : list (text * text)) : list citation_problem :=
  omap (fun row => check_citation row.1 row.2) registry.
End citations.

(** ** Reading a declaration back *)

(** A clause as it is written between quotes. *)
Definition quoted (clause : text) : text := QUOTE :: clause ++ [QUOTE].

(** A clause name: nothing that ends a literal, a call or a line. *)
Definition plain_clause (clause : text) : Prop :=
  QUOTE ∉ clause /\ BACKSLASH ∉ clause /\ CLOSE ∉ clause /\ NEWLINE ∉ clause.

(** The two ways a declaration is laid out: on one line, or wrapped with a
    clause on each line; every line indented. *)
Definition one_line (indent : text) (clauses : list text) : list text :=
  [indent ++ text_of "testkit::proves!(" ++ join (text_of ", ") (map quoted clauses) ++ text_of ");"].

Definition wrapped (indent : text) (clauses : list text) : list text :=
  [indent ++ text_of "testkit::proves!("]
  ++ map (fun c => indent ++ text_of "    " ++ quoted c ++ text_of ",") clauses
  ++ [indent ++ text_of ");"].

Definition blank (s : text) : Prop := Forall (fun c => is_whitespace c = true) s.

Lemma trim_start_blank indent s :
  blank indent -> trim_start (indent ++ s) = trim_start s.
Proof.
  unfold trim_start. induction 1 as [|c indent Hc _ IH]; [done|]. cbn. by rewrite Hc.
Qed.

Lemma literals_value value clause s :
  QUOTE ∉ clause -> BACKSLASH ∉ clause ->
  literals_from (Some value) (clause ++ QUOTE :: s) = (value ++ clause) :: literals_from None s.
Proof.
  revert value. induction clause as [|c clause IH]; intros value Hq Hb; cbn.
  - by rewrite app_nil_r.
  - apply not_elem_of_cons in Hq as [Hc Hq], Hb as [Hc' Hb].
    rewrite (proj2 (Z.eqb_neq c QUOTE)), (proj2 (Z.eqb_neq c BACKSLASH)) by congruence.
    rewrite IH by done. by rewrite <- app_assoc.
Qed.

Lemma literals_quoted clause s :
  plain_clause clause -> string_literals (quoted clause ++ s) = clause :: string_literals s.
Proof.
  intros (Hq & Hb & _). unfold string_literals, quoted. cbn. rewrite <- app_assoc.
  apply (literals_value []); done.
Qed.

Lemma literals_join clauses :
  Forall plain_clause clauses ->
  string_literals (join (text_of ", ") (map quoted clauses) ++ text_of ");") = clauses.
Proof.
  induction 1 as [|c clauses Hc Hcs IH]; [done|]. destruct clauses as [|c' clauses].
  - cbn [map join]. by rewrite literals_quoted.
  - cbn [map join] in *. rewrite <- !app_assoc. rewrite literals_quoted by done.
    f_equal. etransitivity; [|exact IH]. done.
Qed.

Lemma mem_text_decide a l : mem_text a l = bool_decide (a ∈ l).
Proof.
  apply eq_true_iff_eq. rewrite mem_text_spec. by rewrite bool_decide_eq_true.
Qed.

(** Lines that open no declaration declare nothing. *)
Lemma declares_skip clause ls rest :
  Forall (fun l => opener (trim_start l) = None) ls ->
  declares_in false clause (ls ++ rest) = declares_in false clause rest.
Proof. induction 1 as [|l ls Hl _ IH]; cbn; [done|]. by rewrite Hl. Qed.

Lemma declares_none clause ls :
  Forall (fun l => opener (trim_start l) = None) ls -> declares_in false clause ls = false.
Proof. intros H. rewrite <- (app_nil_r ls). by rewrite declares_skip. Qed.

Lemma opener_testkit rest :
  opener (trim_start (text_of "testkit::proves!(" ++ rest)) = Some rest.
Proof. reflexivity. Qed.

Lemma declares_one_line indent clauses clause post :
  blank indent -> Forall plain_clause clauses ->
  Forall (fun l => opener (trim_start l) = None) post ->
  declares_in false clause (one_line indent clauses ++ post) = bool_decide (clause ∈ clauses).
Proof.
  intros Hi Hcs Hpost. cbn [one_line app declares_in negb]. rewrite trim_start_blank by done.
  rewrite opener_testkit, literals_join by done. rewrite mem_text_decide.
  case_bool_decide; [done|].
  assert (Hclose : has_char CLOSE (join (text_of ", ") (map quoted clauses) ++ text_of ");") = true).
  { apply has_char_spec, elem_of_app. right. by left. }
  rewrite Hclose. by apply declares_none.
Qed.

Lemma declares_wrapped_args indent clauses clause post :
  blank indent -> Forall plain_clause clauses ->
  Forall (fun l => opener (trim_start l) = None) post ->
  declares_in true clause
    (map (fun c => indent ++ text_of "    " ++ quoted c ++ text_of ",") clauses ++
     [indent ++ text_of ");"] ++ post) = bool_decide (clause ∈ clauses).
Proof.
  intros Hi Hcs Hpost. induction Hcs as [|c clauses Hc Hcs IH]; cbn [map app declares_in negb].
  - rewrite trim_start_blank by done. change (trim_start (text_of ");")) with (text_of ");").
    cbn [starts_with_text text_of]. rewrite bool_decide_false by apply not_elem_of_nil.
    by apply declares_none.
  - rewrite trim_start_blank by done.
    change (trim_start (text_of "    " ++ quoted c ++ text_of ",")) with (quoted c ++ text_of ",").
    change (starts_with_text (text_of "//") (quoted c ++ text_of ",")) with false. cbn iota.
    rewrite literals_quoted by done. change (string_literals (text_of ",")) with (@nil text).
    assert (Hclose : has_char CLOSE (quoted c ++ text_of ",") = false).
    { apply not_true_iff_false. rewrite has_char_spec. destruct Hc as (_ & _ & Hc & _).
      unfold quoted. cbn. rewrite !elem_of_cons, !elem_of_app, !elem_of_cons.
      intros [Hx|[[Hx|[Hx|Hx%elem_of_nil]]|[Hx|Hx%elem_of_nil]]]; done. }
    rewrite Hclose, mem_text_decide. cbn [negb].
    destruct (decide (clause = c)) as [->|Hne].
    + rewrite !bool_decide_true by (by left). done.
    + rewrite bool_decide_false by (by intros ?%list_elem_of_singleton). etransitivity; [exact IH|].
      apply bool_decide_ext. rewrite elem_of_cons. naive_solver.
Qed.

(** C29. A declaration is read back exactly. Whatever surrounds it -- lines that
    themselves open no declaration, among them comments that quote one -- a
    test that declares some clauses with [testkit::proves!], on one line or
    wrapped as the formatter does, is found to declare precisely those
    clauses: not one less, and not a clause another one extends. *)
Theorem declared_clauses_are_read_back (indent : text) (before after clauses : list text)
    (clause : text) (layout : text -> list text -> list text)
    (Hlayout : layout = one_line \/ layout = wrapped)
    (Hindent : blank indent) (Hclauses : Forall plain_clause clauses)
    (Hothers : Forall (fun l => opener (trim_start l) = None) (before ++ after))
    (Hplain : Forall plain_line (before ++ layout indent clauses ++ after)) :
  declares_clause (unlines (before ++ layout indent clauses ++ after)) clause =
  bool_decide (clause ∈ clauses).
Proof.
  apply Forall_app in Hothers as [Hb Ha]. unfold declares_clause. rewrite lines_unlines by done.
  rewrite declares_skip by done. destruct Hlayout as [-> | ->]; [by apply declares_one_line|].
  unfold wrapped. rewrite <- !app_assoc. cbn [app declares_in negb]. rewrite trim_start_blank by done.
  change (opener (trim_start (text_of "testkit::proves!("))) with (Some (@nil char)). cbn.
  by apply declares_wrapped_args.
Qed.

Lemma declared_clauses_are_read_back_witness :
  let indent := text_of "    " in
  let clauses := [text_of "acid.required"; text_of "cia.required"] in
  let before := [text_of "fn a_test() {"; text_of "    // testkit::proves!(hpa.required)"] in
  let source := unlines (before ++ wrapped indent clauses ++ [text_of "}"]) in
  declares_clause source (text_of "cia.required") = true /\
  declares_clause source (text_of "cia") = false /\
  declares_clause source (text_of "hpa.required") = false.
Proof.
  assert (Hplain : forall l, bool_decide (NEWLINE ∉ l /\ last l <> Some CARRIAGE_RETURN) = true -> plain_line l)
    by (intros l H; by apply bool_decide_eq_true in H).
  assert (Hclause : forall c, bool_decide (QUOTE ∉ c /\ BACKSLASH ∉ c /\ CLOSE ∉ c /\ NEWLINE ∉ c) = true ->
    plain_clause c) by (intros c H; by apply bool_decide_eq_true in H).
  assert (H : forall clause, declares_clause (unlines ([text_of "fn a_test() {";
      text_of "    // testkit::proves!(hpa.required)"] ++ wrapped (text_of "    ")
      [text_of "acid.required"; text_of "cia.required"] ++ [text_of "}"])) clause =
    bool_decide (clause ∈ [text_of "acid.required"; text_of "cia.required"])).
  { intros clause. apply declared_clauses_are_read_back.
    - by right.
    - repeat constructor.
    - repeat (apply Forall_cons; split; [apply Hclause; vm_compute; reflexivity|]). by apply Forall_nil.
    - repeat (apply Forall_cons; split; [vm_compute; reflexivity|]). by apply Forall_nil.
    - repeat (apply Forall_cons; split; [apply Hplain; vm_compute; reflexivity|]). by apply Forall_nil. }
  cbv zeta. split; [|split]; (etransitivity; [apply H|vm_compute; reflexivity]).
Defined.

(** ** What the check accepts *)

(** A tree with one file. *)
Definition one_file (path source : text) (p : text) : option (result text text) :=
  if bool_decide (p = path) then Some (Ok source) else None.

(** Looking for [fn name] as a piece of text finds longer names and comments: a
    row may cite a function that does not exist, as long as one whose name
    extends it, or a comment that mentions it before the next function, stands
    where the clause is declared. Both trees define [recovery_is_idempotent_twice]
    only, and both pass as proofs by [recovery_is_idempotent]. *)
Theorem citation_of_a_missing_function_passes :
  let path := text_of "tests/a.rs" in
  let row := (text_of "acid.required", text_of "tests/a.rs::recovery_is_idempotent") in
  let declaration := text_of "    testkit::proves!(" ++ quoted (text_of "acid.required") ++ text_of ");" in
  let longer := unlines [text_of "async fn recovery_is_idempotent_twice() {"; declaration; text_of "}"] in
  let comment := unlines [text_of "// was: fn recovery_is_idempotent"; text_of "macro_rules! m {"; declaration;
                          text_of "}"; text_of "async fn recovery_is_idempotent_twice() {"; text_of "}"] in
  missing_locators (one_file path longer) [row] = [] /\
  missing_locators (one_file path comment) [row] = [] /\
  missing_locators (one_file path (unlines [])) [row] =
    [NamesNoFunction (text_of "acid.required") (text_of "tests/a.rs::recovery_is_idempotent")].
Proof. vm_compute. by repeat split. Qed.
